(** * whatamilisteningto-api: presence, now-playing cache and refresh paths

    A shallow embedding of the Go services and handlers
    (internal/database, internal/services, internal/handlers, pkg/spotify)
    together with the properties of the live presence / track broadcast
    pipeline.  External collaborators (the Redis server, the relational
    store, encoding/json, the provider's HTTP API) are modelled by their
    documented behaviour; every function of the repository is translated
    statement by statement, with explicit state passing. *)

From Stdlib Require Import ZArith String Ascii List Lia Bool.
From Stdlib Require Import Sorted Permutation.
From Stdlib Require Import DecimalFacts DecimalPos DecimalZ.
From stdpp Require Import gmap strings list sorting.

Local Open Scope string_scope.
Local Open Scope Z_scope.

(** ** Go preliminaries *)

(** A Go [error] value is represented by its message. *)
Definition error := string.

(** The pair [(value, err)] returned by a fallible Go function. *)
Inductive result (A : Type) : Type :=
| Ok (a : A)
| Err (e : error).
Arguments Ok {A} a.
Arguments Err {A} e.

Definition is_ok {A} (r : result A) : bool :=
  match r with Ok _ => true | Err _ => false end.

(** [fmt.Errorf("msg: %w", err)] *)
Definition wrap (msg : string) (e : error) : error := msg +:+ ": " +:+ e.

(** [time.Time] as nanoseconds since the epoch, [time.Duration] as
    nanoseconds. *)
Definition Time := Z.
Definition Duration := Z.
Definition Second : Duration := 1000000000.
Definition Minute : Duration := 60 * Second.

(** The zero [time.Time], January 1 of year 1. *)
Definition zeroTime : Time := - 62135596800 * Second.

(** [t.Add(d)] and [t.Before(u)] *)
Definition Add (t : Time) (d : Duration) : Time := t + d.
Definition Before (t u : Time) : bool := t <? u.

(** Outcome script of an external service: the head says whether the next
    request fails ([true]); an exhausted script means no further failure.
    It stands for every reason the server may reject or miss a request. *)
Definition next_fault (fs : list bool) : bool * list bool :=
  match fs with
  | [] => (false, [])
  | f :: fs' => (f, fs')
  end.

(** ** internal/database: the Redis client *)

Module database.

(** A key of the Redis keyspace holds a string or a set, with an optional
    absolute expiry. *)
Inductive rvalue :=
| RString (v : string)
| RSet (members : gset string).

Record rentry := { rval : rvalue; rexp : option Time }.

Record RedisClient := {
  rdata : gmap string rentry;          (* keyspace *)
  rpublished : list (string * string); (* PUBLISH log: channel, payload *)
  rsubs : list string;                 (* open subscriptions, by channel *)
  rfail : list bool                    (* outcome script of the server *)
}.

Definition redis_Nil : error := "redis: nil".
Definition redis_down : error := "redis: connection refused".
Definition redis_wrongtype : error :=
  "WRONGTYPE Operation against a key holding the wrong kind of value".

(** An entry whose expiry has been reached is absent. *)
Definition live (now : Time) (e : rentry) : bool :=
  match rexp e with
  | Some t => now <? t
  | None => true
  end.

Definition lookup_live (now : Time) (key : string) (rc : RedisClient)
  : option rentry :=
  match rdata rc !! key with
  | Some e => if live now e then Some e else None
  | None => None
  end.

Definition with_data (rc : RedisClient) (d : gmap string rentry) : RedisClient :=
  {| rdata := d; rpublished := rpublished rc; rsubs := rsubs rc;
     rfail := rfail rc |}.

(** Every command first reaches the server, which may fail. *)
Definition request {A} (rc : RedisClient)
    (k : RedisClient -> result A * RedisClient) : result A * RedisClient :=
  let '(f, fs) := next_fault (rfail rc) in
  let rc' := {| rdata := rdata rc; rpublished := rpublished rc;
                rsubs := rsubs rc; rfail := fs |} in
  if f then (Err redis_down, rc') else k rc'.

(** [Set]: SET key value with [expiration]; a zero expiration means no
    expiry.  SET replaces whatever the key held. *)
Definition Set_ (now : Time) (key value : string) (expiration : Duration)
    (rc : RedisClient) : result unit * RedisClient :=
  request rc (fun rc =>
    let exp := if 0 <? expiration then Some (Add now expiration) else None in
    (Ok tt, with_data rc (<[key := {| rval := RString value; rexp := exp |}]> (rdata rc)))).

(** [Get]: GET key; a missing or expired key is the error [redis.Nil]. *)
Definition Get (now : Time) (key : string) (rc : RedisClient)
  : result string * RedisClient :=
  request rc (fun rc =>
    match lookup_live now key rc with
    | Some {| rval := RString v |} => (Ok v, rc)
    | Some {| rval := RSet _ |} => (Err redis_wrongtype, rc)
    | None => (Err redis_Nil, rc)
    end).

(** [Delete]: DEL key *)
Definition Delete (now : Time) (key : string) (rc : RedisClient)
  : result unit * RedisClient :=
  request rc (fun rc => (Ok tt, with_data rc (delete key (rdata rc)))).

(** [Publish]: PUBLISH channel message *)
Definition Publish (channel message : string) (rc : RedisClient)
  : result unit * RedisClient :=
  request rc (fun rc =>
    (Ok tt, {| rdata := rdata rc;
               rpublished := rpublished rc ++ [(channel, message)];
               rsubs := rsubs rc; rfail := rfail rc |})).

(** [Subscribe]: opens a subscription on the channel and returns its
    handle (the channel name). *)
Definition Subscribe (channel : string) (rc : RedisClient)
  : string * RedisClient :=
  (channel, {| rdata := rdata rc; rpublished := rpublished rc;
               rsubs := rsubs rc ++ [channel]; rfail := rfail rc |}).

(** [AddToSet]: SADD key member; creates the set when the key is absent
    and keeps the expiry of a live set. *)
Definition AddToSet (now : Time) (key member : string) (rc : RedisClient)
  : result unit * RedisClient :=
  request rc (fun rc =>
    match lookup_live now key rc with
    | Some {| rval := RSet s; rexp := x |} =>
        (Ok tt, with_data rc (<[key := {| rval := RSet ({[member]} ∪ s); rexp := x |}]> (rdata rc)))
    | Some {| rval := RString _ |} => (Err redis_wrongtype, rc)
    | None =>
        (Ok tt, with_data rc (<[key := {| rval := RSet {[member]}; rexp := None |}]> (rdata rc)))
    end).

(** [RemoveFromSet]: SREM key member; a set that becomes empty is removed. *)
Definition RemoveFromSet (now : Time) (key member : string) (rc : RedisClient)
  : result unit * RedisClient :=
  request rc (fun rc =>
    match lookup_live now key rc with
    | Some {| rval := RSet s; rexp := x |} =>
        let s' := s ∖ {[member]} in
        if decide (s' = ∅)
        then (Ok tt, with_data rc (delete key (rdata rc)))
        else (Ok tt, with_data rc (<[key := {| rval := RSet s'; rexp := x |}]> (rdata rc)))
    | Some {| rval := RString _ |} => (Err redis_wrongtype, rc)
    | None => (Ok tt, rc)
    end).

(** [GetSetSize]: SCARD key; a missing key has cardinality 0. *)
Definition GetSetSize (now : Time) (key : string) (rc : RedisClient)
  : result Z * RedisClient :=
  request rc (fun rc =>
    match lookup_live now key rc with
    | Some {| rval := RSet s |} => (Ok (Z.of_nat (size s)), rc)
    | Some {| rval := RString _ |} => (Err redis_wrongtype, rc)
    | None => (Ok 0, rc)
    end).

End database.

(** ** internal/models *)

Module models.

Record User := {
  ID : string;
  SpotifyID : string;
  Email : string;
  DisplayName : string;
  ProfileURL : string;
  SpotifyAccessToken : string;
  SpotifyRefreshToken : string;
  TokenExpiresAt : Time;
  IsActive : bool;
  IsSharingEnabled : bool;
  CreatedAt : Time;
  UpdatedAt : Time
}.

Record Profile := {
  pID : string;
  pUserID : string;
  Theme : string;
  BackgroundColor : string;
  TextColor : string;
  CustomMessage : string;
  ShowStats : bool;
  ShowHistory : bool;
  AnimationStyle : string;
  pCreatedAt : Time;
  pUpdatedAt : Time
}.

Record Track := {
  tID : string;
  tUserID : string;
  SpotifyTrackID : string;
  Name : string;
  Artist : string;
  Album : string;
  tAlbumArtURL : string;
  tTrackURL : string;
  tDurationMs : Z;
  IsCurrentlyPlaying : bool;
  PlayedAt : Time;
  tCreatedAt : Time
}.

Record ProfileVisit := {
  vID : string;
  vUserID : string;
  VisitorIP : string;
  VisitorUserID : option string;
  UserAgent : string;
  ReferrerURL : string;
  StartedAt : Time;
  EndedAt : option Time
}.

Record SpotifyCurrentlyPlaying := {
  IsPlaying : bool;
  TrackID : string;
  TrackName : string;
  ArtistName : string;
  AlbumName : string;
  AlbumArtURL : string;
  TrackURL : string;
  DurationMs : Z;
  ProgressMs : Z
}.

Record UserPublic := {
  upID : string;
  upDisplayName : string;
  upProfileURL : string
}.

Record ProfileResponse := {
  prUser : UserPublic;
  prProfile : Profile;
  CurrentTrack : option Track;
  RecentTracks : list Track;
  ViewerCount : Z
}.

(** The zero value of the struct ([var track models.SpotifyCurrentlyPlaying]). *)
Definition zeroSpotifyCurrentlyPlaying : SpotifyCurrentlyPlaying :=
  {| IsPlaying := false; TrackID := EmptyString; TrackName := EmptyString;
     ArtistName := EmptyString; AlbumName := EmptyString;
     AlbumArtURL := EmptyString; TrackURL := EmptyString;
     DurationMs := 0; ProgressMs := 0 |}.

(** Go's [int] on the 64-bit targets the server is built for. *)
Definition int_range (z : Z) : bool := (- 2 ^ 63 <=? z) && (z <? 2 ^ 63).

End models.

(** ** unicode/utf8, as used by encoding/json *)

Module utf8.

Definition byte (a : ascii) : Z := Z.of_N (N_of_ascii a).
Definition chr (z : Z) : ascii := ascii_of_N (Z.to_N z).

Definition RuneError : Z := 0xFFFD.
Definition RuneSelf : Z := 0x80.

(** continuation byte, 10xxxxxx *)
Definition cont (b : Z) : bool := (0x80 <=? b) && (b <=? 0xBF).

(** [utf8.DecodeRuneInString]: the first rune of [s] and its width in
    bytes; an invalid or truncated encoding is [(RuneError, 1)], the empty
    string [(RuneError, 0)]. *)
Definition DecodeRuneInString (s : string) : Z * nat :=
  match s with
  | EmptyString => (RuneError, 0%nat)
  | String a0 s1 =>
    let b0 := byte a0 in
    if b0 <? RuneSelf then (b0, 1%nat)
    else if (0xC2 <=? b0) && (b0 <=? 0xDF) then
      match s1 with
      | String a1 _ =>
        if cont (byte a1)
        then ((b0 - 0xC0) * 64 + (byte a1 - 0x80), 2%nat)
        else (RuneError, 1%nat)
      | _ => (RuneError, 1%nat)
      end
    else if (0xE0 <=? b0) && (b0 <=? 0xEF) then
      match s1 with
      | String a1 (String a2 _) =>
        let lo := if b0 =? 0xE0 then 0xA0 else 0x80 in
        let hi := if b0 =? 0xED then 0x9F else 0xBF in
        if (lo <=? byte a1) && (byte a1 <=? hi) && cont (byte a2)
        then ((b0 - 0xE0) * 4096 + (byte a1 - 0x80) * 64 + (byte a2 - 0x80), 3%nat)
        else (RuneError, 1%nat)
      | _ => (RuneError, 1%nat)
      end
    else if (0xF0 <=? b0) && (b0 <=? 0xF4) then
      match s1 with
      | String a1 (String a2 (String a3 _)) =>
        let lo := if b0 =? 0xF0 then 0x90 else 0x80 in
        let hi := if b0 =? 0xF4 then 0x8F else 0xBF in
        if (lo <=? byte a1) && (byte a1 <=? hi) && cont (byte a2) && cont (byte a3)
        then ((b0 - 0xF0) * 262144 + (byte a1 - 0x80) * 4096
              + (byte a2 - 0x80) * 64 + (byte a3 - 0x80), 4%nat)
        else (RuneError, 1%nat)
      | _ => (RuneError, 1%nat)
      end
    else (RuneError, 1%nat)
  end.

Definition str1 (b0 : Z) : string := String (chr b0) EmptyString.
Definition str2 (b0 b1 : Z) : string := String (chr b0) (str1 b1).
Definition str3 (b0 b1 b2 : Z) : string := String (chr b0) (str2 b1 b2).
Definition str4 (b0 b1 b2 b3 : Z) : string := String (chr b0) (str3 b1 b2 b3).

(** [utf8.AppendRune]: the UTF-8 encoding of [r]; surrogates and values
    out of range are encoded as [RuneError]. *)
Definition EncodeRune (r : Z) : string :=
  if (0 <=? r) && (r <? 0x80) then str1 r
  else if (0x80 <=? r) && (r <? 0x800) then
    str2 (0xC0 + r / 64) (0x80 + r mod 64)
  else if (r <? 0) || (0x10FFFF <? r) || ((0xD800 <=? r) && (r <=? 0xDFFF)) then
    str3 0xEF 0xBF 0xBD
  else if r <? 0x10000 then
    str3 (0xE0 + r / 4096) (0x80 + (r / 64) mod 64) (0x80 + r mod 64)
  else
    str4 (0xF0 + r / 262144) (0x80 + (r / 4096) mod 64)
         (0x80 + (r / 64) mod 64) (0x80 + r mod 64).

(** [utf8.ValidString] *)
Fixpoint ValidString (s : string) : bool :=
  match s with
  | EmptyString => true
  | String a0 s1 =>
    if byte a0 <? RuneSelf then ValidString s1
    else
      match snd (DecodeRuneInString s), s1 with
      | 2%nat, String _ s2 => ValidString s2
      | 3%nat, String _ (String _ s3) => ValidString s3
      | 4%nat, String _ (String _ (String _ s4)) => ValidString s4
      | _, _ => false
      end
  end.

End utf8.

(** ** encoding/json, for the one struct the program marshals

    [Marshal] follows the encoder for a struct of bool, string and int
    fields with [json] tags (HTML escaping on, invalid UTF-8 coerced to
    U+FFFD).  [Unmarshal] follows the decoder on objects whose member
    values are strings, integers, booleans or null, which covers every
    text [Marshal] produces; other input is reported as an error.  Key
    matching folds ASCII case. *)

Module json.
Import models utf8.

Definition dquote : ascii := chr 0x22.
Definition bslash : ascii := chr 0x5C.
Definition dq : string := String dquote EmptyString.
Definition bs : string := String bslash EmptyString.

(** *** Encoder *)

Definition hex (n : Z) : ascii := chr (if n <? 10 then 0x30 + n else 0x57 + n).

(** [htmlSafeSet]: ASCII bytes written as they are. *)
Definition htmlSafeSet (b : Z) : bool :=
  (0x20 <=? b) && negb (b =? 0x22) && negb (b =? 0x26) && negb (b =? 0x3C)
  && negb (b =? 0x3E) && negb (b =? 0x5C).

(** Escape of an ASCII byte outside [htmlSafeSet]. *)
Definition escape (b : Z) : string :=
  if (b =? 0x5C) || (b =? 0x22) then bs +:+ str1 b
  else if b =? 0x0A then bs +:+ "n"
  else if b =? 0x0D then bs +:+ "r"
  else if b =? 0x09 then bs +:+ "t"
  else bs +:+ "u00" +:+ String (hex (b / 16)) (String (hex (b mod 16)) EmptyString).

(** Body of [encodeState.string] with [escapeHTML] set: the loop over the
    runes of [s]. *)
Fixpoint appendString (s : string) : string :=
  match s with
  | EmptyString => EmptyString
  | String a0 s1 =>
    let b := byte a0 in
    if b <? RuneSelf then
      if htmlSafeSet b then String a0 (appendString s1)
      else escape b +:+ appendString s1
    else
      let '(c, size) := DecodeRuneInString s in
      let sep := (c =? 0x2028) || (c =? 0x2029) in
      match size, s1 with
      | 2%nat, String a1 s2 => String a0 (String a1 (appendString s2))
      | 3%nat, String a1 (String a2 s3) =>
        if sep
        then bs +:+ "u202" +:+ String (hex (c mod 16)) (appendString s3)
        else String a0 (String a1 (String a2 (appendString s3)))
      | 4%nat, String a1 (String a2 (String a3 s4)) =>
        String a0 (String a1 (String a2 (String a3 (appendString s4))))
      | _, _ => bs +:+ "ufffd" +:+ appendString s1
      end
  end.

Definition quote (s : string) : string := dq +:+ appendString s +:+ dq.

Definition digit_char (n : Z) : ascii := chr (0x30 + n).

Fixpoint digits (d : Decimal.uint) : string :=
  match d with
  | Decimal.Nil => EmptyString
  | Decimal.D0 d => String (digit_char 0) (digits d)
  | Decimal.D1 d => String (digit_char 1) (digits d)
  | Decimal.D2 d => String (digit_char 2) (digits d)
  | Decimal.D3 d => String (digit_char 3) (digits d)
  | Decimal.D4 d => String (digit_char 4) (digits d)
  | Decimal.D5 d => String (digit_char 5) (digits d)
  | Decimal.D6 d => String (digit_char 6) (digits d)
  | Decimal.D7 d => String (digit_char 7) (digits d)
  | Decimal.D8 d => String (digit_char 8) (digits d)
  | Decimal.D9 d => String (digit_char 9) (digits d)
  end.

(** [strconv.AppendInt(_, n, 10)] *)
Definition itoa (z : Z) : string :=
  match Z.to_int z with
  | Decimal.Pos d => digits d
  | Decimal.Neg d => "-" +:+ digits d
  end.

Definition key (name : string) : string := dq +:+ name +:+ dq +:+ ":".

Definition encodeBool (b : bool) : string := if b then "true" else "false".

(** [json.Marshal(track)]: the fields in declaration order under their
    tags.  The encoder has no failing case for this struct. *)
Definition Marshal (t : SpotifyCurrentlyPlaying) : result string :=
  Ok ("{" +:+ key "is_playing" +:+ encodeBool (IsPlaying t)
      +:+ "," +:+ key "track_id" +:+ quote (TrackID t)
      +:+ "," +:+ key "track_name" +:+ quote (TrackName t)
      +:+ "," +:+ key "artist_name" +:+ quote (ArtistName t)
      +:+ "," +:+ key "album_name" +:+ quote (AlbumName t)
      +:+ "," +:+ key "album_art_url" +:+ quote (AlbumArtURL t)
      +:+ "," +:+ key "track_url" +:+ quote (TrackURL t)
      +:+ "," +:+ key "duration_ms" +:+ itoa (DurationMs t)
      +:+ "," +:+ key "progress_ms" +:+ itoa (ProgressMs t)
      +:+ "}").

(** *** Decoder *)

Definition is_space (b : Z) : bool :=
  (b =? 0x20) || (b =? 0x09) || (b =? 0x0D) || (b =? 0x0A).

Fixpoint skip_ws (t : string) : string :=
  match t with
  | String a t' => if is_space (byte a) then skip_ws t' else t
  | EmptyString => EmptyString
  end.

Definition hexval (a : ascii) : option Z :=
  let b := byte a in
  if (0x30 <=? b) && (b <=? 0x39) then Some (b - 0x30)
  else if (0x61 <=? b) && (b <=? 0x66) then Some (b - 0x57)
  else if (0x41 <=? b) && (b <=? 0x46) then Some (b - 0x37)
  else None.

(** [getu4] on the four digits after a backslash-u *)
Definition hex4 (h1 h2 h3 h4 : ascii) : option Z :=
  match hexval h1, hexval h2, hexval h3, hexval h4 with
  | Some x1, Some x2, Some x3, Some x4 =>
    Some (x1 * 4096 + x2 * 256 + x3 * 16 + x4)
  | _, _, _, _ => None
  end.

Definition IsSurrogate (r : Z) : bool := (0xD800 <=? r) && (r <? 0xE000).

(** [utf16.DecodeRune] *)
Definition DecodeRune16 (r1 r2 : Z) : Z :=
  if (0xD800 <=? r1) && (r1 <? 0xDC00) && (0xDC00 <=? r2) && (r2 <? 0xE000)
  then (r1 - 0xD800) * 1024 + (r2 - 0xDC00) + 0x10000
  else RuneError.

(** The one-letter escapes the scanner accepts. *)
Definition simple_escape (e : ascii) : option ascii :=
  let b := byte e in
  if (b =? 0x22) || (b =? 0x5C) || (b =? 0x2F) then Some e
  else if b =? 0x62 then Some (chr 0x08)
  else if b =? 0x66 then Some (chr 0x0C)
  else if b =? 0x6E then Some (chr 0x0A)
  else if b =? 0x72 then Some (chr 0x0D)
  else if b =? 0x74 then Some (chr 0x09)
  else None.

Definition push (p : string) (r : option (string * string))
  : option (string * string) :=
  match r with
  | Some (s, rest) => Some (p +:+ s, rest)
  | None => None
  end.

(** String literal after its opening quote: the decoded value and the
    text after the closing quote (scanner and [unquote] together). *)
Fixpoint unquote (t : string) : option (string * string) :=
  match t with
  | EmptyString => None
  | String a0 t1 =>
    let b0 := byte a0 in
    if b0 =? 0x22 then Some (EmptyString, t1)
    else if b0 =? 0x5C then
      match t1 with
      | EmptyString => None
      | String e t2 =>
        match simple_escape e with
        | Some c => push (String c EmptyString) (unquote t2)
        | None =>
          if byte e =? 0x75 then
            match t2 with
            | String h1 (String h2 (String h3 (String h4 t6))) =>
              match hex4 h1 h2 h3 h4 with
              | None => None
              | Some rr =>
                if IsSurrogate rr then
                  match t6 with
                  | String c1 (String c2 (String g1 (String g2 (String g3 (String g4 t12))))) =>
                    match (if (byte c1 =? 0x5C) && (byte c2 =? 0x75)
                           then hex4 g1 g2 g3 g4 else None) with
                    | Some rr1 =>
                      if DecodeRune16 rr rr1 =? RuneError
                      then push (EncodeRune RuneError) (unquote t6)
                      else push (EncodeRune (DecodeRune16 rr rr1)) (unquote t12)
                    | None => push (EncodeRune RuneError) (unquote t6)
                    end
                  | _ => push (EncodeRune RuneError) (unquote t6)
                  end
                else push (EncodeRune rr) (unquote t6)
              end
            | _ => None
            end
          else None
        end
      end
    else if b0 <? 0x20 then None
    else if b0 <? RuneSelf then push (String a0 EmptyString) (unquote t1)
    else
      let '(rr, size) := DecodeRuneInString t in
      match size, t1 with
      | 2%nat, String _ t2 => push (EncodeRune rr) (unquote t2)
      | 3%nat, String _ (String _ t3) => push (EncodeRune rr) (unquote t3)
      | 4%nat, String _ (String _ (String _ t4)) => push (EncodeRune rr) (unquote t4)
      | _, _ => push (EncodeRune rr) (unquote t1)
      end
  end.

Definition digit_of (a : ascii) : option (Decimal.uint -> Decimal.uint) :=
  let b := byte a in
  if b =? 0x30 then Some Decimal.D0 else if b =? 0x31 then Some Decimal.D1
  else if b =? 0x32 then Some Decimal.D2 else if b =? 0x33 then Some Decimal.D3
  else if b =? 0x34 then Some Decimal.D4 else if b =? 0x35 then Some Decimal.D5
  else if b =? 0x36 then Some Decimal.D6 else if b =? 0x37 then Some Decimal.D7
  else if b =? 0x38 then Some Decimal.D8 else if b =? 0x39 then Some Decimal.D9
  else None.

Fixpoint scan_digits (t : string) : Decimal.uint * string :=
  match t with
  | EmptyString => (Decimal.Nil, EmptyString)
  | String a t' =>
    match digit_of a with
    | Some c => let '(d, rest) := scan_digits t' in (c d, rest)
    | None => (Decimal.Nil, t)
    end
  end.

Definition starts_fraction (t : string) : bool :=
  match t with
  | String a _ => (byte a =? 0x2E) || (byte a =? 0x65) || (byte a =? 0x45)
  | EmptyString => false
  end.

(** A number literal decoded into an [int] field: JSON integer syntax,
    then [strconv.ParseInt(_, 10, 64)]. *)
Definition scan_int (t : string) : option (Z * string) :=
  let '(neg, t1) :=
    match t with
    | String a t' => if byte a =? 0x2D then (true, t') else (false, t)
    | EmptyString => (false, t)
    end in
  let '(d, rest) := scan_digits t1 in
  match d with
  | Decimal.Nil => None
  | Decimal.D0 (Decimal.D0 _ | Decimal.D1 _ | Decimal.D2 _ | Decimal.D3 _
               | Decimal.D4 _ | Decimal.D5 _ | Decimal.D6 _ | Decimal.D7 _
               | Decimal.D8 _ | Decimal.D9 _) => None
  | _ =>
    if starts_fraction rest then None
    else
      let v := Z.of_int (if neg then Decimal.Neg d else Decimal.Pos d) in
      if int_range v then Some (v, rest) else None
  end.

Fixpoint expect (lit t : string) : option string :=
  match lit, t with
  | EmptyString, _ => Some t
  | String a lit', String b t' => if Ascii.eqb a b then expect lit' t' else None
  | String _ _, EmptyString => None
  end.

Inductive jvalue :=
| JString (s : string)
| JInt (z : Z)
| JBool (b : bool)
| JNull.

Definition value (t : string) : option (jvalue * string) :=
  match t with
  | EmptyString => None
  | String a t1 =>
    let b := byte a in
    if b =? 0x22 then
      match unquote t1 with
      | Some (s, rest) => Some (JString s, rest)
      | None => None
      end
    else if b =? 0x74 then option_map (pair (JBool true)) (expect "rue" t1)
    else if b =? 0x66 then option_map (pair (JBool false)) (expect "alse" t1)
    else if b =? 0x6E then option_map (pair JNull) (expect "ull" t1)
    else
      match scan_int t with
      | Some (z, rest) => Some (JInt z, rest)
      | None => None
      end
  end.

Inductive field :=
| FIsPlaying | FTrackID | FTrackName | FArtistName | FAlbumName
| FAlbumArtURL | FTrackURL | FDurationMs | FProgressMs.

Definition tag (f : field) : string :=
  match f with
  | FIsPlaying => "is_playing" | FTrackID => "track_id"
  | FTrackName => "track_name" | FArtistName => "artist_name"
  | FAlbumName => "album_name" | FAlbumArtURL => "album_art_url"
  | FTrackURL => "track_url" | FDurationMs => "duration_ms"
  | FProgressMs => "progress_ms"
  end.

Definition fields : list field :=
  [FIsPlaying; FTrackID; FTrackName; FArtistName; FAlbumName;
   FAlbumArtURL; FTrackURL; FDurationMs; FProgressMs].

Definition lower (a : ascii) : ascii :=
  let b := byte a in
  if (0x41 <=? b) && (b <=? 0x5A) then chr (b + 0x20) else a.

Fixpoint fold_case (s : string) : string :=
  match s with
  | EmptyString => EmptyString
  | String a s' => String (lower a) (fold_case s')
  end.

(** The field a key names: an exact tag match first, else a match up to
    case. *)
Definition field_of_key (k : string) : option field :=
  match find (fun f => String.eqb (tag f) k) fields with
  | Some f => Some f
  | None => find (fun f => String.eqb (fold_case (tag f)) (fold_case k)) fields
  end.

Definition assign (f : field) (v : jvalue) (x : SpotifyCurrentlyPlaying)
  : option SpotifyCurrentlyPlaying :=
  let mk p i n ar al art u d pr :=
    {| IsPlaying := p; TrackID := i; TrackName := n; ArtistName := ar;
       AlbumName := al; AlbumArtURL := art; TrackURL := u;
       DurationMs := d; ProgressMs := pr |} in
  let '{| IsPlaying := p; TrackID := i; TrackName := n; ArtistName := ar;
          AlbumName := al; AlbumArtURL := art; TrackURL := u;
          DurationMs := d; ProgressMs := pr |} := x in
  match v, f with
  | JNull, _ => Some x
  | JBool b, FIsPlaying => Some (mk b i n ar al art u d pr)
  | JString s, FTrackID => Some (mk p s n ar al art u d pr)
  | JString s, FTrackName => Some (mk p i s ar al art u d pr)
  | JString s, FArtistName => Some (mk p i n s al art u d pr)
  | JString s, FAlbumName => Some (mk p i n ar s art u d pr)
  | JString s, FAlbumArtURL => Some (mk p i n ar al s u d pr)
  | JString s, FTrackURL => Some (mk p i n ar al art s d pr)
  | JInt z, FDurationMs => Some (mk p i n ar al art u z pr)
  | JInt z, FProgressMs => Some (mk p i n ar al art u d z)
  | _, _ => None
  end.

(** One member [key : value] from the opening quote of its key on, what
    separates it from the next, and whether the object ends. *)
Definition member (t : string) (x : SpotifyCurrentlyPlaying)
  : option (SpotifyCurrentlyPlaying * bool * string) :=
  match skip_ws t with
  | String q t1 =>
    if byte q =? 0x22 then
      match unquote t1 with
      | Some (k, t2) =>
        match skip_ws t2 with
        | String c t3 =>
          if byte c =? 0x3A then
            match value (skip_ws t3) with
            | Some (v, t4) =>
              match (match field_of_key k with
                     | Some f => assign f v x
                     | None => Some x
                     end) with
              | Some x' =>
                match skip_ws t4 with
                | String d t5 =>
                  if byte d =? 0x2C then Some (x', true, t5)
                  else if byte d =? 0x7D then Some (x', false, t5)
                  else None
                | EmptyString => None
                end
              | None => None
              end
            | None => None
            end
          else None
        | EmptyString => None
        end
      | None => None
      end
    else None
  | EmptyString => None
  end.

Fixpoint members (fuel : nat) (t : string) (x : SpotifyCurrentlyPlaying)
  : option (SpotifyCurrentlyPlaying * string) :=
  match fuel with
  | O => None
  | S fuel' =>
    match member t x with
    | Some (x', true, rest) => members fuel' rest x'
    | Some (x', false, rest) => Some (x', rest)
    | None => None
    end
  end.

Definition syntax_error : error := "json: cannot decode the cached value".

Definition finish (r : option (SpotifyCurrentlyPlaying * string))
  : result SpotifyCurrentlyPlaying :=
  match r with
  | Some (x, rest) =>
    match skip_ws rest with
    | EmptyString => Ok x
    | String _ _ => Err syntax_error
    end
  | None => Err syntax_error
  end.

(** [json.Unmarshal(data, &track)] on a zero-valued [track].  Every member
    consumes at least one byte, so the length of [data] bounds the loop. *)
Definition Unmarshal (data : string) : result SpotifyCurrentlyPlaying :=
  match skip_ws data with
  | String c t1 =>
    if byte c =? 0x7B then
      match skip_ws t1 with
      | String d t2 =>
        if byte d =? 0x7D then finish (Some (zeroSpotifyCurrentlyPlaying, t2))
        else finish (members (String.length data) t1 zeroSpotifyCurrentlyPlaying)
      | EmptyString => Err syntax_error
      end
    else if byte c =? 0x6E then
      finish (option_map (pair zeroSpotifyCurrentlyPlaying) (expect "ull" t1))
    else Err syntax_error
  | EmptyString => Err syntax_error
  end.

End json.

(** ** The relational store behind [*sqlx.DB]

    The four tables of [RunMigrations] as lists of rows, oldest first.
    Each statement is one request to the server, which the outcome script
    may fail.  The server checks what the schema declares of the columns
    the statements touch: a text parameter stored in or compared with a
    column of type UUID must read as a UUID, and the primary keys are
    enforced on insert. *)

Module sqlx.
Import models.

Record DB := {
  users : list User;
  profiles : list Profile;
  tracks : list Track;
  profile_visits : list ProfileVisit;
  dbfail : list bool
}.

Definition ErrNoRows : error := "sql: no rows in result set".
Definition ErrServer : error := "pq: the statement failed".
Definition ErrDuplicate : error :=
  "pq: duplicate key value violates unique constraint".

Definition with_tracks (db : DB) (ts : list Track) : DB :=
  {| users := users db; profiles := profiles db; tracks := ts;
     profile_visits := profile_visits db; dbfail := dbfail db |}.

Definition with_users (db : DB) (us : list User) : DB :=
  {| users := us; profiles := profiles db; tracks := tracks db;
     profile_visits := profile_visits db; dbfail := dbfail db |}.

Definition with_visits (db : DB) (vs : list ProfileVisit) : DB :=
  {| users := users db; profiles := profiles db; tracks := tracks db;
     profile_visits := vs; dbfail := dbfail db |}.

(** The text forms the server reads as a UUID: sixteen bytes of two
    hexadecimal digits each, a hyphen allowed after every second byte but
    the last, the whole optionally between braces. *)
Definition isxdigit (a : ascii) : bool :=
  let n := Z.of_nat (nat_of_ascii a) in
  ((48 <=? n) && (n <=? 57)) || ((65 <=? n) && (n <=? 70))
  || ((97 <=? n) && (n <=? 102)).

Fixpoint uuid_bytes (n i : nat) (src : string) : option string :=
  match n with
  | O => Some src
  | S n' =>
    match src with
    | String a (String b rest) =>
      if isxdigit a && isxdigit b then
        uuid_bytes n' (S i)
          match rest with
          | String "-" rest' =>
            if Nat.odd i && (i <? 15)%nat then rest' else rest
          | _ => rest
          end
      else None
    | _ => None
    end
  end.

Definition uuid_in (source : string) : bool :=
  match source with
  | String "{" src =>
    match uuid_bytes 16 0 src with
    | Some rest => String.eqb rest "}"
    | None => false
    end
  | src =>
    match uuid_bytes 16 0 src with
    | Some rest => String.eqb rest EmptyString
    | None => false
    end
  end.

Definition ErrInvalidUUID : error := "pq: invalid input syntax for type uuid".

(** One statement with its UUID-typed parameters [uuids]. *)
Definition statement {A} (uuids : list string) (db : DB)
    (k : DB -> result A * DB) : result A * DB :=
  let '(f, fs) := next_fault (dbfail db) in
  let db' := {| users := users db; profiles := profiles db;
                tracks := tracks db; profile_visits := profile_visits db;
                dbfail := fs |} in
  if f then (Err ErrServer, db')
  else if forallb uuid_in uuids then k db'
  else (Err ErrInvalidUUID, db').

(** [db.GetContext(ctx, &dest, "SELECT * FROM t WHERE p")]: the first row
    that satisfies [p], or [sql.ErrNoRows]. *)
Definition GetContext {R} (table : DB -> list R) (uuids : list string)
    (p : R -> bool) (db : DB) : result R * DB :=
  statement uuids db (fun db =>
    match find p (table db) with
    | Some r => (Ok r, db)
    | None => (Err ErrNoRows, db)
    end).

(** [UPDATE tracks SET played_at = $1 WHERE id = $2] *)
Definition set_played_at (at_ : Time) (t : Track) : Track :=
  {| tID := tID t; tUserID := tUserID t; SpotifyTrackID := SpotifyTrackID t;
     Name := Name t; Artist := Artist t; Album := Album t;
     tAlbumArtURL := tAlbumArtURL t; tTrackURL := tTrackURL t;
     tDurationMs := tDurationMs t; IsCurrentlyPlaying := IsCurrentlyPlaying t;
     PlayedAt := at_; tCreatedAt := tCreatedAt t |}.

Definition UpdatePlayedAt (at_ : Time) (id : string) (db : DB)
  : result unit * DB :=
  statement [id] db (fun db =>
    (Ok tt, with_tracks db
       (map (fun t => if String.eqb (tID t) id then set_played_at at_ t else t)
            (tracks db)))).

(** [UPDATE tracks SET is_currently_playing = false
     WHERE user_id = $1 AND is_currently_playing = true] *)
Definition set_not_playing (t : Track) : Track :=
  {| tID := tID t; tUserID := tUserID t; SpotifyTrackID := SpotifyTrackID t;
     Name := Name t; Artist := Artist t; Album := Album t;
     tAlbumArtURL := tAlbumArtURL t; tTrackURL := tTrackURL t;
     tDurationMs := tDurationMs t; IsCurrentlyPlaying := false;
     PlayedAt := PlayedAt t; tCreatedAt := tCreatedAt t |}.

Definition ClearCurrentlyPlaying (userID : string) (db : DB)
  : result unit * DB :=
  statement [userID] db (fun db =>
    (Ok tt, with_tracks db
       (map (fun t => if String.eqb (tUserID t) userID && IsCurrentlyPlaying t
                      then set_not_playing t else t)
            (tracks db)))).

(** [INSERT INTO tracks (...) VALUES (...)] *)
Definition InsertTrack (t : Track) (db : DB) : result unit * DB :=
  statement [tID t; tUserID t] db (fun db =>
    if existsb (fun r => String.eqb (tID r) (tID t)) (tracks db)
    then (Err ErrDuplicate, db)
    else (Ok tt, with_tracks db (tracks db ++ [t]))).

(** [INSERT INTO profile_visits (...) VALUES (...)] *)
Definition InsertVisit (v : ProfileVisit) (db : DB) : result unit * DB :=
  statement (vID v :: vUserID v :: option_list (VisitorUserID v)) db (fun db =>
    if existsb (fun r => String.eqb (vID r) (vID v)) (profile_visits db)
    then (Err ErrDuplicate, db)
    else (Ok tt, with_visits db (profile_visits db ++ [v]))).

(** [UPDATE profile_visits SET ended_at = $1 WHERE id = $2] *)
Definition set_ended_at (at_ : Time) (v : ProfileVisit) : ProfileVisit :=
  {| vID := vID v; vUserID := vUserID v; VisitorIP := VisitorIP v;
     VisitorUserID := VisitorUserID v; UserAgent := UserAgent v;
     ReferrerURL := ReferrerURL v; StartedAt := StartedAt v;
     EndedAt := Some at_ |}.

Definition UpdateEndedAt (at_ : Time) (id : string) (db : DB)
  : result unit * DB :=
  statement [id] db (fun db =>
    (Ok tt, with_visits db
       (map (fun v => if String.eqb (vID v) id then set_ended_at at_ v else v)
            (profile_visits db)))).

(** [UPDATE users SET spotify_access_token = $1, token_expires_at = $2,
     updated_at = $3 WHERE id = $4] *)
Definition set_token (tok : string) (exp now : Time) (u : User) : User :=
  {| ID := ID u; SpotifyID := SpotifyID u; Email := Email u;
     DisplayName := DisplayName u; ProfileURL := ProfileURL u;
     SpotifyAccessToken := tok; SpotifyRefreshToken := SpotifyRefreshToken u;
     TokenExpiresAt := exp; IsActive := IsActive u;
     IsSharingEnabled := IsSharingEnabled u; CreatedAt := CreatedAt u;
     UpdatedAt := now |}.

Definition UpdateToken (tok : string) (exp now : Time) (id : string) (db : DB)
  : result unit * DB :=
  statement [id] db (fun db =>
    (Ok tt, with_users db
       (map (fun u => if String.eqb (ID u) id then set_token tok exp now u else u)
            (users db)))).

(** [ORDER BY played_at DESC]: insertion into a list sorted from the most
    recent. *)
Fixpoint insert_by_played_at (t : Track) (l : list Track) : list Track :=
  match l with
  | [] => [t]
  | r :: l' =>
    if PlayedAt r <? PlayedAt t then t :: l
    else r :: insert_by_played_at t l'
  end.

Definition order_by_played_at_desc (l : list Track) : list Track :=
  fold_right insert_by_played_at [] l.

(** [db.SelectContext(ctx, &tracks, "SELECT * FROM tracks WHERE user_id = $1
     ORDER BY played_at DESC LIMIT $2", userID, limit)]; a negative limit
    is rejected by the server. *)
Definition SelectRecentTracks (userID : string) (limit : Z) (db : DB)
  : result (list Track) * DB :=
  statement [userID] db (fun db =>
    if limit <? 0 then (Err "pq: LIMIT must not be negative", db)
    else
      (Ok (take (Z.to_nat limit)
             (order_by_played_at_desc
                (filter (fun t => String.eqb (tUserID t) userID = true) (tracks db)))),
       db)).

(** *** Statements on the users and profiles tables

    Besides the primary keys, the unique columns of [users]
    ([spotify_id], [email], [profile_url]) and the reference of
    [profiles.user_id] to [users.id] are enforced on insert. *)

Definition ErrForeignKey : error :=
  "pq: insert or update violates foreign key constraint".

Definition with_profiles (db : DB) (ps : list Profile) : DB :=
  {| users := users db; profiles := ps; tracks := tracks db;
     profile_visits := profile_visits db; dbfail := dbfail db |}.

(** [UPDATE users SET is_sharing_enabled = $1, updated_at = $2 WHERE id = $3] *)
Definition set_sharing (enabled : bool) (now : Time) (u : User) : User :=
  {| ID := ID u; SpotifyID := SpotifyID u; Email := Email u;
     DisplayName := DisplayName u; ProfileURL := ProfileURL u;
     SpotifyAccessToken := SpotifyAccessToken u;
     SpotifyRefreshToken := SpotifyRefreshToken u;
     TokenExpiresAt := TokenExpiresAt u; IsActive := IsActive u;
     IsSharingEnabled := enabled; CreatedAt := CreatedAt u;
     UpdatedAt := now |}.

Definition UpdateSharing (enabled : bool) (now : Time) (id : string) (db : DB)
  : result unit * DB :=
  statement [id] db (fun db =>
    (Ok tt, with_users db
       (map (fun u => if String.eqb (ID u) id then set_sharing enabled now u else u)
            (users db)))).

(** [UPDATE profiles SET theme = :theme, background_color = :background_color,
     text_color = :text_color, custom_message = :custom_message,
     show_stats = :show_stats, show_history = :show_history,
     animation_style = :animation_style, updated_at = :updated_at
     WHERE id = :id], the named parameters read from [p]. *)
Definition set_display (p r : Profile) : Profile :=
  {| pID := pID r; pUserID := pUserID r; Theme := Theme p;
     BackgroundColor := BackgroundColor p; TextColor := TextColor p;
     CustomMessage := CustomMessage p; ShowStats := ShowStats p;
     ShowHistory := ShowHistory p; AnimationStyle := AnimationStyle p;
     pCreatedAt := pCreatedAt r; pUpdatedAt := pUpdatedAt p |}.

Definition UpdateProfile (p : Profile) (db : DB) : result unit * DB :=
  statement [pID p] db (fun db =>
    (Ok tt, with_profiles db
       (map (fun r => if String.eqb (pID r) (pID p) then set_display p r else r)
            (profiles db)))).

(** [db.Get(&count, "SELECT COUNT( * ) FROM users WHERE profile_url = $1", url)] *)
Definition CountProfileURL (url : string) (db : DB) : result Z * DB :=
  statement [] db (fun db =>
    (Ok (Z.of_nat
           (length (filter (fun u => String.eqb (ProfileURL u) url = true)
                      (users db)))), db)).

(** [INSERT INTO users (...) VALUES (...)] *)
Definition InsertUser (u : User) (db : DB) : result unit * DB :=
  statement [ID u] db (fun db =>
    if existsb (fun r => String.eqb (ID r) (ID u)
                         || String.eqb (SpotifyID r) (SpotifyID u)
                         || String.eqb (Email r) (Email u)
                         || String.eqb (ProfileURL r) (ProfileURL u)) (users db)
    then (Err ErrDuplicate, db)
    else (Ok tt, with_users db (users db ++ [u]))).

(** [INSERT INTO profiles (...) VALUES (...)] *)
Definition InsertProfile (p : Profile) (db : DB) : result unit * DB :=
  statement [pID p; pUserID p] db (fun db =>
    if existsb (fun r => String.eqb (pID r) (pID p)) (profiles db)
    then (Err ErrDuplicate, db)
    else if existsb (fun u => String.eqb (ID u) (pUserID p)) (users db)
    then (Ok tt, with_profiles db (profiles db ++ [p]))
    else (Err ErrForeignKey, db)).

(** [UPDATE users SET spotify_access_token = :spotify_access_token,
     spotify_refresh_token = :spotify_refresh_token,
     token_expires_at = :token_expires_at, updated_at = :updated_at
     WHERE id = :id], the named parameters read from [u]. *)
Definition set_tokens (u r : User) : User :=
  {| ID := ID r; SpotifyID := SpotifyID r; Email := Email r;
     DisplayName := DisplayName r; ProfileURL := ProfileURL r;
     SpotifyAccessToken := SpotifyAccessToken u;
     SpotifyRefreshToken := SpotifyRefreshToken u;
     TokenExpiresAt := TokenExpiresAt u; IsActive := IsActive r;
     IsSharingEnabled := IsSharingEnabled r; CreatedAt := CreatedAt r;
     UpdatedAt := UpdatedAt u |}.

Definition UpdateTokens (u : User) (db : DB) : result unit * DB :=
  statement [ID u] db (fun db =>
    (Ok tt, with_users db
       (map (fun r => if String.eqb (ID r) (ID u) then set_tokens u r else r)
            (users db)))).

End sqlx.

(** ** context.Context values *)

Module context.

(** Keys are compared with their dynamic type: a [string] key never equals
    one of the unexported keys net/http stores. *)
Inductive key :=
| StringKey (s : string)
| HttpKey (name : string).

Inductive value :=
| SqlxDB        (* a [*sqlx.DB] *)
| Opaque.       (* any other value *)

Definition key_eqb (k1 k2 : key) : bool :=
  match k1, k2 with
  | StringKey a, StringKey b => String.eqb a b
  | HttpKey a, HttpKey b => String.eqb a b
  | _, _ => false
  end.

(** The chain of [WithValue] frames, innermost first. *)
Definition Context := list (key * value).

Definition Value (ctx : Context) (k : key) : option value :=
  match find (fun kv => key_eqb (fst kv) k) ctx with
  | Some kv => Some (snd kv)
  | None => None
  end.

(** The context net/http attaches to an incoming request. *)
Definition server_request_context : Context :=
  [(HttpKey "local-addr", Opaque); (HttpKey "http-server", Opaque)].

End context.

(** ** pkg/spotify: the provider, as seen through the client *)

Module spotify.
Import models.

Record TokenResponse := {
  AccessToken : string;
  TokenType : string;
  Scope : string;
  ExpiresIn : Z;
  RefreshToken : string
}.

(** A request the client sends to the provider. *)
Inductive request :=
| TokenRequest (refreshToken : string)   (* POST /api/token, grant_type=refresh_token *)
| PlayerRequest (accessToken : string).  (* GET /v1/me/player/currently-playing *)

(** The client with the provider behind it: what the provider answers to
    a token request carrying a refresh token and to a currently-playing
    poll carrying an access token (the latter as the service decodes it),
    and the requests sent so far. *)
Record Client := {
  token_endpoint : string -> result TokenResponse;
  player_endpoint : string -> result SpotifyCurrentlyPlaying;
  requests : list request
}.

Definition send (r : request) (c : Client) : Client :=
  {| token_endpoint := token_endpoint c; player_endpoint := player_endpoint c;
     requests := requests c ++ [r] |}.

Definition RefreshAccessToken (refreshToken : string) (c : Client)
  : result TokenResponse * Client :=
  (token_endpoint c refreshToken, send (TokenRequest refreshToken) c).

Definition GetCurrentlyPlaying (accessToken : string) (c : Client)
  : result SpotifyCurrentlyPlaying * Client :=
  (player_endpoint c accessToken, send (PlayerRequest accessToken) c).

End spotify.

(** ** strconv *)

Module strconv.
Import models utf8 json.

Definition all_digits (s : string) : option Decimal.uint :=
  match scan_digits s with
  | (Decimal.Nil, _) => None
  | (d, EmptyString) => Some d
  | (_, String _ _) => None
  end.

(** [strconv.Atoi] *)
Definition Atoi (s : string) : result Z :=
  let '(neg, digits) :=
    match s with
    | String a s' =>
      if byte a =? 0x2D then (true, s')
      else if byte a =? 0x2B then (false, s')
      else (false, s)
    | EmptyString => (false, s)
    end in
  match all_digits digits with
  | Some d =>
    let v := Z.of_int (if neg then Decimal.Neg d else Decimal.Pos d) in
    if int_range v then Ok v else Err "strconv.Atoi: value out of range"
  | None => Err "strconv.Atoi: invalid syntax"
  end.

End strconv.

(** ** unicode and strings, as [generateProfileURL] and the configuration use them *)

Module strings.
Import utf8.

Section CaseMapping.

(** [unicode.ToLower] above ASCII is a table of the Unicode standard; the
    functions below take it as [lower_table]. *)
Variable lower_table : Z -> Z.

(** [unicode.ToLower] *)
Definition unicode_ToLower (r : Z) : Z :=
  if r <=? 0x7F then
    if (0x41 <=? r) && (r <=? 0x5A) then r + (0x61 - 0x41) else r
  else lower_table r.

(** [strings.Map]: the runes of [s] (an invalid byte reads as
    [RuneError]) mapped one by one; a negative result drops the rune.
    [skip] counts the bytes of the current rune still to pass. *)
Fixpoint Map_from (mapping : Z -> Z) (skip : nat) (s : string) : string :=
  match s with
  | EmptyString => EmptyString
  | String _ s' =>
    match skip with
    | S k => Map_from mapping k s'
    | O =>
      let '(c, width) := DecodeRuneInString s in
      let r := mapping c in
      (if 0 <=? r then EncodeRune r else EmptyString)
      +:+ Map_from mapping (width - 1) s'
    end
  end.

Definition Map (mapping : Z -> Z) (s : string) : string := Map_from mapping 0 s.

Fixpoint isASCII (s : string) : bool :=
  match s with
  | EmptyString => true
  | String a s' => (byte a <? RuneSelf) && isASCII s'
  end.

Fixpoint lower_bytes (s : string) : string :=
  match s with
  | EmptyString => EmptyString
  | String a s' =>
    String (if (0x41 <=? byte a) && (byte a <=? 0x5A)
            then chr (byte a + (0x61 - 0x41)) else a) (lower_bytes s')
  end.

(** [strings.ToLower]: bytewise on an ASCII string, else the runes mapped
    by [unicode.ToLower]. *)
Definition ToLower (s : string) : string :=
  if isASCII s then lower_bytes s else Map unicode_ToLower s.

End CaseMapping.

(** [strings.ReplaceAll(s, old, new)] for a non-empty [old]: the
    non-overlapping occurrences of [old], from the left. *)
Fixpoint ReplaceAll_from (skip : nat) (s old new : string) : string :=
  match s with
  | EmptyString => EmptyString
  | String a s' =>
    match skip with
    | S k => ReplaceAll_from k s' old new
    | O =>
      if String.prefix old s
      then new +:+ ReplaceAll_from (String.length old - 1) s' old new
      else String a (ReplaceAll_from 0 s' old new)
    end
  end.

Definition ReplaceAll (s old new : string) : string := ReplaceAll_from 0 s old new.

(** [strings.Split(s, sep)] for a non-empty [sep]; [piece] is the part
    read since the last separator. *)
Fixpoint Split_from (skip : nat) (piece s sep : string) : list string :=
  match s with
  | EmptyString => [piece]
  | String a s' =>
    match skip with
    | S k => Split_from k piece s' sep
    | O =>
      if String.prefix sep s
      then piece :: Split_from (String.length sep - 1) EmptyString s' sep
      else Split_from 0 (piece +:+ String a EmptyString) s' sep
    end
  end.

Definition Split (s sep : string) : list string := Split_from 0 EmptyString s sep.

End strings.

(** ** internal/config *)

Module config.

(** The environment of the process, as [os.LookupEnv] reads it. *)
Definition Environ := gmap string string.

Record ServerConfig := {
  Port : Z;
  ReadTimeoutSeconds : Z;
  WriteTimeoutSeconds : Z;
  IdleTimeoutSeconds : Z;
  GracefulShutdownSeconds : Z
}.

Record DatabaseConfig := {
  dbHost : string;
  dbPort : Z;
  dbUser : string;
  dbPassword : string;
  DBName : string;
  SSLMode : string
}.

Record RedisConfig := {
  redisHost : string;
  redisPort : Z;
  redisPassword : string;
  redisDB : Z
}.

Record SpotifyConfig := {
  ClientID : string;
  ClientSecret : string;
  RedirectURI : string;
  Scopes : list string
}.

Record Config := {
  Environment : string;
  Server : ServerConfig;
  Database : DatabaseConfig;
  Redis : RedisConfig;
  Spotify : SpotifyConfig
}.

Definition getEnv (env : Environ) (key defaultValue : string) : string :=
  match env !! key with
  | Some value => value
  | None => defaultValue
  end.

Definition getEnvAsInt (env : Environ) (key : string) (defaultValue : Z) : Z :=
  let valueStr := getEnv env key EmptyString in
  match strconv.Atoi valueStr with
  | Ok value => value
  | Err _ => defaultValue
  end.

Definition Load (env : Environ) : result Config :=
  Ok {| Environment := getEnv env "APP_ENV" "development";
        Server :=
          {| Port := getEnvAsInt env "SERVER_PORT" 8080;
             ReadTimeoutSeconds := getEnvAsInt env "SERVER_READ_TIMEOUT" 10;
             WriteTimeoutSeconds := getEnvAsInt env "SERVER_WRITE_TIMEOUT" 10;
             IdleTimeoutSeconds := getEnvAsInt env "SERVER_IDLE_TIMEOUT" 60;
             GracefulShutdownSeconds := getEnvAsInt env "SERVER_SHUTDOWN_TIMEOUT" 30 |};
        Database :=
          {| dbHost := getEnv env "DB_HOST" "localhost";
             dbPort := getEnvAsInt env "DB_PORT" 5432;
             dbUser := getEnv env "DB_USER" "postgres";
             dbPassword := getEnv env "DB_PASSWORD" "postgres";
             DBName := getEnv env "DB_NAME" "music_sharing";
             SSLMode := getEnv env "DB_SSLMODE" "disable" |};
        Redis :=
          {| redisHost := getEnv env "REDIS_HOST" "localhost";
             redisPort := getEnvAsInt env "REDIS_PORT" 6379;
             redisPassword := getEnv env "REDIS_PASSWORD" EmptyString;
             redisDB := getEnvAsInt env "REDIS_DB" 0 |};
        Spotify :=
          {| ClientID := getEnv env "SPOTIFY_CLIENT_ID" EmptyString;
             ClientSecret := getEnv env "SPOTIFY_CLIENT_SECRET" EmptyString;
             RedirectURI :=
               getEnv env "SPOTIFY_REDIRECT_URI"
                 "http://localhost:8080/auth/spotify/callback";
             Scopes :=
               strings.Split
                 (getEnv env "SPOTIFY_SCOPES"
                    "user-read-private user-read-email user-read-currently-playing")
                 " " |} |}.

End config.

(** ** internal/services *)

Module services.
Import models database.

(** The services share one database handle, one Redis client, one
    provider client and the logger. *)
Record World := {
  db : sqlx.DB;
  redis : RedisClient;
  spotifyClient : spotify.Client;
  logger : list string
}.

Definition on_db {A} (f : sqlx.DB -> A * sqlx.DB) (w : World) : A * World :=
  let '(a, d) := f (db w) in
  (a, {| db := d; redis := redis w; spotifyClient := spotifyClient w;
         logger := logger w |}).

Definition on_redis {A} (f : RedisClient -> A * RedisClient) (w : World)
  : A * World :=
  let '(a, r) := f (redis w) in
  (a, {| db := db w; redis := r; spotifyClient := spotifyClient w;
         logger := logger w |}).

(** [logger.Error().Err(err).Msg(msg)] and the like *)
Definition log (msg : string) (w : World) : World :=
  {| db := db w; redis := redis w; spotifyClient := spotifyClient w;
     logger := logger w ++ [msg] |}.

Definition log_err (msg : string) (e : error) (w : World) : World :=
  log (wrap msg e) w.

(** [if err != nil { logger.Warn().Err(err).Msg(msg) }] *)
Definition log_if_err {A} (msg : string) (r : result A) (w : World) : World :=
  match r with
  | Err e => log_err msg e w
  | Ok _ => w
  end.

(** 64-bit wrap-around of [time.Duration] arithmetic *)
Definition int64 (z : Z) : Z := (z + 2 ^ 63) mod 2 ^ 64 - 2 ^ 63.

(** *** UserService *)

Definition GetUserByID (id : string) (w : World) : result User * World :=
  let '(r, w) := on_db (sqlx.GetContext sqlx.users [id] (fun u => String.eqb (ID u) id)) w in
  match r with
  | Err e => (Err (wrap "failed to get user" e), w)
  | Ok user => (Ok user, w)
  end.

Definition GetUserByProfileURL (profileURL : string) (w : World)
  : result User * World :=
  let '(r, w) :=
    on_db (sqlx.GetContext sqlx.users []
             (fun u => String.eqb (ProfileURL u) profileURL)) w in
  match r with
  | Err e => (Err (wrap "failed to get user by profile URL" e), w)
  | Ok user => (Ok user, w)
  end.

(** Consider token expired if it expires in less than 5 minutes *)
Definition IsTokenExpired (now : Time) (user : User) : bool :=
  Before (TokenExpiresAt user) (Add now (5 * Minute)).

Definition UpdateUserToken (now : Time) (userID accessToken : string)
    (expiresIn : Z) (w : World) : result unit * World :=
  let expiresAt := Add now (int64 (expiresIn * Second)) in
  let '(r, w) := on_db (sqlx.UpdateToken accessToken expiresAt now userID) w in
  match r with
  | Err e => (Err (wrap "failed to update user token" e), w)
  | Ok _ => (Ok tt, w)
  end.

Definition GetActiveUserCount (now : Time) (userID : string) (w : World)
  : result Z * World :=
  let key := "visitors:" +:+ userID in
  let '(r, w) := on_redis (GetSetSize now key) w in
  match r with
  | Err e => (Err (wrap "failed to get active viewer count" e), w)
  | Ok count => (Ok count, w)
  end.

(** [uuid] is the value [uuid.New().String()] returns in this call. *)
Definition RecordProfileVisit (now : Time) (uuid : string)
    (userID visitorIP userAgent referrerURL : string)
    (visitorUserID : option string) (w : World) : result string * World :=
  let visitID := uuid in
  let visit := {| vID := visitID; vUserID := userID; VisitorIP := visitorIP;
                  VisitorUserID := visitorUserID; UserAgent := userAgent;
                  ReferrerURL := referrerURL; StartedAt := now;
                  EndedAt := None |} in
  let '(r, w) := on_db (sqlx.InsertVisit visit) w in
  match r with
  | Err e => (Err (wrap "failed to record profile visit" e), w)
  | Ok _ =>
    (* Add to active visitors set with 5-minute expiration *)
    let visitorKey := "visitor:" +:+ visitID in
    let '(r, w) := on_redis (Set_ now visitorKey "1" (5 * Minute)) w in
    let w := log_if_err "Failed to set visitor key in Redis" r w in
    (* Add to active visitors set for this profile *)
    let activeVisitorsKey := "visitors:" +:+ userID in
    let '(r, w) := on_redis (AddToSet now activeVisitorsKey visitID) w in
    let w := log_if_err "Failed to add to active visitors set" r w in
    (Ok visitID, w)
  end.

Definition EndProfileVisit (now : Time) (visitID : string) (w : World)
  : result unit * World :=
  let '(r, w) :=
    on_db (sqlx.GetContext sqlx.profile_visits [visitID]
             (fun v => String.eqb (vID v) visitID)) w in
  match r with
  | Err e => (Err (wrap "failed to get profile visit" e), w)
  | Ok visit =>
    let '(r, w) := on_db (sqlx.UpdateEndedAt now visitID) w in
    match r with
    | Err e => (Err (wrap "failed to update profile visit" e), w)
    | Ok _ =>
      let activeVisitorsKey := "visitors:" +:+ vUserID visit in
      let '(r, w) := on_redis (RemoveFromSet now activeVisitorsKey visitID) w in
      let w := log_if_err "Failed to remove from active visitors set" r w in
      let visitorKey := "visitor:" +:+ visitID in
      let '(r, w) := on_redis (Delete now visitorKey) w in
      let w := log_if_err "Failed to delete visitor key" r w in
      (Ok tt, w)
    end
  end.

(** Set visitor key with new 5-minute expiration *)
Definition RenewVisitorActivity (now : Time) (visitID : string) (w : World)
  : result unit * World :=
  let visitorKey := "visitor:" +:+ visitID in
  on_redis (Set_ now visitorKey "1" (5 * Minute)) w.

(** *** SpotifyService *)

Definition on_spotify {A} (f : spotify.Client -> A * spotify.Client) (w : World)
  : A * World :=
  let '(a, c) := f (spotifyClient w) in
  (a, {| db := db w; redis := redis w; spotifyClient := c;
         logger := logger w |}).

Definition RefreshAccessToken (refreshToken : string) (w : World)
  : result spotify.TokenResponse * World :=
  on_spotify (spotify.RefreshAccessToken refreshToken) w.

Definition GetCurrentlyPlayingTrack (accessToken : string) (w : World)
  : result SpotifyCurrentlyPlaying * World :=
  on_spotify (spotify.GetCurrentlyPlaying accessToken) w.

Definition CacheCurrentlyPlaying (now : Time) (userID : string)
    (track : SpotifyCurrentlyPlaying) (w : World) : result unit * World :=
  match json.Marshal track with
  | Err e => (Err e, w)
  | Ok trackJSON =>
    (* Store in Redis with 2-minute expiration *)
    let key := "track:current:" +:+ userID in
    on_redis (Set_ now key trackJSON (2 * Minute)) w
  end.

Definition GetCachedCurrentlyPlaying (now : Time) (userID : string) (w : World)
  : result SpotifyCurrentlyPlaying * World :=
  let key := "track:current:" +:+ userID in
  let '(r, w) := on_redis (Get now key) w in
  match r with
  | Err e => (Err e, w)
  | Ok trackJSON =>
    match json.Unmarshal trackJSON with
    | Err e => (Err e, w)
    | Ok track => (Ok track, w)
    end
  end.

Definition NotifyTrackChange (userID : string)
    (track : SpotifyCurrentlyPlaying) (w : World) : result unit * World :=
  match json.Marshal track with
  | Err e => (Err e, w)
  | Ok trackJSON =>
    let channel := "track:updates:" +:+ userID in
    on_redis (Publish channel trackJSON) w
  end.

Definition SubscribeToTrackUpdates (userID : string) (w : World)
  : string * World :=
  let channel := "track:updates:" +:+ userID in
  on_redis (Subscribe channel) w.

Definition GetTrackHistory (ctx : context.Context) (userID : string)
    (limit : Z) (w : World) : result (list Track) * World :=
  match context.Value ctx (context.StringKey "db") with
  | Some context.SqlxDB =>
    let '(r, w) := on_db (sqlx.SelectRecentTracks userID limit) w in
    match r with
    | Err e => (Err (wrap "failed to get track history" e), w)
    | Ok tracks => (Ok tracks, w)
    end
  | _ => (Err "database connection not found in context", w)
  end.

(** *** ProfileService *)

Definition GetProfile (userID : string) (w : World) : result Profile * World :=
  let '(r, w) :=
    on_db (sqlx.GetContext sqlx.profiles [userID]
             (fun p => String.eqb (pUserID p) userID)) w in
  match r with
  | Err e => (Err (wrap "failed to get profile" e), w)
  | Ok profile => (Ok profile, w)
  end.

Definition SaveTrackToHistory (now : Time) (track : Track) (w : World)
  : result unit * World :=
  (* Check if this track is already in history and currently playing *)
  let '(r, w) :=
    on_db (sqlx.GetContext sqlx.tracks [tUserID track]
             (fun t => String.eqb (tUserID t) (tUserID track)
                       && String.eqb (SpotifyTrackID t) (SpotifyTrackID track)
                       && IsCurrentlyPlaying t)) w in
  match r with
  | Ok existingTrack =>
    (* Track exists and is currently playing, just update the played_at time *)
    let '(r, w) := on_db (sqlx.UpdatePlayedAt now (tID existingTrack)) w in
    match r with
    | Err e => (Err (wrap "failed to update track" e), w)
    | Ok _ => (Ok tt, w)
    end
  | Err _ =>
    (* Set any currently playing tracks to not currently playing *)
    let '(r, w) := on_db (sqlx.ClearCurrentlyPlaying (tUserID track)) w in
    match r with
    | Err e => (Err (wrap "failed to update currently playing tracks" e), w)
    | Ok _ =>
      (* Insert the new track *)
      let '(r, w) := on_db (sqlx.InsertTrack track) w in
      match r with
      | Err e => (Err (wrap "failed to insert track" e), w)
      | Ok _ => (Ok tt, w)
      end
    end
  end.

Definition GetRecentTracks (userID : string) (limit : Z) (w : World)
  : result (list Track) * World :=
  let '(r, w) := on_db (sqlx.SelectRecentTracks userID limit) w in
  match r with
  | Err e => (Err (wrap "failed to get recent tracks" e), w)
  | Ok tracks => (Ok tracks, w)
  end.

(** [user.SpotifyAccessToken = tok; user.TokenExpiresAt = exp] on the
    in-memory user *)
Definition with_token (user : User) (tok : string) (exp : Time) : User :=
  sqlx.set_token tok exp (UpdatedAt user) user.

Definition track_of (userID : string) (now : Time)
    (s : SpotifyCurrentlyPlaying) : Track :=
  {| tID := EmptyString; tUserID := userID; SpotifyTrackID := TrackID s;
     Name := TrackName s; Artist := ArtistName s; Album := AlbumName s;
     tAlbumArtURL := AlbumArtURL s; tTrackURL := TrackURL s;
     tDurationMs := DurationMs s; IsCurrentlyPlaying := true;
     PlayedAt := now; tCreatedAt := zeroTime |}.

(** The first block of [GetProfileResponse], which decides
    [currentTrack]: cache first, then the provider. *)
Definition currentTrackOf (now : Time) (user : User) (w : World)
  : option Track * World :=
  let '(cached, w) := GetCachedCurrentlyPlaying now (ID user) w in
  match cached with
  | Err _ =>
    (* If not in cache or cache error, try Spotify API if sharing is enabled *)
    if IsSharingEnabled user then
      (* Check if token is expired and refresh if needed *)
      let '(user, w) :=
        if IsTokenExpired now user then
          let w := log "Refreshing expired Spotify token" w in
          let '(r, w) := RefreshAccessToken (SpotifyRefreshToken user) w in
          match r with
          | Err e => (user, log_err "Failed to refresh access token" e w)
          | Ok tokenResp =>
            let '(r, w) :=
              UpdateUserToken now (ID user) (spotify.AccessToken tokenResp)
                (spotify.ExpiresIn tokenResp) w in
            let w := log_if_err "Failed to update user token" r w in
            (with_token user (spotify.AccessToken tokenResp)
               (Add now (int64 (spotify.ExpiresIn tokenResp * Second))), w)
          end
        else (user, w) in
      (* Get currently playing from Spotify API *)
      let '(r, w) := GetCurrentlyPlayingTrack (SpotifyAccessToken user) w in
      match r with
      | Err e => (None, log_err "Failed to get currently playing track" e w)
      | Ok spotifyTrack =>
        if IsPlaying spotifyTrack then
          let '(r, w) := CacheCurrentlyPlaying now (ID user) spotifyTrack w in
          let w := log_if_err "Failed to cache currently playing track" r w in
          let currentTrack := track_of (ID user) now spotifyTrack in
          (* Save to track history *)
          let '(_, w) := SaveTrackToHistory now currentTrack w in
          (* Notify listeners of track change *)
          let '(_, w) := NotifyTrackChange (ID user) spotifyTrack w in
          (Some currentTrack, w)
        else (None, w)
      end
    else (None, w)
  | Ok cachedTrack =>
    if IsPlaying cachedTrack
    then (Some (track_of (ID user) now cachedTrack), w)
    else (None, w)
  end.

Definition GetProfileResponse (now : Time) (user : User) (w : World)
  : result ProfileResponse * World :=
  let '(r, w) := GetProfile (ID user) w in
  match r with
  | Err e => (Err e, w)
  | Ok profile =>
    let '(currentTrack, w) := currentTrackOf now user w in
    (* Get recent tracks if history should be shown *)
    let '(recentTracks, w) :=
      if ShowHistory profile then
        let '(r, w) := GetRecentTracks (ID user) 10 w in
        match r with
        | Err e => ([], log_err "Failed to get recent tracks" e w)
        | Ok ts => (ts, w)
        end
      else ([], w) in
    (* Get active viewer count if stats should be shown *)
    let '(viewerCount, w) :=
      if ShowStats profile then
        let '(r, w) := GetActiveUserCount now (ID user) w in
        match r with
        | Err e => (0, log_err "Failed to get active viewer count" e w)
        | Ok count => (count, w)
        end
      else (0, w) in
    let publicUser := {| upID := ID user; upDisplayName := DisplayName user;
                         upProfileURL := ProfileURL user |} in
    (Ok {| prUser := publicUser; prProfile := profile;
           CurrentTrack := currentTrack; RecentTracks := recentTracks;
           ViewerCount := viewerCount |}, w)
  end.

(** *** UserService and ProfileService: settings and profile updates *)

Definition UpdateUserSettings (now : Time) (userID : string)
    (isSharingEnabled : bool) (w : World) : result unit * World :=
  let '(r, w) := on_db (sqlx.UpdateSharing isSharingEnabled now userID) w in
  match r with
  | Err e => (Err (wrap "failed to update user settings" e), w)
  | Ok _ => (Ok tt, w)
  end.

Definition UpdateProfile (now : Time) (userID : string) (updates : Profile)
    (w : World) : result unit * World :=
  (* Get the current profile *)
  let '(r, w) := GetProfile userID w in
  match r with
  | Err e => (Err e, w)
  | Ok currentProfile =>
    (* Update only the fields that can be changed *)
    let currentProfile :=
      {| pID := pID currentProfile; pUserID := pUserID currentProfile;
         Theme := Theme updates; BackgroundColor := BackgroundColor updates;
         TextColor := TextColor updates; CustomMessage := CustomMessage updates;
         ShowStats := ShowStats updates; ShowHistory := ShowHistory updates;
         AnimationStyle := AnimationStyle updates;
         pCreatedAt := pCreatedAt currentProfile; pUpdatedAt := now |} in
    (* Save the updated profile *)
    let '(r, w) := on_db (sqlx.UpdateProfile currentProfile) w in
    match r with
    | Err e => (Err (wrap "failed to update profile" e), w)
    | Ok _ => (Ok tt, w)
    end
  end.

(** *** UserService: accounts *)

Section Accounts.

(** [unicode.ToLower] above ASCII, see [strings]. *)
Variable lower_table : Z -> Z.

(** The characters a profile URL keeps. *)
Definition url_rune (r : Z) : Z :=
  if ((0x61 <=? r) && (r <=? 0x7A)) || ((0x30 <=? r) && (r <=? 0x39)) || (r =? 0x2D)
  then r else -1.

(** [generateProfileURL]; [uuid] is the value [uuid.New().String()]
    returns if the call asks for one (a string of 36 characters). *)
Definition generateProfileURL (uuid : string) (displayName : string) (w : World)
  : string * World :=
  (* Convert to lowercase *)
  let urlBase := strings.ToLower lower_table displayName in
  (* Replace spaces with hyphens and remove special characters *)
  let urlBase := strings.ReplaceAll urlBase " " "-" in
  let urlBase := strings.Map url_rune urlBase in
  (* Check if URL already exists, if so, add a random suffix *)
  let '(r, w) := on_db (sqlx.CountProfileURL urlBase) w in
  let taken := match r with Err _ => true | Ok count => 0 <? count end in
  if taken then
    let suffix := uuid in
    let suffix := substring (String.length suffix - 6) 6 suffix in
    (urlBase +:+ "-" +:+ suffix, w)
  else (urlBase, w).

(** [CreateOrUpdateUser]; [userUUID], [suffixUUID] and [profileUUID] are
    the values of the calls of [uuid.New().String()], and the clock
    reads [now] throughout the call. *)
Definition CreateOrUpdateUser (now : Time) (userUUID suffixUUID profileUUID : string)
    (spotifyID email displayName accessToken refreshToken : string)
    (expiresIn : Z) (w : World) : result User * World :=
  (* Check if user exists *)
  let '(r, w) :=
    on_db (sqlx.GetContext sqlx.users []
             (fun u => String.eqb (SpotifyID u) spotifyID)) w in
  match r with
  | Err _ =>
    (* User doesn't exist, create new user *)
    let '(profileURL, w) := generateProfileURL suffixUUID displayName w in
    let newUser :=
      {| ID := userUUID; SpotifyID := spotifyID; Email := email;
         DisplayName := displayName; ProfileURL := profileURL;
         SpotifyAccessToken := accessToken; SpotifyRefreshToken := refreshToken;
         TokenExpiresAt := Add now (int64 (expiresIn * Second));
         IsActive := true; IsSharingEnabled := true;
         CreatedAt := now; UpdatedAt := now |} in
    let '(r, w) := on_db (sqlx.InsertUser newUser) w in
    match r with
    | Err e => (Err (wrap "failed to create user" e), w)
    | Ok _ =>
      (* Create default profile for the new user *)
      let profile :=
        {| pID := profileUUID; pUserID := ID newUser; Theme := "default";
           BackgroundColor := "#121212"; TextColor := "#FFFFFF";
           CustomMessage := EmptyString; ShowStats := true; ShowHistory := true;
           AnimationStyle := "fade"; pCreatedAt := now; pUpdatedAt := now |} in
      let '(r, w) := on_db (sqlx.InsertProfile profile) w in
      match r with
      | Err e => (Err (wrap "failed to create profile" e), w)
      | Ok _ => (Ok newUser, w)
      end
    end
  | Ok user =>
    (* User exists, update tokens *)
    let user :=
      {| ID := ID user; SpotifyID := SpotifyID user; Email := Email user;
         DisplayName := DisplayName user; ProfileURL := ProfileURL user;
         SpotifyAccessToken := accessToken; SpotifyRefreshToken := refreshToken;
         TokenExpiresAt := Add now (int64 (expiresIn * Second));
         IsActive := IsActive user; IsSharingEnabled := IsSharingEnabled user;
         CreatedAt := CreatedAt user; UpdatedAt := now |} in
    let '(r, w) := on_db (sqlx.UpdateTokens user) w in
    match r with
    | Err e => (Err (wrap "failed to update user" e), w)
    | Ok _ => (Ok user, w)
    end
  end.

End Accounts.

(** *** SpotifyService: reading the provider's answer

    [GetCurrentlyPlayingTrack] walks the value the client decoded from
    the body of the answer.  The conversion of a [float64] to [int] is
    left open: [float64] is any type, [int_of_float64] any function. *)

Section Decoding.

Variable float64 : Type.
Variable int_of_float64 : float64 -> Z.

(** The values encoding/json stores in an [interface{}]. *)
#[warnings="-register-all"] Inductive any :=
| AnyNil
| AnyBool (b : bool)
| AnyFloat64 (f : float64)
| AnyString (s : string)
| AnySlice (l : list any)
| AnyMap (m : gmap string any).

(** A call returns, or panics. *)
Inductive call (A : Type) :=
| Returns (r : result A)
| Panics (reason : string).

(** [v.(map[string]interface{})] and [v.([]interface{})], with [ok] *)
Definition to_map (v : option any) : option (gmap string any) :=
  match v with Some (AnyMap m) => Some m | _ => None end.

Definition to_slice (v : option any) : option (list any) :=
  match v with Some (AnySlice l) => Some l | _ => None end.

(** [x, _ := v.(string)] and [x, _ := v.(bool)] *)
Definition to_string (v : option any) : string :=
  match v with Some (AnyString s) => s | _ => EmptyString end.

Definition to_bool (v : option any) : bool :=
  match v with Some (AnyBool b) => b | _ => false end.

(** [int(x)] for [x, _ := v.(float64)] *)
Definition to_int (v : option any) : Z :=
  match v with Some (AnyFloat64 f) => int_of_float64 f | _ => 0 end.

(** [GetCurrentlyPlayingTrack], from the answer of the client on. *)
Definition GetCurrentlyPlayingTrack_of (answer : result (option (gmap string any)))
  : call SpotifyCurrentlyPlaying :=
  match answer with
  | Err err => Returns _ (Err err)
  | Ok None =>
    (* If nothing is playing *)
    Returns _ (Ok {| IsPlaying := false; TrackID := EmptyString;
                     TrackName := EmptyString; ArtistName := EmptyString;
                     AlbumName := EmptyString; AlbumArtURL := EmptyString;
                     TrackURL := EmptyString; DurationMs := 0; ProgressMs := 0 |})
  | Ok (Some result) =>
    (* Extract track information *)
    let isPlaying := to_bool (result !! "is_playing") in
    match to_map (result !! "item") with
    | None => Returns _ (Err "invalid response format")
    | Some item =>
      let trackID := to_string (item !! "id") in
      let trackName := to_string (item !! "name") in
      match to_map (item !! "external_urls") with
      | None =>
        Panics _ "interface conversion: interface {} is not map[string]interface {}"
      | Some external_urls =>
        let trackURL := to_string (external_urls !! "spotify") in
        let durationMs := to_int (item !! "duration_ms") in
        let progressMs := to_int (result !! "progress_ms") in
        (* Extract album information *)
        match to_map (item !! "album") with
        | None => Returns _ (Err "invalid album format")
        | Some album =>
          let albumName := to_string (album !! "name") in
          (* Get album art (use the second-to-last image for medium size) *)
          let albumArtURL :=
            match to_slice (album !! "images") with
            | Some images =>
              if (0 <? length images)%nat then
                let imageIdx := if (length images =? 1)%nat then 0%nat else 1%nat in
                match to_map (nth_error images imageIdx) with
                | Some image => to_string (image !! "url")
                | None => EmptyString
                end
              else EmptyString
            | None => EmptyString
            end in
          (* Extract artist information *)
          let artistName :=
            match to_slice (item !! "artists") with
            | Some artists =>
              if (0 <? length artists)%nat then
                match to_map (nth_error artists 0) with
                | Some artist => to_string (artist !! "name")
                | None => EmptyString
                end
              else EmptyString
            | None => EmptyString
            end in
          Returns _ (Ok {| IsPlaying := isPlaying; TrackID := trackID;
                           TrackName := trackName; ArtistName := artistName;
                           AlbumName := albumName; AlbumArtURL := albumArtURL;
                           TrackURL := trackURL; DurationMs := durationMs;
                           ProgressMs := progressMs |})
        end
      end
    end
  end.

End Decoding.

Arguments AnyNil {float64}.
Arguments AnyBool {float64} b.
Arguments AnyFloat64 {float64} f.
Arguments AnyString {float64} s.
Arguments AnySlice {float64} l.
Arguments AnyMap {float64} m.
Arguments Returns {A} r.
Arguments Panics {A} reason.
Arguments to_map {float64} v.
Arguments to_slice {float64} v.
Arguments to_string {float64} v.
Arguments to_bool {float64} v.
Arguments GetCurrentlyPlayingTrack_of {float64} int_of_float64 answer.

End services.

(** ** gin, gorilla/websocket and go-redis pub/sub, as the handlers use them *)

Module http.

(** An incoming request.  [Ctx] is [r.Context()]; [Handshake] tells
    whether the request is a well-formed WebSocket handshake;
    [WriteFaults] scripts the failures of later writes to the peer. *)
Record Request := {
  Params : gmap string string;
  Cookies : gmap string string;
  Query : gmap string string;
  Header : gmap string string;
  ClientIP : string;
  Ctx : context.Context;
  Handshake : bool;
  WriteFaults : list bool
}.

Definition StatusOK : Z := 200.
Definition StatusUnauthorized : Z := 401.
Definition StatusForbidden : Z := 403.
Definition StatusNotFound : Z := 404.
Definition StatusInternalServerError : Z := 500.

Definition ErrNoCookie : error := "http: named cookie not present".

End http.

Module gin.
Import models.

Record Context := {
  Request : http.Request;
  Keys : gmap string string
}.

Definition Param (c : Context) (name : string) : string :=
  default EmptyString (http.Params (Request c) !! name).

Definition Cookie (c : Context) (name : string) : result string :=
  match http.Cookies (Request c) !! name with
  | Some v => Ok v
  | None => Err http.ErrNoCookie
  end.

Definition Query (c : Context) (name : string) : string :=
  default EmptyString (http.Query (Request c) !! name).

Definition GetHeader (c : Context) (name : string) : string :=
  default EmptyString (http.Header (Request c) !! name).

Definition GetString (c : Context) (name : string) : string :=
  default EmptyString (Keys c !! name).

Definition Set_ (c : Context) (name value : string) : Context :=
  {| Request := Request c; Keys := <[name := value]> (Keys c) |}.

(** What a handler sends back. *)
Inductive body :=
| H_error (msg : string)                       (* gin.H{"error": msg} *)
| H_tracks (tracks : list Track)               (* gin.H{"tracks": tracks} *)
| JSON_track (t : SpotifyCurrentlyPlaying)     (* c.JSON(_, track) *)
| HTML (template : string) (profile : option ProfileResponse).

Record Response := {
  Status : Z;
  Body : body;
  SetCookie : list (string * string)
}.

Definition JSON (code : Z) (b : body) : Response :=
  {| Status := code; Body := b; SetCookie := [] |}.

End gin.

Module websocket.

Record Conn := {
  open : bool;
  written : list string;   (* messages sent to the peer, oldest first *)
  wfail : list bool
}.

Definition ErrWrite : error := "websocket: write failed".

Definition WriteMessage (data : string) (c : Conn) : result unit * Conn :=
  let '(f, fs) := next_fault (wfail c) in
  if f || negb (open c)
  then (Err ErrWrite, {| open := open c; written := written c; wfail := fs |})
  else (Ok tt, {| open := open c; written := written c ++ [data]; wfail := fs |}).

Definition Close (c : Conn) : Conn :=
  {| open := false; written := written c; wfail := wfail c |}.

End websocket.

Module redis.
Import database.

(** [pubsub.Close()]: the subscription opened on [channel] ends. *)
Fixpoint remove_first (channel : string) (l : list string) : list string :=
  match l with
  | [] => []
  | c :: l' => if String.eqb c channel then l' else c :: remove_first channel l'
  end.

Definition PubSub_Close (channel : string) (rc : RedisClient) : RedisClient :=
  {| rdata := rdata rc; rpublished := rpublished rc;
     rsubs := remove_first channel (rsubs rc); rfail := rfail rc |}.

End redis.

(** ** internal/handlers *)

Module handlers.
Import models database services.

Definition error_reply (code : Z) (msg : string) : gin.Response :=
  gin.JSON code (gin.H_error msg).

(** *** authMiddleware: on success the handler runs with [user_id] set *)
Definition authMiddleware (c : gin.Context) (w : World)
  : (gin.Response + gin.Context) * World :=
  match gin.Cookie c "user_id" with
  | Err _ => (inl (error_reply http.StatusUnauthorized "Authentication required"), w)
  | Ok userID =>
    let '(r, w) := GetUserByID userID w in
    match r with
    | Err _ =>
      (inl {| gin.Status := http.StatusUnauthorized;
              gin.Body := gin.H_error "Invalid authentication";
              gin.SetCookie := [("user_id", EmptyString)] |}, w)
    | Ok user => (inr (gin.Set_ c "user_id" (ID user)), w)
    end
  end.

(** *** getCurrentTrack *)
Definition getCurrentTrack (now : Time) (c : gin.Context) (w : World)
  : gin.Response * World :=
  let userID := gin.GetString c "user_id" in
  (* Get user to check if sharing is enabled *)
  let '(r, w) := GetUserByID userID w in
  match r with
  | Err e =>
    (error_reply http.StatusInternalServerError "Failed to get user",
     log_err "Failed to get user" e w)
  | Ok user =>
    if negb (IsSharingEnabled user)
    then (error_reply http.StatusForbidden "Music sharing is disabled", w)
    else
      (* Check if token is expired and refresh if needed *)
      let refreshed : result User * World :=
        if IsTokenExpired now user then
          let '(r, w) := RefreshAccessToken (SpotifyRefreshToken user) w in
          match r with
          | Err e => (Err e, log_err "Failed to refresh access token" e w)
          | Ok tokenResp =>
            let '(r, w) :=
              UpdateUserToken now (ID user) (spotify.AccessToken tokenResp)
                (spotify.ExpiresIn tokenResp) w in
            let w := log_if_err "Failed to update user token" r w in
            (* Update in-memory token for immediate use *)
            (Ok (with_token user (spotify.AccessToken tokenResp)
                   (TokenExpiresAt user)), w)
          end
        else (Ok user, w) in
      let '(r, w) := refreshed in
      match r with
      | Err _ =>
        (error_reply http.StatusInternalServerError
           "Failed to refresh Spotify access", w)
      | Ok user =>
        (* Try to get from cache first *)
        let '(cached, w) := GetCachedCurrentlyPlaying now (ID user) w in
        match (match cached with
               | Ok cachedTrack =>
                 if IsPlaying cachedTrack then Some cachedTrack else None
               | Err _ => None
               end) with
        | Some cachedTrack =>
          (gin.JSON http.StatusOK (gin.JSON_track cachedTrack), w)
        | None =>
          (* Get from Spotify API *)
          let '(r, w) := GetCurrentlyPlayingTrack (SpotifyAccessToken user) w in
          match r with
          | Err e =>
            (error_reply http.StatusInternalServerError
               "Failed to get track from Spotify",
             log_err "Failed to get currently playing track" e w)
          | Ok track =>
            (* Cache the result *)
            let w :=
              if IsPlaying track then
                let '(r, w) := CacheCurrentlyPlaying now (ID user) track w in
                log_if_err "Failed to cache currently playing track" r w
              else w in
            (gin.JSON http.StatusOK (gin.JSON_track track), w)
          end
        end
      end
  end.

(** *** getTrackHistory *)
Definition getTrackHistory (c : gin.Context) (w : World)
  : gin.Response * World :=
  let userID := gin.GetString c "user_id" in
  (* Get limit from query parameters, default to 10 *)
  let limit :=
    let limitParam := gin.Query c "limit" in
    if negb (String.eqb limitParam EmptyString) then
      match strconv.Atoi limitParam with
      | Ok parsedLimit => parsedLimit
      | Err _ => 10
      end
    else 10 in
  (* Get tracks from database *)
  let '(r, w) := GetTrackHistory (http.Ctx (gin.Request c)) userID limit w in
  match r with
  | Err e =>
    (error_reply http.StatusInternalServerError "Failed to get track history",
     log_err "Failed to get track history" e w)
  | Ok tracks => (gin.JSON http.StatusOK (gin.H_tracks tracks), w)
  end.

(** *** refreshCurrentTrack *)
Definition refreshCurrentTrack (now : Time) (c : gin.Context) (w : World)
  : gin.Response * World :=
  let userID := gin.GetString c "user_id" in
  let '(r, w) := GetUserByID userID w in
  match r with
  | Err e =>
    (error_reply http.StatusInternalServerError "Failed to get user",
     log_err "Failed to get user" e w)
  | Ok user =>
    if negb (IsSharingEnabled user)
    then (error_reply http.StatusForbidden "Music sharing is disabled", w)
    else
      (* Check if token is expired and refresh if needed *)
      let refreshed : result User * World :=
        if IsTokenExpired now user then
          let '(r, w) := RefreshAccessToken (SpotifyRefreshToken user) w in
          match r with
          | Err e => (Err e, log_err "Failed to refresh access token" e w)
          | Ok tokenResp =>
            let '(r, w) :=
              UpdateUserToken now (ID user) (spotify.AccessToken tokenResp)
                (spotify.ExpiresIn tokenResp) w in
            let w := log_if_err "Failed to update user token" r w in
            (Ok (with_token user (spotify.AccessToken tokenResp)
                   (TokenExpiresAt user)), w)
          end
        else (Ok user, w) in
      let '(r, w) := refreshed in
      match r with
      | Err _ =>
        (error_reply http.StatusInternalServerError
           "Failed to refresh Spotify access", w)
      | Ok user =>
        (* Get from Spotify API *)
        let '(r, w) := GetCurrentlyPlayingTrack (SpotifyAccessToken user) w in
        match r with
        | Err e =>
          (error_reply http.StatusInternalServerError
             "Failed to get track from Spotify",
           log_err "Failed to get currently playing track" e w)
        | Ok track =>
          (* Cache the result and notify subscribers *)
          let w :=
            if IsPlaying track then
              let '(r, w) := CacheCurrentlyPlaying now (ID user) track w in
              let w := log_if_err "Failed to cache currently playing track" r w in
              let '(r, w) := NotifyTrackChange (ID user) track w in
              log_if_err "Failed to notify track change" r w
            else w in
          (gin.JSON http.StatusOK (gin.JSON_track track), w)
        end
      end
  end.

(** *** getPublicProfile: the page load that starts a visit *)
Definition getPublicProfile (now : Time) (uuid : string) (c : gin.Context)
    (w : World) : gin.Response * World :=
  let profileURL := gin.Param c "profileURL" in
  let '(r, w) := GetUserByProfileURL profileURL w in
  match r with
  | Err e =>
    ({| gin.Status := http.StatusNotFound; gin.Body := gin.HTML "404.html" None;
        gin.SetCookie := [] |},
     log_err "Profile not found" e w)
  | Ok user =>
    if negb (IsActive user) || negb (IsSharingEnabled user) then
      ({| gin.Status := http.StatusNotFound;
          gin.Body := gin.HTML "profile_unavailable.html" None;
          gin.SetCookie := [] |}, w)
    else
      (* Record the visit *)
      let visitorIP := http.ClientIP (gin.Request c) in
      let userAgent := gin.GetHeader c "User-Agent" in
      let referrer := gin.GetHeader c "Referer" in
      let loggedInUserID :=
        match gin.Cookie c "user_id" with Ok v => v | Err _ => EmptyString end in
      let visitorUserID :=
        if negb (String.eqb loggedInUserID EmptyString)
           && negb (String.eqb loggedInUserID (ID user))
        then Some loggedInUserID else None in
      let '(r, w) :=
        RecordProfileVisit now uuid (ID user) visitorIP userAgent referrer
          visitorUserID w in
      let '(cookies, w) :=
        match r with
        | Err e => ([], log_err "Failed to record profile visit" e w)
        | Ok visitID => ([("visit_id", visitID)], w)
        end in
      (* Get profile data *)
      let '(r, w) := GetProfileResponse now user w in
      match r with
      | Err e =>
        ({| gin.Status := http.StatusInternalServerError;
            gin.Body := gin.HTML "error.html" None;
            gin.SetCookie := cookies |},
         log_err "Failed to get profile data" e w)
      | Ok profileResponse =>
        ({| gin.Status := http.StatusOK;
            gin.Body := gin.HTML "profile.html" (Some profileResponse);
            gin.SetCookie := cookies |}, w)
      end
  end.

(** *** trackUpdatesWebSocket

    The handler up to the point where its two loops run, then the loops
    as a transition function on what they wait for. *)

Record Session := {
  conn : websocket.Conn;
  pubsub : string;        (* channel of the subscription *)
  pubsub_open : bool;
  visitID : string;
  heartbeat : bool;       (* the renewal goroutine has not returned *)
  relay : bool            (* the handler's loop has not returned *)
}.

Inductive outcome :=
| Replied (r : gin.Response)    (* rejected before the upgrade *)
| NotUpgraded                   (* upgrader.Upgrade failed *)
| Upgraded (s : Session).

(** The deferred [pubsub.Close()] and [conn.Close()] when the handler
    returns.  The server cancels the request context when the handler
    returns, which ends the renewal routine: no renewal reaches Redis
    afterwards. *)
Definition handler_returns (s : Session) (w : World) : Session * World :=
  ({| conn := websocket.Close (conn s); pubsub := pubsub s;
      pubsub_open := false; visitID := visitID s;
      heartbeat := false; relay := false |},
   snd (on_redis (fun rc => (tt, redis.PubSub_Close (pubsub s) rc)) w)).

Definition trackUpdatesWebSocket (now : Time) (c : gin.Context) (w : World)
  : outcome * World :=
  let profileURL := gin.Param c "profileURL" in
  (* Get user by profile URL *)
  let '(r, w) := GetUserByProfileURL profileURL w in
  match r with
  | Err e =>
    (Replied (error_reply http.StatusNotFound "Profile not found"),
     log_err "Profile not found" e w)
  | Ok user =>
    (* Verify that the user is active and sharing *)
    if negb (IsActive user) || negb (IsSharingEnabled user)
    then (Replied (error_reply http.StatusForbidden "Profile not available"), w)
    else
      (* Validate the visitor *)
      match gin.Cookie c "visit_id" with
      | Err e =>
        (Replied (error_reply http.StatusUnauthorized "Unauthorized"),
         log_err "Missing visit_id cookie" e w)
      | Ok visitID =>
        (* Upgrade to WebSocket connection *)
        if negb (http.Handshake (gin.Request c))
        then (NotUpgraded, log "Failed to upgrade to WebSocket connection" w)
        else
          let conn := {| websocket.open := true; websocket.written := [];
                         websocket.wfail := http.WriteFaults (gin.Request c) |} in
          (* Subscribe to Redis channel for track updates *)
          let '(pubsub, w) := SubscribeToTrackUpdates (ID user) w in
          (* Send initial track data *)
          let '(cached, w) := GetCachedCurrentlyPlaying now (ID user) w in
          let initial : result unit * websocket.Conn :=
            match cached with
            | Ok cachedTrack =>
              if IsPlaying cachedTrack then
                match json.Marshal cachedTrack with
                | Ok text => websocket.WriteMessage (text +:+ utf8.str1 0x0A) conn
                | Err e => (Err e, conn)
                end
              else (Ok tt, conn)
            | Err _ => (Ok tt, conn)
            end in
          match initial with
          | (Err e, conn) =>
            let '(s, w) :=
              handler_returns
                {| conn := conn; pubsub := pubsub; pubsub_open := true;
                   visitID := visitID; heartbeat := false; relay := true |}
                (log_err "Failed to send initial track data" e w) in
            (Upgraded s, w)
          | (Ok _, conn) =>
            (* Renewal routine for visitor activity starts; the handler
               listens for messages from the Redis channel *)
            (Upgraded {| conn := conn; pubsub := pubsub; pubsub_open := true;
                         visitID := visitID; heartbeat := true; relay := true |},
             w)
          end
      end
  end.

(** What the two loops of a running session wait for. *)
Inductive event :=
| Tick (now : Time)           (* <-ticker.C, every 60 seconds *)
| Message (payload : string)  (* msg := <-ch *)
| Done.                       (* <-ctx.Done() *)

(** The ticker period of the renewal routine. *)
Definition renewal_period : Duration := 60 * Second.

Definition stop_heartbeat (s : Session) : Session :=
  {| conn := conn s; pubsub := pubsub s; pubsub_open := pubsub_open s;
     visitID := visitID s; heartbeat := false; relay := relay s |}.

Definition step (ev : event) (s : Session) (w : World) : Session * World :=
  match ev with
  | Tick now =>
    if heartbeat s then
      (* Renew visitor activity *)
      let '(r, w) := RenewVisitorActivity now (visitID s) w in
      match r with
      | Err e =>
        (stop_heartbeat s, log_err "Failed to renew visitor activity" e w)
      | Ok _ => (s, w)
      end
    else (s, w)
  | Message payload =>
    if relay s then
      (* Forward track update to the WebSocket client *)
      let '(r, conn') := websocket.WriteMessage payload (conn s) in
      let s' := {| conn := conn'; pubsub := pubsub s;
                   pubsub_open := pubsub_open s; visitID := visitID s;
                   heartbeat := heartbeat s; relay := relay s |} in
      match r with
      | Err e => handler_returns s' (log_err "Failed to write to WebSocket" e w)
      | Ok _ => (s', w)
      end
    else (s, w)
  | Done =>
    let s := stop_heartbeat s in
    if relay s then handler_returns s w else (s, w)
  end.

Fixpoint run (evs : list event) (s : Session) (w : World) : Session * World :=
  match evs with
  | [] => (s, w)
  | ev :: evs' => let '(s', w') := step ev s w in run evs' s' w'
  end.

(** *** The routes of RegisterTrackHandlers behind authMiddleware *)

(** The gin context of an incoming request: no key set, and the request
    context is the one the server attached. *)
Definition incoming (params cookies query header : gmap string string)
    (ip : string) (handshake : bool) (faults : list bool) : gin.Context :=
  {| gin.Request :=
       {| http.Params := params; http.Cookies := cookies;
          http.Query := query; http.Header := header; http.ClientIP := ip;
          http.Ctx := context.server_request_context;
          http.Handshake := handshake; http.WriteFaults := faults |};
     gin.Keys := ∅ |}.

Definition protected (h : gin.Context -> World -> gin.Response * World)
    (c : gin.Context) (w : World) : gin.Response * World :=
  let '(r, w) := authMiddleware c w in
  match r with
  | inl resp => (resp, w)
  | inr c' => h c' w
  end.

(** [tracks.GET("/history", handler.getTrackHistory)] *)
Definition GET_api_tracks_history : gin.Context -> World -> gin.Response * World :=
  protected getTrackHistory.

(** [tracks.GET("/current", handler.getCurrentTrack)] *)
Definition GET_api_tracks_current (now : Time)
  : gin.Context -> World -> gin.Response * World :=
  protected (getCurrentTrack now).

(** [tracks.POST("/refresh", handler.refreshCurrentTrack)] *)
Definition POST_api_tracks_refresh (now : Time)
  : gin.Context -> World -> gin.Response * World :=
  protected (refreshCurrentTrack now).

End handlers.

(** * Vocabulary of the properties *)

Import models database services handlers utf8 json.

(** ** Sample identifiers

    An owner, the owner's profile, a visit and three history rows, named
    by UUIDs as [uuid.New().String()] prints them. *)

Definition id_U : string := "6f1c2a9e-0d3b-4c5a-8e7f-1a2b3c4d5e6f".
Definition id_P : string := "a3e1b0c4-5d2f-4a6b-9c8d-7e6f5a4b3c2d".
Definition id_V1 : string := "0b9d8c7e-6f5a-4b3c-9d2e-1f0a9b8c7d6e".
Definition id_r1 : string := "11111111-2222-4333-8444-555555555501".
Definition id_r2 : string := "11111111-2222-4333-8444-555555555502".
Definition id_r3 : string := "11111111-2222-4333-8444-555555555503".

(** ** Track history *)

Definition playing (owner : string) (t : Track) : bool :=
  String.eqb (tUserID t) owner && IsCurrentlyPlaying t.

(** Number of the owner's history records with [is_currently_playing]. *)
Definition playing_count (owner : string) (ts : list Track) : nat :=
  length (List.filter (playing owner) ts).

Definition history (w : World) : list Track := sqlx.tracks (db w).

(** A sequence of [SaveTrackToHistory] calls, one after the other. *)
Fixpoint save_all (calls : list (Time * Track)) (w : World) : World :=
  match calls with
  | [] => w
  | (now, track) :: calls' => save_all calls' (snd (SaveTrackToHistory now track w))
  end.

(** ** JSON texts *)

Section JSONVocabulary.

(** What a valid multi-byte head looks like. *)
Inductive head_shape (a0 : ascii) (s1 : string) : Prop :=
| shape2 a1 s2 :
    s1 = String a1 s2 -> 0xC2 <= byte a0 <= 0xDF -> cont (byte a1) = true ->
    ValidString s2 = true -> head_shape a0 s1
| shape3 a1 a2 s3 :
    s1 = String a1 (String a2 s3) -> 0xE0 <= byte a0 <= 0xEF ->
    (if byte a0 =? 0xE0 then 0xA0 else 0x80) <= byte a1 ->
    byte a1 <= (if byte a0 =? 0xED then 0x9F else 0xBF) ->
    cont (byte a2) = true -> ValidString s3 = true -> head_shape a0 s1
| shape4 a1 a2 a3 s4 :
    s1 = String a1 (String a2 (String a3 s4)) -> 0xF0 <= byte a0 <= 0xF4 ->
    (if byte a0 =? 0xF0 then 0x90 else 0x80) <= byte a1 ->
    byte a1 <= (if byte a0 =? 0xF4 then 0x8F else 0xBF) ->
    cont (byte a2) = true -> cont (byte a3) = true ->
    ValidString s4 = true -> head_shape a0 s1.

Definition no_digit_head (rest : string) : Prop :=
  match rest with
  | String a _ => digit_of a = None
  | EmptyString => True
  end.

(** Decimal numerals without a leading zero, zero itself apart. *)
Definition canonical (d : Decimal.uint) : Prop :=
  d <> Decimal.Nil /\ forall d', d = Decimal.D0 d' -> d' = Decimal.Nil.

Definition is_sep (c : ascii) : Prop := byte c = 0x2C \/ byte c = 0x7D.

(** A value as the encoder writes it: the text and what it decodes to. *)
Inductive encodes : string -> jvalue -> Prop :=
| enc_bool b : encodes (encodeBool b) (JBool b)
| enc_string s : ValidString s = true -> encodes (quote s) (JString s)
| enc_int z : int_range z = true -> encodes (itoa z) (JInt z).

Definition well_formed (t : SpotifyCurrentlyPlaying) : bool :=
  ValidString (TrackID t) && ValidString (TrackName t)
  && ValidString (ArtistName t) && ValidString (AlbumName t)
  && ValidString (AlbumArtURL t) && ValidString (TrackURL t)
  && int_range (DurationMs t) && int_range (ProgressMs t).

End JSONVocabulary.

(** ** Now-playing cache *)

Definition cache_key (owner : string) : string := "track:current:" +:+ owner.

(** The Redis server answers the next request. *)
Definition redis_answers (w : World) : Prop :=
  fst (next_fault (rfail (redis w))) = false.

Definition no_provider : spotify.Client :=
  {| spotify.token_endpoint := fun _ => Err "provider unreachable";
     spotify.player_endpoint := fun _ => Err "provider unreachable";
     spotify.requests := [] |}.

(** A world with empty tables, an empty keyspace and servers that answer. *)
Definition empty_world : World :=
  {| db := {| sqlx.users := []; sqlx.profiles := []; sqlx.tracks := [];
              sqlx.profile_visits := []; sqlx.dbfail := [] |};
     redis := {| rdata := ∅; rpublished := []; rsubs := []; rfail := [] |};
     spotifyClient := no_provider; logger := [] |}.

(** The cache round trip as the specification words it: for every
    snapshot (its integers being Go [int]s), a get within two minutes of
    the put returns the snapshot written. *)
Definition cache_round_trip_for_every_snapshot : Prop :=
  forall (owner : string) (track : SpotifyCurrentlyPlaying) (t0 t : Time)
         (w w1 : World),
    int_range (DurationMs track) = true ->
    int_range (ProgressMs track) = true ->
    CacheCurrentlyPlaying t0 owner track w = (Ok tt, w1) ->
    redis_answers w1 ->
    t0 <= t < Add t0 (2 * Minute) ->
    fst (GetCachedCurrentlyPlaying t owner w1) = Ok track.

(** A snapshot whose track id is the single byte 0xFF, not valid UTF-8. *)
Definition snapshot_invalid_utf8 : SpotifyCurrentlyPlaying :=
  {| IsPlaying := true; TrackID := str1 0xFF; TrackName := "name";
     ArtistName := "artist"; AlbumName := "album"; AlbumArtURL := "art";
     TrackURL := "url"; DurationMs := 200000; ProgressMs := 10000 |}.

Definition snapshot_T1 : SpotifyCurrentlyPlaying :=
  {| IsPlaying := true; TrackID := "T1"; TrackName := "Song <1> & more";
     ArtistName := "Artist"; AlbumName := "Album"; AlbumArtURL := "https://i/1";
     TrackURL := "https://t/1"; DurationMs := 200000; ProgressMs := 10000 |}.

(** ** Presence *)

Definition visitor_key (visitID : string) : string := "visitor:" +:+ visitID.
Definition visitors_key (userID : string) : string := "visitors:" +:+ userID.

(** The presence entry of a visit, as [RecordProfileVisit] and
    [RenewVisitorActivity] write it at [now]. *)
Definition presence_entry (now : Time) : rentry :=
  {| rval := RString "1"; rexp := Some (Add now (5 * Minute)) |}.

(** Renewal as the specification words it for an entry that has already
    expired: a success that does not bring the entry back. *)
Definition renew_leaves_expired_entry_absent : Prop :=
  forall (now : Time) (visitID : string) (w : World),
    redis_answers w ->
    lookup_live now (visitor_key visitID) (redis w) = None ->
    fst (RenewVisitorActivity now visitID w) = Ok tt
    /\ lookup_live now (visitor_key visitID)
         (redis (snd (RenewVisitorActivity now visitID w))) = None.

(** A keyspace where the entry of visit V1, written at time 0, is still
    stored. *)
Definition world_with_visit_V1 : World :=
  {| db := db empty_world;
     redis := {| rdata := {[ visitor_key id_V1 := presence_entry 0 ]};
                 rpublished := []; rsubs := []; rfail := [] |};
     spotifyClient := no_provider; logger := [] |}.

(** ** Refresh paths *)

(** What a refresh may touch and what it may send: the keyspace (with the
    now-playing cache), the publish log, the track history, the requests
    sent to the provider; and the provider itself. *)
Definition keyspace (w : World) : gmap string rentry := rdata (redis w).
Definition published (w : World) : list (string * string) := rpublished (redis w).
Definition sent (w : World) : list spotify.request := spotify.requests (spotifyClient w).
Definition provider (w : World)
  : (string -> result spotify.TokenResponse)
    * (string -> result SpotifyCurrentlyPlaying) :=
  (spotify.token_endpoint (spotifyClient w), spotify.player_endpoint (spotifyClient w)).

Definition shared_state (w : World)
  : gmap string rentry * list (string * string) * list Track :=
  (keyspace w, published w, history w).

(** Footprint of a computation from [w] to [w']: the keyspace, the
    publish log and the history are as they were unless flagged ([K],
    [P], [H]); the requests [l] were sent; the provider is the same. *)
Definition moved (K P H : bool) (l : list spotify.request) (w w' : World) : Prop :=
  (K = false -> keyspace w' = keyspace w)
  /\ (P = false -> published w' = published w)
  /\ (H = false -> history w' = history w)
  /\ sent w' = (sent w ++ l)%list
  /\ provider w' = provider w.

(** Both servers answer every request from now on. *)
Definition healthy (w : World) : Prop :=
  rfail (redis w) = [] /\ sqlx.dbfail (db w) = [].

(** Every poll the provider answers reports [is_playing = false]. *)
Definition reports_not_playing (w : World) : Prop :=
  forall tok track,
    spotify.player_endpoint (spotifyClient w) tok = Ok track ->
    IsPlaying track = false.

(** The polls among the requests sent. *)
Definition is_poll (r : spotify.request) : bool :=
  match r with
  | spotify.PlayerRequest _ => true
  | spotify.TokenRequest _ => false
  end.

Definition polls (w : World) : list spotify.request := List.filter is_poll (sent w).

(** What [SaveTrackToHistory] does to the history when every statement
    reaches the server: the playing record of the same track gets a new
    [played_at]; else the owner's playing records are flipped and the
    track is inserted, unless its id does not read as a UUID or is
    taken. *)
Definition flip_then_insert (now : Time) (track : Track) (ts : list Track)
  : list Track :=
  if sqlx.uuid_in (tUserID track) then
    match find (fun t => String.eqb (tUserID t) (tUserID track)
                         && String.eqb (SpotifyTrackID t) (SpotifyTrackID track)
                         && IsCurrentlyPlaying t) ts with
    | Some existing =>
      if sqlx.uuid_in (tID existing) then
        map (fun t => if String.eqb (tID t) (tID existing)
                      then sqlx.set_played_at now t else t) ts
      else ts
    | None =>
      let flipped :=
        map (fun t => if String.eqb (tUserID t) (tUserID track) && IsCurrentlyPlaying t
                      then sqlx.set_not_playing t else t) ts in
      if sqlx.uuid_in (tID track)
         && negb (existsb (fun r => String.eqb (tID r) (tID track)) flipped)
      then flipped ++ [track] else flipped
    end
  else ts.

(** The history step of [GetProfileResponse]: the record it builds has
    no id, so nothing is inserted. *)
Definition flip_only (now : Time) (owner spotifyID : string) (ts : list Track)
  : list Track :=
  match find (fun t => String.eqb (tUserID t) owner
                       && String.eqb (SpotifyTrackID t) spotifyID
                       && IsCurrentlyPlaying t) ts with
  | Some existing =>
    if sqlx.uuid_in (tID existing) then
      map (fun t => if String.eqb (tID t) (tID existing)
                    then sqlx.set_played_at now t else t) ts
    else ts
  | None =>
    map (fun t => if String.eqb (tUserID t) owner && IsCurrentlyPlaying t
                  then sqlx.set_not_playing t else t) ts
  end.

Definition updates_channel (owner : string) : string := "track:updates:" +:+ owner.



(** A provider that answers every token request with [tok] and every poll
    with [poll]. *)
Definition provider_answering (tok : result spotify.TokenResponse)
    (poll : result SpotifyCurrentlyPlaying) : spotify.Client :=
  {| spotify.token_endpoint := fun _ => tok;
     spotify.player_endpoint := fun _ => poll;
     spotify.requests := [] |}.

Definition user_U (expires : Time) : User :=
  {| ID := id_U; SpotifyID := "spotify-u"; Email := "u@example.org";
     DisplayName := "Una"; ProfileURL := "u"; SpotifyAccessToken := "access-0";
     SpotifyRefreshToken := "refresh-0"; TokenExpiresAt := expires;
     IsActive := true; IsSharingEnabled := true; CreatedAt := 0; UpdatedAt := 0 |}.

Definition profile_U : Profile :=
  {| pID := id_P; pUserID := id_U; Theme := "default"; BackgroundColor := "#121212";
     TextColor := "#FFFFFF"; CustomMessage := EmptyString; ShowStats := true;
     ShowHistory := true; AnimationStyle := "fade"; pCreatedAt := 0; pUpdatedAt := 0 |}.

(** A world with the one user U (token expiring at [expires]) and a
    provider answering as given. *)
Definition world_of_U (expires : Time) (tok : result spotify.TokenResponse)
    (poll : result SpotifyCurrentlyPlaying) : World :=
  {| db := {| sqlx.users := [user_U expires]; sqlx.profiles := [profile_U];
              sqlx.tracks := []; sqlx.profile_visits := []; sqlx.dbfail := [] |};
     redis := {| rdata := ∅; rpublished := []; rsubs := []; rfail := [] |};
     spotifyClient := provider_answering tok poll; logger := [] |}.

(** The gin context of an authenticated request of user U. *)
Definition request_of_U : gin.Context :=
  gin.Set_ (incoming ∅ {[ "user_id" := id_U ]} ∅ ∅ "10.0.0.1" false []) "user_id" id_U.

Definition snapshot_idle : SpotifyCurrentlyPlaying := zeroSpotifyCurrentlyPlaying.

Definition refresh_failed : gin.Response :=
  error_reply http.StatusInternalServerError "Failed to refresh Spotify access".

(** Token refresh failure as the specification words it, on the profile
    page path: the operation fails and no poll is sent. *)
Definition profile_response_aborts_on_refresh_failure : Prop :=
  forall (now : Time) (user : User) (w : World) (e : error),
    is_ok (fst (GetProfile (ID user) w)) = true ->
    is_ok (fst (GetCachedCurrentlyPlaying now (ID user) w)) = false ->
    IsSharingEnabled user = true ->
    IsTokenExpired now user = true ->
    fst (provider w) (SpotifyRefreshToken user) = Err e ->
    is_ok (fst (GetProfileResponse now user w)) = false
    /\ polls (snd (GetProfileResponse now user w)) = polls w.

(** The read of the now-playing cache finds nothing at [now]. *)
Definition cache_miss (now : Time) (owner : string) (w : World) : Prop :=
  match keyspace w !! cache_key owner with
  | Some e => live now e = false
  | None => True
  end.

(** The cache entry written at [now]. *)
Definition cache_entry (now : Time) (text : string) : rentry :=
  {| rval := RString text; rexp := Some (Add now (2 * Minute)) |}.

(** A successful poll as the specification words it, on the current-track
    endpoint: the snapshot is cached, the history gets the track and a
    change event is published. *)
Definition current_track_poll_has_three_effects : Prop :=
  forall (now : Time) (c : gin.Context) (user : User)
         (track : SpotifyCurrentlyPlaying) (text : string) (w : World),
    healthy w ->
    fst (GetUserByID (gin.GetString c "user_id") w) = Ok user ->
    IsSharingEnabled user = true ->
    IsTokenExpired now user = false ->
    cache_miss now (ID user) w ->
    (forall tok, snd (provider w) tok = Ok track) ->
    IsPlaying track = true ->
    Marshal track = Ok text ->
    let w' := snd (getCurrentTrack now c w) in
    keyspace w' = <[cache_key (ID user) := cache_entry now text]> (keyspace w)
    /\ history w' = flip_then_insert now (track_of (ID user) now track) (history w)
    /\ published w' = (published w ++ [(updates_channel (ID user), text)])%list.

(** ** Track history requests *)

Definition history_failed : gin.Response :=
  error_reply http.StatusInternalServerError "Failed to get track history".

Definition no_db_in_context : error := "database connection not found in context".

(** ** Live update sessions *)

(** The visit identifier was issued by a page load: its audit record is
    in [profile_visits]. *)
Definition visit_recorded (visitID : string) (w : World) : bool :=
  existsb (fun v => String.eqb (vID v) visitID) (sqlx.profile_visits (db w)).

(** Validation as the specification words it: a visit identifier that no
    page load issued is rejected before the upgrade. *)
Definition unknown_visit_is_rejected : Prop :=
  forall (now : Time) (c : gin.Context) (w : World) (visitID : string),
    gin.Cookie c "visit_id" = Ok visitID ->
    visit_recorded visitID w = false ->
    exists resp, fst (trackUpdatesWebSocket now c w) = Replied resp.

(** A WebSocket handshake for the profile page of U carrying a visit
    identifier that was never issued. *)
Definition handshake_with_made_up_visit : gin.Context :=
  incoming {[ "profileURL" := "u" ]} {[ "visit_id" := "made-up" ]} ∅ ∅
    "10.0.0.1" true [].

(** A session in the streaming state: connection and subscription open,
    both loops running. *)
Definition streaming (s : Session) : Prop :=
  websocket.open (conn s) = true /\ pubsub_open s = true
  /\ heartbeat s = true /\ relay s = true.

(** A failed renewal as the specification words it: the heartbeat goes on
    and the next tick, the server answering again, renews the entry. *)
Definition heartbeat_continues_after_failure : Prop :=
  forall (s : Session) (w : World) (t1 t2 : Time),
    streaming s ->
    is_ok (fst (RenewVisitorActivity t1 (visitID s) w)) = false ->
    redis_answers (snd (step (Tick t1) s w)) ->
    let '(s2, w2) := run [Tick t1; Tick t2] s w in
    streaming s2
    /\ keyspace w2 !! visitor_key (visitID s) = Some (presence_entry t2).

Definition session_V1 : Session :=
  {| conn := {| websocket.open := true; websocket.written := [];
                websocket.wfail := [] |};
     pubsub := updates_channel id_U; pubsub_open := true; visitID := id_V1;
     heartbeat := true; relay := true |}.

(** Redis misses the next request and answers afterwards. *)
Definition world_redis_hiccup : World :=
  {| db := db empty_world;
     redis := {| rdata := ∅; rpublished := []; rsubs := [updates_channel id_U];
                 rfail := [true] |};
     spotifyClient := no_provider; logger := [] |}.

(** A history record of U, currently playing. *)
Definition track_row (id spotifyID : string) (at_ : Time) : Track :=
  {| tID := id; tUserID := id_U; SpotifyTrackID := spotifyID; Name := spotifyID;
     Artist := "Artist"; Album := "Album"; tAlbumArtURL := "art"; tTrackURL := "url";
     tDurationMs := 200000; IsCurrentlyPlaying := true; PlayedAt := at_;
     tCreatedAt := at_ |}.

(** The three polls of the scenario: T1, T1 again, then T2. *)
Definition three_polls : list (Time * Track) :=
  [(10, track_row id_r1 "T1" 10); (20, track_row id_r2 "T1" 20);
   (30, track_row id_r3 "T2" 30)].

(** The world of U with one history record: track T0, marked as
    currently playing. *)
Definition world_of_U_playing_T0 (expires : Time)
    (tok : result spotify.TokenResponse) (poll : result SpotifyCurrentlyPlaying)
  : World :=
  let w := world_of_U expires tok poll in
  {| db := sqlx.with_tracks (db w) [track_row id_r1 "T0" 0]; redis := redis w;
     spotifyClient := spotifyClient w; logger := logger w |}.

(** ** Presence: the life of a visit *)

(** The audit row of a visit. *)
Definition visit_row (started : Time) (visitID userID ip ua ref : string)
    (vu : option string) (ended : option Time) : ProfileVisit :=
  {| vID := visitID; vUserID := userID; VisitorIP := ip; VisitorUserID := vu;
     UserAgent := ua; ReferrerURL := ref; StartedAt := started; EndedAt := ended |}.

(** The set [visitors:<owner>] as the services leave it, before a visit
    is recorded: absent, or a non-empty set without expiry that does not
    hold the visit. *)
Definition viewers_without (visitID owner : string) (w : World) : Prop :=
  match keyspace w !! visitors_key owner with
  | None => True
  | Some e => exists s, e = {| rval := RSet s; rexp := None |} /\ (visitID ∉ s) /\ s <> ∅
  end.

(** A second visit identifier. *)
Definition id_V2 : string := "5a4b3c2d-1e0f-4a9b-8c7d-6e5f4a3b2c1d".

(** The empty world after the page load of visit V1 on the profile of U. *)
Definition world_after_visit_V1 : World :=
  snd (RecordProfileVisit 0 id_V1 id_U "10.0.0.1" "agent" "ref" None empty_world).

(** ** Live update sessions: the relay *)

(** The payloads that reach the peer: those before the first failed
    write of the script. *)
Fixpoint delivered (faults : list bool) (payloads : list string) {struct payloads}
  : list string :=
  match payloads, faults with
  | [], _ => []
  | p :: ps, [] => p :: ps
  | p :: ps, false :: fs => p :: delivered fs ps
  | _ :: _, true :: _ => []
  end.

(** The session once the handler has returned. *)
Definition closed (s : Session) : Prop :=
  websocket.open (conn s) = false /\ pubsub_open s = false /\ relay s = false.

(** The session of visit V1 whose writes fail as scripted. *)
Definition session_V1_writing (faults : list bool) : Session :=
  {| conn := {| websocket.open := true; websocket.written := [];
                websocket.wfail := faults |};
     pubsub := updates_channel id_U; pubsub_open := true; visitID := id_V1;
     heartbeat := true; relay := true |}.

(** The world after the page load of visit V1 and the WebSocket
    subscription of that visitor. *)
Definition world_after_visit_V1h : World :=
  let w := snd (RecordProfileVisit 0 id_V1 id_U "10.0.0.1" "agent" "ref" None
                  empty_world) in
  snd (SubscribeToTrackUpdates id_U w).

(** The session a successful upgrade starts: subscribed, both loops
    running, [written] already sent to the peer. *)
Definition started_session (owner visitID : string) (written : list string)
    (faults : list bool) : Session :=
  {| conn := {| websocket.open := true; websocket.written := written;
                websocket.wfail := faults |};
     pubsub := updates_channel owner; pubsub_open := true; visitID := visitID;
     heartbeat := true; relay := true |}.

(** [conn.WriteJSON(v)] sends the encoding followed by a newline. *)
Definition json_line (text : string) : string := text +:+ str1 0x0A.

(** The JSON text of snapshot T1. *)
Definition text_T1 : string :=
  match Marshal snapshot_T1 with Ok text => text | Err _ => EmptyString end.

(** The world of U once snapshot T1 has been cached at time 0. *)
Definition world_of_U_cached_T1 : World :=
  snd (CacheCurrentlyPlaying 0 id_U snapshot_T1
         (world_of_U (3600 * Second) (Err "unused") (Ok snapshot_T1))).

(** The WebSocket handshake of visit V1 for the profile page of U. *)
Definition handshake_of_V1 : gin.Context :=
  incoming {[ "profileURL" := "u" ]} {[ "visit_id" := id_V1 ]} ∅ ∅
    "10.0.0.1" true [].

(** ** The protected routes *)



Definition sharing_disabled : gin.Response :=
  error_reply http.StatusForbidden "Music sharing is disabled".

Definition provider_failed : gin.Response :=
  error_reply http.StatusInternalServerError "Failed to get track from Spotify".

(** User U with sharing switched off, and the world of that user. *)
Definition user_U_not_sharing (expires : Time) : User :=
  {| ID := id_U; SpotifyID := "spotify-u"; Email := "u@example.org";
     DisplayName := "Una"; ProfileURL := "u"; SpotifyAccessToken := "access-0";
     SpotifyRefreshToken := "refresh-0"; TokenExpiresAt := expires;
     IsActive := true; IsSharingEnabled := false; CreatedAt := 0; UpdatedAt := 0 |}.

Definition world_of_U_not_sharing (expires : Time)
    (tok : result spotify.TokenResponse) (poll : result SpotifyCurrentlyPlaying)
  : World :=
  let w := world_of_U expires tok poll in
  {| db := sqlx.with_users (db w) [user_U_not_sharing expires]; redis := redis w;
     spotifyClient := spotifyClient w; logger := logger w |}.

(** No poll of the provider is answered. *)
Definition provider_down (w : World) : Prop :=
  forall tok, is_ok (snd (provider w) tok) = false.

(** ** Recent tracks *)

(** [a] was played no earlier than [b]. *)
Definition not_earlier (a b : Track) : Prop := PlayedAt b <= PlayedAt a.

(** The history records of an owner. *)
Definition records_of (owner : string) (ts : list Track) : list Track :=
  filter (fun t => String.eqb (tUserID t) owner = true) ts.

(** ** Access tokens *)

(** The largest [expires_in], in seconds, whose duration fits the 64-bit
    nanosecond count of [time.Duration]. *)
Definition max_expires_in : Z := 9223372036.

(** The stored user after a token update at [now]. *)
Definition refreshed (user : User) (tok : string) (expiresIn : Z) (now : Time)
  : User :=
  sqlx.set_token tok (Add now (expiresIn * Second)) now user.

(** The answer of the provider to a token request in the examples. *)
Definition token_1 : spotify.TokenResponse :=
  {| spotify.AccessToken := "access-1"; spotify.TokenType := "Bearer";
     spotify.Scope := "user-read-currently-playing"; spotify.ExpiresIn := 3600;
     spotify.RefreshToken := "refresh-1" |}.

(** ** The public profile page *)

(** SCARD of what the keyspace holds under a key at [now]. *)
Definition cardinality (now : Time) (e : option rentry) : result Z :=
  match e with
  | Some e =>
    if live now e then
      match rval e with
      | RSet s => Ok (Z.of_nat (size s))
      | RString _ => Err redis_wrongtype
      end
    else Ok 0
  | None => Ok 0
  end.

(** The page of a profile that is shown, with the cookie of the visit. *)
Definition profile_page (resp : ProfileResponse) (visitID : string) : gin.Response :=
  {| gin.Status := http.StatusOK; gin.Body := gin.HTML "profile.html" (Some resp);
     gin.SetCookie := [("visit_id", visitID)] |}.

(** The page load of an anonymous visitor on the profile of U. *)
Definition page_load_of_U : gin.Context :=
  incoming {[ "profileURL" := "u" ]} ∅ ∅
    {[ "User-Agent" := "agent"; "Referer" := "ref" ]} "10.0.0.1" false [].

(** ** Settings and profile updates *)

(** The page shown for a profile whose owner is inactive or not sharing. *)
Definition profile_unavailable : gin.Response :=
  {| gin.Status := http.StatusNotFound;
     gin.Body := gin.HTML "profile_unavailable.html" None;
     gin.SetCookie := [] |}.

(** The answer of the live-update endpoint for such a profile. *)
Definition profile_not_available : outcome :=
  Replied (error_reply http.StatusForbidden "Profile not available").

(** The profile [current] after an update with the fields of [updates]. *)
Definition updated_profile (current updates : Profile) (now : Time) : Profile :=
  {| pID := pID current; pUserID := pUserID current; Theme := Theme updates;
     BackgroundColor := BackgroundColor updates; TextColor := TextColor updates;
     CustomMessage := CustomMessage updates; ShowStats := ShowStats updates;
     ShowHistory := ShowHistory updates; AnimationStyle := AnimationStyle updates;
     pCreatedAt := pCreatedAt current; pUpdatedAt := now |}.

(** An update that hides history and stats and names another profile and
    another owner. *)
Definition updates_hiding : Profile :=
  {| pID := id_r1; pUserID := id_V1; Theme := "dark"; BackgroundColor := "#000000";
     TextColor := "#00FF00"; CustomMessage := "hello"; ShowStats := false;
     ShowHistory := false; AnimationStyle := "none"; pCreatedAt := 7;
     pUpdatedAt := 7 |}.

(** ** Accounts *)

(** The characters of a profile URL. *)
Definition url_char (a : ascii) : bool :=
  let b := byte a in
  ((0x61 <=? b) && (b <=? 0x7A)) || ((0x30 <=? b) && (b <=? 0x39)) || (b =? 0x2D).

Fixpoint all_chars (p : ascii -> bool) (s : string) : bool :=
  match s with
  | EmptyString => true
  | String a s' => p a && all_chars p s'
  end.

(** The form of [uuid.UUID.String()]: groups of 8, 4, 4, 4 and 12
    lower-case hexadecimal digits, separated by hyphens. *)
Definition lower_hex (a : ascii) : bool :=
  let b := byte a in
  ((0x30 <=? b) && (b <=? 0x39)) || ((0x61 <=? b) && (b <=? 0x66)).

Fixpoint in_form (form : list bool) (s : string) : bool :=
  match form, s with
  | [], EmptyString => true
  | digit :: form', String a s' =>
    (if digit then lower_hex a else byte a =? 0x2D) && in_form form' s'
  | _, _ => false
  end.

Definition uuid_String (s : string) : bool :=
  in_form (repeat true 8 ++ false :: repeat true 4 ++ false :: repeat true 4
           ++ false :: repeat true 4 ++ false :: repeat true 12)%list s.

(** The profile a new account gets. *)
Definition default_profile (id userID : string) (now : Time) : Profile :=
  {| pID := id; pUserID := userID; Theme := "default";
     BackgroundColor := "#121212"; TextColor := "#FFFFFF";
     CustomMessage := EmptyString; ShowStats := true; ShowHistory := true;
     AnimationStyle := "fade"; pCreatedAt := now; pUpdatedAt := now |}.

(** The user a login with new tokens leaves. *)
Definition logged_in (user : User) (accessToken refreshToken : string)
    (expiresIn : Z) (now : Time) : User :=
  {| ID := ID user; SpotifyID := SpotifyID user; Email := Email user;
     DisplayName := DisplayName user; ProfileURL := ProfileURL user;
     SpotifyAccessToken := accessToken; SpotifyRefreshToken := refreshToken;
     TokenExpiresAt := Add now (int64 (expiresIn * Second));
     IsActive := IsActive user; IsSharingEnabled := IsSharingEnabled user;
     CreatedAt := CreatedAt user; UpdatedAt := now |}.

(** Every profile belongs to a stored user, as the foreign key of
    [profiles.user_id] demands. *)
Definition profiles_reference_users (d : sqlx.DB) : bool :=
  forallb (fun p => existsb (fun u => String.eqb (ID u) (pUserID p)) (sqlx.users d))
          (sqlx.profiles d).

(** ** Failures of the database, and answers of the provider *)

(** The world of U with the database failing as [script] says. *)
Definition world_of_U_db_failing (script : list bool) : World :=
  let w := world_of_U 0 (Err "unused") (Err "unused") in
  {| db := {| sqlx.users := sqlx.users (db w); sqlx.profiles := sqlx.profiles (db w);
              sqlx.tracks := sqlx.tracks (db w);
              sqlx.profile_visits := sqlx.profile_visits (db w);
              sqlx.dbfail := script |};
     redis := redis w; spotifyClient := spotifyClient w; logger := logger w |}.

(** The answer holds a track the decoder can read: an [item] object
    with an [external_urls] object and an [album] object. *)
Definition readable {float64} (m : gmap string (any float64)) : bool :=
  match to_map (m !! "item") with
  | Some item =>
    match to_map (item !! "external_urls"), to_map (item !! "album") with
    | Some _, Some _ => true
    | _, _ => false
    end
  | None => false
  end.

(** The answer holds an [item] object without an [external_urls] object. *)
Definition lacks_external_urls {float64} (m : gmap string (any float64)) : bool :=
  match to_map (m !! "item") with
  | Some item =>
    match to_map (item !! "external_urls") with
    | Some _ => false
    | None => true
    end
  | None => false
  end.

(** An answer whose item has no album. *)
Definition answer_without_album : gmap string (any Z) :=
  {[ "is_playing" := AnyBool true;
     "item" := AnyMap {[ "id" := AnyString "e1";
                         "external_urls" := AnyMap {[ "spotify" := AnyString "url" ]} ]} ]}.

(** A track with three cover images. *)
Definition answer_T1 : gmap string (any Z) :=
  {[ "is_playing" := AnyBool true; "progress_ms" := AnyFloat64 1000;
     "item" :=
       AnyMap {[ "id" := AnyString "T1"; "name" := AnyString "Song";
                 "duration_ms" := AnyFloat64 200000;
                 "external_urls" := AnyMap {[ "spotify" := AnyString "url" ]};
                 "artists" := AnySlice [AnyMap {[ "name" := AnyString "A" ]};
                                        AnyMap {[ "name" := AnyString "B" ]}];
                 "album" :=
                   AnyMap {[ "name" := AnyString "Album";
                             "images" :=
                               AnySlice [AnyMap {[ "url" := AnyString "large" ]};
                                         AnyMap {[ "url" := AnyString "medium" ]};
                                         AnyMap {[ "url" := AnyString "small" ]}] ]} ]} ]}.

(** ** Column widths *)

(** A text that a [VARCHAR(n)] column stores as it is: at most [n]
    bytes, hence at most [n] characters. *)
Definition varchar (n : nat) (s : string) : bool := Nat.leb (String.length s) n.

(** The display fields of a profile are within the widths of their
    columns: [theme VARCHAR(50)], [background_color VARCHAR(20)],
    [text_color VARCHAR(20)], [animation_style VARCHAR(50)]. *)
Definition display_fits (p : Profile) : bool :=
  varchar 50 (Theme p) && varchar 20 (BackgroundColor p)
  && varchar 20 (TextColor p) && varchar 50 (AnimationStyle p).

(** ** The profile of U, visited *)

(** The world of U after the page load of visit V1. *)
Definition world_of_U_visited : World :=
  snd (RecordProfileVisit 0 id_V1 id_U "10.0.0.1" "agent" "ref" None
         (world_of_U (3600 * Second) (Err "unused") (Ok snapshot_T1))).

(** That world after the WebSocket subscription of the visitor. *)
Definition world_of_U_watched : World :=
  snd (SubscribeToTrackUpdates id_U world_of_U_visited).

(** ** The log *)

(** The log of [w'] is the log of [w] with lines added at its end. *)
Definition grows (w w' : World) : Prop := exists l, logger w' = (logger w ++ l)%list.

(** * Properties *)

(** ** Track history: at most one record is currently playing *)

Section TrackHistory.

Lemma playing_count_app owner ts t :
  playing_count owner (ts ++ [t])
  = (playing_count owner ts + (if playing owner t then 1 else 0))%nat.
Proof.
  unfold playing_count. rewrite List.filter_app, length_app. simpl.
  destruct (playing owner t); reflexivity.
Qed.

Lemma playing_count_map_same owner (f : Track -> Track) ts :
  (forall t, playing owner (f t) = playing owner t) ->
  playing_count owner (map f ts) = playing_count owner ts.
Proof.
  intros Hf. unfold playing_count. induction ts as [|t ts IH]; simpl; [reflexivity|].
  rewrite Hf. destruct (playing owner t); simpl; congruence.
Qed.

Lemma playing_set_played_at owner now id t :
  playing owner (if String.eqb (tID t) id then sqlx.set_played_at now t else t)
  = playing owner t.
Proof. destruct (String.eqb (tID t) id); reflexivity. Qed.

Lemma playing_count_clear_owner owner ts :
  playing_count owner
    (map (fun t => if String.eqb (tUserID t) owner && IsCurrentlyPlaying t
                   then sqlx.set_not_playing t else t) ts) = 0%nat.
Proof.
  unfold playing_count. induction ts as [|t ts IH]; simpl; [reflexivity|].
  unfold playing at 1.
  destruct (String.eqb (tUserID t) owner) eqn:Hu, (IsCurrentlyPlaying t) eqn:Hp;
    simpl; rewrite ?Hu, ?Hp; simpl; exact IH.
Qed.

Lemma playing_count_clear_other owner other ts :
  owner <> other ->
  playing_count owner
    (map (fun t => if String.eqb (tUserID t) other && IsCurrentlyPlaying t
                   then sqlx.set_not_playing t else t) ts)
  = playing_count owner ts.
Proof.
  intros Hne. apply playing_count_map_same. intros t. unfold playing.
  destruct (String.eqb (tUserID t) other) eqn:Ho, (IsCurrentlyPlaying t) eqn:Hp;
    simpl; rewrite ?Hp; try reflexivity.
  apply String.eqb_eq in Ho.
  destruct (String.eqb_spec (tUserID t) owner); [congruence | reflexivity].
Qed.

Lemma clear_keeps owner other ts :
  (playing_count owner ts <= 1)%nat ->
  (playing_count owner
     (map (fun t => if String.eqb (tUserID t) other && IsCurrentlyPlaying t
                    then sqlx.set_not_playing t else t) ts) <= 1)%nat.
Proof.
  intros H. destruct (String.eqb_spec owner other) as [->|Hne].
  - rewrite playing_count_clear_owner. lia.
  - rewrite playing_count_clear_other by assumption. exact H.
Qed.

Lemma clear_insert_keeps owner track ts :
  (playing_count owner ts <= 1)%nat ->
  (playing_count owner
     (map (fun t => if String.eqb (tUserID t) (tUserID track) && IsCurrentlyPlaying t
                    then sqlx.set_not_playing t else t) ts ++ [track]) <= 1)%nat.
Proof.
  intros H. rewrite playing_count_app.
  destruct (String.eqb_spec owner (tUserID track)) as [->|Hne].
  - rewrite playing_count_clear_owner. destruct (playing _ track); lia.
  - rewrite playing_count_clear_other by assumption.
    assert (playing owner track = false) as ->; [|lia].
    unfold playing.
    destruct (String.eqb_spec (tUserID track) owner) as [E|_]; [congruence|].
    reflexivity.
Qed.

(** One call keeps the invariant, whatever the server's outcomes. *)
Lemma SaveTrackToHistory_keeps owner now track w :
  (playing_count owner (history w) <= 1)%nat ->
  (playing_count owner (history (snd (SaveTrackToHistory now track w))) <= 1)%nat.
Proof.
  intros Hinv. unfold SaveTrackToHistory, history in *.
  unfold on_db, sqlx.GetContext, sqlx.UpdatePlayedAt, sqlx.ClearCurrentlyPlaying,
    sqlx.InsertTrack, sqlx.statement.
  destruct w as [d r c l]; destruct d as [us ps ts vs fs]; simpl in *.
  pose proof (clear_keeps owner (tUserID track) ts Hinv) as Hclear.
  pose proof (clear_insert_keeps owner track ts Hinv) as Hins.
  assert (Hupd : forall id,
    (playing_count owner
       (map (fun t => if String.eqb (tID t) id then sqlx.set_played_at now t else t) ts)
     <= 1)%nat).
  { intros id. rewrite playing_count_map_same; [exact Hinv|].
    intros t. apply playing_set_played_at. }
  repeat (match goal with
          | |- context [next_fault ?l] => destruct l as [|[] ?]; simpl
          | |- context [sqlx.uuid_in ?x] => destruct (sqlx.uuid_in x); simpl
          | |- context [find ?p ?l] => destruct (find p l); simpl
          | |- context [existsb ?p ?l] => destruct (existsb p l); simpl
          end); auto.
Qed.

Lemma save_all_keeps owner calls : forall w,
  (playing_count owner (history w) <= 1)%nat ->
  (playing_count owner (history (save_all calls w)) <= 1)%nat.
Proof.
  induction calls as [|[now track] calls IH]; intros w H; simpl; [exact H|].
  apply IH, SaveTrackToHistory_keeps, H.
Qed.

End TrackHistory.

(** ** encoding/json: what is marshalled is unmarshalled *)

Local Arguments String.append !_ _ : simpl nomatch.

Section JSONRoundTrip.

Lemma chr_byte a : chr (byte a) = a.
Proof. unfold chr, byte. rewrite N2Z.id. apply ascii_N_embedding. Qed.

Lemma byte_range a : 0 <= byte a < 256.
Proof.
  unfold byte. pose proof (N_ascii_bounded a). lia.
Qed.

Lemma byte_chr z : 0 <= z < 256 -> byte (chr z) = z.
Proof.
  intros H. unfold byte, chr. rewrite N_ascii_embedding by lia. lia.
Qed.

Lemma unquote_ascii a tail :
  byte a < RuneSelf ->
  unquote ((if htmlSafeSet (byte a) then String a EmptyString else escape (byte a)) +:+ tail)
  = push (String a EmptyString) (unquote tail).
Proof.
  destruct a as [[] [] [] [] [] [] [] []]; intros H; vm_compute in H; try discriminate H;
    reflexivity.
Qed.

Lemma append_assoc (a b c : string) : (a +:+ b) +:+ c = a +:+ (b +:+ c).
Proof. induction a; simpl; congruence. Qed.

Lemma push_push p q r : push p (push q r) = push (p +:+ q) r.
Proof.
  destruct r as [[s rest]|]; simpl; [|reflexivity].
  rewrite append_assoc. reflexivity.
Qed.

Lemma encode_decode_2 a0 a1 :
  0xC2 <= byte a0 <= 0xDF -> cont (byte a1) = true ->
  EncodeRune ((byte a0 - 0xC0) * 64 + (byte a1 - 0x80))
  = String a0 (String a1 EmptyString).
Proof.
  intros H0 H1. unfold cont in H1. apply andb_true_iff in H1 as [H1 H1'].
  apply Z.leb_le in H1, H1'.
  set (r := (byte a0 - 0xC0) * 64 + (byte a1 - 0x80)).
  assert (Hq : r / 64 = byte a0 - 0xC0) by (subst r; Z.div_mod_to_equations; lia).
  assert (Hm : r mod 64 = byte a1 - 0x80) by (subst r; Z.div_mod_to_equations; lia).
  unfold EncodeRune.
  replace ((0 <=? r) && (r <? 0x80)) with false by (symmetry; apply andb_false_iff; right; apply Z.ltb_ge; subst r; lia).
  replace ((0x80 <=? r) && (r <? 0x800)) with true by (symmetry; apply andb_true_iff; split; [apply Z.leb_le | apply Z.ltb_lt]; subst r; lia).
  unfold str2, str1. rewrite Hq, Hm.
  replace (0xC0 + (byte a0 - 0xC0)) with (byte a0) by lia.
  replace (0x80 + (byte a1 - 0x80)) with (byte a1) by lia.
  rewrite !chr_byte. reflexivity.
Qed.

(** Case analysis on every comparison of bytes and runes in the goal. *)
Ltac zcases :=
  repeat match goal with
         | |- context [(?x <=? ?y)%Z] => destruct (Z.leb_spec x y)
         | |- context [(?x <? ?y)%Z] => destruct (Z.ltb_spec x y)
         | |- context [(?x =? ?y)%Z] => destruct (Z.eqb_spec x y)
         end.

Ltac zhyps :=
  repeat match goal with
         | H : _ && _ = true |- _ => apply andb_true_iff in H as [? ?]
         | H : Z.leb _ _ = true |- _ => apply Z.leb_le in H
         | H : Z.ltb _ _ = true |- _ => apply Z.ltb_lt in H
         | H : Z.eqb _ _ = true |- _ => apply Z.eqb_eq in H
         end.

Lemma encode_decode_3 a0 a1 a2 :
  0xE0 <= byte a0 <= 0xEF ->
  (if byte a0 =? 0xE0 then 0xA0 else 0x80) <= byte a1 ->
  byte a1 <= (if byte a0 =? 0xED then 0x9F else 0xBF) ->
  cont (byte a2) = true ->
  EncodeRune ((byte a0 - 0xE0) * 4096 + (byte a1 - 0x80) * 64 + (byte a2 - 0x80))
  = String a0 (String a1 (String a2 EmptyString)).
Proof.
  intros H0 Hlo Hhi H2. unfold cont in H2. zhyps.
  set (r := (byte a0 - 0xE0) * 4096 + (byte a1 - 0x80) * 64 + (byte a2 - 0x80)).
  assert (Hb1 : 0x80 <= byte a1 <= 0xBF).
  { destruct (byte a0 =? 0xE0), (byte a0 =? 0xED); lia. }
  assert (Hq : r / 4096 = byte a0 - 0xE0) by (subst r; Z.div_mod_to_equations; lia).
  assert (Hq2 : (r / 64) mod 64 = byte a1 - 0x80) by (subst r; Z.div_mod_to_equations; lia).
  assert (Hm : r mod 64 = byte a2 - 0x80) by (subst r; Z.div_mod_to_equations; lia).
  assert (Hr : 0x800 <= r < 0x10000 /\ ~ (0xD800 <= r <= 0xDFFF)).
  { subst r. destruct (Z.eqb_spec (byte a0) 0xE0), (Z.eqb_spec (byte a0) 0xED); lia. }
  unfold EncodeRune. rewrite Hq, Hq2, Hm. clearbody r.
  replace (0xE0 + (byte a0 - 0xE0)) with (byte a0) by lia.
  replace (0x80 + (byte a1 - 0x80)) with (byte a1) by lia.
  replace (0x80 + (byte a2 - 0x80)) with (byte a2) by lia.
  unfold str3, str2, str1. rewrite !chr_byte.
  zcases; simpl; try lia; reflexivity.
Qed.

Lemma encode_decode_4 a0 a1 a2 a3 :
  0xF0 <= byte a0 <= 0xF4 ->
  (if byte a0 =? 0xF0 then 0x90 else 0x80) <= byte a1 ->
  byte a1 <= (if byte a0 =? 0xF4 then 0x8F else 0xBF) ->
  cont (byte a2) = true -> cont (byte a3) = true ->
  EncodeRune ((byte a0 - 0xF0) * 262144 + (byte a1 - 0x80) * 4096
              + (byte a2 - 0x80) * 64 + (byte a3 - 0x80))
  = String a0 (String a1 (String a2 (String a3 EmptyString))).
Proof.
  intros H0 Hlo Hhi H2 H3. unfold cont in H2, H3. zhyps.
  set (r := (byte a0 - 0xF0) * 262144 + (byte a1 - 0x80) * 4096
            + (byte a2 - 0x80) * 64 + (byte a3 - 0x80)).
  assert (Hb1 : 0x80 <= byte a1 <= 0xBF).
  { destruct (byte a0 =? 0xF0), (byte a0 =? 0xF4); lia. }
  assert (Hq : r / 262144 = byte a0 - 0xF0) by (subst r; Z.div_mod_to_equations; lia).
  assert (Hq1 : (r / 4096) mod 64 = byte a1 - 0x80) by (subst r; Z.div_mod_to_equations; lia).
  assert (Hq2 : (r / 64) mod 64 = byte a2 - 0x80) by (subst r; Z.div_mod_to_equations; lia).
  assert (Hm : r mod 64 = byte a3 - 0x80) by (subst r; Z.div_mod_to_equations; lia).
  assert (Hr : 0x10000 <= r <= 0x10FFFF).
  { subst r. destruct (Z.eqb_spec (byte a0) 0xF0), (Z.eqb_spec (byte a0) 0xF4); lia. }
  unfold EncodeRune. rewrite Hq, Hq1, Hq2, Hm. clearbody r.
  replace (0xF0 + (byte a0 - 0xF0)) with (byte a0) by lia.
  replace (0x80 + (byte a1 - 0x80)) with (byte a1) by lia.
  replace (0x80 + (byte a2 - 0x80)) with (byte a2) by lia.
  replace (0x80 + (byte a3 - 0x80)) with (byte a3) by lia.
  unfold str4, str3, str2, str1. rewrite !chr_byte.
  zcases; simpl; try lia; reflexivity.
Qed.

Lemma unquote_high a0 t1 :
  RuneSelf <= byte a0 ->
  unquote (String a0 t1) =
    let '(rr, size) := DecodeRuneInString (String a0 t1) in
    match size, t1 with
    | 2%nat, String _ t2 => push (EncodeRune rr) (unquote t2)
    | 3%nat, String _ (String _ t3) => push (EncodeRune rr) (unquote t3)
    | 4%nat, String _ (String _ (String _ t4)) => push (EncodeRune rr) (unquote t4)
    | _, _ => push (EncodeRune rr) (unquote t1)
    end.
Proof.
  intros H. unfold RuneSelf in H.
  change (unquote (String a0 t1)) with
    (let b0 := byte a0 in
     if b0 =? 0x22 then Some (EmptyString, t1)
     else if b0 =? 0x5C then
       match t1 with
       | EmptyString => None
       | String e t2 =>
         match simple_escape e with
         | Some c => push (String c EmptyString) (unquote t2)
         | None =>
           if byte e =? 0x75 then
             match t2 with
             | String h1 (String h2 (String h3 (String h4 t6))) =>
               match hex4 h1 h2 h3 h4 with
               | None => None
               | Some rr =>
                 if IsSurrogate rr then
                   match t6 with
                   | String c1 (String c2 (String g1 (String g2 (String g3 (String g4 t12))))) =>
                     match (if (byte c1 =? 0x5C) && (byte c2 =? 0x75)
                            then hex4 g1 g2 g3 g4 else None) with
                     | Some rr1 =>
                       if DecodeRune16 rr rr1 =? RuneError
                       then push (EncodeRune RuneError) (unquote t6)
                       else push (EncodeRune (DecodeRune16 rr rr1)) (unquote t12)
                     | None => push (EncodeRune RuneError) (unquote t6)
                     end
                   | _ => push (EncodeRune RuneError) (unquote t6)
                   end
                 else push (EncodeRune rr) (unquote t6)
               end
             | _ => None
             end
           else None
         end
       end
     else if b0 <? 0x20 then None
     else if b0 <? RuneSelf then push (String a0 EmptyString) (unquote t1)
     else
       let '(rr, size) := DecodeRuneInString (String a0 t1) in
       match size, t1 with
       | 2%nat, String _ t2 => push (EncodeRune rr) (unquote t2)
       | 3%nat, String _ (String _ t3) => push (EncodeRune rr) (unquote t3)
       | 4%nat, String _ (String _ (String _ t4)) => push (EncodeRune rr) (unquote t4)
       | _, _ => push (EncodeRune rr) (unquote t1)
       end).
  cbv zeta. unfold RuneSelf.
  destruct (Z.eqb_spec (byte a0) 0x22); [lia|].
  destruct (Z.eqb_spec (byte a0) 0x5C); [lia|].
  destruct (Z.ltb_spec (byte a0) 0x20); [lia|].
  destruct (Z.ltb_spec (byte a0) 0x80); [lia|].
  reflexivity.
Qed.

Lemma appendString_low a0 s1 :
  byte a0 < RuneSelf ->
  appendString (String a0 s1)
  = (if htmlSafeSet (byte a0) then String a0 EmptyString else escape (byte a0))
    +:+ appendString s1.
Proof.
  intros H. simpl. destruct (Z.ltb_spec (byte a0) RuneSelf); [|lia].
  destruct (htmlSafeSet (byte a0)); reflexivity.
Qed.

Lemma appendString_high a0 s1 :
  RuneSelf <= byte a0 ->
  appendString (String a0 s1) =
    let '(c, size) := DecodeRuneInString (String a0 s1) in
    let sep := (c =? 0x2028) || (c =? 0x2029) in
    match size, s1 with
    | 2%nat, String a1 s2 => String a0 (String a1 (appendString s2))
    | 3%nat, String a1 (String a2 s3) =>
      if sep
      then bs +:+ "u202" +:+ String (hex (c mod 16)) (appendString s3)
      else String a0 (String a1 (String a2 (appendString s3)))
    | 4%nat, String a1 (String a2 (String a3 s4)) =>
      String a0 (String a1 (String a2 (String a3 (appendString s4))))
    | _, _ => bs +:+ "ufffd" +:+ appendString s1
    end.
Proof.
  intros H.
  change (appendString (String a0 s1)) with
    (let b := byte a0 in
     if b <? RuneSelf then
       if htmlSafeSet b then String a0 (appendString s1)
       else escape b +:+ appendString s1
     else
       let '(c, size) := DecodeRuneInString (String a0 s1) in
       let sep := (c =? 0x2028) || (c =? 0x2029) in
       match size, s1 with
       | 2%nat, String a1 s2 => String a0 (String a1 (appendString s2))
       | 3%nat, String a1 (String a2 s3) =>
         if sep
         then bs +:+ "u202" +:+ String (hex (c mod 16)) (appendString s3)
         else String a0 (String a1 (String a2 (appendString s3)))
       | 4%nat, String a1 (String a2 (String a3 s4)) =>
         String a0 (String a1 (String a2 (String a3 (appendString s4))))
       | _, _ => bs +:+ "ufffd" +:+ appendString s1
       end).
  cbv zeta. destruct (Z.ltb_spec (byte a0) RuneSelf); [lia|]. reflexivity.
Qed.

Lemma valid_high a0 s1 :
  RuneSelf <= byte a0 -> ValidString (String a0 s1) = true -> head_shape a0 s1.
Proof.
  intros H Hv. unfold RuneSelf in H.
  change (ValidString (String a0 s1)) with
    (if byte a0 <? RuneSelf then ValidString s1
     else match snd (DecodeRuneInString (String a0 s1)), s1 with
          | 2%nat, String _ s2 => ValidString s2
          | 3%nat, String _ (String _ s3) => ValidString s3
          | 4%nat, String _ (String _ (String _ s4)) => ValidString s4
          | _, _ => false
          end) in Hv.
  unfold RuneSelf in Hv. destruct (Z.ltb_spec (byte a0) 0x80); [lia|].
  unfold DecodeRuneInString, RuneSelf in Hv.
  destruct (Z.ltb_spec (byte a0) 0x80); [lia|].
  destruct ((0xC2 <=? byte a0) && (byte a0 <=? 0xDF)) eqn:E2.
  { destruct s1 as [|a1 s2]; [discriminate|].
    destruct (cont (byte a1)) eqn:C1; simpl in Hv; [|discriminate].
    zhyps. eapply shape2; eauto. }
  destruct ((0xE0 <=? byte a0) && (byte a0 <=? 0xEF)) eqn:E3.
  { destruct s1 as [|a1 [|a2 s3]]; try discriminate.
    destruct ((_ <=? byte a1) && (byte a1 <=? _) && cont (byte a2)) eqn:C; simpl in Hv;
      [|discriminate].
    apply andb_true_iff in C as [C C2]. zhyps. eapply shape3; eauto. }
  destruct ((0xF0 <=? byte a0) && (byte a0 <=? 0xF4)) eqn:E4.
  { destruct s1 as [|a1 [|a2 [|a3 s4]]]; try discriminate.
    destruct ((_ <=? byte a1) && (byte a1 <=? _) && cont (byte a2) && cont (byte a3)) eqn:C;
      simpl in Hv; [|discriminate].
    apply andb_true_iff in C as [C C3]. apply andb_true_iff in C as [C C2].
    zhyps. eapply shape4; eauto. }
  simpl in Hv. discriminate.
Qed.

Lemma decode2 a0 a1 tail :
  0xC2 <= byte a0 <= 0xDF -> cont (byte a1) = true ->
  DecodeRuneInString (String a0 (String a1 tail))
  = ((byte a0 - 0xC0) * 64 + (byte a1 - 0x80), 2%nat).
Proof.
  intros H0 H1. unfold DecodeRuneInString, RuneSelf. rewrite H1.
  zcases; simpl; try lia; reflexivity.
Qed.

Lemma decode3 a0 a1 a2 tail :
  0xE0 <= byte a0 <= 0xEF ->
  (if byte a0 =? 0xE0 then 0xA0 else 0x80) <= byte a1 ->
  byte a1 <= (if byte a0 =? 0xED then 0x9F else 0xBF) ->
  cont (byte a2) = true ->
  DecodeRuneInString (String a0 (String a1 (String a2 tail)))
  = ((byte a0 - 0xE0) * 4096 + (byte a1 - 0x80) * 64 + (byte a2 - 0x80), 3%nat).
Proof.
  intros H0 Hlo Hhi H2. unfold DecodeRuneInString, RuneSelf. rewrite H2.
  apply Z.leb_le in Hlo, Hhi. rewrite Hlo, Hhi.
  zcases; simpl; try lia; reflexivity.
Qed.

Lemma decode4 a0 a1 a2 a3 tail :
  0xF0 <= byte a0 <= 0xF4 ->
  (if byte a0 =? 0xF0 then 0x90 else 0x80) <= byte a1 ->
  byte a1 <= (if byte a0 =? 0xF4 then 0x8F else 0xBF) ->
  cont (byte a2) = true -> cont (byte a3) = true ->
  DecodeRuneInString (String a0 (String a1 (String a2 (String a3 tail))))
  = ((byte a0 - 0xF0) * 262144 + (byte a1 - 0x80) * 4096
     + (byte a2 - 0x80) * 64 + (byte a3 - 0x80), 4%nat).
Proof.
  intros H0 Hlo Hhi H2 H3. unfold DecodeRuneInString, RuneSelf. rewrite H2, H3.
  apply Z.leb_le in Hlo, Hhi. rewrite Hlo, Hhi.
  zcases; simpl; try lia; reflexivity.
Qed.

Lemma unquote_sep c tail :
  c = 0x2028 \/ c = 0x2029 ->
  unquote (bs +:+ "u202" +:+ String (hex (c mod 16)) tail)
  = push (EncodeRune c) (unquote tail).
Proof. intros [-> | ->]; reflexivity. Qed.

Lemma unquote_appendString_aux n : forall s rest,
  (String.length s <= n)%nat -> ValidString s = true ->
  unquote (appendString s +:+ dq +:+ rest) = Some (s, rest).
Proof.
  induction n as [|n IH]; intros s rest Hlen Hv.
  - destruct s; [reflexivity | simpl in Hlen; lia].
  - destruct s as [|a0 s1]; [reflexivity|]. simpl in Hlen.
    destruct (Z.ltb_spec (byte a0) RuneSelf) as [Hlow|Hhigh].
    + rewrite appendString_low by assumption. rewrite append_assoc.
      rewrite unquote_ascii by assumption.
      rewrite IH; [reflexivity | lia |].
      simpl in Hv. destruct (Z.ltb_spec (byte a0) RuneSelf); [assumption | lia].
    + rewrite appendString_high by assumption.
      destruct (valid_high a0 s1 Hhigh Hv)
        as [a1 s2 -> H0 H1 Hv2 | a1 a2 s3 -> H0 Hlo Hhi H2 Hv3
            | a1 a2 a3 s4 -> H0 Hlo Hhi H2 H3 Hv4].
      * rewrite decode2 by assumption. cbv zeta iota beta.
        change (String a0 (String a1 (appendString s2)) +:+ dq +:+ rest)
          with (String a0 (String a1 (appendString s2 +:+ dq +:+ rest))).
        rewrite unquote_high by assumption. rewrite decode2 by assumption.
        cbv iota beta. rewrite IH by (simpl in Hlen; try assumption; lia).
        simpl. rewrite encode_decode_2 by assumption. reflexivity.
      * rewrite decode3 by assumption. cbv zeta iota beta.
        set (c := (byte a0 - 0xE0) * 4096 + (byte a1 - 0x80) * 64 + (byte a2 - 0x80)).
        assert (Henc : EncodeRune c = String a0 (String a1 (String a2 EmptyString)))
          by (apply encode_decode_3; assumption).
        destruct ((c =? 0x2028) || (c =? 0x2029)) eqn:Hsep.
        -- change ((bs +:+ "u202" +:+ String (hex (c mod 16)) (appendString s3)) +:+ dq +:+ rest)
             with (bs +:+ "u202" +:+ String (hex (c mod 16)) (appendString s3 +:+ dq +:+ rest)).
           rewrite unquote_sep.
           2:{ apply orb_true_iff in Hsep as [E|E]; apply Z.eqb_eq in E; auto. }
           rewrite IH by (simpl in Hlen; try assumption; lia).
           simpl. rewrite Henc. reflexivity.
        -- change (String a0 (String a1 (String a2 (appendString s3))) +:+ dq +:+ rest)
             with (String a0 (String a1 (String a2 (appendString s3 +:+ dq +:+ rest)))).
           rewrite unquote_high by assumption. rewrite decode3 by assumption.
           cbv iota beta. fold c. rewrite IH by (simpl in Hlen; try assumption; lia).
           simpl. rewrite Henc. reflexivity.
      * rewrite decode4 by assumption. cbv zeta iota beta.
        change (String a0 (String a1 (String a2 (String a3 (appendString s4)))) +:+ dq +:+ rest)
          with (String a0 (String a1 (String a2 (String a3 (appendString s4 +:+ dq +:+ rest))))).
        rewrite unquote_high by assumption. rewrite decode4 by assumption.
        cbv iota beta. rewrite IH by (simpl in Hlen; try assumption; lia).
        simpl. rewrite encode_decode_4 by assumption. reflexivity.
Qed.

Lemma unquote_appendString s rest :
  ValidString s = true ->
  unquote (appendString s +:+ dq +:+ rest) = Some (s, rest).
Proof. apply (unquote_appendString_aux (String.length s)). lia. Qed.

Lemma scan_digits_stop rest :
  no_digit_head rest -> scan_digits rest = (Decimal.Nil, rest).
Proof. destruct rest as [|a rest]; simpl; [reflexivity|]. intros ->. reflexivity. Qed.

Lemma scan_digits_digits d rest :
  no_digit_head rest -> scan_digits (digits d +:+ rest) = (d, rest).
Proof.
  intros H. induction d; simpl digits.
  1: exact (scan_digits_stop rest H).
  all: change (String ?c ?s +:+ rest) with (String c (s +:+ rest));
    cbn [scan_digits];
    match goal with |- context [digit_of ?c] =>
      let v := eval vm_compute in (digit_of c) in change (digit_of c) with v end;
    cbv iota beta; rewrite IHd; reflexivity.
Qed.

Lemma to_uint_canonical p : canonical (Pos.to_uint p).
Proof.
  split; [apply Unsigned.to_uint_nonnil|].
  intros d' E.
  assert (Hn : Decimal.unorm (Pos.to_uint p) = Pos.to_uint p).
  { change (Pos.to_uint p) with (N.to_uint (Npos p)) at 2.
    rewrite <- (Unsigned.of_to p). apply eq_sym, Unsigned.to_of. }
  rewrite E in Hn. unfold Decimal.unorm in Hn.
  destruct (Decimal.nzhead (Decimal.D0 d')) eqn:Hz; try discriminate Hn.
  - injection Hn as <-. reflexivity.
  - exfalso. exact (nzhead_nonzero _ _ Hz).
Qed.

Lemma zero_canonical : canonical Decimal.zero.
Proof. split; [discriminate|]. intros d' E. injection E as <-. reflexivity. Qed.

Lemma scan_int_digits (neg : bool) d rest :
  canonical d -> no_digit_head rest -> starts_fraction rest = false ->
  int_range (Z.of_int (if neg then Decimal.Neg d else Decimal.Pos d)) = true ->
  scan_int ((if neg then "-" else EmptyString) +:+ digits d +:+ rest)
  = Some (Z.of_int (if neg then Decimal.Neg d else Decimal.Pos d), rest).
Proof.
  intros [Hnil Hzero] Hrest Hfrac Hrange.
  unfold scan_int.
  assert (Hhead :
    (match (if neg then "-" else EmptyString) +:+ digits d +:+ rest with
     | String a t' => if byte a =? 0x2D then (true, t') else (false, String a t')
     | EmptyString => (false, EmptyString)
     end) = (neg, digits d +:+ rest)).
  { destruct neg; [reflexivity|].
    destruct d; try congruence; reflexivity. }
  match goal with
  | |- (let '(n, t1) := ?X in _) = _ =>
    replace X with (neg, digits d +:+ rest)
  end.
  2:{ symmetry. rewrite <- Hhead. destruct ((if neg then "-" else EmptyString) +:+ digits d +:+ rest); reflexivity. }
  cbv iota beta. rewrite scan_digits_digits by assumption. cbv iota beta.
  rewrite Hfrac, Hrange.
  destruct d; try congruence; try reflexivity.
  rewrite (Hzero d eq_refl). reflexivity.
Qed.

Lemma scan_int_itoa z rest :
  int_range z = true -> no_digit_head rest -> starts_fraction rest = false ->
  scan_int (itoa z +:+ rest) = Some (z, rest).
Proof.
  intros Hr Hd Hf. unfold itoa.
  pose proof (DecimalZ.of_to z) as Hz.
  destruct z as [|p|p]; simpl Z.to_int in *.
  - exact (scan_int_digits false Decimal.zero rest zero_canonical Hd Hf Hr).
  - pose proof (scan_int_digits false (Pos.to_uint p) rest (to_uint_canonical p) Hd Hf) as H.
    cbv iota in H. rewrite Hz in H. exact (H Hr).
  - pose proof (scan_int_digits true (Pos.to_uint p) rest (to_uint_canonical p) Hd Hf) as H.
    cbv iota in H. rewrite Hz in H. exact (H Hr).
Qed.

Lemma unquote_tag f rest : unquote (tag f +:+ dq +:+ rest) = Some (tag f, rest).
Proof.
  replace (tag f) with (appendString (tag f)) at 1 by (destruct f; reflexivity).
  apply unquote_appendString. destruct f; reflexivity.
Qed.

Lemma field_of_tag f : field_of_key (tag f) = Some f.
Proof. destruct f; reflexivity. Qed.

Lemma sep_no_digit c rest : is_sep c -> no_digit_head (String c rest).
Proof.
  intros H. simpl. unfold digit_of.
  destruct H as [-> | ->]; reflexivity.
Qed.

Lemma sep_no_fraction c rest : is_sep c -> starts_fraction (String c rest) = false.
Proof. intros H. simpl. destruct H as [-> | ->]; reflexivity. Qed.

Lemma skip_ws_sep c rest : is_sep c -> skip_ws (String c rest) = String c rest.
Proof. intros H. simpl. unfold is_space. destruct H as [-> | ->]; reflexivity. Qed.

Lemma itoa_head z :
  exists a t, itoa z = String a t /\ (byte a = 0x2D \/ 0x30 <= byte a <= 0x39).
Proof.
  unfold itoa. destruct z as [|p|p]; simpl Z.to_int.
  - eexists _, _. split; [reflexivity|]. right. vm_compute. split; discriminate.
  - pose proof (Unsigned.to_uint_nonnil p) as Hn.
    destruct (Pos.to_uint p); try congruence;
      (eexists _, _; split; [reflexivity|]; right; vm_compute; split; discriminate).
  - eexists _, _. split; [reflexivity|]. left. reflexivity.
Qed.

Lemma value_encodes V v c rest :
  encodes V v -> is_sep c ->
  value (V +:+ String c rest) = Some (v, String c rest)
  /\ skip_ws (V +:+ String c rest) = V +:+ String c rest.
Proof.
  intros HV Hc. destruct HV as [b | s Hs | z Hz].
  - destruct b; split; reflexivity.
  - split; [|reflexivity].
    unfold quote. rewrite !append_assoc.
    change (dq +:+ appendString s +:+ dq +:+ String c rest)
      with (String dquote (appendString s +:+ dq +:+ String c rest)).
    unfold value. change (byte dquote =? 0x22) with true. cbv iota.
    rewrite unquote_appendString by assumption. reflexivity.
  - destruct (itoa_head z) as (a & t & E & Ha).
    pose proof (scan_int_itoa z (String c rest) Hz (sep_no_digit c rest Hc)
                  (sep_no_fraction c rest Hc)) as Hscan.
    rewrite E in *. change (String a t +:+ String c rest) with (String a (t +:+ String c rest)) in *.
    split.
    + unfold value. rewrite Hscan.
      destruct Ha as [Ha | Ha].
      * rewrite Ha. reflexivity.
      * zcases; try lia; reflexivity.
    + simpl. unfold is_space. destruct Ha as [Ha | Ha].
      * rewrite Ha. reflexivity.
      * zcases; try lia; reflexivity.
Qed.

Lemma member_encodes f V v c rest x :
  encodes V v -> is_sep c ->
  member (key (tag f) +:+ V +:+ String c rest) x
  = option_map (fun x' => (x', byte c =? 0x2C, rest)) (assign f v x).
Proof.
  intros HV Hc.
  destruct (value_encodes V v c rest HV Hc) as [Hval Hws].
  unfold member, key. rewrite !append_assoc.
  change (dq +:+ tag f +:+ dq +:+ ":" +:+ V +:+ String c rest)
    with (String dquote (tag f +:+ dq +:+ String ":" (V +:+ String c rest))).
  cbn [skip_ws]. change (is_space (byte dquote)) with false. cbv iota.
  change (byte dquote =? 0x22) with true. cbv iota.
  rewrite unquote_tag.
  cbn [skip_ws]. change (is_space (byte ":")) with false. cbv iota.
  change (byte ":" =? 0x3A) with true. cbv iota.
  rewrite Hws, Hval, field_of_tag.
  destruct (assign f v x) as [x'|]; [|reflexivity].
  rewrite skip_ws_sep by assumption.
  destruct Hc as [Hc | Hc]; rewrite Hc; reflexivity.
Qed.

Lemma members_mono n : forall m t x r,
  members n t x = Some r -> (n <= m)%nat -> members m t x = Some r.
Proof.
  induction n as [|n IH]; intros m t x r H Hle; [discriminate|].
  destruct m as [|m]; [lia|]. simpl in *.
  destruct (member t x) as [[[x' more] rest]|]; [|discriminate].
  destruct more; [|assumption]. apply IH; [assumption | lia].
Qed.

Lemma members_S n t x :
  members (S n) t x =
    match member t x with
    | Some (x', true, rest) => members n rest x'
    | Some (x', false, rest) => Some (x', rest)
    | None => None
    end.
Proof. reflexivity. Qed.

Lemma length_append (a b : string) :
  String.length (a +:+ b) = (String.length a + String.length b)%nat.
Proof. induction a; simpl; congruence. Qed.

Lemma comma_sep : is_sep ",". Proof. left. reflexivity. Qed.
Lemma brace_sep : is_sep "}". Proof. right. reflexivity. Qed.

Ltac member_step f V v :=
  rewrite members_S, (member_encodes f V v)
    by (first [apply comma_sep | apply brace_sep | constructor; assumption]);
  cbn [assign option_map zeroSpotifyCurrentlyPlaying];
  match goal with
  | |- context [byte ?c =? 0x2C] =>
    let b := eval vm_compute in (byte c =? 0x2C) in
    change (byte c =? 0x2C) with b
  end; cbv iota.

Lemma Unmarshal_Marshal t :
  well_formed t = true ->
  exists text, Marshal t = Ok text /\ Unmarshal text = Ok t.
Proof.
  intros Hwf. unfold well_formed in Hwf.
  repeat match goal with
         | H : _ && _ = true |- _ => apply andb_true_iff in H as [H ?]
         end.
  destruct t as [p i n ar al art u d pr]; simpl in *.
  eexists. split; [reflexivity|].
  set (T9 := key (tag FProgressMs) +:+ itoa pr +:+ String "}" EmptyString).
  set (T8 := key (tag FDurationMs) +:+ itoa d +:+ String "," T9).
  set (T7 := key (tag FTrackURL) +:+ quote u +:+ String "," T8).
  set (T6 := key (tag FAlbumArtURL) +:+ quote art +:+ String "," T7).
  set (T5 := key (tag FAlbumName) +:+ quote al +:+ String "," T6).
  set (T4 := key (tag FArtistName) +:+ quote ar +:+ String "," T5).
  set (T3 := key (tag FTrackName) +:+ quote n +:+ String "," T4).
  set (T2 := key (tag FTrackID) +:+ quote i +:+ String "," T3).
  set (T1 := key (tag FIsPlaying) +:+ encodeBool p +:+ String "," T2).
  match goal with
  | |- Unmarshal ?data = _ => change data with (String "{" T1)
  end.
  assert (Hm : members 9 T1 zeroSpotifyCurrentlyPlaying
               = Some ({| IsPlaying := p; TrackID := i; TrackName := n;
                          ArtistName := ar; AlbumName := al; AlbumArtURL := art;
                          TrackURL := u; DurationMs := d; ProgressMs := pr |},
                       EmptyString)).
  { subst T1 T2 T3 T4 T5 T6 T7 T8 T9.
    member_step FIsPlaying (encodeBool p) (JBool p).
    member_step FTrackID (quote i) (JString i).
    member_step FTrackName (quote n) (JString n).
    member_step FArtistName (quote ar) (JString ar).
    member_step FAlbumName (quote al) (JString al).
    member_step FAlbumArtURL (quote art) (JString art).
    member_step FTrackURL (quote u) (JString u).
    member_step FDurationMs (itoa d) (JInt d).
    member_step FProgressMs (itoa pr) (JInt pr).
    reflexivity. }
  unfold Unmarshal.
  cbn [skip_ws]. change (is_space (byte "{")) with false. cbv iota.
  change (byte "{" =? 0x7B) with true. cbv iota.
  assert (HT1 : exists rest, T1 = String dquote rest).
  { subst T1. unfold key. eexists. reflexivity. }
  destruct HT1 as [rest1 HT1].
  assert (Hlen : (9 <= String.length (String "{" T1))%nat).
  { subst T1. simpl String.length. rewrite !length_append. simpl. lia. }
  rewrite (members_mono 9 _ _ _ _ Hm Hlen).
  rewrite HT1 at 1. cbn [skip_ws]. change (is_space (byte dquote)) with false. cbv iota.
  change (byte dquote =? 0x7D) with false. cbv iota.
  reflexivity.
Qed.

End JSONRoundTrip.

(** ** Now-playing cache: freshness *)

Section NowPlayingCache.

Lemma CacheCurrentlyPlaying_data now owner track w w1 :
  CacheCurrentlyPlaying now owner track w = (Ok tt, w1) ->
  exists text,
    Marshal track = Ok text
    /\ rdata (redis w1)
       = <[cache_key owner := {| rval := RString text;
                                 rexp := Some (Add now (2 * Minute)) |}]>
           (rdata (redis w)).
Proof.
  unfold CacheCurrentlyPlaying. destruct (Marshal track) as [text|e] eqn:Hm; [|discriminate].
  unfold on_redis, Set_, request. destruct (next_fault (rfail (redis w))) as [[] fs];
    simpl; intros H; inversion H; subst; clear H.
  exists text. split; reflexivity.
Qed.

Lemma GetCachedCurrentlyPlaying_live now owner w text exp :
  redis_answers w ->
  rdata (redis w) !! cache_key owner = Some {| rval := RString text; rexp := Some exp |} ->
  now < exp ->
  fst (GetCachedCurrentlyPlaying now owner w)
  = match Unmarshal text with Ok t => Ok t | Err e => Err e end.
Proof.
  unfold redis_answers, GetCachedCurrentlyPlaying, on_redis, Get, request, lookup_live.
  intros Hup Hk Hlt. fold (cache_key owner).
  destruct (next_fault (rfail (redis w))) as [f fs]. simpl in Hup. subst f. simpl.
  rewrite Hk. unfold live. simpl. destruct (Z.ltb_spec now exp); [|lia].
  destruct (Unmarshal text); reflexivity.
Qed.

Lemma GetCachedCurrentlyPlaying_expired now owner w v exp :
  redis_answers w ->
  rdata (redis w) !! cache_key owner = Some {| rval := v; rexp := Some exp |} ->
  exp <= now ->
  fst (GetCachedCurrentlyPlaying now owner w) = Err redis_Nil.
Proof.
  unfold redis_answers, GetCachedCurrentlyPlaying, on_redis, Get, request, lookup_live.
  intros Hup Hk Hlt. fold (cache_key owner).
  destruct (next_fault (rfail (redis w))) as [f fs]. simpl in Hup. subst f. simpl.
  rewrite Hk. unfold live. simpl. destruct (Z.ltb_spec now exp); [lia|]. reflexivity.
Qed.

(** Claim C6, amended.  After [CacheCurrentlyPlaying] stored a snapshot
    for an owner at [t0], and while Redis answers: a read strictly before
    [t0] + 2 minutes returns exactly the stored snapshot, provided its
    text fields are valid UTF-8 and its two counters fit an [int]
    ([well_formed]); a read at or after [t0] + 2 minutes returns the
    absent result [redis.Nil], whatever the snapshot.  The proviso is
    needed: [json.Marshal] replaces invalid UTF-8 by U+FFFD. *)
Theorem cache_freshness owner track t0 t w w1 :
  CacheCurrentlyPlaying t0 owner track w = (Ok tt, w1) ->
  redis_answers w1 ->
  (well_formed track = true -> t < Add t0 (2 * Minute) ->
   fst (GetCachedCurrentlyPlaying t owner w1) = Ok track)
  /\ (Add t0 (2 * Minute) <= t ->
      fst (GetCachedCurrentlyPlaying t owner w1) = Err redis_Nil).
Proof.
  intros Hput Hup.
  destruct (CacheCurrentlyPlaying_data _ _ _ _ _ Hput) as (text & Hm & Hdata).
  assert (Hk : rdata (redis w1) !! cache_key owner
               = Some {| rval := RString text; rexp := Some (Add t0 (2 * Minute)) |}).
  { rewrite Hdata. apply lookup_insert_eq. }
  split.
  - intros Hwf Hlt.
    rewrite (GetCachedCurrentlyPlaying_live _ _ _ _ _ Hup Hk Hlt).
    destruct (Unmarshal_Marshal track Hwf) as (text' & Hm' & Hun).
    rewrite Hm in Hm'. injection Hm' as <-. rewrite Hun. reflexivity.
  - intros Hge. exact (GetCachedCurrentlyPlaying_expired _ _ _ _ _ Hup Hk Hge).
Qed.

Lemma cache_freshness_witness :
  fst (GetCachedCurrentlyPlaying (119 * Second) "u1"
         (snd (CacheCurrentlyPlaying 0 "u1" snapshot_T1 empty_world)))
  = Ok snapshot_T1
  /\ fst (GetCachedCurrentlyPlaying (120 * Second) "u1"
            (snd (CacheCurrentlyPlaying 0 "u1" snapshot_T1 empty_world)))
     = Err redis_Nil.
Proof.
  split.
  - apply (cache_freshness "u1" snapshot_T1 0 (119 * Second) empty_world);
      [reflexivity | reflexivity | reflexivity | reflexivity].
  - apply (cache_freshness "u1" snapshot_T1 0 (120 * Second) empty_world);
      [reflexivity | reflexivity | vm_compute; discriminate].
Defined.

Lemma cache_round_trip_invalid_utf8 : ~ cache_round_trip_for_every_snapshot.
Proof.
  intros H.
  specialize (H "u1" snapshot_invalid_utf8 0 1 empty_world _ eq_refl eq_refl eq_refl eq_refl).
  assert (Hin : 0 <= 1 < Add 0 (2 * Minute)) by (vm_compute; split; congruence).
  specialize (H Hin). vm_compute in H. discriminate H.
Qed.

End NowPlayingCache.

(** ** Presence: the active-viewer count and renewal *)

Section Presence.

Lemma GetActiveUserCount_nonneg now userID w n :
  fst (GetActiveUserCount now userID w) = Ok n -> 0 <= n.
Proof.
  unfold GetActiveUserCount, on_redis, GetSetSize, request.
  destruct (next_fault (rfail (redis w))) as [[] fs]; simpl; [discriminate|].
  destruct (lookup_live now _ _) as [[[v|s] x]|]; simpl; intros H;
    inversion H; subst; lia.
Qed.

Lemma visitor_key_ne visitID userID : visitor_key visitID <> visitors_key userID.
Proof. unfold visitor_key, visitors_key. simpl. congruence. Qed.

(** Claim C1: the code departs from it.  [RecordProfileVisit] writes
    two keys: [visitor:<visit>], which expires after 5 minutes, and the
    member <visit> of the set [visitors:<owner>], which does not expire.
    [GetActiveUserCount] is the cardinality of that set.  So once 5
    minutes have passed without any renewal the presence entry of the
    visit is gone, and the visit is still counted: on a store that had no
    [visitors:<owner>] set before the visit, the count is 1 and not 0. *)
Theorem visit_counted_after_expiry now later uuid userID ip ua ref vu w w1 :
  rfail (redis w) = [] ->
  rdata (redis w) !! visitors_key userID = None ->
  RecordProfileVisit now uuid userID ip ua ref vu w = (Ok uuid, w1) ->
  Add now (5 * Minute) <= later ->
  lookup_live later (visitor_key uuid) (redis w1) = None
  /\ fst (GetActiveUserCount later userID w1) = Ok 1.
Proof.
  intros Hup Hnone Hrec Hlater.
  pose proof (visitor_key_ne uuid userID) as Hne.
  unfold RecordProfileVisit in Hrec.
  destruct (on_db _ w) as [r0 w0] eqn:Hdb.
  assert (Hr0 : redis w0 = redis w).
  { unfold on_db in Hdb. destruct (sqlx.InsertVisit _ _). inversion Hdb. reflexivity. }
  destruct r0 as [[]|e]; [|discriminate].
  fold (visitor_key uuid) (visitors_key userID) in Hrec.
  unfold on_redis, Set_, AddToSet, request, lookup_live in Hrec.
  rewrite Hr0, Hup in Hrec. simpl in Hrec.
  rewrite lookup_insert_ne in Hrec by assumption. rewrite Hnone in Hrec.
  simpl in Hrec. inversion Hrec; subst; clear Hrec.
  unfold GetActiveUserCount, on_redis, GetSetSize, request, lookup_live. simpl.
  fold (visitors_key userID).
  rewrite lookup_insert_ne by congruence. rewrite !lookup_insert_eq. simpl.
  unfold live. simpl. destruct (Z.ltb_spec later (Add now (5 * Minute))); [lia|].
  split; [reflexivity|].
  change (Ok (Z.of_nat (size ({[uuid]} : gset string))) = Ok 1).
  rewrite size_singleton. reflexivity.
Qed.

Lemma visit_counted_after_expiry_witness :
  lookup_live (300 * Second) (visitor_key id_V1)
    (redis (snd (RecordProfileVisit 0 id_V1 id_U "10.0.0.1" "agent" "ref" None empty_world)))
  = None
  /\ fst (GetActiveUserCount (300 * Second) id_U
            (snd (RecordProfileVisit 0 id_V1 id_U "10.0.0.1" "agent" "ref" None empty_world)))
     = Ok 1.
Proof.
  apply (visit_counted_after_expiry 0 (300 * Second) id_V1 id_U "10.0.0.1" "agent" "ref"
           None empty_world);
    [reflexivity | reflexivity | reflexivity | vm_compute; discriminate].
Defined.

Lemma RenewVisitorActivity_data now visitID w :
  redis_answers w ->
  fst (RenewVisitorActivity now visitID w) = Ok tt
  /\ rdata (redis (snd (RenewVisitorActivity now visitID w)))
     = <[visitor_key visitID := presence_entry now]> (rdata (redis w))
  /\ rpublished (redis (snd (RenewVisitorActivity now visitID w))) = rpublished (redis w)
  /\ rfail (redis (snd (RenewVisitorActivity now visitID w)))
     = snd (next_fault (rfail (redis w))).
Proof.
  unfold redis_answers, RenewVisitorActivity, on_redis, Set_, request.
  fold (visitor_key visitID).
  destruct (next_fault (rfail (redis w))) as [f fs]. simpl. intros ->. simpl.
  repeat split.
Qed.

(** Claim C7, amended.  While Redis answers, [RenewVisitorActivity] at
    [now] succeeds and sets [visitor:<visit>] to the value 1 expiring at
    [now] + 5 minutes, whether or not the entry was there: the entry is
    found at every instant before that expiry and at none from it on.
    The call is idempotent: a renewal after a renewal leaves the store as
    the single later renewal does.  An entry that had expired, or was
    never written, is created anew. *)
Theorem RenewVisitorActivity_resets_expiry now visitID w :
  redis_answers w ->
  let w1 := snd (RenewVisitorActivity now visitID w) in
  fst (RenewVisitorActivity now visitID w) = Ok tt
  /\ rdata (redis w1) = <[visitor_key visitID := presence_entry now]> (rdata (redis w))
  /\ (forall later, later < Add now (5 * Minute) ->
        lookup_live later (visitor_key visitID) (redis w1) = Some (presence_entry now))
  /\ (forall later, Add now (5 * Minute) <= later ->
        lookup_live later (visitor_key visitID) (redis w1) = None)
  /\ (forall again, redis_answers w1 ->
        rdata (redis (snd (RenewVisitorActivity again visitID w1)))
        = rdata (redis (snd (RenewVisitorActivity again visitID w)))).
Proof.
  intros Hup. cbv zeta.
  destruct (RenewVisitorActivity_data now visitID w Hup) as (Hok & Hdata & _ & _).
  split; [exact Hok|]. split; [exact Hdata|].
  split; [|split].
  - intros later Hlt. unfold lookup_live. rewrite Hdata, lookup_insert_eq.
    unfold live, presence_entry. simpl.
    destruct (Z.ltb_spec later (Add now (5 * Minute))); [reflexivity | lia].
  - intros later Hge. unfold lookup_live. rewrite Hdata, lookup_insert_eq.
    unfold live, presence_entry. simpl.
    destruct (Z.ltb_spec later (Add now (5 * Minute))); [lia | reflexivity].
  - intros again Hup1.
    destruct (RenewVisitorActivity_data again visitID _ Hup1) as (_ & Hd1 & _ & _).
    destruct (RenewVisitorActivity_data again visitID w Hup) as (_ & Hd2 & _ & _).
    rewrite Hd1, Hd2, Hdata. apply insert_insert_eq.
Qed.

Lemma RenewVisitorActivity_resets_expiry_witness :
  fst (RenewVisitorActivity (60 * Second) id_V1 world_with_visit_V1) = Ok tt
  /\ lookup_live (359 * Second) (visitor_key id_V1)
       (redis (snd (RenewVisitorActivity (60 * Second) id_V1 world_with_visit_V1)))
     = Some (presence_entry (60 * Second)).
Proof.
  destruct (RenewVisitorActivity_resets_expiry (60 * Second) id_V1 world_with_visit_V1)
    as (Hok & _ & Hlive & _); [reflexivity|].
  split; [exact Hok|]. apply Hlive. reflexivity.
Defined.

Lemma renew_resurrects_expired_entry : ~ renew_leaves_expired_entry_absent.
Proof.
  intros H.
  destruct (H (300 * Second) id_V1 world_with_visit_V1) as [_ Habsent];
    [reflexivity | reflexivity |].
  vm_compute in Habsent. discriminate Habsent.
Qed.

End Presence.

(** ** Refresh paths: the footprint of each service call *)

Lemma moved_refl w : moved false false false [] w w.
Proof. repeat split. unfold sent. rewrite app_nil_r. reflexivity. Qed.

Lemma moved_trans K1 P1 H1 l1 K2 P2 H2 l2 w1 w2 w3 :
  moved K1 P1 H1 l1 w1 w2 -> moved K2 P2 H2 l2 w2 w3 ->
  moved (K1 || K2) (P1 || P2) (H1 || H2) (l1 ++ l2) w1 w3.
Proof.
  unfold moved. intros (A & B & C & D & E) (A' & B' & C' & D' & E').
  repeat split.
  - intros F. apply orb_false_iff in F as [F1 F2]. rewrite A', A; auto.
  - intros F. apply orb_false_iff in F as [F1 F2]. rewrite B', B; auto.
  - intros F. apply orb_false_iff in F as [F1 F2]. rewrite C', C; auto.
  - rewrite D', D, app_assoc. reflexivity.
  - congruence.
Qed.

Lemma moved_weaken (K P H : bool) w w' :
  moved false false false [] w w' -> moved K P H [] w w'.
Proof.
  intros (A & B & C & D & E). repeat split; auto.
Qed.

Lemma moved_intro w w' :
  keyspace w' = keyspace w -> published w' = published w -> history w' = history w ->
  sent w' = sent w -> provider w' = provider w ->
  moved false false false [] w w'.
Proof.
  intros A B C D E. repeat split; auto. rewrite D, app_nil_r. reflexivity.
Qed.

Lemma moved_log msg w : moved false false false [] w (log msg w).
Proof. apply moved_intro; reflexivity. Qed.

Lemma moved_log_err msg e w : moved false false false [] w (log_err msg e w).
Proof. apply moved_intro; reflexivity. Qed.

Lemma moved_log_if_err {A} msg (r : result A) w :
  moved false false false [] w (log_if_err msg r w).
Proof. destruct r; apply moved_intro; reflexivity. Qed.

Lemma healthy_log msg w : healthy w -> healthy (log msg w).
Proof. exact (fun H => H). Qed.

Lemma healthy_log_err msg e w : healthy w -> healthy (log_err msg e w).
Proof. exact (fun H => H). Qed.

Lemma healthy_log_if_err {A} msg (r : result A) w :
  healthy w -> healthy (log_if_err msg r w).
Proof. destruct r; exact (fun H => H). Qed.

(** *** Statements and requests *)

Lemma statement_tracks {A} uuids (k : sqlx.DB -> result A * sqlx.DB) d :
  (forall d', sqlx.tracks (snd (k d')) = sqlx.tracks d') ->
  sqlx.tracks (snd (sqlx.statement uuids d k)) = sqlx.tracks d.
Proof.
  intros Hk. unfold sqlx.statement.
  destruct (next_fault (sqlx.dbfail d)) as [[] fs]; simpl; [reflexivity|].
  destruct (forallb sqlx.uuid_in uuids); [|reflexivity].
  rewrite Hk. reflexivity.
Qed.

Lemma statement_dbfail {A} uuids (k : sqlx.DB -> result A * sqlx.DB) d :
  sqlx.dbfail d = [] ->
  (forall d', sqlx.dbfail (snd (k d')) = sqlx.dbfail d') ->
  sqlx.dbfail (snd (sqlx.statement uuids d k)) = [].
Proof.
  intros Hd Hk. unfold sqlx.statement. rewrite Hd. simpl.
  destruct (forallb sqlx.uuid_in uuids); [|reflexivity].
  rewrite Hk. reflexivity.
Qed.

Lemma GetContext_tracks {R} (table : sqlx.DB -> list R) uuids p d :
  sqlx.tracks (snd (sqlx.GetContext table uuids p d)) = sqlx.tracks d.
Proof.
  unfold sqlx.GetContext. apply statement_tracks. intros d'.
  destruct (find p (table d')); reflexivity.
Qed.

Lemma GetContext_dbfail {R} (table : sqlx.DB -> list R) uuids p d :
  sqlx.dbfail d = [] ->
  sqlx.dbfail (snd (sqlx.GetContext table uuids p d)) = [].
Proof.
  intros Hd. unfold sqlx.GetContext. apply statement_dbfail; [exact Hd|]. intros d'.
  destruct (find p (table d')); reflexivity.
Qed.

Lemma on_db_moved {A} (f : sqlx.DB -> A * sqlx.DB) w :
  (forall d, sqlx.tracks (snd (f d)) = sqlx.tracks d) ->
  moved false false false [] w (snd (on_db f w)).
Proof.
  intros Hf. unfold on_db. specialize (Hf (db w)).
  destruct (f (db w)) as [a d]. simpl in *.
  apply moved_intro; unfold keyspace, published, history, sent, provider;
    simpl; rewrite ?Hf; reflexivity.
Qed.

Lemma on_db_moved_history {A} (f : sqlx.DB -> A * sqlx.DB) w :
  moved false false true [] w (snd (on_db f w)).
Proof.
  unfold on_db. destruct (f (db w)) as [a d]. simpl.
  repeat split; try discriminate. unfold sent. simpl. rewrite app_nil_r. reflexivity.
Qed.

Lemma on_db_healthy {A} (f : sqlx.DB -> A * sqlx.DB) w :
  (sqlx.dbfail (db w) = [] -> sqlx.dbfail (snd (f (db w))) = []) ->
  healthy w -> healthy (snd (on_db f w)).
Proof.
  intros Hf [Hr Hd]. unfold on_db. specialize (Hf Hd).
  destruct (f (db w)) as [a d]. simpl in *. split; assumption.
Qed.

Lemma request_readonly {A} (k : RedisClient -> result A * RedisClient) r :
  (forall r', rdata (snd (k r')) = rdata r' /\ rpublished (snd (k r')) = rpublished r') ->
  rdata (snd (request r k)) = rdata r /\ rpublished (snd (request r k)) = rpublished r.
Proof.
  intros Hk. unfold request.
  destruct (next_fault (rfail r)) as [[] fs]; simpl; [split; reflexivity|].
  destruct (Hk {| rdata := rdata r; rpublished := rpublished r; rsubs := rsubs r;
                  rfail := fs |}) as [H1 H2].
  simpl in *. split; assumption.
Qed.

Lemma request_rfail {A} (k : RedisClient -> result A * RedisClient) r :
  rfail r = [] ->
  (forall r', rfail (snd (k r')) = rfail r') ->
  rfail (snd (request r k)) = [].
Proof.
  intros Hr Hk. unfold request. rewrite Hr. simpl. rewrite Hk. reflexivity.
Qed.

Lemma on_redis_moved {A} (f : RedisClient -> A * RedisClient) w :
  (forall r, rdata (snd (f r)) = rdata r /\ rpublished (snd (f r)) = rpublished r) ->
  moved false false false [] w (snd (on_redis f w)).
Proof.
  intros Hf. unfold on_redis. specialize (Hf (redis w)).
  destruct (f (redis w)) as [a r]. simpl in *. destruct Hf as [Hd Hp].
  apply moved_intro; unfold keyspace, published, history, sent, provider;
    simpl; rewrite ?Hd, ?Hp; reflexivity.
Qed.

Lemma on_redis_healthy {A} (f : RedisClient -> A * RedisClient) w :
  (rfail (redis w) = [] -> rfail (snd (f (redis w))) = []) ->
  healthy w -> healthy (snd (on_redis f w)).
Proof.
  intros Hf [Hr Hd]. unfold on_redis. specialize (Hf Hr).
  destruct (f (redis w)) as [a r]. simpl in *. split; assumption.
Qed.

Lemma Get_readonly now key r :
  rdata (snd (Get now key r)) = rdata r /\ rpublished (snd (Get now key r)) = rpublished r.
Proof.
  unfold Get. apply request_readonly. intros r'.
  destruct (lookup_live now key r') as [[[v|s] x]|]; split; reflexivity.
Qed.

Lemma Get_rfail now key r : rfail r = [] -> rfail (snd (Get now key r)) = [].
Proof.
  intros Hr. unfold Get. apply request_rfail; [exact Hr|]. intros r'.
  destruct (lookup_live now key r') as [[[v|s] x]|]; reflexivity.
Qed.

Lemma GetSetSize_readonly now key r :
  rdata (snd (GetSetSize now key r)) = rdata r
  /\ rpublished (snd (GetSetSize now key r)) = rpublished r.
Proof.
  unfold GetSetSize. apply request_readonly. intros r'.
  destruct (lookup_live now key r') as [[[v|s] x]|]; split; reflexivity.
Qed.

Lemma GetSetSize_rfail now key r : rfail r = [] -> rfail (snd (GetSetSize now key r)) = [].
Proof.
  intros Hr. unfold GetSetSize. apply request_rfail; [exact Hr|]. intros r'.
  destruct (lookup_live now key r') as [[[v|s] x]|]; reflexivity.
Qed.

(** *** The calls that only read the shared state *)

Lemma GetUserByID_moved id w : moved false false false [] w (snd (GetUserByID id w)).
Proof.
  unfold GetUserByID.
  pose proof (on_db_moved (sqlx.GetContext sqlx.users [id] (fun u => String.eqb (ID u) id)) w
                (GetContext_tracks _ _ _)) as Q.
  destruct (on_db _ w) as [[u|e] w']; exact Q.
Qed.

Lemma GetUserByID_healthy id w : healthy w -> healthy (snd (GetUserByID id w)).
Proof.
  intros Hh. unfold GetUserByID.
  pose proof (on_db_healthy (sqlx.GetContext sqlx.users [id] (fun u => String.eqb (ID u) id)) w
                (GetContext_dbfail _ _ _ _) Hh) as Q.
  destruct (on_db _ w) as [[u|e] w']; exact Q.
Qed.

Lemma GetUserByProfileURL_moved url w :
  moved false false false [] w (snd (GetUserByProfileURL url w)).
Proof.
  unfold GetUserByProfileURL.
  pose proof (on_db_moved
                (sqlx.GetContext sqlx.users [] (fun u => String.eqb (ProfileURL u) url)) w
                (GetContext_tracks _ _ _)) as Q.
  destruct (on_db _ w) as [[u|e] w']; exact Q.
Qed.

Lemma GetProfile_moved id w : moved false false false [] w (snd (GetProfile id w)).
Proof.
  unfold GetProfile.
  pose proof (on_db_moved
                (sqlx.GetContext sqlx.profiles [id] (fun p => String.eqb (pUserID p) id)) w
                (GetContext_tracks _ _ _)) as Q.
  destruct (on_db _ w) as [[u|e] w']; exact Q.
Qed.

Lemma GetProfile_healthy id w : healthy w -> healthy (snd (GetProfile id w)).
Proof.
  intros Hh. unfold GetProfile.
  pose proof (on_db_healthy
                (sqlx.GetContext sqlx.profiles [id] (fun p => String.eqb (pUserID p) id)) w
                (GetContext_dbfail _ _ _ _) Hh) as Q.
  destruct (on_db _ w) as [[u|e] w']; exact Q.
Qed.

Lemma UpdateUserToken_moved now id tok exp w :
  moved false false false [] w (snd (UpdateUserToken now id tok exp w)).
Proof.
  unfold UpdateUserToken.
  match goal with
  | |- context [on_db ?f w] =>
    assert (Q : moved false false false [] w (snd (on_db f w)))
  end.
  { apply on_db_moved. intros d. unfold sqlx.UpdateToken. apply statement_tracks.
    reflexivity. }
  destruct (on_db _ w) as [[u|e] w']; exact Q.
Qed.

Lemma UpdateUserToken_healthy now id tok exp w :
  healthy w -> healthy (snd (UpdateUserToken now id tok exp w)).
Proof.
  intros Hh. unfold UpdateUserToken.
  match goal with
  | |- context [on_db ?f w] => assert (Q : healthy (snd (on_db f w)))
  end.
  { apply on_db_healthy; [|exact Hh]. intros Hd. unfold sqlx.UpdateToken.
    apply statement_dbfail; [exact Hd | reflexivity]. }
  destruct (on_db _ w) as [[u|e] w']; exact Q.
Qed.

Lemma GetRecentTracks_moved id limit w :
  moved false false false [] w (snd (GetRecentTracks id limit w)).
Proof.
  unfold GetRecentTracks.
  match goal with
  | |- context [on_db ?f w] =>
    assert (Q : moved false false false [] w (snd (on_db f w)))
  end.
  { apply on_db_moved. intros d. unfold sqlx.SelectRecentTracks. apply statement_tracks.
    intros d'. destruct (limit <? 0); reflexivity. }
  destruct (on_db _ w) as [[u|e] w']; exact Q.
Qed.

Lemma GetRecentTracks_healthy id limit w :
  healthy w -> healthy (snd (GetRecentTracks id limit w)).
Proof.
  intros Hh. unfold GetRecentTracks.
  match goal with
  | |- context [on_db ?f w] => assert (Q : healthy (snd (on_db f w)))
  end.
  { apply on_db_healthy; [|exact Hh]. intros Hd. unfold sqlx.SelectRecentTracks.
    apply statement_dbfail; [exact Hd |]. intros d'. destruct (limit <? 0); reflexivity. }
  destruct (on_db _ w) as [[u|e] w']; exact Q.
Qed.

Lemma GetCachedCurrentlyPlaying_moved now id w :
  moved false false false [] w (snd (GetCachedCurrentlyPlaying now id w)).
Proof.
  unfold GetCachedCurrentlyPlaying.
  pose proof (on_redis_moved (Get now ("track:current:" +:+ id)) w (Get_readonly _ _)) as Q.
  destruct (on_redis _ w) as [[text|e] w']; [|exact Q].
  destruct (Unmarshal text); exact Q.
Qed.

Lemma GetCachedCurrentlyPlaying_healthy now id w :
  healthy w -> healthy (snd (GetCachedCurrentlyPlaying now id w)).
Proof.
  intros Hh. unfold GetCachedCurrentlyPlaying.
  pose proof (on_redis_healthy (Get now ("track:current:" +:+ id)) w (Get_rfail _ _ _) Hh)
    as Q.
  destruct (on_redis _ w) as [[text|e] w']; [|exact Q].
  destruct (Unmarshal text); exact Q.
Qed.

Lemma GetActiveUserCount_moved now id w :
  moved false false false [] w (snd (GetActiveUserCount now id w)).
Proof.
  unfold GetActiveUserCount.
  pose proof (on_redis_moved (GetSetSize now ("visitors:" +:+ id)) w
                (GetSetSize_readonly _ _)) as Q.
  destruct (on_redis _ w) as [[n|e] w']; exact Q.
Qed.

Lemma GetActiveUserCount_healthy now id w :
  healthy w -> healthy (snd (GetActiveUserCount now id w)).
Proof.
  intros Hh. unfold GetActiveUserCount.
  pose proof (on_redis_healthy (GetSetSize now ("visitors:" +:+ id)) w
                (GetSetSize_rfail _ _ _) Hh) as Q.
  destruct (on_redis _ w) as [[n|e] w']; exact Q.
Qed.

(** *** The two calls to the provider: the answer, and the request recorded *)

Lemma RefreshAccessToken_spec rt w :
  fst (RefreshAccessToken rt w) = fst (provider w) rt
  /\ moved false false false [spotify.TokenRequest rt] w (snd (RefreshAccessToken rt w)).
Proof. repeat split. Qed.

Lemma RefreshAccessToken_healthy rt w :
  healthy w -> healthy (snd (RefreshAccessToken rt w)).
Proof. exact (fun H => H). Qed.

Lemma GetCurrentlyPlayingTrack_spec tok w :
  fst (GetCurrentlyPlayingTrack tok w) = snd (provider w) tok
  /\ moved false false false [spotify.PlayerRequest tok] w
       (snd (GetCurrentlyPlayingTrack tok w)).
Proof. repeat split. Qed.

Lemma GetCurrentlyPlayingTrack_healthy tok w :
  healthy w -> healthy (snd (GetCurrentlyPlayingTrack tok w)).
Proof. exact (fun H => H). Qed.

(** *** The three calls that write *)

Lemma Marshal_total track : exists text, Marshal track = Ok text.
Proof. eexists. reflexivity. Qed.

Lemma CacheCurrentlyPlaying_moved now id track w :
  moved true false false [] w (snd (CacheCurrentlyPlaying now id track w)).
Proof.
  unfold CacheCurrentlyPlaying. destruct (Marshal_total track) as [text ->].
  unfold on_redis, Set_, request.
  destruct (next_fault (rfail (redis w))) as [[] fs]; simpl;
    (repeat split; try discriminate; unfold sent; simpl; rewrite app_nil_r; reflexivity).
Qed.

Lemma CacheCurrentlyPlaying_healthy now id track w :
  healthy w ->
  healthy (snd (CacheCurrentlyPlaying now id track w))
  /\ exists text, Marshal track = Ok text
     /\ keyspace (snd (CacheCurrentlyPlaying now id track w))
        = <[cache_key id := {| rval := RString text;
                               rexp := Some (Add now (2 * Minute)) |}]> (keyspace w).
Proof.
  intros [Hr Hd]. unfold CacheCurrentlyPlaying.
  destruct (Marshal_total track) as [text Hm]. rewrite Hm.
  unfold on_redis, Set_, request, healthy, keyspace. rewrite Hr. simpl.
  split; [split; [reflexivity | exact Hd]|]. exists text. split; reflexivity.
Qed.

Lemma NotifyTrackChange_moved id track w :
  moved false true false [] w (snd (NotifyTrackChange id track w)).
Proof.
  unfold NotifyTrackChange. destruct (Marshal_total track) as [text ->].
  unfold on_redis, Publish, request.
  destruct (next_fault (rfail (redis w))) as [[] fs]; simpl;
    (repeat split; try discriminate; unfold sent; simpl; rewrite app_nil_r; reflexivity).
Qed.

Lemma NotifyTrackChange_healthy id track w :
  healthy w ->
  healthy (snd (NotifyTrackChange id track w))
  /\ exists text, Marshal track = Ok text
     /\ published (snd (NotifyTrackChange id track w))
        = (published w ++ [(updates_channel id, text)])%list.
Proof.
  intros [Hr Hd]. unfold NotifyTrackChange.
  destruct (Marshal_total track) as [text Hm]. rewrite Hm.
  unfold on_redis, Publish, request, healthy, published. rewrite Hr. simpl.
  split; [split; [reflexivity | exact Hd]|]. exists text. split; reflexivity.
Qed.

Lemma moved_db_only w w' :
  redis w' = redis w -> spotifyClient w' = spotifyClient w ->
  moved false false true [] w w'.
Proof.
  intros Hr Hc. unfold moved, keyspace, published, sent, provider. rewrite Hr, Hc.
  repeat split; try discriminate. rewrite app_nil_r. reflexivity.
Qed.

Lemma SaveTrackToHistory_moved now track w :
  moved false false true [] w (snd (SaveTrackToHistory now track w)).
Proof.
  apply moved_db_only; unfold SaveTrackToHistory, on_db;
    repeat (cbn [db redis spotifyClient logger fst snd];
            match goal with
            | |- context [sqlx.GetContext ?a ?b ?c ?d] =>
              destruct (sqlx.GetContext a b c d) as [[?|?] ?]
            | |- context [sqlx.UpdatePlayedAt ?a ?b ?c] =>
              destruct (sqlx.UpdatePlayedAt a b c) as [[?|?] ?]
            | |- context [sqlx.ClearCurrentlyPlaying ?a ?b] =>
              destruct (sqlx.ClearCurrentlyPlaying a b) as [[?|?] ?]
            | |- context [sqlx.InsertTrack ?a ?b] =>
              destruct (sqlx.InsertTrack a b) as [[?|?] ?]
            end); reflexivity.
Qed.

Lemma SaveTrackToHistory_healthy now track w :
  healthy w ->
  healthy (snd (SaveTrackToHistory now track w))
  /\ history (snd (SaveTrackToHistory now track w))
     = flip_then_insert now track (history w).
Proof.
  intros [Hr Hd]. destruct w as [d r c l]; destruct d as [us ps ts vs fs].
  simpl in Hr, Hd. subst fs.
  unfold SaveTrackToHistory, flip_then_insert, healthy, history, on_db, sqlx.GetContext,
    sqlx.UpdatePlayedAt, sqlx.ClearCurrentlyPlaying, sqlx.InsertTrack, sqlx.statement.
  simpl.
  destruct (sqlx.uuid_in (tUserID track)); cbn; [|repeat split; auto].
  destruct (find _ ts) as [existing|]; cbn.
  - destruct (sqlx.uuid_in (tID existing)); cbn; repeat split; auto.
  - destruct (sqlx.uuid_in (tID track)); cbn; [|repeat split; auto].
    destruct (existsb _ _); cbn; repeat split; auto.
Qed.

(** *** Walking through a handler

    The next service call is named; its footprint is added to every
    footprint that ends in the world it starts from, and health is
    carried along. *)

Ltac extend wk wk' lem :=
  repeat match goal with
         | Q : moved _ _ _ _ ?w0 wk |- _ =>
           lazymatch goal with
           | _ : moved _ _ _ _ w0 wk' |- _ => fail
           | _ => pose proof (moved_trans _ _ _ _ _ _ _ _ _ _ _ Q lem)
           end
         end.

Ltac carry wk lem :=
  try match goal with
      | Hh : healthy wk |- _ => pose proof (lem Hh)
      end.

Ltac name_world t :=
  let wn := fresh "w" in set (wn := t) in *; clearbody wn.

Ltac facts :=
  repeat match goal with
         | H : _ /\ _ |- _ => destruct H
         | H : exists _, _ |- _ => destruct H
         end.

Ltac settle := cbn [fst snd orb app] in *; facts.

Ltac walk :=
  match goal with
  | |- context [log_if_err ?m ?r ?wk] =>
    is_var wk; extend wk (log_if_err m r wk) (moved_log_if_err m r wk);
    carry wk (healthy_log_if_err m r wk); name_world (log_if_err m r wk)
  | |- context [log_err ?m ?e ?wk] =>
    is_var wk; extend wk (log_err m e wk) (moved_log_err m e wk);
    carry wk (healthy_log_err m e wk); name_world (log_err m e wk)
  | |- context [log ?m ?wk] =>
    is_var wk; extend wk (log m wk) (moved_log m wk);
    carry wk (healthy_log m wk); name_world (log m wk)
  | |- context [GetUserByID ?id ?wk] =>
    is_var wk; extend wk (snd (GetUserByID id wk)) (GetUserByID_moved id wk);
    carry wk (GetUserByID_healthy id wk);
    destruct (GetUserByID id wk) as [?r ?w]
  | |- context [GetProfile ?id ?wk] =>
    is_var wk; extend wk (snd (GetProfile id wk)) (GetProfile_moved id wk);
    carry wk (GetProfile_healthy id wk);
    destruct (GetProfile id wk) as [?r ?w]
  | |- context [UpdateUserToken ?now ?id ?tok ?exp ?wk] =>
    is_var wk;
    extend wk (snd (UpdateUserToken now id tok exp wk))
      (UpdateUserToken_moved now id tok exp wk);
    carry wk (UpdateUserToken_healthy now id tok exp wk);
    destruct (UpdateUserToken now id tok exp wk) as [?r ?w]
  | |- context [GetCachedCurrentlyPlaying ?now ?id ?wk] =>
    is_var wk;
    extend wk (snd (GetCachedCurrentlyPlaying now id wk))
      (GetCachedCurrentlyPlaying_moved now id wk);
    carry wk (GetCachedCurrentlyPlaying_healthy now id wk);
    destruct (GetCachedCurrentlyPlaying now id wk) as [?cached ?w]
  | |- context [GetRecentTracks ?id ?n ?wk] =>
    is_var wk; extend wk (snd (GetRecentTracks id n wk)) (GetRecentTracks_moved id n wk);
    carry wk (GetRecentTracks_healthy id n wk);
    destruct (GetRecentTracks id n wk) as [?r ?w]
  | |- context [GetActiveUserCount ?now ?id ?wk] =>
    is_var wk;
    extend wk (snd (GetActiveUserCount now id wk)) (GetActiveUserCount_moved now id wk);
    carry wk (GetActiveUserCount_healthy now id wk);
    destruct (GetActiveUserCount now id wk) as [?r ?w]
  | |- context [RefreshAccessToken ?rt ?wk] =>
    is_var wk;
    let A := fresh "Htoken" in
    pose proof (proj1 (RefreshAccessToken_spec rt wk)) as A;
    extend wk (snd (RefreshAccessToken rt wk)) (proj2 (RefreshAccessToken_spec rt wk));
    carry wk (RefreshAccessToken_healthy rt wk);
    destruct (RefreshAccessToken rt wk) as [?r ?w]
  | |- context [GetCurrentlyPlayingTrack ?tok ?wk] =>
    is_var wk;
    let A := fresh "Hpoll" in
    pose proof (proj1 (GetCurrentlyPlayingTrack_spec tok wk)) as A;
    extend wk (snd (GetCurrentlyPlayingTrack tok wk))
      (proj2 (GetCurrentlyPlayingTrack_spec tok wk));
    carry wk (GetCurrentlyPlayingTrack_healthy tok wk);
    destruct (GetCurrentlyPlayingTrack tok wk) as [?r ?w]
  | |- context [CacheCurrentlyPlaying ?now ?id ?t ?wk] =>
    is_var wk;
    extend wk (snd (CacheCurrentlyPlaying now id t wk))
      (CacheCurrentlyPlaying_moved now id t wk);
    carry wk (CacheCurrentlyPlaying_healthy now id t wk);
    let wn := fresh "w" in
    destruct (CacheCurrentlyPlaying now id t wk) as [?r wn];
    pose proof (moved_refl wn)
  | |- context [SaveTrackToHistory ?now ?t ?wk] =>
    is_var wk;
    extend wk (snd (SaveTrackToHistory now t wk)) (SaveTrackToHistory_moved now t wk);
    carry wk (SaveTrackToHistory_healthy now t wk);
    let wn := fresh "w" in
    destruct (SaveTrackToHistory now t wk) as [?r wn];
    pose proof (moved_refl wn)
  | |- context [NotifyTrackChange ?id ?t ?wk] =>
    is_var wk;
    extend wk (snd (NotifyTrackChange id t wk)) (NotifyTrackChange_moved id t wk);
    carry wk (NotifyTrackChange_healthy id t wk);
    let wn := fresh "w" in
    destruct (NotifyTrackChange id t wk) as [?r wn];
    pose proof (moved_refl wn)
  end; settle.

Ltac branch :=
  match goal with
  | |- context [match ?r with Ok _ => _ | Err _ => _ end] => is_var r; destruct r
  | |- context [if negb ?b then _ else _] => destruct b eqn:?; cbn [negb]
  | |- context [if ?b then _ else _] => destruct b eqn:?
  end; settle.

(** The leaves: what the footprint from [w] to the final world gives. *)
Ltac unchanged :=
  settle;
  match goal with
  | Q : moved false false false _ ?w ?wk |- shared_state ?wk = shared_state ?w =>
    destruct Q as (Qk & Qp & Qh & _);
    unfold shared_state; rewrite (Qk eq_refl), (Qp eq_refl), (Qh eq_refl); reflexivity
  end.

Lemma provider_moved K P H l w w' : moved K P H l w w' -> provider w' = provider w.
Proof. intros (_ & _ & _ & _ & E). exact E. Qed.

Lemma polls_moved K P H l w w' :
  moved K P H l w w' -> polls w' = (polls w ++ List.filter is_poll l)%list.
Proof.
  intros (_ & _ & _ & Hs & _). unfold polls. rewrite Hs. apply List.filter_app.
Qed.

Lemma not_playing_poll K P H w wk l tok track :
  reports_not_playing w -> moved K P H l w wk ->
  snd (provider wk) tok = Ok track -> IsPlaying track = false.
Proof.
  intros Hidle Q Hp. rewrite (provider_moved _ _ _ _ _ _ Q) in Hp.
  exact (Hidle tok track Hp).
Qed.

Ltac idle Hidle :=
  match goal with
  | Q : moved _ _ _ _ _ ?wk, Hp : Ok ?t = snd (provider ?wk) _,
    Ht : IsPlaying ?t = true |- _ =>
    rewrite (not_playing_poll _ _ _ _ _ _ _ _ Hidle Q (eq_sym Hp)) in Ht; discriminate Ht
  end.

(** ** Refresh paths: an idle poll changes nothing *)

Lemma getCurrentTrack_idle now c w :
  reports_not_playing w ->
  shared_state (snd (getCurrentTrack now c w)) = shared_state w.
Proof.
  intros Hidle. pose proof (moved_refl w) as Q.
  unfold getCurrentTrack. cbv zeta.
  repeat first [walk | branch | unchanged | idle Hidle].
Qed.

Lemma refreshCurrentTrack_idle now c w :
  reports_not_playing w ->
  shared_state (snd (refreshCurrentTrack now c w)) = shared_state w.
Proof.
  intros Hidle. pose proof (moved_refl w) as Q.
  unfold refreshCurrentTrack. cbv zeta.
  repeat first [walk | branch | unchanged | idle Hidle].
Qed.

Lemma GetProfileResponse_idle now user w :
  reports_not_playing w ->
  shared_state (snd (GetProfileResponse now user w)) = shared_state w.
Proof.
  intros Hidle. pose proof (moved_refl w) as Q.
  unfold GetProfileResponse, currentTrackOf. cbv zeta.
  repeat first [walk | branch | unchanged | idle Hidle].
Qed.

(** ** Refresh paths: an idle poll changes nothing *)

(** Claim C5.  When every poll the provider answers reports
    [is_playing = false], none of the three refresh paths
    ([getCurrentTrack], [refreshCurrentTrack], [GetProfileResponse])
    changes the shared state: the Redis keyspace, hence the now-playing
    cache, the published events and the track history are after the call
    what they were before it, whatever the request, the owner and the
    outcomes of the stores. *)
Theorem idle_poll_changes_nothing now w :
  reports_not_playing w ->
  (forall c, shared_state (snd (getCurrentTrack now c w)) = shared_state w)
  /\ (forall c, shared_state (snd (refreshCurrentTrack now c w)) = shared_state w)
  /\ (forall user, shared_state (snd (GetProfileResponse now user w)) = shared_state w).
Proof.
  intros Hidle. split; [|split]; intros x.
  - apply getCurrentTrack_idle, Hidle.
  - apply refreshCurrentTrack_idle, Hidle.
  - apply GetProfileResponse_idle, Hidle.
Qed.

Lemma idle_poll_changes_nothing_witness :
  let w := world_of_U (3600 * Second) (Err "unused") (Ok snapshot_idle) in
  fst (refreshCurrentTrack 0 request_of_U w)
  = gin.JSON http.StatusOK (gin.JSON_track snapshot_idle)
  /\ polls (snd (refreshCurrentTrack 0 request_of_U w))
     = [spotify.PlayerRequest "access-0"]
  /\ shared_state (snd (refreshCurrentTrack 0 request_of_U w)) = shared_state w.
Proof.
  cbv zeta. split; [reflexivity|]. split; [reflexivity|].
  apply (idle_poll_changes_nothing 0
           (world_of_U (3600 * Second) (Err "unused") (Ok snapshot_idle))).
  intros tok track H. injection H as <-. reflexivity.
Defined.

(** ** Refresh paths: a failed token refresh *)

(** The result of a call the hypotheses speak about, and the provider's
    answer carried to the world where the call is made. *)
Ltac known :=
  match goal with
  | H : ?r = Ok _ |- _ => is_var r; subst r
  | H : ?r = Err _ |- _ => is_var r; subst r
  | H : Ok _ = Ok _ |- _ => injection H as H
  | H : Ok _ = Err _ |- _ => discriminate H
  | H : Err _ = Ok _ |- _ => discriminate H
  | Q : moved _ _ _ _ ?w ?wk, H : context [provider ?wk] |- _ =>
    rewrite (provider_moved _ _ _ _ _ _ Q) in H
  end.

Ltac new_polls :=
  match goal with
  | Q : moved _ _ _ _ ?w ?wk |- polls ?wk = _ =>
    rewrite (polls_moved _ _ _ _ _ _ Q); cbn [List.filter is_poll app];
    rewrite ?app_nil_r; reflexivity
  end.

Lemma getCurrentTrack_refresh_failure now c w user e :
  fst (GetUserByID (gin.GetString c "user_id") w) = Ok user ->
  IsSharingEnabled user = true ->
  IsTokenExpired now user = true ->
  fst (provider w) (SpotifyRefreshToken user) = Err e ->
  fst (getCurrentTrack now c w) = refresh_failed
  /\ polls (snd (getCurrentTrack now c w)) = polls w.
Proof.
  intros Huser Hshare Hexp Hfail. pose proof (moved_refl w) as Q.
  unfold getCurrentTrack. cbv zeta.
  walk. subst r. rewrite Hshare, Hexp. cbn [negb].
  walk. repeat known. rewrite Hfail in Htoken. subst r.
  walk. split; [reflexivity | new_polls].
Qed.

Lemma refreshCurrentTrack_refresh_failure now c w user e :
  fst (GetUserByID (gin.GetString c "user_id") w) = Ok user ->
  IsSharingEnabled user = true ->
  IsTokenExpired now user = true ->
  fst (provider w) (SpotifyRefreshToken user) = Err e ->
  fst (refreshCurrentTrack now c w) = refresh_failed
  /\ polls (snd (refreshCurrentTrack now c w)) = polls w.
Proof.
  intros Huser Hshare Hexp Hfail. pose proof (moved_refl w) as Q.
  unfold refreshCurrentTrack. cbv zeta.
  walk. subst r. rewrite Hshare, Hexp. cbn [negb].
  walk. repeat known. rewrite Hfail in Htoken. subst r.
  walk. split; [reflexivity | new_polls].
Qed.

(** The outcome of a read does not depend on what is outside Redis. *)
Lemma GetCachedCurrentlyPlaying_redis now id w w' :
  redis w' = redis w ->
  fst (GetCachedCurrentlyPlaying now id w') = fst (GetCachedCurrentlyPlaying now id w).
Proof.
  intros H. unfold GetCachedCurrentlyPlaying, on_redis. rewrite H.
  destruct (Get now _ (redis w)) as [[text|e] r]; simpl; [|reflexivity].
  destruct (Unmarshal text); reflexivity.
Qed.

Lemma on_db_redis {A} (f : sqlx.DB -> A * sqlx.DB) w : redis (snd (on_db f w)) = redis w.
Proof. unfold on_db. destruct (f (db w)). reflexivity. Qed.

Lemma GetProfile_redis id w : redis (snd (GetProfile id w)) = redis w.
Proof.
  unfold GetProfile.
  match goal with |- context [on_db ?f w] => pose proof (on_db_redis f w) as H end.
  destruct (on_db _ w) as [[p|e] w']; exact H.
Qed.

Lemma GetUserByID_redis id w : redis (snd (GetUserByID id w)) = redis w.
Proof.
  unfold GetUserByID.
  match goal with |- context [on_db ?f w] => pose proof (on_db_redis f w) as H end.
  destruct (on_db _ w) as [[p|e] w']; exact H.
Qed.

Lemma GetProfileResponse_refresh_failure now user w e :
  is_ok (fst (GetProfile (ID user) w)) = true ->
  is_ok (fst (GetCachedCurrentlyPlaying now (ID user) w)) = false ->
  IsSharingEnabled user = true ->
  IsTokenExpired now user = true ->
  fst (provider w) (SpotifyRefreshToken user) = Err e ->
  polls (snd (GetProfileResponse now user w))
  = (polls w ++ [spotify.PlayerRequest (SpotifyAccessToken user)])%list.
Proof.
  intros Hprofile Hmiss Hshare Hexp Hfail.
  pose proof (moved_refl w) as Q.
  unfold GetProfileResponse, currentTrackOf. cbv zeta.
  pose proof (GetProfile_redis (ID user) w) as Hredis.
  walk. destruct r as [profile|e0]; [|discriminate Hprofile].
  rewrite <- (GetCachedCurrentlyPlaying_redis now (ID user) w w0 Hredis) in Hmiss.
  walk. destruct cached as [t|e0]; [discriminate Hmiss|].
  rewrite Hshare, Hexp.
  walk. walk. repeat known. rewrite Hfail in Htoken. subst r.
  repeat first [walk | branch]; new_polls.
Qed.

(** ** What the services write to the log *)

Lemma on_db_logger {A} (f : sqlx.DB -> A * sqlx.DB) w :
  logger (snd (on_db f w)) = logger w /\ spotifyClient (snd (on_db f w)) = spotifyClient w.
Proof. unfold on_db. destruct (f (db w)). split; reflexivity. Qed.

Lemma on_redis_logger {A} (f : RedisClient -> A * RedisClient) w :
  logger (snd (on_redis f w)) = logger w
  /\ spotifyClient (snd (on_redis f w)) = spotifyClient w.
Proof. unfold on_redis. destruct (f (redis w)). split; reflexivity. Qed.

Lemma on_spotify_logger {A} (f : spotify.Client -> A * spotify.Client) w :
  logger (snd (on_spotify f w)) = logger w.
Proof. unfold on_spotify. destruct (f (spotifyClient w)). reflexivity. Qed.

Ltac quiet :=
  repeat match goal with
         | |- context [on_db ?f ?w] =>
           let H := fresh "H" in
           pose proof (proj1 (on_db_logger f w)) as H;
           destruct (on_db f w) as [[?|?] ?]; cbn [fst snd] in *
         | |- context [on_redis ?f ?w] =>
           let H := fresh "H" in
           pose proof (proj1 (on_redis_logger f w)) as H;
           destruct (on_redis f w) as [[?|?] ?]; cbn [fst snd] in *
         | |- context [on_spotify ?f ?w] =>
           let H := fresh "H" in
           pose proof (on_spotify_logger f w) as H;
           destruct (on_spotify f w) as [[?|?] ?]; cbn [fst snd] in *
         | |- context [match ?x with Ok _ => _ | Err _ => _ end] =>
           destruct x; cbn [fst snd] in *
         end;
  congruence.

Lemma GetProfile_logger id w : logger (snd (GetProfile id w)) = logger w.
Proof. unfold GetProfile. quiet. Qed.

Lemma GetCachedCurrentlyPlaying_logger now id w :
  logger (snd (GetCachedCurrentlyPlaying now id w)) = logger w.
Proof. unfold GetCachedCurrentlyPlaying. quiet. Qed.

Lemma RefreshAccessToken_logger rt w :
  logger (snd (RefreshAccessToken rt w)) = logger w.
Proof. reflexivity. Qed.

Lemma GetCurrentlyPlayingTrack_logger tok w :
  logger (snd (GetCurrentlyPlayingTrack tok w)) = logger w.
Proof. reflexivity. Qed.

Lemma CacheCurrentlyPlaying_logger now id t w :
  logger (snd (CacheCurrentlyPlaying now id t w)) = logger w.
Proof. unfold CacheCurrentlyPlaying. quiet. Qed.

Lemma SaveTrackToHistory_logger now t w :
  logger (snd (SaveTrackToHistory now t w)) = logger w.
Proof. unfold SaveTrackToHistory. quiet. Qed.

Lemma NotifyTrackChange_logger id t w :
  logger (snd (NotifyTrackChange id t w)) = logger w.
Proof. unfold NotifyTrackChange. quiet. Qed.

Lemma GetRecentTracks_logger id n w :
  logger (snd (GetRecentTracks id n w)) = logger w.
Proof. unfold GetRecentTracks. quiet. Qed.

Lemma GetActiveUserCount_logger now id w :
  logger (snd (GetActiveUserCount now id w)) = logger w.
Proof. unfold GetActiveUserCount. quiet. Qed.


Lemma grows_same w w' : logger w' = logger w -> grows w w'.
Proof. intros H. exists []. rewrite app_nil_r. exact H. Qed.

Lemma grows_trans w w' w'' : grows w w' -> grows w' w'' -> grows w w''.
Proof.
  intros [l H] [l' H']. exists (l ++ l')%list. rewrite H', H, app_assoc. reflexivity.
Qed.

Lemma grows_log msg w w' : grows w w' -> grows w (log msg w').
Proof. intros [l H]. exists (l ++ [msg])%list. cbn. rewrite H, app_assoc. reflexivity. Qed.

Lemma grows_log_err msg e w w' : grows w w' -> grows w (log_err msg e w').
Proof. apply grows_log. Qed.

Lemma grows_log_if_err {A} msg (r : result A) w w' :
  grows w w' -> grows w (log_if_err msg r w').
Proof. destruct r; [exact (fun H => H) | apply grows_log_err]. Qed.

Lemma rest_of_response_grows now user profile (current : option Track) w0 w :
  grows w0 w ->
  grows w0
    (snd (let '(recentTracks, w) :=
            if ShowHistory profile then
              let '(r, w) := GetRecentTracks (ID user) 10 w in
              match r with
              | Err e => ([], log_err "Failed to get recent tracks" e w)
              | Ok ts => (ts, w)
              end
            else ([], w) in
          let '(viewerCount, w) :=
            if ShowStats profile then
              let '(r, w) := GetActiveUserCount now (ID user) w in
              match r with
              | Err e => (0, log_err "Failed to get active viewer count" e w)
              | Ok count => (count, w)
              end
            else (0, w) in
          let publicUser := {| upID := ID user; upDisplayName := DisplayName user;
                               upProfileURL := ProfileURL user |} in
          (Ok {| prUser := publicUser; prProfile := profile;
                 CurrentTrack := current; RecentTracks := recentTracks;
                 ViewerCount := viewerCount |}, w))).
Proof.
  intros H.
  assert (H1 : exists ts w1,
             (if ShowHistory profile then
                let '(r, w) := GetRecentTracks (ID user) 10 w in
                match r with
                | Err e => ([], log_err "Failed to get recent tracks" e w)
                | Ok ts => (ts, w)
                end
              else ([], w)) = (ts, w1) /\ grows w0 w1).
  { destruct (ShowHistory profile); [|eexists _, _; split; [reflexivity|exact H]].
    pose proof (GetRecentTracks_logger (ID user) 10 w) as Hl.
    destruct (GetRecentTracks (ID user) 10 w) as [[ts|e] w1]; cbn [snd] in Hl;
      eexists _, _; (split; [reflexivity|]).
    - exact (grows_trans _ _ _ H (grows_same _ _ Hl)).
    - apply grows_log_err. exact (grows_trans _ _ _ H (grows_same _ _ Hl)). }
  destruct H1 as (ts & w1 & -> & H1).
  destruct (ShowStats profile); [|exact H1].
  pose proof (GetActiveUserCount_logger now (ID user) w1) as Hl.
  destruct (GetActiveUserCount now (ID user) w1) as [[n|e] w2]; cbn [snd] in Hl |- *.
  - exact (grows_trans _ _ _ H1 (grows_same _ _ Hl)).
  - apply grows_log_err. exact (grows_trans _ _ _ H1 (grows_same _ _ Hl)).
Qed.

Lemma poll_and_after_grows now user w0 w :
  grows w0 w ->
  grows w0
    (snd (let '(r, w) := GetCurrentlyPlayingTrack (SpotifyAccessToken user) w in
          match r with
          | Err e => (None, log_err "Failed to get currently playing track" e w)
          | Ok spotifyTrack =>
            if IsPlaying spotifyTrack then
              let '(r, w) := CacheCurrentlyPlaying now (ID user) spotifyTrack w in
              let w := log_if_err "Failed to cache currently playing track" r w in
              let currentTrack := track_of (ID user) now spotifyTrack in
              let '(_, w) := SaveTrackToHistory now currentTrack w in
              let '(_, w) := NotifyTrackChange (ID user) spotifyTrack w in
              (Some currentTrack, w)
            else (None, w)
          end)).
Proof.
  intros H.
  pose proof (GetCurrentlyPlayingTrack_logger (SpotifyAccessToken user) w) as Hl.
  destruct (GetCurrentlyPlayingTrack (SpotifyAccessToken user) w) as [[t|e] w1];
    cbn [snd] in Hl.
  - assert (H1 : grows w0 w1) by exact (grows_trans _ _ _ H (grows_same _ _ Hl)).
    destruct (IsPlaying t); [|exact H1].
    pose proof (CacheCurrentlyPlaying_logger now (ID user) t w1) as Hc.
    destruct (CacheCurrentlyPlaying now (ID user) t w1) as [r w2]; cbn [snd] in Hc.
    cbv zeta.
    assert (H2 : grows w0 (log_if_err "Failed to cache currently playing track" r w2)).
    { apply grows_log_if_err. exact (grows_trans _ _ _ H1 (grows_same _ _ Hc)). }
    pose proof (SaveTrackToHistory_logger now (track_of (ID user) now t)
                  (log_if_err "Failed to cache currently playing track" r w2)) as Hs.
    destruct (SaveTrackToHistory now _ _) as [r3 w3]; cbn [snd] in Hs.
    pose proof (NotifyTrackChange_logger (ID user) t w3) as Hn.
    destruct (NotifyTrackChange (ID user) t w3) as [r4 w4]; cbn [snd] in Hn |- *.
    exact (grows_trans _ _ _ H2
             (grows_trans _ _ _ (grows_same _ _ Hs) (grows_same _ _ Hn))).
  - apply grows_log_err. exact (grows_trans _ _ _ H (grows_same _ _ Hl)).
Qed.

Lemma GetProfileResponse_logs_refresh_failure now user w e :
  is_ok (fst (GetProfile (ID user) w)) = true ->
  is_ok (fst (GetCachedCurrentlyPlaying now (ID user) w)) = false ->
  IsSharingEnabled user = true ->
  IsTokenExpired now user = true ->
  fst (provider w) (SpotifyRefreshToken user) = Err e ->
  exists before after,
    logger (snd (GetProfileResponse now user w))
    = (logger w ++ before ++ wrap "Failed to refresh access token" e :: after)%list.
Proof.
  intros Hprofile Hmiss Hshare Hexp Hfail.
  unfold GetProfileResponse.
  pose proof (GetProfile_logger (ID user) w) as Hl1.
  pose proof (GetProfile_redis (ID user) w) as Hr1.
  pose proof (provider_moved _ _ _ _ _ _ (GetProfile_moved (ID user) w)) as Hp1.
  destruct (GetProfile (ID user) w) as [[profile|e0] w1]; [|discriminate Hprofile].
  cbn [fst snd] in *.
  rewrite <- (GetCachedCurrentlyPlaying_redis now (ID user) w w1 Hr1) in Hmiss.
  unfold currentTrackOf.
  pose proof (GetCachedCurrentlyPlaying_logger now (ID user) w1) as Hl2.
  pose proof (provider_moved _ _ _ _ _ _
                (GetCachedCurrentlyPlaying_moved now (ID user) w1)) as Hp2.
  destruct (GetCachedCurrentlyPlaying now (ID user) w1) as [[t|e1] w2];
    [discriminate Hmiss|].
  cbn [fst snd] in *. rewrite Hshare, Hexp.
  assert (Htoken : fst (RefreshAccessToken (SpotifyRefreshToken user)
                          (log "Refreshing expired Spotify token" w2)) = Err e).
  { rewrite <- Hfail, <- Hp1, <- Hp2. reflexivity. }
  pose proof (RefreshAccessToken_logger (SpotifyRefreshToken user)
                (log "Refreshing expired Spotify token" w2)) as Hl3.
  destruct (RefreshAccessToken _ _) as [r w3]. cbn [fst snd] in *. subst r.
  set (wf := log_err "Failed to refresh access token" e w3).
  assert (Hwf : logger wf
                = (logger w ++ ["Refreshing expired Spotify token"]
                   ++ [wrap "Failed to refresh access token" e])%list).
  { unfold wf. cbn. rewrite Hl3. cbn. rewrite Hl2, Hl1, <- app_assoc. reflexivity. }
  pose proof (poll_and_after_grows now user wf wf (grows_same _ _ eq_refl)) as Hg.
  destruct (let '(r, w) := GetCurrentlyPlayingTrack (SpotifyAccessToken user) wf in _)
    as [current w4]. cbn [snd] in Hg.
  pose proof (rest_of_response_grows now user profile current wf w4 Hg) as [l Hl].
  exists ["Refreshing expired Spotify token"], l.
  etransitivity; [exact Hl|]. rewrite Hwf, <- !app_assoc. reflexivity.
Qed.

(** Claim C3, amended.  The owner shares, the token is due for refresh
    and the provider refuses the refresh.  On [getCurrentTrack] and on
    [refreshCurrentTrack] the request is answered 500 "Failed to refresh
    Spotify access" and no poll is sent.  [GetProfileResponse], on a cache
    miss, does not abort: it logs "Failed to refresh access token" with
    the error of the provider, and it polls the provider once, with the
    access token the user record holds. *)
Theorem refresh_failure_aborts_in_handlers now user w e :
  IsSharingEnabled user = true ->
  IsTokenExpired now user = true ->
  fst (provider w) (SpotifyRefreshToken user) = Err e ->
  (forall c, fst (GetUserByID (gin.GetString c "user_id") w) = Ok user ->
     fst (getCurrentTrack now c w) = refresh_failed
     /\ polls (snd (getCurrentTrack now c w)) = polls w)
  /\ (forall c, fst (GetUserByID (gin.GetString c "user_id") w) = Ok user ->
        fst (refreshCurrentTrack now c w) = refresh_failed
        /\ polls (snd (refreshCurrentTrack now c w)) = polls w)
  /\ (is_ok (fst (GetProfile (ID user) w)) = true ->
      is_ok (fst (GetCachedCurrentlyPlaying now (ID user) w)) = false ->
      polls (snd (GetProfileResponse now user w))
      = (polls w ++ [spotify.PlayerRequest (SpotifyAccessToken user)])%list
      /\ exists before after,
           logger (snd (GetProfileResponse now user w))
           = (logger w ++ before
              ++ wrap "Failed to refresh access token" e :: after)%list).
Proof.
  intros Hshare Hexp Hfail. split; [|split].
  - intros c Hu. eapply getCurrentTrack_refresh_failure; eassumption.
  - intros c Hu. eapply refreshCurrentTrack_refresh_failure; eassumption.
  - intros Hp Hm. split.
    + eapply GetProfileResponse_refresh_failure; eassumption.
    + eapply GetProfileResponse_logs_refresh_failure; eassumption.
Qed.

Lemma refresh_failure_aborts_in_handlers_witness :
  let w := world_of_U 0 (Err "invalid_grant") (Ok snapshot_T1) in
  (fst (getCurrentTrack (3600 * Second) request_of_U w) = refresh_failed
   /\ polls (snd (getCurrentTrack (3600 * Second) request_of_U w)) = [])
  /\ polls (snd (GetProfileResponse (3600 * Second) (user_U 0) w))
     = [spotify.PlayerRequest "access-0"]
  /\ exists before after,
       logger (snd (GetProfileResponse (3600 * Second) (user_U 0) w))
       = (before ++ wrap "Failed to refresh access token" "invalid_grant" :: after)%list.
Proof.
  cbv zeta.
  destruct (refresh_failure_aborts_in_handlers (3600 * Second) (user_U 0)
              (world_of_U 0 (Err "invalid_grant") (Ok snapshot_T1)) "invalid_grant")
    as (Hcur & _ & Hprof); [reflexivity | reflexivity | reflexivity |].
  split.
  - apply (Hcur request_of_U). reflexivity.
  - destruct Hprof as [Hpolls Hlog]; [reflexivity | reflexivity |].
    split; [exact Hpolls | exact Hlog].
Defined.

Lemma profile_response_polls_with_stale_token :
  ~ profile_response_aborts_on_refresh_failure.
Proof.
  intros H.
  destruct (H (3600 * Second) (user_U 0)
              (world_of_U 0 (Err "invalid_grant") (Ok snapshot_T1)) "invalid_grant")
    as [Hfailed _]; try reflexivity.
  vm_compute in Hfailed. discriminate Hfailed.
Qed.

(** ** Refresh paths: a successful poll of a playing track *)

Lemma GetCachedCurrentlyPlaying_miss now id w :
  healthy w -> cache_miss now id w ->
  fst (GetCachedCurrentlyPlaying now id w) = Err redis_Nil.
Proof.
  intros [Hr _] Hmiss. unfold cache_miss, keyspace in Hmiss.
  unfold GetCachedCurrentlyPlaying, on_redis, Get, request, lookup_live.
  fold (cache_key id). rewrite Hr. simpl.
  destruct (rdata (redis w) !! cache_key id) as [e|]; [|reflexivity].
  rewrite Hmiss. reflexivity.
Qed.

Lemma cache_miss_moved P H l now id w wk :
  moved false P H l w wk -> cache_miss now id w -> cache_miss now id wk.
Proof. intros (Hk & _) Hm. unfold cache_miss. rewrite (Hk eq_refl). exact Hm. Qed.

Ltac same_text :=
  repeat match goal with
         | Hm : Marshal ?t = Ok ?a, Hm' : Marshal ?t = Ok ?b |- _ =>
           tryif constr_eq a b then fail
           else (rewrite Hm in Hm'; injection Hm' as <-)
         end.

(** Reading a component of the final world back to the initial one. *)
Ltac chase_with proj :=
  repeat match goal with
         | E : proj ?x = _ |- context [proj ?x] => rewrite E
         | Q : moved _ _ _ _ ?a ?x |- context [proj ?x] =>
           tryif constr_eq a x then fail
           else first [ rewrite (proj1 Q eq_refl)
                      | rewrite (proj1 (proj2 Q) eq_refl)
                      | rewrite (proj1 (proj2 (proj2 Q)) eq_refl) ]
         end.

(** The cache read misses wherever the keyspace is still the initial one. *)
Ltac miss Hmiss :=
  match goal with
  | |- context [GetCachedCurrentlyPlaying ?now ?id ?wk] =>
    match goal with
    | Q : moved false _ _ _ ?w wk, Hh : healthy wk |- _ =>
      let M := fresh "Hmissed" in
      pose proof (GetCachedCurrentlyPlaying_miss now id wk Hh
                    (cache_miss_moved _ _ _ _ _ _ _ Q Hmiss)) as M
    end
  end.

Ltac polled Hpoll :=
  repeat match goal with
         | H : ?r = snd (provider ?wk) ?tok |- _ =>
           match goal with
           | Q : moved _ _ _ _ ?w wk |- _ =>
             rewrite (provider_moved _ _ _ _ _ _ Q), Hpoll in H
           end
         end.

Lemma getCurrentTrack_poll_success now c user track text w :
  healthy w ->
  fst (GetUserByID (gin.GetString c "user_id") w) = Ok user ->
  IsSharingEnabled user = true ->
  (IsTokenExpired now user = true ->
   is_ok (fst (provider w) (SpotifyRefreshToken user)) = true) ->
  cache_miss now (ID user) w ->
  (forall tok, snd (provider w) tok = Ok track) ->
  IsPlaying track = true ->
  Marshal track = Ok text ->
  keyspace (snd (getCurrentTrack now c w))
  = <[cache_key (ID user) := cache_entry now text]> (keyspace w)
  /\ history (snd (getCurrentTrack now c w)) = history w
  /\ published (snd (getCurrentTrack now c w)) = published w.
Proof.
  intros Hh Huser Hshare Hrefresh Hmiss Hpoll Hplaying Hm.
  pose proof (moved_refl w) as Q.
  unfold getCurrentTrack. cbv zeta.
  walk. subst r. rewrite Hshare. cbn [negb].
  destruct (IsTokenExpired now user) eqn:Hexp.
  - specialize (Hrefresh eq_refl).
    walk. repeat known. rewrite <- Htoken in Hrefresh.
    destruct r as [tokenResp|e]; [|discriminate Hrefresh].
    walk. walk. cbn [ID SpotifyAccessToken with_token sqlx.set_token].
    miss Hmiss. walk. subst cached. walk. polled Hpoll. subst r0.
    rewrite Hplaying. walk. walk. facts. same_text.
    unfold cache_entry.
    repeat split; [chase_with keyspace | chase_with history | chase_with published];
      reflexivity.
  - miss Hmiss. walk. subst cached. walk. polled Hpoll. subst r.
    rewrite Hplaying. walk. walk. facts. same_text.
    unfold cache_entry.
    repeat split; [chase_with keyspace | chase_with history | chase_with published];
      reflexivity.
Qed.

Ltac effects :=
  facts; same_text; unfold cache_entry;
  repeat split; [chase_with keyspace | chase_with history | chase_with published];
  reflexivity.

Lemma refreshCurrentTrack_poll_success now c user track text w :
  healthy w ->
  fst (GetUserByID (gin.GetString c "user_id") w) = Ok user ->
  IsSharingEnabled user = true ->
  (IsTokenExpired now user = true ->
   is_ok (fst (provider w) (SpotifyRefreshToken user)) = true) ->
  (forall tok, snd (provider w) tok = Ok track) ->
  IsPlaying track = true ->
  Marshal track = Ok text ->
  keyspace (snd (refreshCurrentTrack now c w))
  = <[cache_key (ID user) := cache_entry now text]> (keyspace w)
  /\ history (snd (refreshCurrentTrack now c w)) = history w
  /\ published (snd (refreshCurrentTrack now c w))
     = (published w ++ [(updates_channel (ID user), text)])%list.
Proof.
  intros Hh Huser Hshare Hrefresh Hpoll Hplaying Hm.
  pose proof (moved_refl w) as Q.
  unfold refreshCurrentTrack. cbv zeta.
  walk. subst r. rewrite Hshare. cbn [negb].
  destruct (IsTokenExpired now user) eqn:Hexp.
  - specialize (Hrefresh eq_refl).
    walk. repeat known. rewrite <- Htoken in Hrefresh.
    destruct r as [tokenResp|e]; [|discriminate Hrefresh].
    walk. walk. cbn [ID SpotifyAccessToken with_token sqlx.set_token].
    walk. polled Hpoll. subst r0.
    rewrite Hplaying. walk. walk. walk. walk. effects.
  - walk. polled Hpoll. subst r.
    rewrite Hplaying. walk. walk. walk. walk. effects.
Qed.

Lemma GetProfile_ok_uuid id w :
  is_ok (fst (GetProfile id w)) = true -> sqlx.uuid_in id = true.
Proof.
  unfold GetProfile, on_db, sqlx.GetContext, sqlx.statement.
  destruct (next_fault _) as [[] fs]; simpl; [discriminate|].
  destruct (sqlx.uuid_in id); simpl; [reflexivity | discriminate].
Qed.

Lemma flip_then_insert_no_id now owner track ts :
  sqlx.uuid_in owner = true ->
  flip_then_insert now (track_of owner now track) ts
  = flip_only now owner (TrackID track) ts.
Proof.
  intros Hu. unfold flip_then_insert, flip_only. simpl. rewrite Hu.
  destruct (find _ ts); reflexivity.
Qed.

Lemma GetProfileResponse_poll_success now user track text w :
  healthy w ->
  is_ok (fst (GetProfile (ID user) w)) = true ->
  IsSharingEnabled user = true ->
  cache_miss now (ID user) w ->
  (forall tok, snd (provider w) tok = Ok track) ->
  IsPlaying track = true ->
  Marshal track = Ok text ->
  keyspace (snd (GetProfileResponse now user w))
  = <[cache_key (ID user) := cache_entry now text]> (keyspace w)
  /\ history (snd (GetProfileResponse now user w))
     = flip_only now (ID user) (TrackID track) (history w)
  /\ published (snd (GetProfileResponse now user w))
     = (published w ++ [(updates_channel (ID user), text)])%list.
Proof.
  intros Hh Hprofile Hshare Hmiss Hpoll Hplaying Hm.
  rewrite <- (flip_then_insert_no_id now (ID user) track (history w)
                (GetProfile_ok_uuid _ _ Hprofile)).
  pose proof (moved_refl w) as Q.
  unfold GetProfileResponse, currentTrackOf. cbv zeta.
  walk. destruct r as [profile|e]; [|discriminate Hprofile].
  miss Hmiss. walk. subst cached. rewrite Hshare.
  destruct (IsTokenExpired now user) eqn:Hexp.
  - walk. walk. destruct r as [tokenResp|e].
    + walk. walk. cbn [ID SpotifyAccessToken with_token sqlx.set_token].
      walk. polled Hpoll. subst r0. rewrite Hplaying.
      walk. walk. walk. walk.
      repeat first [walk | branch]; effects.
    + walk. walk. polled Hpoll. subst r. rewrite Hplaying.
      walk. walk. walk. walk.
      repeat first [walk | branch]; effects.
  - walk. polled Hpoll. subst r. rewrite Hplaying.
    walk. walk. walk. walk.
    repeat first [walk | branch]; effects.
Qed.

Lemma flip_only_length now owner spotifyID ts :
  length (flip_only now owner spotifyID ts) = length ts.
Proof.
  unfold flip_only. destruct (find _ ts) as [existing|].
  - destruct (sqlx.uuid_in (tID existing)); [apply length_map | reflexivity].
  - apply length_map.
Qed.

(** Claim C4: what a successful poll does on each entry point.  The
    stores answer, the owner shares, the cache has no live entry and the
    poll reports the snapshot [track] with [is_playing = true].  Each
    path writes the snapshot under [track:current:<owner>] to expire in
    2 minutes; beyond that they differ.  [GetProfileResponse] calls
    [SaveTrackToHistory] and publishes the snapshot on
    [track:updates:<owner>]; the record it hands to [SaveTrackToHistory]
    carries no id, so the insertion is refused and the history update
    ends as [flip_only]: [played_at] of the playing record of the same
    track is refreshed, or else the playing records of the owner are
    flipped, and the history has as many records as before, none of
    them new.  [refreshCurrentTrack] publishes the snapshot and leaves
    the history as it was.  [getCurrentTrack] leaves the history as it
    was and publishes nothing. *)
Theorem poll_success_effects_by_entry_point now user track text w :
  healthy w ->
  IsSharingEnabled user = true ->
  (IsTokenExpired now user = true ->
   is_ok (fst (provider w) (SpotifyRefreshToken user)) = true) ->
  cache_miss now (ID user) w ->
  (forall tok, snd (provider w) tok = Ok track) ->
  IsPlaying track = true ->
  Marshal track = Ok text ->
  let cached := <[cache_key (ID user) := cache_entry now text]> (keyspace w) in
  let event := (updates_channel (ID user), text) in
  (is_ok (fst (GetProfile (ID user) w)) = true ->
   keyspace (snd (GetProfileResponse now user w)) = cached
   /\ history (snd (GetProfileResponse now user w))
      = flip_only now (ID user) (TrackID track) (history w)
   /\ length (history (snd (GetProfileResponse now user w))) = length (history w)
   /\ published (snd (GetProfileResponse now user w)) = (published w ++ [event])%list)
  /\ (forall c, fst (GetUserByID (gin.GetString c "user_id") w) = Ok user ->
      keyspace (snd (refreshCurrentTrack now c w)) = cached
      /\ history (snd (refreshCurrentTrack now c w)) = history w
      /\ published (snd (refreshCurrentTrack now c w)) = (published w ++ [event])%list)
  /\ (forall c, fst (GetUserByID (gin.GetString c "user_id") w) = Ok user ->
      keyspace (snd (getCurrentTrack now c w)) = cached
      /\ history (snd (getCurrentTrack now c w)) = history w
      /\ published (snd (getCurrentTrack now c w)) = published w).
Proof.
  intros Hh Hshare Hrefresh Hmiss Hpoll Hplaying Hm. cbv zeta.
  split; [|split].
  - intros Hp.
    destruct (GetProfileResponse_poll_success now user track text w
                Hh Hp Hshare Hmiss Hpoll Hplaying Hm) as (Hkeys & Hhist & Hpub).
    split; [exact Hkeys|]. split; [exact Hhist|]. split; [|exact Hpub].
    rewrite Hhist. apply flip_only_length.
  - intros c Hu. apply (refreshCurrentTrack_poll_success now c user track text w); assumption.
  - intros c Hu. apply (getCurrentTrack_poll_success now c user track text w); assumption.
Qed.

Lemma poll_success_effects_by_entry_point_witness :
  let w := world_of_U_playing_T0 (3600 * Second) (Err "unused") (Ok snapshot_T1) in
  exists text,
    Marshal snapshot_T1 = Ok text
    /\ published (snd (GetProfileResponse 0 (user_U (3600 * Second)) w))
       = [(updates_channel id_U, text)]
    /\ history (snd (GetProfileResponse 0 (user_U (3600 * Second)) w))
       = [sqlx.set_not_playing (track_row id_r1 "T0" 0)]
    /\ published (snd (refreshCurrentTrack 0 request_of_U w))
       = [(updates_channel id_U, text)]
    /\ history (snd (refreshCurrentTrack 0 request_of_U w)) = [track_row id_r1 "T0" 0]
    /\ published (snd (getCurrentTrack 0 request_of_U w)) = []
    /\ history (snd (getCurrentTrack 0 request_of_U w)) = [track_row id_r1 "T0" 0].
Proof.
  cbv zeta. destruct (Marshal_total snapshot_T1) as [text Hm]. exists text.
  split; [exact Hm|].
  destruct (poll_success_effects_by_entry_point 0 (user_U (3600 * Second)) snapshot_T1 text
              (world_of_U_playing_T0 (3600 * Second) (Err "unused") (Ok snapshot_T1)))
    as (Hprof & Hrefresh & Hcurrent);
    [split; reflexivity | reflexivity | discriminate | exact I
     | reflexivity | reflexivity | exact Hm |].
  destruct (Hprof eq_refl) as (_ & Hh & _ & Hp).
  destruct (Hrefresh request_of_U eq_refl) as (_ & Hh' & Hp').
  destruct (Hcurrent request_of_U eq_refl) as (_ & Hh'' & Hp'').
  repeat split; assumption.
Defined.

Lemma current_track_poll_publishes_nothing : ~ current_track_poll_has_three_effects.
Proof.
  intros H.
  destruct (Marshal_total snapshot_T1) as [text Hm].
  destruct (H 0 request_of_U (user_U (3600 * Second)) snapshot_T1 text
              (world_of_U (3600 * Second) (Err "unused") (Ok snapshot_T1)))
    as (_ & _ & Hpub);
    [split; reflexivity | reflexivity | reflexivity | reflexivity | exact I
     | reflexivity | reflexivity | exact Hm |].
  vm_compute in Hpub. discriminate Hpub.
Qed.

(** ** Track history: the invariant *)

(** Claim C2.  Any sequence of [SaveTrackToHistory] calls, for any
    tracks of any owners and whatever the outcome of each statement,
    keeps the invariant that an owner has at most one history record with
    [is_currently_playing = true]. *)
Theorem at_most_one_currently_playing owner calls w :
  (playing_count owner (history w) <= 1)%nat ->
  (playing_count owner (history (save_all calls w)) <= 1)%nat.
Proof. apply save_all_keeps. Qed.

Lemma at_most_one_currently_playing_witness :
  (playing_count id_U (history (save_all three_polls empty_world)) <= 1)%nat.
Proof.
  apply (at_most_one_currently_playing id_U three_polls empty_world).
  vm_compute. lia.
Defined.

(** The scenario of the specification: the second poll of T1 updates the
    row in place, T2 flips it and inserts a new row. *)
Example three_polls_history :
  history (save_all three_polls empty_world)
  = [sqlx.set_not_playing (sqlx.set_played_at 20 (track_row id_r1 "T1" 10));
     track_row id_r3 "T2" 30].
Proof. reflexivity. Qed.

(** ** GET /api/tracks/history *)

Lemma GetTrackHistory_without_db ctx userID limit w :
  context.Value ctx (context.StringKey "db") <> Some context.SqlxDB ->
  GetTrackHistory ctx userID limit w = (Err no_db_in_context, w).
Proof.
  intros H. unfold GetTrackHistory.
  destruct (context.Value ctx (context.StringKey "db")) as [[]|]; try reflexivity.
  congruence.
Qed.

Lemma authMiddleware_request c w c' :
  fst (authMiddleware c w) = inr c' -> gin.Request c' = gin.Request c.
Proof.
  unfold authMiddleware. destruct (gin.Cookie c "user_id") as [id|e]; [|discriminate].
  destruct (GetUserByID id w) as [[u|e] w']; simpl; [|discriminate].
  intros H. injection H as <-. reflexivity.
Qed.

(** Claim C10.  [GetTrackHistory] looks its database handle up in the
    request context under the key "db" and fails with "database
    connection not found in context" when it is not there.  Nothing puts
    it there: every request to [GET /api/tracks/history] that passes the
    authentication middleware is answered 500 "Failed to get track
    history", with that error logged, and no request to the route is
    answered with a list of tracks. *)
Theorem track_history_request_always_fails :
  (forall ctx userID limit w,
      context.Value ctx (context.StringKey "db") <> Some context.SqlxDB ->
      GetTrackHistory ctx userID limit w = (Err no_db_in_context, w))
  /\ (forall params cookies query header ip hs faults w,
        let c := incoming params cookies query header ip hs faults in
        forall c', fst (authMiddleware c w) = inr c' ->
        let w1 := snd (authMiddleware c w) in
        GET_api_tracks_history c w
        = (history_failed, log_err "Failed to get track history" no_db_in_context w1))
  /\ (forall params cookies query header ip hs faults w tracks,
        gin.Body (fst (GET_api_tracks_history
                         (incoming params cookies query header ip hs faults) w))
        <> gin.H_tracks tracks).
Proof.
  split; [exact GetTrackHistory_without_db|].
  assert (Hhandler : forall c w, http.Ctx (gin.Request c) = context.server_request_context ->
            getTrackHistory c w
            = (history_failed, log_err "Failed to get track history" no_db_in_context w)).
  { intros c w Hctx. unfold getTrackHistory. rewrite Hctx.
    rewrite GetTrackHistory_without_db by (vm_compute; discriminate). reflexivity. }
  split.
  - intros params cookies query header ip hs faults w c c' Hauth w1.
    unfold GET_api_tracks_history, protected. subst w1.
    destruct (authMiddleware c w) as [[resp|c''] w'] eqn:E; simpl in Hauth; [discriminate|].
    injection Hauth as ->. simpl.
    apply Hhandler.
    rewrite (authMiddleware_request c w c'); [reflexivity|]. rewrite E. reflexivity.
  - intros params cookies query header ip hs faults w tracks.
    unfold GET_api_tracks_history, protected.
    destruct (authMiddleware _ w) as [[resp|c'] w'] eqn:E.
    + simpl. unfold authMiddleware in E.
      destruct (gin.Cookie _ "user_id") as [id|e].
      * destruct (GetUserByID id w) as [[u|e] w'']; inversion E; subst; discriminate.
      * inversion E; subst. discriminate.
    + rewrite Hhandler; [discriminate|].
      rewrite (authMiddleware_request (incoming params cookies query header ip hs faults)
                 w c'); [reflexivity|]. rewrite E. reflexivity.
Qed.

Lemma track_history_request_always_fails_witness :
  GET_api_tracks_history
    (incoming ∅ {[ "user_id" := id_U ]} {[ "limit" := "5" ]} ∅ "10.0.0.1" false [])
    (world_of_U 0 (Err "unused") (Err "unused"))
  = (history_failed,
     log_err "Failed to get track history" no_db_in_context
       (world_of_U 0 (Err "unused") (Err "unused"))).
Proof.
  destruct track_history_request_always_fails as (_ & Hroute & _).
  exact (Hroute ∅ {[ "user_id" := id_U ]} {[ "limit" := "5" ]} ∅ "10.0.0.1" false []
           (world_of_U 0 (Err "unused") (Err "unused")) _ eq_refl).
Defined.

(** ** Live update sessions: validation *)

Lemma GetUserByProfileURL_redis url w :
  redis (snd (GetUserByProfileURL url w)) = redis w.
Proof.
  unfold GetUserByProfileURL, on_db.
  destruct (sqlx.GetContext _ _ _ (db w)) as [[u|e] d]; reflexivity.
Qed.

Ltac open_match :=
  match goal with
  | |- context [match ?x with pair _ _ => _ end] => destruct x
  | |- context [match ?x with Ok _ => _ | Err _ => _ end] => destruct x
  | |- context [if ?b then _ else _] => destruct b
  end; cbn [fst snd].

(** Claim C9, amended.  [trackUpdatesWebSocket] answers 404 when the
    profile handle resolves to no user, 403 when the owner is inactive or
    does not share, and 401 when the request carries no [visit_id]
    cookie; in each case no subscription is made and nothing is
    published.  With an active, sharing owner and a [visit_id] cookie of
    any value the connection is upgraded and the session carries that
    value: the cookie is not checked against the recorded visits. *)
Theorem live_session_validation now c w :
  let found := fst (GetUserByProfileURL (gin.Param c "profileURL") w) in
  let result := trackUpdatesWebSocket now c w in
  (is_ok found = false ->
   fst result = Replied (error_reply http.StatusNotFound "Profile not found"))
  /\ (forall user, found = Ok user ->
        (IsActive user = false \/ IsSharingEnabled user = false ->
         fst result = Replied (error_reply http.StatusForbidden "Profile not available"))
        /\ (IsActive user = true -> IsSharingEnabled user = true ->
            (is_ok (gin.Cookie c "visit_id") = false ->
             fst result = Replied (error_reply http.StatusUnauthorized "Unauthorized"))
            /\ (forall visitID, gin.Cookie c "visit_id" = Ok visitID ->
                  http.Handshake (gin.Request c) = true ->
                  exists s, fst result = Upgraded s /\ handlers.visitID s = visitID)))
  /\ (forall resp, fst result = Replied resp ->
        rsubs (redis (snd result)) = rsubs (redis w)
        /\ published (snd result) = published w).
Proof.
  cbv zeta. unfold trackUpdatesWebSocket.
  pose proof (GetUserByProfileURL_redis (gin.Param c "profileURL") w) as Hredis.
  destruct (GetUserByProfileURL (gin.Param c "profileURL") w) as [[user|e] w0];
    cbn [fst snd] in *.
  - split; [discriminate|]. split.
    + intros u Hu. injection Hu as <-. split.
      * intros [Ha | Hs]; rewrite ?Ha, ?Hs; [reflexivity|].
        destruct (IsActive user); reflexivity.
      * intros Ha Hs. rewrite Ha, Hs. cbn [negb orb]. split.
        -- destruct (gin.Cookie c "visit_id"); [discriminate|]. reflexivity.
        -- intros visitID Hc Hhs. rewrite Hc, Hhs. cbn [negb].
           destruct (SubscribeToTrackUpdates (ID user) w0) as [ps w1].
           destruct (GetCachedCurrentlyPlaying now (ID user) w1) as [cached w2].
           cbv zeta. unfold handler_returns. repeat open_match;
             eexists; split; reflexivity.
    + intros resp.
      destruct (negb (IsActive user) || negb (IsSharingEnabled user)).
      * intros _. unfold published. simpl. rewrite Hredis. split; reflexivity.
      * destruct (gin.Cookie c "visit_id") as [visitID|e].
        -- destruct (negb (http.Handshake (gin.Request c))); [discriminate|].
           destruct (SubscribeToTrackUpdates (ID user) w0) as [ps w1].
           destruct (GetCachedCurrentlyPlaying now (ID user) w1) as [cached w2].
           cbv zeta. unfold handler_returns. repeat open_match; discriminate.
        -- intros _. unfold published. simpl. rewrite Hredis. split; reflexivity.
  - split; [reflexivity|]. split; [intros u Hu; discriminate Hu|].
    intros resp _. unfold published. simpl. rewrite Hredis. split; reflexivity.
Qed.

Lemma live_session_validation_witness :
  exists s,
    fst (trackUpdatesWebSocket 0 handshake_with_made_up_visit
           (world_of_U 0 (Err "unused") (Err "unused"))) = Upgraded s
    /\ handlers.visitID s = "made-up".
Proof.
  destruct (live_session_validation 0 handshake_with_made_up_visit
              (world_of_U 0 (Err "unused") (Err "unused"))) as (_ & Hfound & _).
  destruct (Hfound (user_U 0) eq_refl) as (_ & Hok).
  destruct (Hok eq_refl eq_refl) as (_ & Hup).
  exact (Hup "made-up" eq_refl eq_refl).
Defined.

Lemma made_up_visit_is_upgraded : ~ unknown_visit_is_rejected.
Proof.
  intros H.
  destruct (H 0 handshake_with_made_up_visit
              (world_of_U 0 (Err "unused") (Err "unused")) "made-up" eq_refl eq_refl)
    as [resp Hresp].
  vm_compute in Hresp. discriminate Hresp.
Qed.

(** ** Live update sessions: the heartbeat *)

(** Claim C8, amended.  When the renewal of a heartbeat tick fails, the
    failure is logged and the session is otherwise kept: the connection,
    the relay of events and the subscription stay as they were.  The
    renewal routine itself returns: the heartbeat is off afterwards and
    no later tick does anything. *)
Theorem failed_renewal_ends_heartbeat_only s w now :
  heartbeat s = true ->
  is_ok (fst (RenewVisitorActivity now (visitID s) w)) = false ->
  let s1 := fst (step (Tick now) s w) in
  let w1 := snd (step (Tick now) s w) in
  conn s1 = conn s /\ relay s1 = relay s /\ pubsub_open s1 = pubsub_open s
  /\ rsubs (redis w1) = rsubs (redis w)
  /\ heartbeat s1 = false
  /\ (exists e, logger w1 = (logger w ++ [wrap "Failed to renew visitor activity" e])%list)
  /\ (forall later w', step (Tick later) s1 w' = (s1, w')).
Proof.
  intros Hb Hfail. cbv zeta. unfold step. rewrite Hb.
  assert (Hsubs : rsubs (redis (snd (RenewVisitorActivity now (visitID s) w)))
                  = rsubs (redis w)).
  { unfold RenewVisitorActivity, on_redis, Set_, request.
    destruct (next_fault (rfail (redis w))) as [[] fs]; reflexivity. }
  assert (Hlog : logger (snd (RenewVisitorActivity now (visitID s) w)) = logger w).
  { unfold RenewVisitorActivity, on_redis.
    destruct (Set_ _ _ _ _ (redis w)); reflexivity. }
  destruct (RenewVisitorActivity now (visitID s) w) as [[[]|e] w0];
    cbn [fst snd] in *; [discriminate Hfail|].
  repeat split; try assumption.
  - exists e. cbn. rewrite Hlog. reflexivity.
Qed.

Lemma failed_renewal_ends_heartbeat_only_witness :
  let s1 := fst (step (Tick (60 * Second)) session_V1 world_redis_hiccup) in
  let w1 := snd (step (Tick (60 * Second)) session_V1 world_redis_hiccup) in
  conn s1 = conn session_V1 /\ relay s1 = true /\ heartbeat s1 = false
  /\ snd (step (Tick (120 * Second)) s1 w1) = w1.
Proof.
  cbv zeta.
  destruct (failed_renewal_ends_heartbeat_only session_V1 world_redis_hiccup (60 * Second))
    as (Hc & Hr & _ & _ & Hh & _ & Hlater); [reflexivity | reflexivity |].
  split; [exact Hc|]. split; [exact Hr|]. split; [exact Hh|].
  rewrite Hlater. reflexivity.
Defined.

Lemma heartbeat_stops_after_failure : ~ heartbeat_continues_after_failure.
Proof.
  intros H.
  specialize (H session_V1 world_redis_hiccup (60 * Second) (120 * Second)).
  assert (Hs : streaming session_V1) by (repeat split).
  specialize (H Hs eq_refl eq_refl).
  vm_compute in H. destruct H as [_ H]. discriminate H.
Qed.

(** * Further properties of the services and handlers *)

Lemma find_fresh_visit visitID (vs : list ProfileVisit) v :
  existsb (fun r => String.eqb (vID r) visitID) vs = false ->
  vID v = visitID ->
  find (fun r => String.eqb (vID r) visitID) (vs ++ [v])%list = Some v.
Proof.
  intros Hfresh Hv. induction vs as [|r vs IH]; simpl in *.
  - rewrite Hv, String.eqb_refl. reflexivity.
  - apply orb_false_iff in Hfresh as [Hr Hvs]. rewrite Hr. apply IH, Hvs.
Qed.

Lemma end_fresh_visit later visitID (vs : list ProfileVisit) v :
  existsb (fun r => String.eqb (vID r) visitID) vs = false ->
  vID v = visitID ->
  map (fun r => if String.eqb (vID r) visitID then sqlx.set_ended_at later r else r)
      (vs ++ [v])%list
  = (vs ++ [sqlx.set_ended_at later v])%list.
Proof.
  intros Hfresh Hv. induction vs as [|r vs IH]; simpl in *.
  - rewrite Hv, String.eqb_refl. reflexivity.
  - apply orb_false_iff in Hfresh as [Hr Hvs]. rewrite Hr. f_equal. apply IH, Hvs.
Qed.

Section VisitLifecycle.
Local Arguments visitor_key : simpl never.
Local Arguments visitors_key : simpl never.

(** What a recorded visit leaves behind when both servers answer. *)
Lemma RecordProfileVisit_healthy now uuid userID ip ua ref vu w :
  healthy w ->
  forallb sqlx.uuid_in (uuid :: userID :: option_list vu) = true ->
  visit_recorded uuid w = false ->
  let w1 := snd (RecordProfileVisit now uuid userID ip ua ref vu w) in
  fst (RecordProfileVisit now uuid userID ip ua ref vu w) = Ok uuid
  /\ healthy w1
  /\ sqlx.profile_visits (db w1)
     = (sqlx.profile_visits (db w)
        ++ [visit_row now uuid userID ip ua ref vu None])%list
  /\ keyspace w1
     = rdata (snd (AddToSet now (visitors_key userID) uuid
                     (with_data (redis w)
                        (<[visitor_key uuid := presence_entry now]> (keyspace w)))))
  /\ (sqlx.users (db w1) = sqlx.users (db w)
      /\ sqlx.profiles (db w1) = sqlx.profiles (db w)
      /\ sqlx.tracks (db w1) = sqlx.tracks (db w))
  /\ (published w1 = published w /\ spotifyClient w1 = spotifyClient w).
Proof.
  intros [Hr Hd] Huuid Hfresh. cbv zeta.
  destruct w as [d r c l]. destruct d as [us ps ts vs fs].
  destruct r as [data pub subs rf].
  unfold visit_recorded, keyspace in *. simpl in Hr, Hd, Hfresh. subst fs rf.
  unfold RecordProfileVisit.
  fold (visitor_key uuid) (visitors_key userID).
  unfold on_db, sqlx.InsertVisit, sqlx.statement.
  cbn [next_fault sqlx.dbfail db vID vUserID VisitorUserID sqlx.profile_visits].
  rewrite Huuid, Hfresh.
  unfold on_redis, Set_, AddToSet, request, healthy, with_data, presence_entry.
  cbn [next_fault rfail redis db fst snd rdata rpublished rsubs log_if_err].
  assert (Hpos : (0 <? 5 * Minute) = true) by reflexivity. rewrite Hpos.
  destruct (lookup_live now (visitors_key userID) _) as [[[v|s] x]|];
    cbn; repeat split; reflexivity.
Qed.

(** What ending a recorded visit does when both servers answer. *)
Lemma EndProfileVisit_healthy later visitID visit w :
  healthy w ->
  sqlx.uuid_in visitID = true ->
  find (fun v => String.eqb (vID v) visitID) (sqlx.profile_visits (db w)) = Some visit ->
  let w2 := snd (EndProfileVisit later visitID w) in
  fst (EndProfileVisit later visitID w) = Ok tt
  /\ healthy w2
  /\ sqlx.profile_visits (db w2)
     = map (fun v => if String.eqb (vID v) visitID then sqlx.set_ended_at later v else v)
           (sqlx.profile_visits (db w))
  /\ keyspace w2
     = delete (visitor_key visitID)
         (rdata (snd (RemoveFromSet later (visitors_key (vUserID visit)) visitID
                        (redis w)))).
Proof.
  intros [Hr Hd] Huuid Hfind. cbv zeta.
  destruct w as [d r c l]. destruct d as [us ps ts vs fs].
  destruct r as [data pub subs rf].
  unfold keyspace in *. simpl in Hr, Hd, Hfind. subst fs rf.
  unfold EndProfileVisit.
  fold (visitor_key visitID).
  unfold on_db, sqlx.GetContext, sqlx.UpdateEndedAt, sqlx.statement.
  cbn [next_fault sqlx.dbfail db sqlx.profile_visits forallb].
  rewrite Huuid. cbn [andb]. rewrite Hfind.
  cbn [next_fault sqlx.dbfail db sqlx.profile_visits forallb sqlx.with_visits].
  fold (visitors_key (vUserID visit)).
  unfold on_redis, Delete, RemoveFromSet, request, healthy, with_data.
  cbn [next_fault rfail redis db fst snd rdata rpublished rsubs log_if_err].
  destruct (lookup_live later (visitors_key (vUserID visit)) _) as [[[v|s] x]|];
    cbn; try (repeat split; reflexivity).
  destruct (decide (s ∖ {[visitID]} = ∅)); cbn; repeat split; reflexivity.
Qed.

(** A visit that was recorded had a well-formed, fresh id. *)
Lemma RecordProfileVisit_ok_inv now uuid userID ip ua ref vu w visitID :
  sqlx.dbfail (db w) = [] ->
  fst (RecordProfileVisit now uuid userID ip ua ref vu w) = Ok visitID ->
  forallb sqlx.uuid_in (uuid :: userID :: option_list vu) = true
  /\ visit_recorded uuid w = false.
Proof.
  intros Hd. destruct w as [[us ps ts vs fs] rc cl lg]. cbn in Hd. subst fs.
  unfold RecordProfileVisit, visit_recorded, on_db, sqlx.InsertVisit, sqlx.statement.
  cbn [next_fault sqlx.dbfail db vID vUserID VisitorUserID sqlx.profile_visits].
  destruct (forallb sqlx.uuid_in _); cbn; [|discriminate].
  destruct (existsb _ vs); cbn; [discriminate|].
  intros _. split; reflexivity.
Qed.

(** With both servers answering, [EndProfileVisit] undoes what a
    successful [RecordProfileVisit] wrote to Redis for the visit: the
    presence entry and the membership in the owner's set are gone (the
    set itself when the visit was its only member), so the keyspace is
    what it was before the page load.  The audit row stays, closed at
    the time of the call.  The ids are in the form of
    [uuid.UUID.String()], as the database returns them, and the address
    is within the width of [visitor_ip VARCHAR(45)]. *)
Theorem EndProfileVisit_undoes_RecordProfileVisit
    now later uuid userID ip ua ref vu w visitID :
  healthy w ->
  uuid_String uuid = true ->
  uuid_String userID = true ->
  (forall v, vu = Some v -> uuid_String v = true) ->
  varchar 45 ip = true ->
  fst (RecordProfileVisit now uuid userID ip ua ref vu w) = Ok visitID ->
  keyspace w !! visitor_key uuid = None ->
  viewers_without uuid userID w ->
  let w1 := snd (RecordProfileVisit now uuid userID ip ua ref vu w) in
  let w2 := snd (EndProfileVisit later visitID w1) in
  visitID = uuid
  /\ fst (EndProfileVisit later visitID w1) = Ok tt
  /\ keyspace w2 = keyspace w
  /\ sqlx.profile_visits (db w2)
     = (sqlx.profile_visits (db w)
        ++ [visit_row now uuid userID ip ua ref vu (Some later)])%list.
Proof.
  intros Hh _ _ _ _ Hrecorded Hkey Hset. cbv zeta.
  destruct (RecordProfileVisit_ok_inv _ _ _ _ _ _ _ _ _ (proj2 Hh) Hrecorded)
    as [Huuid Hfresh].
  destruct (RecordProfileVisit_healthy now uuid userID ip ua ref vu w Hh Huuid Hfresh)
    as (Hok & Hh1 & Hvisits & Hkeys & _).
  assert (visitID = uuid) as -> by congruence.
  assert (Hid : sqlx.uuid_in uuid = true).
  { simpl in Huuid. apply andb_true_iff in Huuid as [H _]. exact H. }
  set (w1 := snd (RecordProfileVisit now uuid userID ip ua ref vu w)) in *.
  assert (Hfind : find (fun v => String.eqb (vID v) uuid) (sqlx.profile_visits (db w1))
                  = Some (visit_row now uuid userID ip ua ref vu None)).
  { rewrite Hvisits. apply find_fresh_visit; [exact Hfresh | reflexivity]. }
  destruct (EndProfileVisit_healthy later uuid _ w1 Hh1 Hid Hfind)
    as (Hok2 & _ & Hvisits2 & Hkeys2).
  split; [reflexivity|]. split; [exact Hok2|]. split.
  - rewrite Hkeys2. cbn [vUserID visit_row].
    assert (Hdata1 : rdata (redis w1) = keyspace w1) by reflexivity.
    destruct Hh as [Hrf _]. destruct Hh1 as [Hrf1 _].
    unfold RemoveFromSet, request, lookup_live, with_data.
    rewrite Hrf1. cbn [next_fault rdata snd]. rewrite Hdata1, Hkeys.
    unfold AddToSet, request, lookup_live, with_data.
    cbn [rfail rdata rpublished rsubs]. rewrite Hrf. cbn [next_fault rdata snd].
    rewrite lookup_insert_ne by (apply visitor_key_ne).
    unfold viewers_without in Hset.
    destruct (keyspace w !! visitors_key userID) as [e|] eqn:Hv.
    + destruct Hset as (s & -> & Hnotin & Hne).
      cbn. rewrite lookup_insert_eq. cbn.
      assert (Hs : ({[uuid]} ∪ s) ∖ {[uuid]} = s) by set_solver.
      rewrite Hs. destruct (decide (s = ∅)) as [E|_]; [contradiction|]. cbn.
      apply map_eq. intros k.
      destruct (decide (k = visitor_key uuid)) as [->|Hk1].
      * rewrite lookup_delete_eq. symmetry. exact Hkey.
      * rewrite lookup_delete_ne by congruence.
        destruct (decide (k = visitors_key userID)) as [->|Hk2].
        -- rewrite lookup_insert_eq. symmetry. exact Hv.
        -- rewrite !lookup_insert_ne by congruence. reflexivity.
    + cbn. rewrite lookup_insert_eq. cbn.
      assert (Hs : ({[uuid]} : gset string) ∖ {[uuid]} = ∅) by set_solver.
      rewrite Hs. destruct (decide ((∅ : gset string) = ∅)) as [_|E]; [|contradiction].
      cbn. apply map_eq. intros k.
      destruct (decide (k = visitor_key uuid)) as [->|Hk1].
      * rewrite lookup_delete_eq. symmetry. exact Hkey.
      * rewrite lookup_delete_ne by congruence.
        destruct (decide (k = visitors_key userID)) as [->|Hk2].
        -- rewrite lookup_delete_eq. symmetry. exact Hv.
        -- rewrite lookup_delete_ne by congruence.
           rewrite !lookup_insert_ne by congruence. reflexivity.
  - rewrite Hvisits2, Hvisits.
    rewrite (end_fresh_visit later uuid _ (visit_row now uuid userID ip ua ref vu None));
      [reflexivity | exact Hfresh | reflexivity].
Qed.

Lemma EndProfileVisit_undoes_RecordProfileVisit_witness :
  let w := world_of_U (3600 * Second) (Err "unused") (Ok snapshot_T1) in
  let w1 := snd (RecordProfileVisit 0 id_V1 id_U "10.0.0.1" "agent" "ref" None w) in
  let w2 := snd (EndProfileVisit (60 * Second) id_V1 w1) in
  keyspace w1 !! visitor_key id_V1 = Some (presence_entry 0)
  /\ keyspace w2 = keyspace w
  /\ sqlx.profile_visits (db w2)
     = [visit_row 0 id_V1 id_U "10.0.0.1" "agent" "ref" None (Some (60 * Second))].
Proof.
  cbv zeta. split; [reflexivity|].
  destruct (EndProfileVisit_undoes_RecordProfileVisit 0 (60 * Second) id_V1 id_U
              "10.0.0.1" "agent" "ref" None
              (world_of_U (3600 * Second) (Err "unused") (Ok snapshot_T1)) id_V1)
    as (_ & _ & Hk & Hv);
    [split; reflexivity | reflexivity | reflexivity | discriminate | reflexivity
     | reflexivity | reflexivity | exact I |].
  split; [exact Hk | exact Hv].
Defined.

(** [EndProfileVisit] reads the audit row first: when that fails, for a
    visit that was never recorded or for any other reason, the call fails
    and Redis is left as it is. *)
Theorem EndProfileVisit_failure_leaves_presence later visitID w :
  (visit_recorded visitID w = false ->
   exists e, fst (EndProfileVisit later visitID w)
             = Err (wrap "failed to get profile visit" e))
  /\ (is_ok (fst (EndProfileVisit later visitID w)) = false ->
      redis (snd (EndProfileVisit later visitID w)) = redis w).
Proof.
  unfold EndProfileVisit, visit_recorded, on_db, sqlx.GetContext, sqlx.UpdateEndedAt,
    sqlx.statement.
  destruct (next_fault (sqlx.dbfail (db w))) as [[] fs] eqn:Hf; cbn.
  - split; [intros _; eexists; reflexivity | reflexivity].
  - destruct (sqlx.uuid_in visitID); cbn.
    + destruct (find _ _) as [visit|] eqn:Hfind; cbn.
      * split.
        -- intros Hnone. apply find_some in Hfind as [Hin Heq].
           assert (existsb (fun v => String.eqb (vID v) visitID)
                     (sqlx.profile_visits (db w)) = true) as Hex.
           { apply existsb_exists. exists visit. split; assumption. }
           congruence.
        -- destruct (next_fault fs) as [[] fs']; cbn; [reflexivity|].
           unfold on_redis. cbn.
           destruct (RemoveFromSet _ _ _ _) as [r1 rc1]; cbn.
           destruct (Delete _ _ _) as [r2 rc2]; cbn. discriminate.
      * split; [intros _; eexists; reflexivity | reflexivity].
    + split; [intros _; eexists; reflexivity | reflexivity].
Qed.

(** [RecordProfileVisit] succeeds exactly when the audit row is inserted.
    A failed insert leaves Redis untouched; once the row is inserted, a
    Redis outage does not fail the call: the visit id is returned, both
    failures are logged, and no presence entry or set membership is
    written. *)
Theorem RecordProfileVisit_depends_on_audit_row_only
    now uuid userID ip ua ref vu w :
  let row := visit_row now uuid userID ip ua ref vu None in
  let inserted := is_ok (fst (sqlx.InsertVisit row (db w))) in
  let w1 := snd (RecordProfileVisit now uuid userID ip ua ref vu w) in
  is_ok (fst (RecordProfileVisit now uuid userID ip ua ref vu w)) = inserted
  /\ (inserted = false -> redis w1 = redis w)
  /\ (inserted = true ->
      fst (RecordProfileVisit now uuid userID ip ua ref vu w) = Ok uuid
      /\ forall fs, rfail (redis w) = true :: true :: fs ->
           keyspace w1 = keyspace w
           /\ logger w1
              = (logger w
                 ++ [wrap "Failed to set visitor key in Redis" redis_down;
                     wrap "Failed to add to active visitors set" redis_down])%list).
Proof.
  cbv zeta. unfold RecordProfileVisit, visit_row, on_db.
  destruct (sqlx.InsertVisit _ (db w)) as [[[]|e] d]; cbn [fst snd is_ok].
  - unfold on_redis, Set_, AddToSet, request. cbn [redis db logger].
    split; [|split; [discriminate|intros _; split]].
    + destruct (next_fault (rfail (redis w))) as [[] f1]; cbn;
        destruct (next_fault f1) as [[] f2]; cbn;
        try destruct (lookup_live _ _ _) as [[[v|s] x]|]; reflexivity.
    + destruct (next_fault (rfail (redis w))) as [[] f1]; cbn;
        destruct (next_fault f1) as [[] f2]; cbn;
        try destruct (lookup_live _ _ _) as [[[v|s] x]|]; reflexivity.
    + intros fs Hfs. rewrite Hfs. cbn. split; [reflexivity|].
      rewrite <- app_assoc. reflexivity.
  - split; [reflexivity|]. split; [reflexivity | discriminate].
Qed.

Lemma count_after_visit now uuid userID ip ua ref vu w n :
  healthy w ->
  forallb sqlx.uuid_in (uuid :: userID :: option_list vu) = true ->
  visit_recorded uuid w = false ->
  (forall e s, lookup_live now (visitors_key userID) (redis w) = Some e ->
               rval e = RSet s -> uuid ∉ s) ->
  fst (GetActiveUserCount now userID w) = Ok n ->
  fst (GetActiveUserCount now userID
         (snd (RecordProfileVisit now uuid userID ip ua ref vu w))) = Ok (n + 1).
Proof.
  intros Hh Huuid Hfresh Hnew Hcount.
  destruct (RecordProfileVisit_healthy now uuid userID ip ua ref vu w Hh Huuid Hfresh)
    as (_ & [Hrf1 _] & _ & Hkeys & _).
  set (w1 := snd (RecordProfileVisit now uuid userID ip ua ref vu w)) in *.
  destruct Hh as [Hrf _].
  revert Hcount. unfold GetActiveUserCount. fold (visitors_key userID).
  unfold on_redis, GetSetSize, request, lookup_live.
  rewrite Hrf, Hrf1. cbn [next_fault rdata].
  change (rdata (redis w1)) with (keyspace w1). rewrite Hkeys.
  unfold AddToSet, request, lookup_live, with_data.
  cbn [rfail rdata rpublished rsubs]. rewrite Hrf. cbn [next_fault rdata snd].
  rewrite lookup_insert_ne by (apply visitor_key_ne).
  specialize (Hnew). unfold lookup_live in Hnew.
  change (keyspace w) with (rdata (redis w)).
  destruct (rdata (redis w) !! visitors_key userID) as [[[v|s] x]|] eqn:Hv; cbn.
  - destruct (live now _) eqn:Hl; cbn; [discriminate|].
    rewrite lookup_insert_eq. cbn. intros H. injection H as <-.
    rewrite size_singleton. reflexivity.
  - destruct (live now {| rval := RSet s; rexp := x |}) eqn:Hl; cbn.
    + rewrite lookup_insert_eq. cbn. unfold live in Hl |- *. cbn in Hl |- *.
      rewrite Hl. cbn. intros H. injection H as <-.
      rewrite size_union by (specialize (Hnew _ s eq_refl eq_refl); set_solver).
      rewrite size_singleton. f_equal. lia.
    + rewrite lookup_insert_eq. cbn. intros H. injection H as <-.
      rewrite size_singleton. reflexivity.
  - rewrite lookup_insert_eq. cbn. intros H. injection H as <-.
    rewrite size_singleton. reflexivity.
Qed.

(** A recorded visit is counted at once: with both servers answering,
    a visit that [RecordProfileVisit] accepted, under an id the owner's
    set does not hold yet, raises the owner's viewer count by one. *)
Theorem RecordProfileVisit_counts_the_visit now uuid userID ip ua ref vu w n visitID :
  healthy w ->
  fst (RecordProfileVisit now uuid userID ip ua ref vu w) = Ok visitID ->
  (forall e s, lookup_live now (visitors_key userID) (redis w) = Some e ->
               rval e = RSet s -> uuid ∉ s) ->
  fst (GetActiveUserCount now userID w) = Ok n ->
  fst (GetActiveUserCount now userID
         (snd (RecordProfileVisit now uuid userID ip ua ref vu w))) = Ok (n + 1).
Proof.
  intros Hh Hrecorded.
  destruct (RecordProfileVisit_ok_inv _ _ _ _ _ _ _ _ _ (proj2 Hh) Hrecorded)
    as [Huuid Hfresh].
  apply count_after_visit; assumption.
Qed.

Lemma RecordProfileVisit_counts_the_visit_witness :
  fst (GetActiveUserCount (10 * Second) id_U world_of_U_visited) = Ok 1
  /\ fst (GetActiveUserCount (10 * Second) id_U
            (snd (RecordProfileVisit (10 * Second) id_V2 id_U "10.0.0.2" "agent" "ref"
                    None world_of_U_visited))) = Ok (1 + 1).
Proof.
  split; [reflexivity|].
  apply (RecordProfileVisit_counts_the_visit (10 * Second) id_V2 id_U "10.0.0.2"
           "agent" "ref" None world_of_U_visited 1 id_V2);
    [split; reflexivity | reflexivity | | reflexivity].
  intros e s He Hs.
  assert (He' : e = {| rval := RSet {[id_V1]}; rexp := None |}).
  { vm_compute in He. injection He as <-. reflexivity. }
  subst e. cbn in Hs. injection Hs as <-.
  apply not_elem_of_singleton. discriminate.
Defined.

End VisitLifecycle.

Lemma relay_off_ignores_messages payloads s w :
  relay s = false -> run (map Message payloads) s w = (s, w).
Proof.
  intros Hoff. induction payloads as [|p ps IH]; simpl; [reflexivity|].
  rewrite Hoff. exact IH.
Qed.

Lemma delivered_all payloads : delivered [] payloads = payloads.
Proof. destruct payloads; reflexivity. Qed.

(** The relay loop forwards the events of the channel to the peer
    unchanged and in order, up to the first failed write; that failure
    ends the handler, which closes the connection and the subscription,
    and nothing is written afterwards. *)
Theorem relay_forwards_until_write_fails payloads : forall s w,
  websocket.open (conn s) = true ->
  relay s = true ->
  let s' := fst (run (map Message payloads) s w) in
  websocket.written (conn s')
  = (websocket.written (conn s) ++ delivered (websocket.wfail (conn s)) payloads)%list
  /\ (delivered (websocket.wfail (conn s)) payloads = payloads ->
      websocket.open (conn s') = true /\ relay s' = true
      /\ snd (run (map Message payloads) s w) = w)
  /\ (delivered (websocket.wfail (conn s)) payloads <> payloads -> closed s').
Proof.
  induction payloads as [|p ps IH]; intros s w Hopen Hrelay; cbv zeta.
  - simpl. rewrite app_nil_r. repeat split; try assumption; congruence.
  - cbn [map run step]. rewrite Hrelay.
    unfold websocket.WriteMessage. rewrite Hopen.
    destruct (websocket.wfail (conn s)) as [|[] fs] eqn:Hf; cbn [next_fault orb negb].
    + specialize (IH {| conn := {| websocket.open := true;
                                   websocket.written := websocket.written (conn s) ++ [p];
                                   websocket.wfail := [] |};
                        pubsub := pubsub s; pubsub_open := pubsub_open s;
                        visitID := visitID s; heartbeat := heartbeat s;
                        relay := true |} w eq_refl eq_refl).
      cbv zeta in IH. cbn [conn websocket.written websocket.wfail] in IH.
      rewrite delivered_all in IH. destruct IH as (Hw & Hall & _).
      cbn [delivered]. split; [|split].
      * rewrite Hw, <- app_assoc. reflexivity.
      * intros _. apply Hall. reflexivity.
      * congruence.
    + cbn [delivered]. unfold handler_returns.
      rewrite relay_off_ignores_messages by reflexivity.
      cbn. rewrite app_nil_r. split; [reflexivity|]. split; [discriminate|].
      intros _. repeat split.
    + specialize (IH {| conn := {| websocket.open := true;
                                   websocket.written := websocket.written (conn s) ++ [p];
                                   websocket.wfail := fs |};
                        pubsub := pubsub s; pubsub_open := pubsub_open s;
                        visitID := visitID s; heartbeat := heartbeat s;
                        relay := true |} w eq_refl eq_refl).
      cbv zeta in IH. cbn [conn websocket.written websocket.wfail] in IH.
      destruct IH as (Hw & Hall & Hnot).
      cbn [delivered]. split; [|split].
      * rewrite Hw, <- app_assoc. reflexivity.
      * intros E. apply Hall. congruence.
      * intros E. apply Hnot. congruence.
Qed.

Lemma relay_forwards_until_write_fails_witness :
  let s' := fst (run (map Message ["a"; "b"; "c"]) (session_V1_writing [false; true])
                   world_redis_hiccup) in
  websocket.written (conn s') = ["a"] /\ closed s'.
Proof.
  cbv zeta.
  destruct (relay_forwards_until_write_fails ["a"; "b"; "c"]
              (session_V1_writing [false; true]) world_redis_hiccup eq_refl eq_refl)
    as (Hw & _ & Hc).
  split; [exact Hw | apply Hc; discriminate].
Defined.

Lemma returned_session_is_idle evs s w :
  relay s = false -> heartbeat s = false -> run evs s w = (s, w).
Proof.
  destruct s as [c p po v hb rl]. cbn [relay heartbeat]. intros -> ->.
  induction evs as [|ev evs IH]; [reflexivity|].
  destruct ev; cbn; exact IH.
Qed.

Lemma GetActiveUserCount_on_redis t owner w w' :
  redis w' = redis w ->
  fst (GetActiveUserCount t owner w') = fst (GetActiveUserCount t owner w).
Proof.
  intros H. unfold GetActiveUserCount, on_redis. rewrite H.
  destruct (GetSetSize _ _ _) as [[n|e] rc]; reflexivity.
Qed.

Lemma handler_returns_keeps_presence s w :
  let s1 := fst (handler_returns s w) in
  let w1 := snd (handler_returns s w) in
  closed s1 /\ heartbeat s1 = false
  /\ conn s1 = websocket.Close (conn s)
  /\ rsubs (redis w1) = redis.remove_first (pubsub s) (rsubs (redis w))
  /\ keyspace w1 = keyspace w /\ published w1 = published w /\ db w1 = db w
  /\ (forall t owner,
        fst (GetActiveUserCount t owner w1) = fst (GetActiveUserCount t owner w)).
Proof.
  cbv zeta. unfold handler_returns, on_redis. cbn.
  repeat split.
  intros t owner. unfold GetActiveUserCount, on_redis, GetSetSize, request. cbn.
  destruct (next_fault (rfail (redis w))) as [[] fs]; cbn; [reflexivity|].
  unfold lookup_live. cbn. destruct (rdata (redis w) !! _) as [[[v|m] x]|]; cbn;
    try destruct (live t _); reflexivity.
Qed.

(** When the handler returns, whatever made it return (a failed write to
    the peer, or the request context being done), the connection and
    the subscription are closed and both loops have ended: whatever
    comes later, nothing more is written to the peer and the Redis
    keyspace, the published events, the subscriptions and the tables
    stay as they are.  The visit is not ended on the way out: the Redis
    keyspace and the tables are as they were, so the viewer count of
    every owner is what it was. *)
Theorem handler_return_keeps_presence ev s w :
  relay s = true ->
  relay (fst (step ev s w)) = false ->
  let s1 := fst (step ev s w) in
  let w1 := snd (step ev s w) in
  closed s1 /\ heartbeat s1 = false
  /\ rsubs (redis w1) = redis.remove_first (pubsub s) (rsubs (redis w))
  /\ keyspace w1 = keyspace w /\ published w1 = published w /\ db w1 = db w
  /\ (forall t owner,
        fst (GetActiveUserCount t owner w1) = fst (GetActiveUserCount t owner w))
  /\ (forall evs,
        let s2 := fst (run evs s1 w1) in
        let w2 := snd (run evs s1 w1) in
        conn s2 = conn s1 /\ redis w2 = redis w1 /\ db w2 = db w1).
Proof.
  intros Hrelay Hoff. cbv zeta.
  assert (Hret : exists s0 w0,
             step ev s w = handler_returns s0 w0
             /\ pubsub s0 = pubsub s /\ redis w0 = redis w /\ db w0 = db w).
  { revert Hoff. destruct ev as [now|payload|]; unfold step.
    - destruct (heartbeat s); [|cbn; congruence].
      destruct (RenewVisitorActivity now (visitID s) w) as [[u|e] w0]; cbn; congruence.
    - rewrite Hrelay.
      destruct (websocket.WriteMessage payload (conn s)) as [[u|e] conn'];
        [cbn; congruence|].
      intros _. eexists _, _. split; [reflexivity|]. repeat split.
    - unfold stop_heartbeat. cbn [relay]. rewrite Hrelay.
      intros _. eexists _, _. split; [reflexivity|]. repeat split. }
  destruct Hret as (s0 & w0 & -> & Hps & Hredis & Hdb).
  destruct (handler_returns_keeps_presence s0 w0)
    as (Hclosed & Hbeat & _ & Hsubs & Hkeys & Hpub & Hdb1 & Hcount).
  split; [exact Hclosed|]. split; [exact Hbeat|].
  split; [rewrite Hsubs, Hps, Hredis; reflexivity|].
  split; [rewrite Hkeys; unfold keyspace; rewrite Hredis; reflexivity|].
  split; [rewrite Hpub; unfold published; rewrite Hredis; reflexivity|].
  split; [rewrite Hdb1; exact Hdb|].
  split.
  - intros t owner. rewrite Hcount. apply GetActiveUserCount_on_redis. exact Hredis.
  - intros evs.
    rewrite (returned_session_is_idle evs _ _ (proj2 (proj2 Hclosed)) Hbeat).
    repeat split.
Qed.

Lemma handler_return_keeps_presence_witness :
  let s1 := fst (step (Message "a") (session_V1_writing [true]) world_of_U_watched) in
  let w1 := snd (step (Message "a") (session_V1_writing [true]) world_of_U_watched) in
  closed s1 /\ rsubs (redis w1) = []
  /\ fst (GetActiveUserCount (3600 * Second) id_U w1) = Ok 1.
Proof.
  cbv zeta.
  destruct (handler_return_keeps_presence (Message "a") (session_V1_writing [true])
              world_of_U_watched eq_refl eq_refl)
    as (Hc & _ & Hs & _ & _ & _ & Hcount & _).
  split; [exact Hc|]. split; [exact Hs|].
  rewrite Hcount. reflexivity.
Defined.

Lemma tick_renews now s w :
  rfail (redis w) = [] -> heartbeat s = true ->
  exists w', step (Tick now) s w = (s, w')
    /\ rfail (redis w') = []
    /\ keyspace w' = <[visitor_key (visitID s) := presence_entry now]> (keyspace w)
    /\ published w' = published w /\ rsubs (redis w') = rsubs (redis w)
    /\ db w' = db w.
Proof.
  intros Hrf Hb. unfold step. rewrite Hb.
  unfold RenewVisitorActivity, on_redis, Set_, request. fold (visitor_key (visitID s)).
  rewrite Hrf. cbn. eexists. split; [reflexivity|]. repeat split.
Qed.

(** While Redis answers, the heartbeat does one thing: every tick sets
    [visitor:<visit>] to expire five minutes later.  After any run of
    ticks the session is as it was, the entry is the one of the last
    tick, and the rest of the keyspace (the viewer sets among it), the
    published events, the subscriptions and the tables are untouched. *)
Theorem heartbeat_only_renews_presence_entry ticks : forall last s w,
  rfail (redis w) = [] ->
  heartbeat s = true ->
  let w' := snd (run (map Tick (ticks ++ [last])%list) s w) in
  fst (run (map Tick (ticks ++ [last])%list) s w) = s
  /\ keyspace w' = <[visitor_key (visitID s) := presence_entry last]> (keyspace w)
  /\ published w' = published w
  /\ rsubs (redis w') = rsubs (redis w)
  /\ db w' = db w.
Proof.
  induction ticks as [|t ticks IH]; intros last s w Hrf Hb; cbv zeta.
  - cbn [app map run].
    destruct (tick_renews last s w Hrf Hb) as (w' & -> & _ & Hk & Hp & Hs & Hd).
    cbn. repeat split; assumption.
  - cbn [app map run].
    destruct (tick_renews t s w Hrf Hb) as (w1 & -> & Hrf1 & Hk & Hp & Hs & Hd).
    destruct (IH last s w1 Hrf1 Hb) as (Hs' & Hk' & Hp' & Hsub' & Hd').
    split; [exact Hs'|]. split; [|repeat split; congruence].
    rewrite Hk', Hk. apply insert_insert_eq.
Qed.

Lemma heartbeat_only_renews_presence_entry_witness :
  let w' := snd (run (map Tick ([60 * Second; 120 * Second] ++ [180 * Second])%list)
                   session_V1 world_after_visit_V1h) in
  keyspace w' !! visitor_key id_V1 = Some (presence_entry (180 * Second))
  /\ keyspace w' !! visitors_key id_U = keyspace world_after_visit_V1h !! visitors_key id_U.
Proof.
  cbv zeta.
  destruct (heartbeat_only_renews_presence_entry [60 * Second; 120 * Second]
              (180 * Second) session_V1 world_after_visit_V1h eq_refl eq_refl)
    as (_ & Hk & _).
  split.
  - etrans; [exact (f_equal (fun m => m !! visitor_key id_V1) Hk)|].
    apply lookup_insert_eq.
  - etrans; [exact (f_equal (fun m => m !! visitors_key id_U) Hk)|].
    apply lookup_insert_ne. apply visitor_key_ne.
Defined.

Section LiveSession.
Local Arguments cache_key : simpl never.
Local Arguments updates_channel : simpl never.
Local Arguments Marshal : simpl never.
Local Arguments Unmarshal : simpl never.

(** A connection that passes validation is upgraded and subscribed to
    [track:updates:<owner>] before anything is sent.  If the now-playing
    cache holds a live snapshot the viewer gets it at once, as one JSON
    line; on a cache miss nothing is sent until the first event.  The
    handshake writes nothing to Redis and publishes nothing. *)
Theorem connect_subscribes_then_sends_cached_snapshot now c w user visit :
  rfail (redis w) = [] ->
  fst (GetUserByProfileURL (gin.Param c "profileURL") w) = Ok user ->
  IsActive user = true ->
  IsSharingEnabled user = true ->
  gin.Cookie c "visit_id" = Ok visit ->
  http.Handshake (gin.Request c) = true ->
  http.WriteFaults (gin.Request c) = [] ->
  let result := trackUpdatesWebSocket now c w in
  rsubs (redis (snd result)) = (rsubs (redis w) ++ [updates_channel (ID user)])%list
  /\ keyspace (snd result) = keyspace w
  /\ published (snd result) = published w
  /\ (cache_miss now (ID user) w ->
      fst result = Upgraded (started_session (ID user) visit [] []))
  /\ (forall track text t0,
        Marshal track = Ok text -> well_formed track = true ->
        IsPlaying track = true ->
        keyspace w !! cache_key (ID user) = Some (cache_entry t0 text) ->
        now < Add t0 (2 * Minute) ->
        fst result = Upgraded (started_session (ID user) visit [json_line text] [])).
Proof.
  intros Hrf Huser Hactive Hshare Hcookie Hhand Hfaults. cbv zeta.
  unfold trackUpdatesWebSocket.
  pose proof (GetUserByProfileURL_redis (gin.Param c "profileURL") w) as Hredis.
  destruct (GetUserByProfileURL (gin.Param c "profileURL") w) as [r w0].
  cbn [fst snd] in Huser, Hredis. subst r.
  rewrite Hactive, Hshare, Hcookie, Hhand, Hfaults. cbn [negb orb].
  unfold SubscribeToTrackUpdates. fold (updates_channel (ID user)).
  unfold GetCachedCurrentlyPlaying. fold (cache_key (ID user)).
  unfold cache_miss, on_redis, Subscribe, Get, request, lookup_live, keyspace, published.
  cbn [fst snd redis rdata rpublished rsubs rfail]. rewrite Hredis, Hrf.
  cbn [next_fault fst snd redis rdata rpublished rsubs rfail].
  assert (Hround : forall track text,
            Marshal track = Ok text -> well_formed track = true ->
            Unmarshal text = Ok track).
  { intros track text Hm Hwf. destruct (Unmarshal_Marshal track Hwf) as (text' & Hm' & Hun).
    congruence. }
  destruct (rdata (redis w) !! cache_key (ID user)) as [[[v|m] x]|] eqn:Hk.
  - destruct (live now {| rval := RString v; rexp := x |}) eqn:Hl; cbn.
    + destruct (Unmarshal v) as [t|err] eqn:Hun; cbn.
      * destruct (IsPlaying t) eqn:Hp; cbn.
        -- destruct (Marshal_total t) as [text' Hm']. rewrite Hm'. cbn.
           repeat split; try discriminate.
           intros track text t0 Hm Hwf Hplay Hsome Hlt.
           injection Hsome as -> _.
           rewrite (Hround track text Hm Hwf) in Hun. injection Hun as <-.
           rewrite Hm in Hm'. injection Hm' as <-. reflexivity.
        -- repeat split; try discriminate.
           intros track text t0 Hm Hwf Hplay Hsome Hlt.
           injection Hsome as -> _.
           rewrite (Hround track text Hm Hwf) in Hun. injection Hun as <-. congruence.
      * repeat split; try discriminate.
        intros track text t0 Hm Hwf Hplay Hsome Hlt.
        injection Hsome as -> _. rewrite (Hround track text Hm Hwf) in Hun. discriminate.
    + repeat split; try discriminate.
      intros track text t0 Hm Hwf Hplay Hsome Hlt.
      injection Hsome as -> ->. unfold live in Hl. cbn in Hl.
      destruct (Z.ltb_spec now (Add t0 (2 * Minute))); [discriminate | lia].
  - destruct (live now {| rval := RSet m; rexp := x |}) eqn:Hl; cbn;
      repeat split; discriminate.
  - cbn. repeat split; discriminate.
Qed.

Lemma connect_subscribes_then_sends_cached_snapshot_witness :
  fst (trackUpdatesWebSocket (60 * Second) handshake_of_V1 world_of_U_cached_T1)
  = Upgraded (started_session id_U id_V1 [json_line text_T1] [])
  /\ rsubs (redis (snd (trackUpdatesWebSocket (60 * Second) handshake_of_V1
                          world_of_U_cached_T1)))
     = [updates_channel id_U].
Proof.
  destruct (connect_subscribes_then_sends_cached_snapshot (60 * Second) handshake_of_V1
              world_of_U_cached_T1 (user_U (3600 * Second)) id_V1)
    as (Hsubs & _ & _ & _ & Hhit); try reflexivity.
  split; [|exact Hsubs].
  apply (Hhit snapshot_T1 text_T1 0); reflexivity.
Defined.

End LiveSession.

(** ** authMiddleware *)

Lemma GetUserByID_found id w user :
  fst (GetUserByID id w) = Ok user -> ID user = id.
Proof.
  unfold GetUserByID, on_db, sqlx.GetContext, sqlx.statement.
  destruct (next_fault _) as [[] fs]; cbn; [discriminate|].
  destruct (sqlx.uuid_in id); cbn; [|discriminate].
  destruct (find _ _) as [u|] eqn:Hfind; cbn; [|discriminate].
  intros H. injection H as <-. apply find_some in Hfind as [_ Heq].
  apply String.eqb_eq. exact Heq.
Qed.


(** ** The track handlers: what stops them *)

(** The leaf of a walk that sent nothing. *)
Ltac nothing_sent :=
  settle;
  match goal with
  | Q : moved _ _ _ [] ?w ?wk |- sent ?wk = sent ?w =>
    let Hs := fresh "Hs" in
    pose proof (proj1 (proj2 (proj2 (proj2 Q)))) as Hs;
    rewrite Hs; apply app_nil_r
  end.

(** With sharing switched off both track handlers answer 403 at once:
    the token is not refreshed, the provider is not polled, and the
    cache, the events and the history stay as they are. *)
Theorem sharing_disabled_stops_track_handlers now c w user :
  fst (GetUserByID (gin.GetString c "user_id") w) = Ok user ->
  IsSharingEnabled user = false ->
  (fst (getCurrentTrack now c w) = sharing_disabled
   /\ sent (snd (getCurrentTrack now c w)) = sent w
   /\ shared_state (snd (getCurrentTrack now c w)) = shared_state w)
  /\ (fst (refreshCurrentTrack now c w) = sharing_disabled
      /\ sent (snd (refreshCurrentTrack now c w)) = sent w
      /\ shared_state (snd (refreshCurrentTrack now c w)) = shared_state w).
Proof.
  intros Huser Hshare. pose proof (moved_refl w) as Q.
  split.
  - unfold getCurrentTrack. cbv zeta. walk. subst r. rewrite Hshare. cbn [negb].
    split; [reflexivity|]. split; [nothing_sent | unchanged].
  - unfold refreshCurrentTrack. cbv zeta. walk. subst r. rewrite Hshare. cbn [negb].
    split; [reflexivity|]. split; [nothing_sent | unchanged].
Qed.

Lemma sharing_disabled_stops_track_handlers_witness :
  let w := world_of_U_not_sharing 0 (Err "unused") (Ok snapshot_T1) in
  fst (refreshCurrentTrack (3600 * Second) request_of_U w) = sharing_disabled
  /\ sent (snd (refreshCurrentTrack (3600 * Second) request_of_U w)) = []
  /\ fst (getCurrentTrack (3600 * Second) request_of_U w) = sharing_disabled.
Proof.
  cbv zeta.
  destruct (sharing_disabled_stops_track_handlers (3600 * Second) request_of_U
              (world_of_U_not_sharing 0 (Err "unused") (Ok snapshot_T1))
              (user_U_not_sharing 0) eq_refl eq_refl)
    as ((Hc & _) & (Hr & Hs & _)).
  split; [exact Hr|]. split; [exact Hs | exact Hc].
Defined.

(** [getCurrentTrack] answers from the now-playing cache when it holds a
    playing snapshot: the provider is not contacted and nothing is
    written.  [refreshCurrentTrack] does not read the cache: in the same
    state it polls the provider. *)
Theorem getCurrentTrack_answers_from_cache now c w user track :
  fst (GetUserByID (gin.GetString c "user_id") w) = Ok user ->
  IsSharingEnabled user = true ->
  IsTokenExpired now user = false ->
  fst (GetCachedCurrentlyPlaying now (ID user) w) = Ok track ->
  IsPlaying track = true ->
  (fst (getCurrentTrack now c w) = gin.JSON http.StatusOK (gin.JSON_track track)
   /\ sent (snd (getCurrentTrack now c w)) = sent w
   /\ shared_state (snd (getCurrentTrack now c w)) = shared_state w)
  /\ sent (snd (refreshCurrentTrack now c w))
     = (sent w ++ [spotify.PlayerRequest (SpotifyAccessToken user)])%list.
Proof.
  intros Huser Hshare Hexp Hhit Hplay. pose proof (moved_refl w) as Q.
  pose proof (GetUserByID_redis (gin.GetString c "user_id") w) as Hredis.
  split.
  - unfold getCurrentTrack. cbv zeta. walk. subst r. rewrite Hshare, Hexp. cbn [negb].
    rewrite <- (GetCachedCurrentlyPlaying_redis now (ID user) w w0 Hredis) in Hhit.
    walk. subst cached. rewrite Hplay.
    split; [reflexivity|]. split; [nothing_sent | unchanged].
  - unfold refreshCurrentTrack. cbv zeta. walk. subst r. rewrite Hshare, Hexp. cbn [negb].
    walk. repeat first [walk | branch];
      match goal with
      | Q : moved _ _ _ _ w ?wk |- sent ?wk = _ =>
        rewrite (proj1 (proj2 (proj2 (proj2 Q)))); reflexivity
      end.
Qed.

Lemma getCurrentTrack_answers_from_cache_witness :
  fst (getCurrentTrack (60 * Second) request_of_U world_of_U_cached_T1)
  = gin.JSON http.StatusOK (gin.JSON_track snapshot_T1)
  /\ sent (snd (getCurrentTrack (60 * Second) request_of_U world_of_U_cached_T1)) = []
  /\ sent (snd (refreshCurrentTrack (60 * Second) request_of_U world_of_U_cached_T1))
     = [spotify.PlayerRequest "access-0"].
Proof.
  destruct (getCurrentTrack_answers_from_cache (60 * Second) request_of_U
              world_of_U_cached_T1 (user_U (3600 * Second)) snapshot_T1)
    as ((Hc & Hs & _) & Hr); try reflexivity.
  split; [exact Hc|]. split; [exact Hs | exact Hr].
Defined.

(** ** The refresh paths when the provider is down *)

Ltac down Hdown :=
  match goal with
  | Q : moved _ _ _ _ _ ?wk, Hp : Ok ?t = snd (provider ?wk) ?tok |- _ =>
    let H := fresh in
    pose proof (Hdown tok) as H;
    rewrite <- (provider_moved _ _ _ _ _ _ Q), <- Hp in H; discriminate H
  end.

(** When no poll of the provider is answered, none of the three refresh
    paths changes the now-playing cache, the published events or the
    track history, and [refreshCurrentTrack] never answers 200. *)
Theorem provider_down_changes_nothing now w :
  provider_down w ->
  (forall c, shared_state (snd (getCurrentTrack now c w)) = shared_state w)
  /\ (forall c, shared_state (snd (refreshCurrentTrack now c w)) = shared_state w
             /\ gin.Status (fst (refreshCurrentTrack now c w)) <> http.StatusOK)
  /\ (forall user, shared_state (snd (GetProfileResponse now user w)) = shared_state w).
Proof.
  intros Hdown. split; [|split].
  - intros c. pose proof (moved_refl w) as Q.
    unfold getCurrentTrack. cbv zeta.
    repeat first [walk | branch | unchanged | down Hdown].
  - intros c. pose proof (moved_refl w) as Q. split.
    + unfold refreshCurrentTrack. cbv zeta.
      repeat first [walk | branch | unchanged | down Hdown].
    + unfold refreshCurrentTrack. cbv zeta.
      repeat first [walk | branch | down Hdown | discriminate].
  - intros user. pose proof (moved_refl w) as Q.
    unfold GetProfileResponse, currentTrackOf. cbv zeta.
    repeat first [walk | branch | unchanged | down Hdown].
Qed.

Lemma provider_down_changes_nothing_witness :
  let w := world_of_U (3600 * Second) (Err "unused") (Err "provider unreachable") in
  fst (refreshCurrentTrack 0 request_of_U w) = provider_failed
  /\ shared_state (snd (refreshCurrentTrack 0 request_of_U w)) = shared_state w.
Proof.
  cbv zeta. split; [reflexivity|].
  apply (provider_down_changes_nothing 0
           (world_of_U (3600 * Second) (Err "unused") (Err "provider unreachable"))).
  intros tok. reflexivity.
Defined.

Lemma insert_by_played_at_perm t l :
  Permutation (sqlx.insert_by_played_at t l) (t :: l).
Proof.
  induction l as [|r l IH]; simpl; [reflexivity|].
  destruct (PlayedAt r <? PlayedAt t); [reflexivity|].
  rewrite IH. apply perm_swap.
Qed.

Lemma insert_by_played_at_sorted t l :
  StronglySorted not_earlier l ->
  StronglySorted not_earlier (sqlx.insert_by_played_at t l).
Proof.
  induction 1 as [|r l Hs IH Hall]; simpl.
  - repeat constructor.
  - destruct (Z.ltb_spec (PlayedAt r) (PlayedAt t)) as [Hlt|Hge].
    + constructor; [constructor; assumption|].
      constructor; [unfold not_earlier; lia|].
      eapply Forall_impl; [exact Hall|]. unfold not_earlier. intros x Hx. lia.
    + constructor; [exact IH|].
      rewrite (insert_by_played_at_perm t l). constructor; [exact Hge | exact Hall].
Qed.

Lemma order_by_played_at_desc_perm l :
  Permutation (sqlx.order_by_played_at_desc l) l.
Proof.
  induction l as [|t l IH]; simpl; [reflexivity|].
  rewrite insert_by_played_at_perm. constructor. exact IH.
Qed.

Lemma order_by_played_at_desc_sorted l :
  StronglySorted not_earlier (sqlx.order_by_played_at_desc l).
Proof.
  induction l as [|t l IH]; simpl; [constructor|].
  apply insert_by_played_at_sorted, IH.
Qed.

Lemma GetRecentTracks_ok userID limit w tracks :
  fst (GetRecentTracks userID limit w) = Ok tracks ->
  0 <= limit
  /\ tracks = take (Z.to_nat limit)
                (sqlx.order_by_played_at_desc (records_of userID (history w))).
Proof.
  unfold GetRecentTracks, on_db, sqlx.SelectRecentTracks, sqlx.statement.
  destruct (next_fault _) as [[] fs]; cbn; [discriminate|].
  destruct (sqlx.uuid_in userID); cbn; [|discriminate].
  destruct (Z.ltb_spec limit 0) as [Hneg|Hpos]; cbn; [discriminate|].
  intros H. injection H as <-. split; [exact Hpos | reflexivity].
Qed.

(** [GetRecentTracks] returns the owner's [limit] most recent history
    records, most recent first: the result, followed by the records left
    out, is the owner's history sorted by [played_at], latest first; it
    has [limit] records unless the owner has fewer.  A negative limit is
    an error. *)
Theorem GetRecentTracks_most_recent_first userID limit w tracks :
  fst (GetRecentTracks userID limit w) = Ok tracks ->
  0 <= limit
  /\ exists rest,
       StronglySorted not_earlier (tracks ++ rest)%list
       /\ Permutation (tracks ++ rest)%list (records_of userID (history w))
       /\ length tracks
          = Nat.min (Z.to_nat limit) (length (records_of userID (history w))).
Proof.
  intros H. apply GetRecentTracks_ok in H as [Hpos ->]. split; [exact Hpos|].
  set (sorted := sqlx.order_by_played_at_desc (records_of userID (history w))).
  exists (drop (Z.to_nat limit) sorted).
  rewrite take_drop. split; [apply order_by_played_at_desc_sorted|].
  split; [apply order_by_played_at_desc_perm|].
  rewrite length_take. unfold sorted.
  rewrite (Permutation_length (order_by_played_at_desc_perm _)). reflexivity.
Qed.

Lemma GetRecentTracks_most_recent_first_witness :
  0 <= 1
  /\ exists rest,
       StronglySorted not_earlier ([track_row id_r3 "T2" 30] ++ rest)%list
       /\ Permutation ([track_row id_r3 "T2" 30] ++ rest)%list
            (records_of id_U (history (save_all three_polls empty_world)))
       /\ length [track_row id_r3 "T2" 30]
          = Nat.min (Z.to_nat 1)
              (length (records_of id_U (history (save_all three_polls empty_world)))).
Proof.
  apply (GetRecentTracks_most_recent_first id_U 1 (save_all three_polls empty_world)).
  reflexivity.
Defined.

(** ** The profile response *)

Lemma recent_tracks_shape userID limit w tracks :
  fst (GetRecentTracks userID limit w) = Ok tracks ->
  (length tracks <= Z.to_nat limit)%nat
  /\ Forall (fun t => tUserID t = userID) tracks
  /\ StronglySorted not_earlier tracks.
Proof.
  intros H. apply GetRecentTracks_ok in H as [Hpos ->].
  split; [rewrite length_take; lia|]. split.
  - apply Forall_take. rewrite (order_by_played_at_desc_perm _).
    apply Forall_forall. intros t Ht. unfold records_of in Ht.
    apply list_elem_of_filter in Ht as [Ht _]. apply String.eqb_eq. exact Ht.
  - pose proof (order_by_played_at_desc_sorted (records_of userID (history w))) as Hs.
    rewrite <- (take_drop (Z.to_nat limit)) in Hs.
    exact (StronglySorted_app_1_l _ _ _ Hs).
Qed.

(** One step into a service: the next call or test is opened. *)
Ltac crack :=
  match goal with
  | |- context [GetCachedCurrentlyPlaying ?a ?b ?c] =>
    destruct (GetCachedCurrentlyPlaying a b c) as [[?|?] ?]
  | |- context [RefreshAccessToken ?a ?b] =>
    destruct (RefreshAccessToken a b) as [[?|?] ?]
  | |- context [UpdateUserToken ?a ?b ?c ?d ?e] =>
    destruct (UpdateUserToken a b c d e) as [[?|?] ?]
  | |- context [GetCurrentlyPlayingTrack ?a ?b] =>
    destruct (GetCurrentlyPlayingTrack a b) as [[?|?] ?]
  | |- context [CacheCurrentlyPlaying ?a ?b ?c ?d] =>
    destruct (CacheCurrentlyPlaying a b c d) as [[?|?] ?]
  | |- context [SaveTrackToHistory ?a ?b ?c] =>
    destruct (SaveTrackToHistory a b c) as [[?|?] ?]
  | |- context [NotifyTrackChange ?a ?b ?c] =>
    destruct (NotifyTrackChange a b c) as [[?|?] ?]
  | |- context [if ?b then _ else _] => destruct b eqn:?
  end; cbn [fst snd ID SpotifyAccessToken with_token sqlx.set_token log_if_err].

Lemma currentTrackOf_shape now user w t :
  fst (currentTrackOf now user w) = Some t ->
  exists s, IsPlaying s = true /\ t = track_of (ID user) now s.
Proof.
  unfold currentTrackOf. repeat crack;
    intros H; try discriminate H; injection H as <-;
    eexists; (split; [eassumption | reflexivity]).
Qed.

(** What a profile response holds.  It exposes the owner's id, display
    name and handle only; its profile is the stored one; it lists at
    most ten recent tracks, all the owner's, most recent first, and none
    when the profile hides the history; the viewer count is never
    negative and is 0 when the profile hides the stats; a current track
    is the owner's, marked as playing, built from a snapshot that is
    playing, and carries no id. *)
Theorem GetProfileResponse_contents now user w resp :
  fst (GetProfileResponse now user w) = Ok resp ->
  prUser resp = {| upID := ID user; upDisplayName := DisplayName user;
                   upProfileURL := ProfileURL user |}
  /\ fst (GetProfile (ID user) w) = Ok (prProfile resp)
  /\ ((length (RecentTracks resp) <= 10)%nat
      /\ Forall (fun t => tUserID t = ID user) (RecentTracks resp)
      /\ StronglySorted not_earlier (RecentTracks resp))
  /\ (ShowHistory (prProfile resp) = false -> RecentTracks resp = [])
  /\ 0 <= ViewerCount resp
  /\ (ShowStats (prProfile resp) = false -> ViewerCount resp = 0)
  /\ (forall t, CurrentTrack resp = Some t ->
        exists s, IsPlaying s = true /\ t = track_of (ID user) now s).
Proof.
  unfold GetProfileResponse.
  destruct (GetProfile (ID user) w) as [[profile|e] w1]; [|discriminate].
  pose proof (currentTrackOf_shape now user w1) as Hcur.
  destruct (currentTrackOf now user w1) as [current w2]. cbn [fst] in Hcur.
  assert (Hrecent : forall w', exists ts w'',
            (if ShowHistory profile then
               let '(r, w) := GetRecentTracks (ID user) 10 w' in
               match r with
               | Err e => ([], log_err "Failed to get recent tracks" e w)
               | Ok ts => (ts, w)
               end
             else ([], w')) = (ts, w'')
            /\ ((length ts <= 10)%nat /\ Forall (fun t => tUserID t = ID user) ts
                /\ StronglySorted not_earlier ts)
            /\ (ShowHistory profile = false -> ts = [])).
  { intros w'. destruct (ShowHistory profile).
    - pose proof (recent_tracks_shape (ID user) 10 w') as Hshape.
      destruct (GetRecentTracks (ID user) 10 w') as [[ts|e] w'']; cbn [fst] in Hshape.
      + exists ts, w''. split; [reflexivity|]. split; [|discriminate].
        exact (Hshape ts eq_refl).
      + eexists [], _. split; [reflexivity|]. split; [|reflexivity].
        split; [cbn; lia|]. split; constructor.
    - exists [], w'. split; [reflexivity|]. split; [|reflexivity].
      split; [cbn; lia|]. split; constructor. }
  destruct (Hrecent w2) as (ts & w3 & -> & Hts & Hhide).
  assert (Hcount : forall w', exists n w'',
            (if ShowStats profile then
               let '(r, w) := GetActiveUserCount now (ID user) w' in
               match r with
               | Err e => (0, log_err "Failed to get active viewer count" e w)
               | Ok count => (count, w)
               end
             else (0, w')) = (n, w'')
            /\ 0 <= n /\ (ShowStats profile = false -> n = 0)).
  { intros w'. destruct (ShowStats profile).
    - pose proof (GetActiveUserCount_nonneg now (ID user) w') as Hnn.
      destruct (GetActiveUserCount now (ID user) w') as [[n|e] w'']; cbn [fst] in Hnn.
      + exists n, w''. split; [reflexivity|]. split; [exact (Hnn n eq_refl) | discriminate].
      + eexists 0, _. split; [reflexivity|]. split; [lia | reflexivity].
    - exists 0, w'. split; [reflexivity|]. split; [lia | reflexivity]. }
  destruct (Hcount w3) as (n & w4 & -> & Hn & Hzero).
  cbn. intros H. injection H as <-. cbn.
  repeat split; try assumption; apply Hts.
Qed.

Lemma GetProfileResponse_contents_witness :
  let w := world_of_U_playing_T0 (3600 * Second) (Err "unused") (Ok snapshot_T1) in
  exists resp,
    fst (GetProfileResponse 0 (user_U (3600 * Second)) w) = Ok resp
    /\ CurrentTrack resp = Some (track_of id_U 0 snapshot_T1)
    /\ RecentTracks resp = [sqlx.set_not_playing (track_row id_r1 "T0" 0)]
    /\ 0 <= ViewerCount resp.
Proof.
  cbv zeta.
  assert (H : exists resp,
             fst (GetProfileResponse 0 (user_U (3600 * Second))
                    (world_of_U_playing_T0 (3600 * Second) (Err "unused")
                       (Ok snapshot_T1))) = Ok resp)
    by (vm_compute; eexists; reflexivity).
  destruct H as [resp H]. exists resp. split; [exact H|].
  destruct (GetProfileResponse_contents _ _ _ _ H) as (_ & _ & _ & _ & Hn & _).
  split; [|split; [|exact Hn]].
  - vm_compute in H. injection H as <-. reflexivity.
  - vm_compute in H. injection H as <-. reflexivity.
Defined.

(** The only error [GetProfileResponse] returns is the one of
    [GetProfile], and then it has done nothing else: no request was
    sent, and the cache, the events and the history are as they were.
    No failure after that point (cache, token refresh, poll, history,
    recent tracks, viewer count) is returned as an error. *)
Theorem GetProfileResponse_fails_only_without_profile now user w :
  (forall e, fst (GetProfileResponse now user w) = Err e ->
     fst (GetProfile (ID user) w) = Err e)
  /\ (forall e, fst (GetProfile (ID user) w) = Err e ->
      fst (GetProfileResponse now user w) = Err e
      /\ sent (snd (GetProfileResponse now user w)) = sent w
      /\ shared_state (snd (GetProfileResponse now user w)) = shared_state w).
Proof.
  pose proof (moved_refl w) as Q. split.
  - unfold GetProfileResponse.
    destruct (GetProfile (ID user) w) as [[profile|e0] w1];
      [|intros e H; cbn in H |- *; congruence].
    destruct (currentTrackOf now user w1) as [current w2].
    destruct (ShowHistory profile);
      [destruct (GetRecentTracks (ID user) 10 w2) as [[ts|e1] w3]|];
      (destruct (ShowStats profile);
       [destruct (GetActiveUserCount now (ID user) _) as [[n|e'] w4]|]);
      intros e H; discriminate H.
  - intros e He. unfold GetProfileResponse. walk. subst r.
    split; [reflexivity|]. split; [nothing_sent | unchanged].
Qed.

(** [GetProfileResponse] contacts the provider only on a cache miss of
    an owner who shares: with sharing switched off, or with a snapshot in
    the cache, no request is sent and the cache, the events and the
    history stay as they are. *)
Theorem GetProfileResponse_quiet_without_sharing_or_on_hit now user w :
  IsSharingEnabled user = false
  \/ is_ok (fst (GetCachedCurrentlyPlaying now (ID user) w)) = true ->
  sent (snd (GetProfileResponse now user w)) = sent w
  /\ shared_state (snd (GetProfileResponse now user w)) = shared_state w.
Proof.
  intros Hquiet. pose proof (moved_refl w) as Q.
  pose proof (GetProfile_redis (ID user) w) as Hredis.
  unfold GetProfileResponse, currentTrackOf. cbv zeta.
  walk. destruct r as [profile|e]; [|split; [nothing_sent | unchanged]].
  rewrite <- (GetCachedCurrentlyPlaying_redis now (ID user) w w0 Hredis) in Hquiet.
  walk. destruct cached as [t|e].
  - repeat first [walk | branch]; (split; [nothing_sent | unchanged]).
  - destruct Hquiet as [Hoff | Hhit]; [|discriminate Hhit]. rewrite Hoff.
    repeat first [walk | branch]; (split; [nothing_sent | unchanged]).
Qed.

Lemma GetProfileResponse_quiet_without_sharing_or_on_hit_witness :
  sent (snd (GetProfileResponse (60 * Second) (user_U (3600 * Second))
               world_of_U_cached_T1)) = []
  /\ shared_state (snd (GetProfileResponse (60 * Second) (user_U (3600 * Second))
                          world_of_U_cached_T1))
     = shared_state world_of_U_cached_T1.
Proof.
  apply (GetProfileResponse_quiet_without_sharing_or_on_hit (60 * Second)
           (user_U (3600 * Second)) world_of_U_cached_T1).
  right. reflexivity.
Defined.

Lemma int64_small z : - 2 ^ 63 <= z < 2 ^ 63 -> int64 z = z.
Proof.
  intros H. unfold int64.
  rewrite Z.mod_small by lia. lia.
Qed.

Lemma int64_seconds expiresIn :
  0 <= expiresIn <= max_expires_in -> int64 (expiresIn * Second) = expiresIn * Second.
Proof.
  unfold max_expires_in, Second. intros H. apply int64_small. lia.
Qed.

Lemma find_set_token id tok exp now (us : list User) user :
  find (fun u => String.eqb (ID u) id) us = Some user ->
  find (fun u => String.eqb (ID u) id)
       (map (fun u => if String.eqb (ID u) id then sqlx.set_token tok exp now u else u) us)
  = Some (sqlx.set_token tok exp now user).
Proof.
  induction us as [|u us IH]; simpl; [discriminate|].
  destruct (String.eqb (ID u) id) eqn:Hu; simpl.
  - intros H. injection H as <-. rewrite Hu. reflexivity.
  - rewrite Hu. exact IH.
Qed.

Lemma GetUserByID_finds_inv id w user :
  sqlx.dbfail (db w) = [] ->
  fst (GetUserByID id w) = Ok user ->
  sqlx.uuid_in id = true
  /\ find (fun u => String.eqb (ID u) id) (sqlx.users (db w)) = Some user.
Proof.
  intros Hd. unfold GetUserByID, on_db, sqlx.GetContext, sqlx.statement.
  rewrite Hd. cbn.
  destruct (sqlx.uuid_in id); cbn; [|discriminate].
  destruct (find _ _) as [u|]; cbn; [|discriminate].
  intros H. injection H as <-. split; reflexivity.
Qed.

Lemma GetUserByID_finds id w user :
  sqlx.dbfail (db w) = [] ->
  sqlx.uuid_in id = true ->
  find (fun u => String.eqb (ID u) id) (sqlx.users (db w)) = Some user ->
  fst (GetUserByID id w) = Ok user.
Proof.
  intros Hd Hid Hfind. unfold GetUserByID, on_db, sqlx.GetContext, sqlx.statement.
  rewrite Hd. cbn. rewrite Hid. cbn. rewrite Hfind. reflexivity.
Qed.

Lemma UpdateUserToken_healthy_users now id tok expiresIn w :
  sqlx.dbfail (db w) = [] ->
  sqlx.uuid_in id = true ->
  let w1 := snd (UpdateUserToken now id tok expiresIn w) in
  fst (UpdateUserToken now id tok expiresIn w) = Ok tt
  /\ sqlx.dbfail (db w1) = []
  /\ sqlx.users (db w1)
     = map (fun u => if String.eqb (ID u) id
                     then sqlx.set_token tok (Add now (int64 (expiresIn * Second))) now u
                     else u) (sqlx.users (db w))
  /\ redis w1 = redis w /\ spotifyClient w1 = spotifyClient w /\ logger w1 = logger w.
Proof.
  intros Hd Hid. cbv zeta.
  unfold UpdateUserToken, on_db, sqlx.UpdateToken, sqlx.statement.
  rewrite Hd. cbn. rewrite Hid. cbn. repeat split.
Qed.

(** A token update is read back by the next lookup: the stored user has
    the new access token, expires [expires_in] seconds after the update
    and keeps everything else, the refresh token included; from then on
    the token counts as expired exactly from five minutes before that
    expiry. *)
Theorem UpdateUserToken_is_read_back now userID tok expiresIn w user :
  sqlx.dbfail (db w) = [] ->
  fst (GetUserByID userID w) = Ok user ->
  0 <= expiresIn <= max_expires_in ->
  let w1 := snd (UpdateUserToken now userID tok expiresIn w) in
  fst (UpdateUserToken now userID tok expiresIn w) = Ok tt
  /\ fst (GetUserByID userID w1) = Ok (refreshed user tok expiresIn now)
  /\ (forall t, IsTokenExpired t (refreshed user tok expiresIn now) = true
                <-> now + expiresIn * Second < t + 5 * Minute).
Proof.
  intros Hd Huser Hrange. cbv zeta.
  destruct (GetUserByID_finds_inv _ _ _ Hd Huser) as [Hid Hfind].
  destruct (UpdateUserToken_healthy_users now userID tok expiresIn w Hd Hid)
    as (Hok & Hd1 & Husers & _).
  split; [exact Hok|]. split.
  - apply GetUserByID_finds; [exact Hd1 | exact Hid |].
    rewrite Husers, (int64_seconds _ Hrange). apply find_set_token, Hfind.
  - intros t. unfold IsTokenExpired, refreshed, Before, Add. cbn.
    rewrite Z.ltb_lt. reflexivity.
Qed.

Lemma UpdateUserToken_is_read_back_witness :
  let w := world_of_U 0 (Err "unused") (Err "unused") in
  fst (GetUserByID id_U (snd (UpdateUserToken (10 * Second) id_U "access-1" 3600 w)))
  = Ok (refreshed (user_U 0) "access-1" 3600 (10 * Second))
  /\ IsTokenExpired (3310 * Second) (refreshed (user_U 0) "access-1" 3600 (10 * Second))
     = false.
Proof.
  cbv zeta.
  destruct (UpdateUserToken_is_read_back (10 * Second) id_U "access-1" 3600
              (world_of_U 0 (Err "unused") (Err "unused")) (user_U 0))
    as (_ & Hget & Hexp); [reflexivity | reflexivity | vm_compute; split; discriminate |].
  split; [exact Hget | reflexivity].
Defined.

(** What the calls after the token update leave of the database. *)
Lemma on_redis_db {A} (f : RedisClient -> A * RedisClient) w :
  db (snd (on_redis f w)) = db w.
Proof. unfold on_redis. destruct (f (redis w)). reflexivity. Qed.

Lemma on_spotify_db {A} (f : spotify.Client -> A * spotify.Client) w :
  db (snd (on_spotify f w)) = db w.
Proof. unfold on_spotify. destruct (f (spotifyClient w)). reflexivity. Qed.

Lemma log_if_err_db {A} msg (r : result A) w : db (log_if_err msg r w) = db w.
Proof. destruct r; reflexivity. Qed.

Lemma GetCachedCurrentlyPlaying_db now id w :
  db (snd (GetCachedCurrentlyPlaying now id w)) = db w.
Proof.
  unfold GetCachedCurrentlyPlaying.
  match goal with |- context [on_redis ?f w] => pose proof (on_redis_db f w) as H end.
  destruct (on_redis _ w) as [[text|e] w']; cbn in *; [|exact H].
  destruct (Unmarshal text); exact H.
Qed.

Lemma GetCurrentlyPlayingTrack_db tok w :
  db (snd (GetCurrentlyPlayingTrack tok w)) = db w.
Proof. apply on_spotify_db. Qed.

Lemma RefreshAccessToken_db rt w : db (snd (RefreshAccessToken rt w)) = db w.
Proof. apply on_spotify_db. Qed.

Lemma CacheCurrentlyPlaying_db now id t w :
  db (snd (CacheCurrentlyPlaying now id t w)) = db w.
Proof.
  unfold CacheCurrentlyPlaying. destruct (Marshal t); [apply on_redis_db | reflexivity].
Qed.

Lemma NotifyTrackChange_db id t w : db (snd (NotifyTrackChange id t w)) = db w.
Proof.
  unfold NotifyTrackChange. destruct (Marshal t); [apply on_redis_db | reflexivity].
Qed.

Lemma GetUserByID_world id w :
  redis (snd (GetUserByID id w)) = redis w
  /\ spotifyClient (snd (GetUserByID id w)) = spotifyClient w
  /\ sqlx.users (db (snd (GetUserByID id w))) = sqlx.users (db w)
  /\ (sqlx.dbfail (db w) = [] -> sqlx.dbfail (db (snd (GetUserByID id w))) = []).
Proof.
  unfold GetUserByID, on_db, sqlx.GetContext, sqlx.statement.
  destruct (next_fault (sqlx.dbfail (db w))) as [[] fs] eqn:Hf; cbn;
    [|destruct (sqlx.uuid_in id); cbn; [destruct (find _ _); cbn|]];
    (repeat split; try reflexivity;
     intros Hd; rewrite Hd in Hf; first [discriminate Hf | injection Hf as <-];
     reflexivity).
Qed.

(** The database after the part of a track handler that follows the
    token update. *)
Ltac db_back :=
  repeat first
    [ rewrite log_if_err_db
    | rewrite CacheCurrentlyPlaying_db
    | rewrite NotifyTrackChange_db
    | rewrite GetCurrentlyPlayingTrack_db
    | rewrite GetCachedCurrentlyPlaying_db
    | rewrite RefreshAccessToken_db ].

(** A successful token refresh in a track handler is stored and used at
    once: the provider gets one token request with the stored refresh
    token and then the poll with the new access token, and the stored
    user has the new access token and expiry.  The refresh token of the
    answer is not stored: the user keeps the one it had. *)
Theorem refreshCurrentTrack_stores_and_uses_new_token now c w user tokenResp :
  sqlx.dbfail (db w) = [] ->
  fst (GetUserByID (gin.GetString c "user_id") w) = Ok user ->
  IsSharingEnabled user = true ->
  IsTokenExpired now user = true ->
  fst (provider w) (SpotifyRefreshToken user) = Ok tokenResp ->
  0 <= spotify.ExpiresIn tokenResp <= max_expires_in ->
  let w' := snd (refreshCurrentTrack now c w) in
  sent w'
  = (sent w ++ [spotify.TokenRequest (SpotifyRefreshToken user);
                spotify.PlayerRequest (spotify.AccessToken tokenResp)])%list
  /\ fst (GetUserByID (ID user) w')
     = Ok (refreshed user (spotify.AccessToken tokenResp)
             (spotify.ExpiresIn tokenResp) now)
  /\ SpotifyRefreshToken
       (refreshed user (spotify.AccessToken tokenResp) (spotify.ExpiresIn tokenResp) now)
     = SpotifyRefreshToken user.
Proof.
  intros Hd Huser Hshare Hexp Htok Hrange. cbv zeta.
  split; [|split; [|reflexivity]].
  - pose proof (moved_refl w) as Q.
    unfold refreshCurrentTrack. cbv zeta.
    walk. subst r. rewrite Hshare, Hexp. cbn [negb].
    walk. repeat known. rewrite Htok in Htoken. subst r.
    walk. walk. cbn [ID SpotifyAccessToken with_token sqlx.set_token].
    walk.
    repeat first [walk | branch];
      match goal with
      | Q : moved _ _ _ _ w ?wk |- sent ?wk = _ =>
        rewrite (proj1 (proj2 (proj2 (proj2 Q)))); reflexivity
      end.
  - pose proof (GetUserByID_found _ _ _ Huser) as Hid.
    destruct (GetUserByID_finds_inv _ _ _ Hd Huser) as [Huuid Hfind].
    destruct (GetUserByID_world (gin.GetString c "user_id") w)
      as (Hredis & Hclient & Husers & Hfail).
    specialize (Hfail Hd).
    unfold refreshCurrentTrack. cbv zeta.
    destruct (GetUserByID (gin.GetString c "user_id") w) as [r w0].
    cbn [fst snd] in *. subst r. rewrite Hshare, Hexp. cbn [negb].
    assert (Hanswer : fst (RefreshAccessToken (SpotifyRefreshToken user) w0) = Ok tokenResp).
    { unfold RefreshAccessToken, on_spotify, spotify.RefreshAccessToken. cbn.
      rewrite Hclient. exact Htok. }
    pose proof (RefreshAccessToken_db (SpotifyRefreshToken user) w0) as Hdb1.
    destruct (RefreshAccessToken (SpotifyRefreshToken user) w0) as [r w1].
    cbn [fst snd] in *. subst r.
    rewrite <- Hid in Huuid.
    assert (Hd1 : sqlx.dbfail (db w1) = []) by (rewrite Hdb1; exact Hfail).
    destruct (UpdateUserToken_healthy_users now (ID user) (spotify.AccessToken tokenResp)
                (spotify.ExpiresIn tokenResp) w1 Hd1 Huuid)
      as (_ & Hd2 & Husers2 & _).
    destruct (UpdateUserToken now (ID user) (spotify.AccessToken tokenResp)
                (spotify.ExpiresIn tokenResp) w1) as [r2 w2].
    cbn [fst snd] in *.
    cbn [ID SpotifyAccessToken with_token sqlx.set_token].
    assert (Hfinal : forall wf, db wf = db w2 ->
              fst (GetUserByID (ID user) wf)
              = Ok (refreshed user (spotify.AccessToken tokenResp)
                      (spotify.ExpiresIn tokenResp) now)).
    { intros wf Hwf. apply GetUserByID_finds.
      - rewrite Hwf. exact Hd2.
      - exact Huuid.
      - rewrite Hwf, Husers2, Hdb1, Husers, (int64_seconds _ Hrange).
        apply find_set_token. rewrite Hid. exact Hfind. }
    match goal with
    | |- context [GetCurrentlyPlayingTrack ?tok ?wk] =>
      pose proof (GetCurrentlyPlayingTrack_db tok wk) as Hdb3;
      destruct (GetCurrentlyPlayingTrack tok wk) as [[track|e] w3]
    end; cbn [fst snd] in *.
    + destruct (IsPlaying track).
      * match goal with
        | |- context [CacheCurrentlyPlaying ?a ?b ?t ?wk] =>
          pose proof (CacheCurrentlyPlaying_db a b t wk) as Hdb4;
          destruct (CacheCurrentlyPlaying a b t wk) as [r4 w4]
        end; cbn [fst snd] in *.
        match goal with
        | |- context [NotifyTrackChange ?a ?t ?wk] =>
          pose proof (NotifyTrackChange_db a t wk) as Hdb5;
          destruct (NotifyTrackChange a t wk) as [r5 w5]
        end; cbn [fst snd] in *.
        apply Hfinal. rewrite log_if_err_db, Hdb5, log_if_err_db, Hdb4, Hdb3.
        apply log_if_err_db.
      * apply Hfinal. rewrite Hdb3. apply log_if_err_db.
    + apply Hfinal. unfold log_err, log. cbn. rewrite Hdb3. apply log_if_err_db.
Qed.

Lemma refreshCurrentTrack_stores_and_uses_new_token_witness :
  let w := world_of_U 0 (Ok token_1) (Ok snapshot_idle) in
  let w' := snd (refreshCurrentTrack (3600 * Second) request_of_U w) in
  sent w' = [spotify.TokenRequest "refresh-0"; spotify.PlayerRequest "access-1"]
  /\ fst (GetUserByID id_U w')
     = Ok (refreshed (user_U 0) "access-1" 3600 (3600 * Second)).
Proof.
  cbv zeta.
  destruct (refreshCurrentTrack_stores_and_uses_new_token (3600 * Second) request_of_U
              (world_of_U 0 (Ok token_1) (Ok snapshot_idle)) (user_U 0) token_1)
    as (Hsent & Hget & _);
    [reflexivity | reflexivity | reflexivity | reflexivity | reflexivity
     | vm_compute; split; discriminate |].
  split; [exact Hsent | exact Hget].
Defined.

Section ProfilePage.
Local Arguments visitor_key : simpl never.
Local Arguments visitors_key : simpl never.
Local Arguments cache_key : simpl never.
Local Arguments updates_channel : simpl never.
Local Arguments Marshal : simpl never.
Local Arguments Unmarshal : simpl never.

Lemma GetActiveUserCount_value now id w :
  rfail (redis w) = [] ->
  fst (GetActiveUserCount now id w)
  = match cardinality now (keyspace w !! visitors_key id) with
    | Ok n => Ok n
    | Err e => Err (wrap "failed to get active viewer count" e)
    end.
Proof.
  intros Hrf. unfold GetActiveUserCount. fold (visitors_key id).
  unfold on_redis, GetSetSize, request, lookup_live, cardinality, keyspace.
  rewrite Hrf. cbn.
  destruct (rdata (redis w) !! visitors_key id) as [[[v|s] x]|]; cbn;
    try destruct (live now _); reflexivity.
Qed.

Lemma cache_key_ne_visitors_key id id' : visitors_key id' <> cache_key id.
Proof. unfold visitors_key, cache_key. simpl. congruence. Qed.

Ltac count_step :=
  match goal with
  | |- context [GetActiveUserCount ?now ?id ?wk] =>
    is_var wk;
    match goal with
    | Hh : healthy wk |- _ =>
      let H := fresh "Hcard" in
      pose proof (GetActiveUserCount_value now id wk (proj1 Hh)) as H
    end
  end; walk.

Lemma GetProfileResponse_viewer_count now user w profile m :
  healthy w ->
  fst (GetProfile (ID user) w) = Ok profile ->
  ShowStats profile = true ->
  fst (GetActiveUserCount now (ID user) w) = Ok m ->
  exists resp,
    fst (GetProfileResponse now user w) = Ok resp
    /\ ViewerCount resp = m /\ prProfile resp = profile.
Proof.
  intros Hh Hprofile Hstats Hm.
  rewrite (GetActiveUserCount_value now (ID user) w (proj1 Hh)) in Hm.
  pose proof (moved_refl w) as Q.
  unfold GetProfileResponse, currentTrackOf. cbv zeta.
  walk. subst r.
  repeat first [count_step | walk | branch].
  all: try congruence.
  all: eexists; (split; [reflexivity|]); cbn [ViewerCount prProfile];
    (split; [|reflexivity]).
  all: facts; revert Hcard; chase_with keyspace;
    rewrite ?lookup_insert_ne by (intros E; symmetry in E;
                                  exact (cache_key_ne_visitors_key _ _ E));
    intros Hcard; congruence.
Qed.

Lemma GetProfile_same id w w' :
  sqlx.profiles (db w') = sqlx.profiles (db w) ->
  sqlx.dbfail (db w') = sqlx.dbfail (db w) ->
  fst (GetProfile id w') = fst (GetProfile id w).
Proof.
  intros Hp Hd. unfold GetProfile, on_db, sqlx.GetContext, sqlx.statement.
  rewrite Hd. destruct (next_fault (sqlx.dbfail (db w))) as [[] fs]; cbn; [reflexivity|].
  destruct (sqlx.uuid_in id); cbn; [|reflexivity].
  rewrite Hp. destruct (find _ _); reflexivity.
Qed.

(** A page load of an anonymous visitor on the profile of an owner who is
    active and shares, with both servers answering: when the page is
    served with the [visit_id] cookie of a new visit, the viewer count
    it shows already includes that visit. *)
Theorem getPublicProfile_counts_the_visitor now uuid c w user profile n resp :
  healthy w ->
  fst (GetUserByProfileURL (gin.Param c "profileURL") w) = Ok user ->
  IsActive user = true ->
  IsSharingEnabled user = true ->
  is_ok (gin.Cookie c "user_id") = false ->
  fst (GetProfile (ID user) w) = Ok profile ->
  ShowStats profile = true ->
  (forall e s, lookup_live now (visitors_key (ID user)) (redis w) = Some e ->
               rval e = RSet s -> uuid ∉ s) ->
  fst (GetActiveUserCount now (ID user) w) = Ok n ->
  fst (getPublicProfile now uuid c w) = profile_page resp uuid ->
  ViewerCount resp = n + 1 /\ prProfile resp = profile.
Proof.
  intros Hh Huser Hactive Hshare Hanon Hprofile Hstats Hnew Hcount.
  destruct w as [[us ps ts vs fs] [data pub subs rf] cl lg].
  destruct Hh as [Hrf Hdf]. cbn in Hrf, Hdf. subst rf fs.
  unfold getPublicProfile.
  unfold GetUserByProfileURL, on_db, sqlx.GetContext, sqlx.statement in Huser |- *.
  cbn [next_fault sqlx.dbfail db forallb fst snd sqlx.users] in Huser |- *.
  destruct (find _ us) as [u|]; cbn [fst snd] in Huser |- *; [|discriminate Huser].
  injection Huser as ->.
  rewrite Hactive, Hshare. cbn [negb orb].
  destruct (gin.Cookie c "user_id") as [v|e]; [discriminate Hanon|].
  cbn [String.eqb negb andb].
  cbn [sqlx.users sqlx.profiles sqlx.tracks sqlx.profile_visits sqlx.dbfail
       db redis spotifyClient logger].
  set (w := {| db := _; redis := _; spotifyClient := cl; logger := lg |}) in *.
  assert (Hh : healthy w) by (split; reflexivity).
  destruct (RecordProfileVisit now uuid (ID user) (http.ClientIP (gin.Request c))
              (gin.GetHeader c "User-Agent") (gin.GetHeader c "Referer") None w)
    as [[visitID|e'] w1] eqn:Hrec.
  - assert (Hrec' : fst (RecordProfileVisit now uuid (ID user)
                           (http.ClientIP (gin.Request c))
                           (gin.GetHeader c "User-Agent") (gin.GetHeader c "Referer")
                           None w) = Ok visitID) by (rewrite Hrec; reflexivity).
    destruct (RecordProfileVisit_ok_inv _ _ _ _ _ _ _ _ _ (proj2 Hh) Hrec')
      as [Hids Hfresh].
    destruct (RecordProfileVisit_healthy now uuid (ID user)
                (http.ClientIP (gin.Request c))
                (gin.GetHeader c "User-Agent") (gin.GetHeader c "Referer") None w
                Hh Hids Hfresh)
      as (_ & Hh1 & _ & _ & (_ & Hprofiles & _) & _).
    pose proof (count_after_visit now uuid (ID user) (http.ClientIP (gin.Request c))
                  (gin.GetHeader c "User-Agent") (gin.GetHeader c "Referer") None w n
                  Hh Hids Hfresh Hnew Hcount) as Hcount1.
    rewrite Hrec in Hh1, Hprofiles, Hcount1. cbn [fst snd] in *.
    assert (Hprofile1 : fst (GetProfile (ID user) w1) = Ok profile).
    { rewrite (GetProfile_same (ID user) w w1 Hprofiles); [exact Hprofile|].
      rewrite (proj2 Hh1). reflexivity. }
    destruct (GetProfileResponse_viewer_count now user w1 profile (n + 1)
                Hh1 Hprofile1 Hstats Hcount1) as (resp' & Hresp & Hn & Hp).
    destruct (GetProfileResponse now user w1) as [r2 w2]. cbn [fst] in Hresp. subst r2.
    cbn [fst]. unfold profile_page. intros Hpage.
    injection Hpage as <- _. split; assumption.
  - destruct (GetProfileResponse now user _) as [[r2|e2] w2]; cbn [fst];
      unfold profile_page; intros Hpage; discriminate Hpage.
Qed.

Lemma getPublicProfile_counts_the_visitor_witness :
  let w := world_of_U (3600 * Second) (Err "unused") (Ok snapshot_T1) in
  exists resp,
    fst (getPublicProfile 0 id_V1 page_load_of_U w) = profile_page resp id_V1
    /\ ViewerCount resp = 0 + 1
    /\ prProfile resp = profile_U.
Proof.
  cbv zeta.
  assert (Hpage : exists resp,
             fst (getPublicProfile 0 id_V1 page_load_of_U
                    (world_of_U (3600 * Second) (Err "unused") (Ok snapshot_T1)))
             = profile_page resp id_V1)
    by (vm_compute; eexists; reflexivity).
  destruct Hpage as [resp Hpage]. exists resp. split; [exact Hpage|].
  apply (getPublicProfile_counts_the_visitor 0 id_V1 page_load_of_U
           (world_of_U (3600 * Second) (Err "unused") (Ok snapshot_T1))
           (user_U (3600 * Second)) profile_U 0 resp).
  - split; reflexivity.
  - vm_compute. reflexivity.
  - reflexivity.
  - reflexivity.
  - vm_compute. reflexivity.
  - vm_compute. reflexivity.
  - reflexivity.
  - intros e s H. vm_compute in H. discriminate H.
  - vm_compute. reflexivity.
  - exact Hpage.
Defined.

(** A page load for a path that no user has, or whose owner is inactive
    or has sharing switched off, is answered 404 without a cookie; no
    visit is recorded, and neither Redis nor the provider is contacted. *)
Theorem getPublicProfile_unavailable_records_nothing now uuid c w :
  match fst (GetUserByProfileURL (gin.Param c "profileURL") w) with
  | Ok user => IsActive user = false \/ IsSharingEnabled user = false
  | Err _ => True
  end ->
  let '(resp, w') := getPublicProfile now uuid c w in
  gin.Status resp = http.StatusNotFound
  /\ gin.SetCookie resp = []
  /\ sqlx.profile_visits (db w') = sqlx.profile_visits (db w)
  /\ sqlx.tracks (db w') = sqlx.tracks (db w)
  /\ redis w' = redis w
  /\ spotifyClient w' = spotifyClient w.
Proof.
  intros Hgone. unfold getPublicProfile.
  assert (Hw : let w0 := snd (GetUserByProfileURL (gin.Param c "profileURL") w) in
               sqlx.profile_visits (db w0) = sqlx.profile_visits (db w)
               /\ sqlx.tracks (db w0) = sqlx.tracks (db w)
               /\ redis w0 = redis w /\ spotifyClient w0 = spotifyClient w).
  { unfold GetUserByProfileURL, on_db, sqlx.GetContext, sqlx.statement.
    destruct (next_fault _) as [[] fs]; cbn; [repeat split|].
    destruct (find _ _); cbn; repeat split. }
  destruct (GetUserByProfileURL (gin.Param c "profileURL") w) as [[user|e] w0];
    cbn [fst snd] in *.
  - destruct Hgone as [-> | ->]; cbn [negb orb];
      rewrite ?orb_true_r; cbn; repeat split; apply Hw.
  - cbn. repeat split; apply Hw.
Qed.

Lemma getPublicProfile_unavailable_records_nothing_witness :
  let w := world_of_U_not_sharing 0 (Err "unused") (Ok snapshot_T1) in
  let '(resp, w') := getPublicProfile 0 id_V1 page_load_of_U w in
  gin.Status resp = http.StatusNotFound
  /\ gin.SetCookie resp = []
  /\ sqlx.profile_visits (db w') = sqlx.profile_visits (db w)
  /\ sqlx.tracks (db w') = sqlx.tracks (db w)
  /\ redis w' = redis w
  /\ spotifyClient w' = spotifyClient w.
Proof.
  cbv zeta.
  apply (getPublicProfile_unavailable_records_nothing 0 id_V1 page_load_of_U
           (world_of_U_not_sharing 0 (Err "unused") (Ok snapshot_T1))).
  vm_compute. right. reflexivity.
Defined.

End ProfilePage.

(** ** Settings and profile updates *)

Lemma find_map_same {A} (p : A -> bool) (f : A -> A) (l : list A) :
  (forall x, p (f x) = p x) ->
  find p (map f l) = option_map f (find p l).
Proof.
  intros Hp. induction l as [|x l IH]; simpl; [reflexivity|].
  rewrite Hp. destruct (p x); [reflexivity | exact IH].
Qed.

Lemma map_unchanged {A} (f : A -> A) (l : list A) :
  (forall x, In x l -> f x = x) -> map f l = l.
Proof.
  intros H. induction l as [|x l IH]; simpl; [reflexivity|].
  rewrite H by (left; reflexivity). f_equal. apply IH.
  intros y Hy. apply H. right. exact Hy.
Qed.

Lemma UpdateUserSettings_users now userID enabled w :
  sqlx.dbfail (db w) = [] ->
  sqlx.uuid_in userID = true ->
  UpdateUserSettings now userID enabled w
  = (Ok tt,
     {| db := sqlx.with_users (db w)
                (map (fun u => if String.eqb (ID u) userID
                               then sqlx.set_sharing enabled now u else u)
                     (sqlx.users (db w)));
        redis := redis w; spotifyClient := spotifyClient w; logger := logger w |}).
Proof.
  intros Hd Hid. destruct w as [[us ps ts vs fs] rc cl lg]. cbn in Hd. subst fs.
  unfold UpdateUserSettings, on_db, sqlx.UpdateSharing, sqlx.statement.
  cbn. rewrite Hid. reflexivity.
Qed.

Lemma GetUserByID_uuid id w user :
  fst (GetUserByID id w) = Ok user -> sqlx.uuid_in id = true.
Proof.
  unfold GetUserByID, on_db, sqlx.GetContext, sqlx.statement.
  destruct (next_fault _) as [[] fs]; cbn; [discriminate|].
  destruct (sqlx.uuid_in id); [reflexivity|discriminate].
Qed.

Lemma GetUserByID_on_users id w us :
  sqlx.dbfail (db w) = [] ->
  fst (GetUserByID id
         {| db := sqlx.with_users (db w) us; redis := redis w;
            spotifyClient := spotifyClient w; logger := logger w |})
  = if sqlx.uuid_in id
    then match find (fun u => String.eqb (ID u) id) us with
         | Some u => Ok u
         | None => Err (wrap "failed to get user" sqlx.ErrNoRows)
         end
    else Err (wrap "failed to get user" sqlx.ErrInvalidUUID).
Proof.
  intros Hd. unfold GetUserByID, on_db, sqlx.GetContext, sqlx.statement.
  cbn. rewrite Hd. cbn. destruct (sqlx.uuid_in id); [|reflexivity].
  destruct (find _ us); reflexivity.
Qed.

Lemma GetUserByProfileURL_on_users url w us :
  sqlx.dbfail (db w) = [] ->
  GetUserByProfileURL url
    {| db := sqlx.with_users (db w) us; redis := redis w;
       spotifyClient := spotifyClient w; logger := logger w |}
  = (match find (fun u => String.eqb (ProfileURL u) url) us with
     | Some u => Ok u
     | None => Err (wrap "failed to get user by profile URL" sqlx.ErrNoRows)
     end,
     {| db := sqlx.with_users (db w) us; redis := redis w;
        spotifyClient := spotifyClient w; logger := logger w |}).
Proof.
  intros Hd. destruct w as [[us0 ps ts vs fs] rc cl lg]. cbn in Hd. subst fs.
  unfold GetUserByProfileURL, on_db, sqlx.GetContext, sqlx.statement.
  cbn. destruct (find _ us); reflexivity.
Qed.

Lemma GetUserByProfileURL_find url w user :
  sqlx.dbfail (db w) = [] ->
  fst (GetUserByProfileURL url w) = Ok user ->
  find (fun u => String.eqb (ProfileURL u) url) (sqlx.users (db w)) = Some user.
Proof.
  intros Hd. unfold GetUserByProfileURL, on_db, sqlx.GetContext, sqlx.statement.
  rewrite Hd. cbn.
  destruct (find _ _) as [u|]; cbn; [|discriminate].
  intros H. injection H as <-. reflexivity.
Qed.

(** [UpdateUserSettings] changes one flag of one user.  With the
    database answering, the call succeeds for an id in the form of
    [uuid.UUID.String()]; the user of that id is read back with the
    requested sharing flag and the time of the update, every other field
    kept; the lookup by any other id in that form answers as before, and
    nothing but the users table is touched.  For an id that no user has
    the call still reports success, having changed no row. *)
Theorem UpdateUserSettings_changes_one_flag now userID enabled w :
  sqlx.dbfail (db w) = [] ->
  sqlx.uuid_in userID = true ->
  uuid_String userID = true ->
  let w1 := snd (UpdateUserSettings now userID enabled w) in
  fst (UpdateUserSettings now userID enabled w) = Ok tt
  /\ (forall user, fst (GetUserByID userID w) = Ok user ->
        fst (GetUserByID userID w1) = Ok (sqlx.set_sharing enabled now user))
  /\ (forall other, uuid_String other = true -> other <> userID ->
        fst (GetUserByID other w1) = fst (GetUserByID other w))
  /\ (is_ok (fst (GetUserByID userID w)) = false ->
        sqlx.users (db w1) = sqlx.users (db w))
  /\ sqlx.profiles (db w1) = sqlx.profiles (db w)
  /\ sqlx.tracks (db w1) = sqlx.tracks (db w)
  /\ sqlx.profile_visits (db w1) = sqlx.profile_visits (db w)
  /\ redis w1 = redis w
  /\ spotifyClient w1 = spotifyClient w.
Proof.
  intros Hd Hid _. cbv zeta.
  rewrite (UpdateUserSettings_users now userID enabled w Hd Hid). cbn [fst snd].
  set (f := fun u => if String.eqb (ID u) userID
                     then sqlx.set_sharing enabled now u else u).
  assert (Hkeep : forall id x, String.eqb (ID (f x)) id = String.eqb (ID x) id).
  { intros id x. unfold f. destruct (String.eqb (ID x) userID); reflexivity. }
  assert (Hold : forall id,
            fst (GetUserByID id w)
            = if sqlx.uuid_in id
              then match find (fun u => String.eqb (ID u) id) (sqlx.users (db w)) with
                   | Some u => Ok u
                   | None => Err (wrap "failed to get user" sqlx.ErrNoRows)
                   end
              else Err (wrap "failed to get user" sqlx.ErrInvalidUUID)).
  { intros id. rewrite <- (GetUserByID_on_users id w (sqlx.users (db w)) Hd).
    destruct w as [[us ps ts vs fs] rc cl lg]. reflexivity. }
  split; [reflexivity|]. split; [|split; [|split]].
  - intros user Huser. rewrite Hold, Hid in Huser.
    rewrite (GetUserByID_on_users userID w _ Hd), Hid.
    rewrite (find_map_same _ f _ (Hkeep userID)).
    destruct (find _ _) as [u|] eqn:Hfind; [|discriminate Huser].
    injection Huser as ->. cbn. unfold f.
    apply find_some in Hfind as [_ ->]. reflexivity.
  - intros other _ Hother. rewrite Hold, (GetUserByID_on_users other w _ Hd).
    destruct (sqlx.uuid_in other); [|reflexivity].
    rewrite (find_map_same _ f _ (Hkeep other)).
    destruct (find _ _) as [u|] eqn:Hfind; [|reflexivity].
    cbn. unfold f. apply find_some in Hfind as [_ Hu].
    apply String.eqb_eq in Hu. subst other.
    destruct (String.eqb_spec (ID u) userID); [contradiction|reflexivity].
  - intros Hnone. rewrite Hold, Hid in Hnone. cbn [db sqlx.users sqlx.with_users].
    apply map_unchanged. intros x Hx. unfold f.
    destruct (String.eqb (ID x) userID) eqn:Hx'; [|reflexivity].
    destruct (find _ _) eqn:Hfind; [discriminate Hnone|].
    pose proof (find_none _ _ Hfind x Hx) as Habs. cbn in Habs. congruence.
  - repeat split.
Qed.

Lemma UpdateUserSettings_changes_one_flag_witness :
  let w := world_of_U (3600 * Second) (Err "unused") (Ok snapshot_T1) in
  let w1 := snd (UpdateUserSettings (10 * Second) id_U false w) in
  fst (UpdateUserSettings (10 * Second) id_U false w) = Ok tt
  /\ (forall user, fst (GetUserByID id_U w) = Ok user ->
        fst (GetUserByID id_U w1) = Ok (sqlx.set_sharing false (10 * Second) user))
  /\ (forall other, uuid_String other = true -> other <> id_U ->
        fst (GetUserByID other w1) = fst (GetUserByID other w))
  /\ (is_ok (fst (GetUserByID id_U w)) = false ->
        sqlx.users (db w1) = sqlx.users (db w))
  /\ sqlx.profiles (db w1) = sqlx.profiles (db w)
  /\ sqlx.tracks (db w1) = sqlx.tracks (db w)
  /\ sqlx.profile_visits (db w1) = sqlx.profile_visits (db w)
  /\ redis w1 = redis w
  /\ spotifyClient w1 = spotifyClient w.
Proof.
  cbv zeta.
  apply (UpdateUserSettings_changes_one_flag (10 * Second) id_U false
           (world_of_U (3600 * Second) (Err "unused") (Ok snapshot_T1)));
    reflexivity.
Defined.

(** Switching sharing off takes effect on the next request.  Once
    [UpdateUserSettings] has stored [false] for a user, the public page
    of that user answers 404 (profile unavailable) and records no visit,
    the live-update endpoint refuses the connection with 403 before any
    upgrade, and the user's own track endpoints answer 403; Redis, its
    cache included, is not touched by the update. *)
Theorem sharing_off_closes_every_entry now userID w user :
  sqlx.dbfail (db w) = [] ->
  fst (GetUserByID userID w) = Ok user ->
  fst (GetUserByProfileURL (ProfileURL user) w) = Ok user ->
  let w1 := snd (UpdateUserSettings now userID false w) in
  fst (UpdateUserSettings now userID false w) = Ok tt
  /\ redis w1 = redis w
  /\ (forall later uuid c, gin.Param c "profileURL" = ProfileURL user ->
        fst (getPublicProfile later uuid c w1) = profile_unavailable
        /\ sqlx.profile_visits (db (snd (getPublicProfile later uuid c w1)))
           = sqlx.profile_visits (db w))
  /\ (forall later c, gin.Param c "profileURL" = ProfileURL user ->
        fst (trackUpdatesWebSocket later c w1) = profile_not_available)
  /\ (forall later c, gin.GetString c "user_id" = userID ->
        fst (getCurrentTrack later c w1) = sharing_disabled
        /\ fst (refreshCurrentTrack later c w1) = sharing_disabled).
Proof.
  intros Hd Huser Hurl. cbv zeta.
  pose proof (GetUserByID_uuid _ _ _ Huser) as Hid.
  pose proof (GetUserByID_found _ _ _ Huser) as Hname.
  rewrite (UpdateUserSettings_users now userID false w Hd Hid). cbn [fst snd].
  set (f := fun u => if String.eqb (ID u) userID
                     then sqlx.set_sharing false now u else u).
  set (w1 := {| db := _; redis := redis w |}).
  assert (Hf : f user = sqlx.set_sharing false now user).
  { unfold f. rewrite Hname, String.eqb_refl. reflexivity. }
  assert (Hpage : GetUserByProfileURL (ProfileURL user) w1
                  = (Ok (sqlx.set_sharing false now user), w1)).
  { unfold w1. rewrite (GetUserByProfileURL_on_users _ w _ Hd).
    rewrite (find_map_same _ f).
    - rewrite (GetUserByProfileURL_find _ _ _ Hd Hurl). cbn. rewrite Hf. reflexivity.
    - intros x. unfold f. destruct (String.eqb (ID x) userID); reflexivity. }
  assert (Hown : exists w2, GetUserByID userID w1
                            = (Ok (sqlx.set_sharing false now user), w2)).
  { assert (H1 : fst (GetUserByID userID w1) = Ok (sqlx.set_sharing false now user)).
    { unfold w1. rewrite (GetUserByID_on_users userID w _ Hd), Hid.
      rewrite (find_map_same _ f).
      - rewrite (proj2 (GetUserByID_finds_inv _ _ _ Hd Huser)). cbn.
        rewrite Hf. reflexivity.
      - intros x. unfold f. destruct (String.eqb (ID x) userID) eqn:E; cbn;
          rewrite ?E; reflexivity. }
    destruct (GetUserByID userID w1) as [r w2]. cbn in H1. subst r.
    exists w2. reflexivity. }
  split; [reflexivity|]. split; [reflexivity|]. split; [|split].
  - intros later uuid c Hc. unfold getPublicProfile. rewrite Hc, Hpage.
    cbn [sqlx.set_sharing IsSharingEnabled negb]. rewrite orb_true_r.
    split; reflexivity.
  - intros later c Hc. unfold trackUpdatesWebSocket. rewrite Hc, Hpage.
    cbn [sqlx.set_sharing IsSharingEnabled negb]. rewrite orb_true_r. reflexivity.
  - intros later c Hc. destruct Hown as [w2 Hown].
    unfold getCurrentTrack, refreshCurrentTrack. rewrite Hc, Hown.
    split; reflexivity.
Qed.

Lemma sharing_off_closes_every_entry_witness :
  let w := world_of_U (3600 * Second) (Err "unused") (Ok snapshot_T1) in
  let user := user_U (3600 * Second) in
  let w1 := snd (UpdateUserSettings (10 * Second) id_U false w) in
  fst (UpdateUserSettings (10 * Second) id_U false w) = Ok tt
  /\ redis w1 = redis w
  /\ (forall later uuid c, gin.Param c "profileURL" = ProfileURL user ->
        fst (getPublicProfile later uuid c w1) = profile_unavailable
        /\ sqlx.profile_visits (db (snd (getPublicProfile later uuid c w1)))
           = sqlx.profile_visits (db w))
  /\ (forall later c, gin.Param c "profileURL" = ProfileURL user ->
        fst (trackUpdatesWebSocket later c w1) = profile_not_available)
  /\ (forall later c, gin.GetString c "user_id" = id_U ->
        fst (getCurrentTrack later c w1) = sharing_disabled
        /\ fst (refreshCurrentTrack later c w1) = sharing_disabled).
Proof.
  cbv zeta.
  apply (sharing_off_closes_every_entry (10 * Second) id_U
           (world_of_U (3600 * Second) (Err "unused") (Ok snapshot_T1))
           (user_U (3600 * Second))); reflexivity.
Defined.

Lemma GetProfile_find userID w :
  sqlx.dbfail (db w) = [] ->
  GetProfile userID w
  = (if sqlx.uuid_in userID
     then match find (fun p => String.eqb (pUserID p) userID) (sqlx.profiles (db w)) with
          | Some p => Ok p
          | None => Err (wrap "failed to get profile" sqlx.ErrNoRows)
          end
     else Err (wrap "failed to get profile" sqlx.ErrInvalidUUID), w).
Proof.
  intros Hd. destruct w as [[us ps ts vs fs] rc cl lg]. cbn in Hd. subst fs.
  unfold GetProfile, on_db, sqlx.GetContext, sqlx.statement. cbn.
  destruct (sqlx.uuid_in userID); [|reflexivity].
  destruct (find _ ps); reflexivity.
Qed.

Lemma UpdateProfile_profiles now userID updates w p :
  sqlx.dbfail (db w) = [] ->
  fst (GetProfile userID w) = Ok p ->
  sqlx.uuid_in (pID p) = true ->
  UpdateProfile now userID updates w
  = (Ok tt,
     {| db := sqlx.with_profiles (db w)
                (map (fun r => if String.eqb (pID r) (pID p)
                               then sqlx.set_display (updated_profile p updates now) r
                               else r)
                     (sqlx.profiles (db w)));
        redis := redis w; spotifyClient := spotifyClient w; logger := logger w |}).
Proof.
  intros Hd Hp Hid. unfold UpdateProfile.
  rewrite (GetProfile_find userID w Hd) in Hp |- *. cbn [fst] in Hp.
  destruct (sqlx.uuid_in userID); [|discriminate Hp].
  destruct (find _ _) as [q|]; [|discriminate Hp]. injection Hp as ->.
  destruct w as [[us ps ts vs fs] rc cl lg]. cbn in Hd. subst fs.
  unfold on_db, sqlx.UpdateProfile, sqlx.statement. cbn. rewrite Hid. reflexivity.
Qed.

Lemma UpdateProfile_ok_inv now userID updates w p :
  sqlx.dbfail (db w) = [] ->
  fst (GetProfile userID w) = Ok p ->
  fst (UpdateProfile now userID updates w) = Ok tt ->
  sqlx.uuid_in (pID p) = true.
Proof.
  intros Hd Hp. unfold UpdateProfile.
  rewrite (GetProfile_find userID w Hd) in Hp |- *. cbn [fst] in Hp.
  destruct (sqlx.uuid_in userID); [|discriminate Hp].
  destruct (find _ _) as [q|]; [|discriminate Hp]. injection Hp as ->.
  destruct w as [[us ps ts vs fs] rc cl lg]. cbn in Hd. subst fs.
  unfold on_db, sqlx.UpdateProfile, sqlx.statement. cbn.
  destruct (sqlx.uuid_in (pID p)); [reflexivity|]. cbn. discriminate.
Qed.

(** [UpdateProfile] is read back by [GetProfile], and it changes what a
    profile looks like, never what it is.  With the database answering,
    after an update that succeeded, with display fields within the
    widths of their columns, the stored profile of the user takes theme,
    colours, message, the two visibility flags and animation from the
    update and the time of the call; its id, its owner and its creation
    time stay, whatever the update names for them.  Profiles with
    another id and the other tables, Redis and the provider are
    untouched. *)
Theorem UpdateProfile_is_read_back now userID updates w p :
  sqlx.dbfail (db w) = [] ->
  fst (GetProfile userID w) = Ok p ->
  display_fits updates = true ->
  fst (UpdateProfile now userID updates w) = Ok tt ->
  let w1 := snd (UpdateProfile now userID updates w) in
  fst (GetProfile userID w1) = Ok (updated_profile p updates now)
  /\ (forall other q, fst (GetProfile other w) = Ok q -> pID q <> pID p ->
        fst (GetProfile other w1) = Ok q)
  /\ sqlx.users (db w1) = sqlx.users (db w)
  /\ sqlx.tracks (db w1) = sqlx.tracks (db w)
  /\ sqlx.profile_visits (db w1) = sqlx.profile_visits (db w)
  /\ redis w1 = redis w
  /\ spotifyClient w1 = spotifyClient w.
Proof.
  intros Hd Hp _ Hdone. cbv zeta.
  pose proof (UpdateProfile_ok_inv now userID updates w p Hd Hp Hdone) as Hid.
  rewrite (UpdateProfile_profiles now userID updates w p Hd Hp Hid). cbn [fst snd].
  set (f := fun r => if String.eqb (pID r) (pID p)
                     then sqlx.set_display (updated_profile p updates now) r else r).
  set (w1 := {| db := _; redis := redis w |}).
  assert (Hd1 : sqlx.dbfail (db w1) = []) by exact Hd.
  assert (Hkeep : forall id x, String.eqb (pUserID (f x)) id = String.eqb (pUserID x) id).
  { intros id x. unfold f. destruct (String.eqb (pID x) (pID p)); reflexivity. }
  split; [|split; [|repeat split]].
  - rewrite (GetProfile_find userID w Hd) in Hp. cbn [fst] in Hp.
    rewrite (GetProfile_find userID w1 Hd1). cbn [fst].
    destruct (sqlx.uuid_in userID); [|discriminate Hp].
    unfold w1. cbn [db sqlx.profiles sqlx.with_profiles].
    rewrite (find_map_same _ f _ (Hkeep userID)).
    destruct (find _ _) as [q|]; [|discriminate Hp]. injection Hp as ->.
    cbn. unfold f. rewrite String.eqb_refl. reflexivity.
  - intros other q Hq Hne.
    rewrite (GetProfile_find other w Hd) in Hq. cbn [fst] in Hq.
    rewrite (GetProfile_find other w1 Hd1). cbn [fst].
    destruct (sqlx.uuid_in other); [|discriminate Hq].
    unfold w1. cbn [db sqlx.profiles sqlx.with_profiles].
    rewrite (find_map_same _ f _ (Hkeep other)).
    destruct (find _ _) as [q'|]; [|discriminate Hq]. injection Hq as ->.
    cbn. unfold f. destruct (String.eqb_spec (pID q) (pID p)); [contradiction|reflexivity].
Qed.

Lemma UpdateProfile_is_read_back_witness :
  let w := world_of_U (3600 * Second) (Err "unused") (Ok snapshot_T1) in
  let w1 := snd (UpdateProfile (10 * Second) id_U updates_hiding w) in
  fst (GetProfile id_U w1) = Ok (updated_profile profile_U updates_hiding (10 * Second))
  /\ (forall other q, fst (GetProfile other w) = Ok q -> pID q <> pID profile_U ->
        fst (GetProfile other w1) = Ok q)
  /\ sqlx.users (db w1) = sqlx.users (db w)
  /\ sqlx.tracks (db w1) = sqlx.tracks (db w)
  /\ sqlx.profile_visits (db w1) = sqlx.profile_visits (db w)
  /\ redis w1 = redis w
  /\ spotifyClient w1 = spotifyClient w.
Proof.
  cbv zeta.
  apply (UpdateProfile_is_read_back (10 * Second) id_U updates_hiding
           (world_of_U (3600 * Second) (Err "unused") (Ok snapshot_T1)) profile_U);
    reflexivity.
Defined.

(** A failed [UpdateProfile] changes nothing: whenever the call returns
    an error, every table, Redis and the provider are as before.  When
    it is the profile that cannot be read, the error is the one of
    [GetProfile], passed on as it is. *)
Theorem UpdateProfile_failure_changes_nothing now userID updates w :
  let w1 := snd (UpdateProfile now userID updates w) in
  (is_ok (fst (UpdateProfile now userID updates w)) = false ->
   sqlx.users (db w1) = sqlx.users (db w)
   /\ sqlx.profiles (db w1) = sqlx.profiles (db w)
   /\ sqlx.tracks (db w1) = sqlx.tracks (db w)
   /\ sqlx.profile_visits (db w1) = sqlx.profile_visits (db w)
   /\ redis w1 = redis w
   /\ spotifyClient w1 = spotifyClient w)
  /\ (forall e, fst (GetProfile userID w) = Err e ->
      fst (UpdateProfile now userID updates w) = Err e).
Proof.
  cbv zeta. destruct w as [[us ps ts vs fs] rc cl lg].
  unfold UpdateProfile, GetProfile, on_db, sqlx.GetContext, sqlx.UpdateProfile,
    sqlx.statement.
  cbn. destruct (next_fault fs) as [[] fs1]; cbn; [repeat split; congruence|].
  destruct (sqlx.uuid_in userID); cbn; [|repeat split; congruence].
  destruct (find _ ps) as [p|]; cbn; [|repeat split; congruence].
  destruct (next_fault fs1) as [[] fs2]; cbn; [repeat split; congruence|].
  destruct (sqlx.uuid_in (pID p)); cbn; repeat split; congruence.
Qed.

(** ** Accounts *)

Lemma all_chars_app p s t :
  all_chars p (s +:+ t) = all_chars p s && all_chars p t.
Proof.
  induction s as [|a s IH]; simpl; [reflexivity|].
  rewrite IH, andb_assoc. reflexivity.
Qed.

Lemma all_chars_substring p n m s :
  all_chars p s = true -> all_chars p (substring n m s) = true.
Proof.
  revert n m. induction s as [|a s IH]; intros n m H.
  - destruct n, m; reflexivity.
  - simpl in H. apply andb_true_iff in H as [Ha Hs].
    destruct n as [|n]; simpl.
    + destruct m as [|m]; simpl; [reflexivity|].
      rewrite Ha. apply IH, Hs.
    + apply IH, Hs.
Qed.

Ltac by_cases_on_bounds :=
  repeat match goal with
         | H : context [(?x <=? ?y)%Z] |- _ => destruct (Z.leb_spec x y) in H
         | H : context [(?x =? ?y)%Z] |- _ => destruct (Z.eqb_spec x y) in H
         | |- context [(?x <=? ?y)%Z] => destruct (Z.leb_spec x y)
         | |- context [(?x =? ?y)%Z] => destruct (Z.eqb_spec x y)
         | |- context [(?x <? ?y)%Z] => destruct (Z.ltb_spec x y)
         end;
  simpl in *; try discriminate; try reflexivity; try lia.

Lemma in_form_url form s : in_form form s = true -> all_chars url_char s = true.
Proof.
  revert s. induction form as [|d form IH]; intros [|a s] H; simpl in H;
    try discriminate; [reflexivity|].
  apply andb_true_iff in H as [Ha Hs]. simpl. rewrite (IH _ Hs), andb_true_r.
  clear IH Hs. unfold url_char, lower_hex in *. cbv zeta in *.
  generalize dependent (byte a). intros b Ha.
  destruct d; by_cases_on_bounds.
Qed.

Lemma url_rune_char r :
  0 <= url_rune r ->
  url_rune r = r /\ EncodeRune r = str1 r /\ url_char (chr r) = true.
Proof.
  unfold url_rune.
  destruct (((0x61 <=? r) && (r <=? 0x7A)) || ((0x30 <=? r) && (r <=? 0x39))
            || (r =? 0x2D)) eqn:Hin; [intros _|lia].
  assert (Hr : 0 <= r < 0x80).
  { apply orb_true_iff in Hin as [Hin|Hin];
      [apply orb_true_iff in Hin as [Hin|Hin];
       apply andb_true_iff in Hin as [H1 H2]; apply Z.leb_le in H1, H2; lia
      |apply Z.eqb_eq in Hin; lia]. }
  split; [reflexivity|]. split.
  - unfold EncodeRune.
    replace ((0 <=? r) && (r <? 0x80)) with true; [reflexivity|].
    symmetry. apply andb_true_iff. split; [apply Z.leb_le|apply Z.ltb_lt]; lia.
  - unfold url_char. cbv zeta. rewrite byte_chr by lia. exact Hin.
Qed.

Lemma Map_url_rune_chars skip s :
  all_chars url_char (strings.Map_from url_rune skip s) = true.
Proof.
  revert skip. induction s as [|a s IH]; intros skip; [reflexivity|].
  cbn [strings.Map_from]. destruct skip as [|k]; [|apply IH].
  destruct (DecodeRuneInString (String a s)) as [c width].
  rewrite all_chars_app, IH, andb_true_r.
  destruct (Z.leb_spec 0 (url_rune c)) as [Hc|Hc]; [|reflexivity].
  destruct (url_rune_char c Hc) as (-> & -> & Hchar).
  simpl. rewrite Hchar. reflexivity.
Qed.

(** The profile URL that [generateProfileURL] makes out of a display
    name holds lower-case ASCII letters, digits and hyphens only,
    whatever bytes the display name holds and whether or not a suffix is
    added. *)
Theorem generateProfileURL_alphabet lower_table uuid displayName w :
  uuid_String uuid = true ->
  all_chars url_char (fst (generateProfileURL lower_table uuid displayName w)) = true.
Proof.
  intros Huuid. unfold generateProfileURL.
  destruct (on_db _ w) as [r w1].
  destruct (match r with Err _ => true | Ok count => 0 <? count end); cbn [fst].
  - rewrite !all_chars_app. unfold strings.Map.
    rewrite Map_url_rune_chars. cbn [all_chars andb].
    rewrite all_chars_substring; [reflexivity|].
    exact (in_form_url _ _ Huuid).
  - apply Map_url_rune_chars.
Qed.

Lemma generateProfileURL_alphabet_witness :
  all_chars url_char
    (fst (generateProfileURL (fun r => r) id_V1 "Una B." (world_of_U 0 (Err "unused") (Err "unused"))))
  = true.
Proof.
  apply (generateProfileURL_alphabet (fun r => r) id_V1 "Una B."
           (world_of_U 0 (Err "unused") (Err "unused"))).
  reflexivity.
Defined.

Lemma find_app_fresh {A} (p : A -> bool) (l : list A) (x : A) :
  find p l = None -> p x = true -> find p (l ++ [x])%list = Some x.
Proof.
  intros Hl Hx. induction l as [|y l IH]; simpl in *.
  - rewrite Hx. reflexivity.
  - destruct (p y); [discriminate|]. apply IH, Hl.
Qed.

Lemma existsb_false_find {A} (p q : A -> bool) (l : list A) :
  existsb q l = false -> (forall x, p x = true -> q x = true) -> find p l = None.
Proof.
  intros Hq Hpq. induction l as [|y l IH]; simpl in *; [reflexivity|].
  apply orb_false_iff in Hq as [Hy Hl].
  destruct (p y) eqn:Hp; [|apply IH, Hl].
  rewrite (Hpq y Hp) in Hy. discriminate.
Qed.

Lemma generateProfileURL_world lower_table uuid displayName w :
  sqlx.dbfail (db w) = [] ->
  snd (generateProfileURL lower_table uuid displayName w) = w.
Proof.
  intros Hd. destruct w as [[us ps ts vs fs] rc cl lg]. cbn in Hd. subst fs.
  unfold generateProfileURL, on_db, sqlx.CountProfileURL, sqlx.statement.
  cbn. destruct (0 <? _); reflexivity.
Qed.

Lemma no_profile_of_new_user (d : sqlx.DB) id :
  profiles_reference_users d = true ->
  existsb (fun u => String.eqb (ID u) id) (sqlx.users d) = false ->
  find (fun p => String.eqb (pUserID p) id) (sqlx.profiles d) = None.
Proof.
  unfold profiles_reference_users. intros Href Hnew.
  induction (sqlx.profiles d) as [|p ps IH]; simpl in *; [reflexivity|].
  apply andb_true_iff in Href as [Hp Hps].
  destruct (String.eqb_spec (pUserID p) id) as [E|_]; [|apply IH, Hps].
  rewrite E in Hp. congruence.
Qed.

Ltac db_reduce :=
  cbn [db sqlx.dbfail next_fault forallb sqlx.users sqlx.profiles sqlx.tracks
       sqlx.profile_visits redis spotifyClient logger ID SpotifyID Email ProfileURL
       pID pUserID sqlx.with_users sqlx.with_profiles andb fst snd].

Ltac db_reduce_in H :=
  cbn [db sqlx.dbfail next_fault forallb sqlx.users sqlx.profiles sqlx.tracks
       sqlx.profile_visits redis spotifyClient logger ID SpotifyID Email ProfileURL
       pID pUserID sqlx.with_users sqlx.with_profiles andb fst snd] in H.

(** The user a first login creates. *)
Lemma CreateOrUpdateUser_new lower_table now userUUID suffixUUID profileUUID
    spotifyID email displayName accessToken refreshToken expiresIn w user :
  sqlx.dbfail (db w) = [] ->
  find (fun u => String.eqb (SpotifyID u) spotifyID) (sqlx.users (db w)) = None ->
  fst (CreateOrUpdateUser lower_table now userUUID suffixUUID profileUUID spotifyID
         email displayName accessToken refreshToken expiresIn w) = Ok user ->
  user = {| ID := userUUID; SpotifyID := spotifyID; Email := email;
            DisplayName := displayName;
            ProfileURL := fst (generateProfileURL lower_table suffixUUID displayName w);
            SpotifyAccessToken := accessToken; SpotifyRefreshToken := refreshToken;
            TokenExpiresAt := Add now (int64 (expiresIn * Second));
            IsActive := true; IsSharingEnabled := true;
            CreatedAt := now; UpdatedAt := now |}
  /\ snd (CreateOrUpdateUser lower_table now userUUID suffixUUID profileUUID spotifyID
            email displayName accessToken refreshToken expiresIn w)
     = {| db := {| sqlx.users := (sqlx.users (db w) ++ [user])%list;
                   sqlx.profiles := (sqlx.profiles (db w)
                                     ++ [default_profile profileUUID userUUID now])%list;
                   sqlx.tracks := sqlx.tracks (db w);
                   sqlx.profile_visits := sqlx.profile_visits (db w);
                   sqlx.dbfail := [] |};
          redis := redis w; spotifyClient := spotifyClient w; logger := logger w |}
  /\ sqlx.uuid_in userUUID = true
  /\ existsb (fun r => String.eqb (ID r) userUUID
                       || String.eqb (SpotifyID r) spotifyID
                       || String.eqb (Email r) email
                       || String.eqb (ProfileURL r) (ProfileURL user))
       (sqlx.users (db w)) = false.
Proof.
  intros Hd Hnew.
  pose proof (generateProfileURL_world lower_table suffixUUID displayName w Hd) as Hw.
  destruct (CreateOrUpdateUser _ _ _ _ _ _ _ _ _ _ _ w) as [r w1] eqn:Hrun.
  cbn [fst snd]. intros ->.
  destruct w as [[us ps ts vs fs] rc cl lg]. cbn in Hd, Hnew. subst fs.
  unfold CreateOrUpdateUser in Hrun.
  unfold on_db at 1 in Hrun. unfold sqlx.GetContext, sqlx.statement in Hrun.
  db_reduce_in Hrun. rewrite Hnew in Hrun.
  destruct (generateProfileURL lower_table suffixUUID displayName _) as [url w0].
  cbn [fst snd] in Hw |- *. subst w0.
  unfold on_db, sqlx.InsertUser, sqlx.InsertProfile, sqlx.statement in Hrun.
  db_reduce_in Hrun.
  destruct (sqlx.uuid_in userUUID); db_reduce_in Hrun; [|discriminate].
  destruct (existsb _ us) eqn:Hdup; db_reduce_in Hrun; [discriminate|].
  destruct (sqlx.uuid_in profileUUID); db_reduce_in Hrun; [|discriminate].
  destruct (existsb _ ps); db_reduce_in Hrun; [discriminate|].
  destruct (existsb _ (us ++ _)); db_reduce_in Hrun; [|discriminate].
  injection Hrun as <- <-. db_reduce.
  repeat split. exact Hdup.
Qed.

(** A first login creates a complete account.  When the Spotify id is
    not stored yet and [CreateOrUpdateUser] succeeds, the user returned
    has the generated id, the profile URL of [generateProfileURL], is
    active and shares; user and default profile are appended to their
    tables, and from then on the user is found by id and by profile
    URL, with the default profile: theme [default], stats and history
    shown. *)
Theorem CreateOrUpdateUser_first_login lower_table now userUUID suffixUUID
    profileUUID spotifyID email displayName accessToken refreshToken expiresIn w user :
  sqlx.dbfail (db w) = [] ->
  profiles_reference_users (db w) = true ->
  find (fun u => String.eqb (SpotifyID u) spotifyID) (sqlx.users (db w)) = None ->
  fst (CreateOrUpdateUser lower_table now userUUID suffixUUID profileUUID spotifyID
         email displayName accessToken refreshToken expiresIn w) = Ok user ->
  let w1 := snd (CreateOrUpdateUser lower_table now userUUID suffixUUID profileUUID
                   spotifyID email displayName accessToken refreshToken expiresIn w) in
  user = {| ID := userUUID; SpotifyID := spotifyID; Email := email;
            DisplayName := displayName;
            ProfileURL := fst (generateProfileURL lower_table suffixUUID displayName w);
            SpotifyAccessToken := accessToken; SpotifyRefreshToken := refreshToken;
            TokenExpiresAt := Add now (int64 (expiresIn * Second));
            IsActive := true; IsSharingEnabled := true;
            CreatedAt := now; UpdatedAt := now |}
  /\ sqlx.users (db w1) = (sqlx.users (db w) ++ [user])%list
  /\ sqlx.profiles (db w1)
     = (sqlx.profiles (db w) ++ [default_profile profileUUID userUUID now])%list
  /\ fst (GetUserByID userUUID w1) = Ok user
  /\ fst (GetUserByProfileURL (ProfileURL user) w1) = Ok user
  /\ fst (GetProfile userUUID w1) = Ok (default_profile profileUUID userUUID now).
Proof.
  intros Hd Href Hnew Hok. cbv zeta.
  destruct (CreateOrUpdateUser_new _ _ _ _ _ _ _ _ _ _ _ _ _ Hd Hnew Hok)
    as (Huser & -> & Huuid & Hdup).
  split; [exact Huser|]. split; [reflexivity|]. split; [reflexivity|].
  assert (Hid : ID user = userUUID) by (rewrite Huser; reflexivity).
  assert (Hfresh : existsb (fun u => String.eqb (ID u) userUUID) (sqlx.users (db w))
                   = false).
  { destruct (existsb (fun u => String.eqb (ID u) userUUID) _) eqn:E; [|reflexivity].
    apply existsb_exists in E as (x & Hx & Hxid).
    assert (existsb (fun r => String.eqb (ID r) userUUID
                              || String.eqb (SpotifyID r) spotifyID
                              || String.eqb (Email r) email
                              || String.eqb (ProfileURL r) (ProfileURL user))
              (sqlx.users (db w)) = true) as Habs.
    { apply existsb_exists. exists x. split; [exact Hx|]. rewrite Hxid. reflexivity. }
    congruence. }
  split; [|split].
  - apply GetUserByID_finds; [reflexivity | exact Huuid |].
    cbn [db sqlx.users]. apply find_app_fresh.
    + apply (existsb_false_find _ _ _ Hdup). intros x ->. reflexivity.
    + rewrite Hid. apply String.eqb_refl.
  - unfold GetUserByProfileURL, on_db, sqlx.GetContext, sqlx.statement. cbn.
    rewrite (find_app_fresh _ _ user).
    + reflexivity.
    + apply (existsb_false_find _ _ _ Hdup). intros x ->.
      rewrite !orb_true_r. reflexivity.
    + apply String.eqb_refl.
  - unfold GetProfile, on_db, sqlx.GetContext, sqlx.statement. cbn.
    rewrite Huuid. cbn.
    rewrite (find_app_fresh _ _ (default_profile profileUUID userUUID now)).
    + reflexivity.
    + apply no_profile_of_new_user; assumption.
    + cbn. apply String.eqb_refl.
Qed.

Lemma CreateOrUpdateUser_first_login_witness :
  let w := world_of_U 0 (Err "unused") (Err "unused") in
  let run := CreateOrUpdateUser (fun r => r) 5 id_V1 id_r1 id_r2 "spotify-v"
               "v@example.org" "Vera V." "access-1" "refresh-1" 3600 w in
  let user :=
    {| ID := id_V1; SpotifyID := "spotify-v"; Email := "v@example.org";
       DisplayName := "Vera V."; ProfileURL := "vera-v";
       SpotifyAccessToken := "access-1"; SpotifyRefreshToken := "refresh-1";
       TokenExpiresAt := 5 + 3600 * Second; IsActive := true;
       IsSharingEnabled := true; CreatedAt := 5; UpdatedAt := 5 |} in
  fst run = Ok user
  /\ fst (GetUserByProfileURL "vera-v" (snd run)) = Ok user
  /\ fst (GetProfile id_V1 (snd run)) = Ok (default_profile id_r2 id_V1 5).
Proof.
  cbv zeta.
  assert (Hrun : fst (CreateOrUpdateUser (fun r => r) 5 id_V1 id_r1 id_r2 "spotify-v"
                        "v@example.org" "Vera V." "access-1" "refresh-1" 3600
                        (world_of_U 0 (Err "unused") (Err "unused")))
                 = Ok {| ID := id_V1; SpotifyID := "spotify-v"; Email := "v@example.org";
                         DisplayName := "Vera V."; ProfileURL := "vera-v";
                         SpotifyAccessToken := "access-1";
                         SpotifyRefreshToken := "refresh-1";
                         TokenExpiresAt := 5 + 3600 * Second; IsActive := true;
                         IsSharingEnabled := true; CreatedAt := 5; UpdatedAt := 5 |})
    by (vm_compute; reflexivity).
  destruct (CreateOrUpdateUser_first_login (fun r => r) 5 id_V1 id_r1 id_r2 "spotify-v"
              "v@example.org" "Vera V." "access-1" "refresh-1" 3600
              (world_of_U 0 (Err "unused") (Err "unused")) _
              eq_refl eq_refl eq_refl Hrun)
    as (_ & _ & _ & _ & Hurl & Hprofile).
  split; [exact Hrun|]. split; [exact Hurl | exact Hprofile].
Defined.

Lemma GetUserByID_value id w :
  sqlx.dbfail (db w) = [] ->
  fst (GetUserByID id w)
  = if sqlx.uuid_in id
    then match find (fun u => String.eqb (ID u) id) (sqlx.users (db w)) with
         | Some u => Ok u
         | None => Err (wrap "failed to get user" sqlx.ErrNoRows)
         end
    else Err (wrap "failed to get user" sqlx.ErrInvalidUUID).
Proof.
  intros Hd. rewrite <- (GetUserByID_on_users id w (sqlx.users (db w)) Hd).
  destruct w as [[us ps ts vs fs] rc cl lg]. reflexivity.
Qed.

Lemma CreateOrUpdateUser_known lower_table now userUUID suffixUUID profileUUID
    spotifyID email displayName accessToken refreshToken expiresIn w old :
  sqlx.dbfail (db w) = [] ->
  find (fun u => String.eqb (SpotifyID u) spotifyID) (sqlx.users (db w)) = Some old ->
  sqlx.uuid_in (ID old) = true ->
  CreateOrUpdateUser lower_table now userUUID suffixUUID profileUUID spotifyID
    email displayName accessToken refreshToken expiresIn w
  = (Ok (logged_in old accessToken refreshToken expiresIn now),
     {| db := sqlx.with_users (db w)
                (map (fun r => if String.eqb (ID r) (ID old)
                               then sqlx.set_tokens
                                      (logged_in old accessToken refreshToken expiresIn now) r
                               else r)
                     (sqlx.users (db w)));
        redis := redis w; spotifyClient := spotifyClient w; logger := logger w |}).
Proof.
  intros Hd Hold Hid.
  destruct w as [[us ps ts vs fs] rc cl lg]. cbn in Hd, Hold. subst fs.
  unfold CreateOrUpdateUser, on_db, sqlx.GetContext, sqlx.UpdateTokens, sqlx.statement.
  db_reduce. rewrite Hold. db_reduce. rewrite Hid. reflexivity.
Qed.

(** A later login of a known Spotify account, when it succeeds, only
    renews the tokens.  The stored user keeps id, profile URL, display
    name, e-mail address and both flags, whatever names the login
    carries; access token, refresh token and expiry are replaced; no
    user and no profile is added, and the user of every other id in the
    form of [uuid.UUID.String()] is read as before. *)
Theorem CreateOrUpdateUser_later_login lower_table now userUUID suffixUUID
    profileUUID spotifyID email displayName accessToken refreshToken expiresIn w old :
  sqlx.dbfail (db w) = [] ->
  find (fun u => String.eqb (SpotifyID u) spotifyID) (sqlx.users (db w)) = Some old ->
  fst (GetUserByID (ID old) w) = Ok old ->
  uuid_String (ID old) = true ->
  is_ok (fst (CreateOrUpdateUser lower_table now userUUID suffixUUID profileUUID
                spotifyID email displayName accessToken refreshToken expiresIn w))
  = true ->
  let run := CreateOrUpdateUser lower_table now userUUID suffixUUID profileUUID
               spotifyID email displayName accessToken refreshToken expiresIn w in
  fst run = Ok (logged_in old accessToken refreshToken expiresIn now)
  /\ fst (GetUserByID (ID old) (snd run))
     = Ok (logged_in old accessToken refreshToken expiresIn now)
  /\ (forall other, uuid_String other = true -> other <> ID old ->
        fst (GetUserByID other (snd run)) = fst (GetUserByID other w))
  /\ length (sqlx.users (db (snd run))) = length (sqlx.users (db w))
  /\ sqlx.profiles (db (snd run)) = sqlx.profiles (db w).
Proof.
  intros Hd Hold Hrow _ _. cbv zeta.
  destruct (GetUserByID_finds_inv _ _ _ Hd Hrow) as [Hid Hfind].
  rewrite (CreateOrUpdateUser_known lower_table now userUUID suffixUUID profileUUID
             spotifyID email displayName accessToken refreshToken expiresIn w old
             Hd Hold Hid).
  cbn [fst snd].
  set (f := fun r => if String.eqb (ID r) (ID old)
                     then sqlx.set_tokens
                            (logged_in old accessToken refreshToken expiresIn now) r
                     else r).
  assert (Hkeep : forall id x, String.eqb (ID (f x)) id = String.eqb (ID x) id).
  { intros id x. unfold f. destruct (String.eqb (ID x) (ID old)); reflexivity. }
  split; [reflexivity|]. split; [|split; [|split]].
  - rewrite (GetUserByID_on_users (ID old) w _ Hd), Hid.
    rewrite (find_map_same _ f _ (Hkeep (ID old))), Hfind. cbn.
    unfold f. rewrite String.eqb_refl. reflexivity.
  - intros other _ Hother.
    rewrite (GetUserByID_on_users other w _ Hd), (GetUserByID_value other w Hd).
    destruct (sqlx.uuid_in other); [|reflexivity].
    rewrite (find_map_same _ f _ (Hkeep other)).
    destruct (find (fun x => String.eqb (ID x) other) _) as [u|] eqn:Hu;
      [|reflexivity].
    cbn.
    apply find_some in Hu as [_ Hu]. apply String.eqb_eq in Hu. subst other.
    unfold f. destruct (String.eqb_spec (ID u) (ID old)); [contradiction|reflexivity].
  - cbn. apply length_map.
  - reflexivity.
Qed.

Lemma CreateOrUpdateUser_later_login_witness :
  let w := world_of_U 0 (Err "unused") (Err "unused") in
  let run := CreateOrUpdateUser (fun r => r) 5 id_V1 id_r1 id_r2 "spotify-u"
               "new@example.org" "New Name" "access-1" "refresh-1" 3600 w in
  fst run = Ok (logged_in (user_U 0) "access-1" "refresh-1" 3600 5)
  /\ fst (GetUserByID id_U (snd run))
     = Ok (logged_in (user_U 0) "access-1" "refresh-1" 3600 5)
  /\ (forall other, uuid_String other = true -> other <> id_U ->
        fst (GetUserByID other (snd run)) = fst (GetUserByID other w))
  /\ length (sqlx.users (db (snd run))) = length (sqlx.users (db w))
  /\ sqlx.profiles (db (snd run)) = sqlx.profiles (db w).
Proof.
  cbv zeta.
  apply (CreateOrUpdateUser_later_login (fun r => r) 5 id_V1 id_r1 id_r2 "spotify-u"
           "new@example.org" "New Name" "access-1" "refresh-1" 3600
           (world_of_U 0 (Err "unused") (Err "unused")) (user_U 0));
    reflexivity.
Defined.

Lemma generateProfileURL_tables lower_table uuid displayName us ps ts vs fs rc cl lg :
  exists fs',
    snd (generateProfileURL lower_table uuid displayName
           {| db := {| sqlx.users := us; sqlx.profiles := ps; sqlx.tracks := ts;
                       sqlx.profile_visits := vs; sqlx.dbfail := fs |};
              redis := rc; spotifyClient := cl; logger := lg |})
    = {| db := {| sqlx.users := us; sqlx.profiles := ps; sqlx.tracks := ts;
                  sqlx.profile_visits := vs; sqlx.dbfail := fs' |};
         redis := rc; spotifyClient := cl; logger := lg |}.
Proof.
  unfold generateProfileURL, on_db, sqlx.CountProfileURL, sqlx.statement. db_reduce.
  destruct (next_fault fs) as [[] fs']; db_reduce; exists fs'; [reflexivity|].
  destruct (0 <? _); reflexivity.
Qed.

(** Account creation is not atomic.  When [CreateOrUpdateUser] fails
    with [failed to create profile], the user row of the new account is
    stored all the same and no profile is; and no later login repairs
    it: with the tables in that state every login of that Spotify
    account succeeds by renewing the tokens, and adds no profile. *)
Theorem CreateOrUpdateUser_is_not_atomic lower_table now userUUID suffixUUID
    profileUUID spotifyID email displayName accessToken refreshToken expiresIn w e :
  fst (CreateOrUpdateUser lower_table now userUUID suffixUUID profileUUID spotifyID
         email displayName accessToken refreshToken expiresIn w)
  = Err (wrap "failed to create profile" e) ->
  let w1 := snd (CreateOrUpdateUser lower_table now userUUID suffixUUID profileUUID
                   spotifyID email displayName accessToken refreshToken expiresIn w) in
  exists user,
    ID user = userUUID /\ SpotifyID user = spotifyID
    /\ sqlx.users (db w1) = (sqlx.users (db w) ++ [user])%list
    /\ sqlx.profiles (db w1) = sqlx.profiles (db w)
    /\ forall lower_table' later userUUID' suffixUUID' profileUUID' email' displayName'
              accessToken' refreshToken' expiresIn' w2,
         sqlx.users (db w2) = sqlx.users (db w1) ->
         sqlx.dbfail (db w2) = [] ->
         let again := CreateOrUpdateUser lower_table' later userUUID' suffixUUID'
                        profileUUID' spotifyID email' displayName' accessToken'
                        refreshToken' expiresIn' w2 in
         fst again = Ok (logged_in user accessToken' refreshToken' expiresIn' later)
         /\ sqlx.profiles (db (snd again)) = sqlx.profiles (db w2).
Proof.
  cbv zeta.
  destruct (CreateOrUpdateUser _ _ _ _ _ _ _ _ _ _ _ w) as [r w1] eqn:Hrun.
  cbn [fst snd]. intros ->.
  destruct w as [[us ps ts vs fs] rc cl lg].
  unfold CreateOrUpdateUser in Hrun.
  unfold on_db at 1 in Hrun. unfold sqlx.GetContext, sqlx.statement in Hrun.
  db_reduce_in Hrun.
  assert (Hcreate :
            forall fs0,
              (let '(profileURL, w) :=
                 generateProfileURL lower_table suffixUUID displayName
                   {| db := {| sqlx.users := us; sqlx.profiles := ps; sqlx.tracks := ts;
                               sqlx.profile_visits := vs; sqlx.dbfail := fs0 |};
                      redis := rc; spotifyClient := cl; logger := lg |} in
               let newUser :=
                 {| ID := userUUID; SpotifyID := spotifyID; Email := email;
                    DisplayName := displayName; ProfileURL := profileURL;
                    SpotifyAccessToken := accessToken;
                    SpotifyRefreshToken := refreshToken;
                    TokenExpiresAt := Add now (int64 (expiresIn * Second));
                    IsActive := true; IsSharingEnabled := true;
                    CreatedAt := now; UpdatedAt := now |} in
               let '(r, w) := on_db (sqlx.InsertUser newUser) w in
               match r with
               | Err e => (Err (wrap "failed to create user" e), w)
               | Ok _ =>
                 let profile :=
                   {| pID := profileUUID; pUserID := ID newUser; Theme := "default";
                      BackgroundColor := "#121212"; TextColor := "#FFFFFF";
                      CustomMessage := EmptyString; ShowStats := true;
                      ShowHistory := true; AnimationStyle := "fade";
                      pCreatedAt := now; pUpdatedAt := now |} in
                 let '(r, w) := on_db (sqlx.InsertProfile profile) w in
                 match r with
                 | Err e => (Err (wrap "failed to create profile" e), w)
                 | Ok _ => (Ok newUser, w)
                 end
               end) = (Err (wrap "failed to create profile" e), w1) ->
              exists user,
                ID user = userUUID /\ SpotifyID user = spotifyID
                /\ sqlx.users (db w1) = (us ++ [user])%list
                /\ sqlx.profiles (db w1) = ps
                /\ sqlx.uuid_in userUUID = true
                /\ find (fun u => String.eqb (SpotifyID u) spotifyID) us = None).
  { intros fs0 H.
    destruct (generateProfileURL_tables lower_table suffixUUID displayName
                us ps ts vs fs0 rc cl lg) as [fs1 Hw0].
    destruct (generateProfileURL _ _ _ _) as [url w0]. cbn [snd] in Hw0. subst w0.
    unfold on_db, sqlx.InsertUser, sqlx.InsertProfile, sqlx.statement in H.
    db_reduce_in H.
    destruct (next_fault fs1) as [[] fs2]; db_reduce_in H; [discriminate H|].
    destruct (sqlx.uuid_in userUUID); db_reduce_in H; [|discriminate H].
    destruct (existsb _ us) eqn:Hdup; db_reduce_in H; [discriminate H|].
    eexists. split; [|split; [|split; [|split; [|split]]]];
      [| | | |reflexivity
       |apply (existsb_false_find _ _ _ Hdup); intros x ->;
        rewrite orb_true_r; reflexivity].
    3: { destruct (next_fault fs2) as [[] fs3]; db_reduce_in H.
         - injection H as _ <-. reflexivity.
         - destruct (sqlx.uuid_in profileUUID); db_reduce_in H.
           + destruct (existsb _ ps); db_reduce_in H.
             * injection H as _ <-. reflexivity.
             * destruct (existsb _ (us ++ _)); db_reduce_in H; [discriminate H|].
               injection H as _ <-. reflexivity.
           + injection H as _ <-. reflexivity. }
    3: { destruct (next_fault fs2) as [[] fs3]; db_reduce_in H.
         - injection H as _ <-. reflexivity.
         - destruct (sqlx.uuid_in profileUUID); db_reduce_in H.
           + destruct (existsb _ ps); db_reduce_in H.
             * injection H as _ <-. reflexivity.
             * destruct (existsb _ (us ++ _)); db_reduce_in H; [discriminate H|].
               injection H as _ <-. reflexivity.
           + injection H as _ <-. reflexivity. }
    all: reflexivity. }
  assert (Hnew : exists user,
             ID user = userUUID /\ SpotifyID user = spotifyID
             /\ sqlx.users (db w1) = (us ++ [user])%list
             /\ sqlx.profiles (db w1) = ps
             /\ sqlx.uuid_in userUUID = true
             /\ find (fun u => String.eqb (SpotifyID u) spotifyID) us = None).
  { destruct (next_fault fs) as [[] fs0]; db_reduce_in Hrun.
    - exact (Hcreate _ Hrun).
    - destruct (find _ us) as [old|] eqn:Hold; db_reduce_in Hrun.
      + unfold on_db, sqlx.UpdateTokens, sqlx.statement in Hrun. db_reduce_in Hrun.
        destruct (next_fault fs0) as [[] fs1]; db_reduce_in Hrun;
          [discriminate Hrun|].
        destruct (sqlx.uuid_in (ID old)); db_reduce_in Hrun; discriminate Hrun.
      + exact (Hcreate _ Hrun). }
  destruct Hnew as (user & Hid & Hsid & Husers & Hprofiles & Huuid & Hfresh).
  exists user. db_reduce.
  split; [exact Hid|]. split; [exact Hsid|]. split; [exact Husers|].
  split; [exact Hprofiles|].
  intros lower_table' later userUUID' suffixUUID' profileUUID' email' displayName'
    accessToken' refreshToken' expiresIn' w2 Husers2 Hd2.
  rewrite (CreateOrUpdateUser_known lower_table' later userUUID' suffixUUID'
             profileUUID' spotifyID email' displayName' accessToken' refreshToken'
             expiresIn' w2 user Hd2).
  - split; reflexivity.
  - rewrite Husers2, Husers. apply find_app_fresh; [exact Hfresh|].
    rewrite Hsid. apply String.eqb_refl.
  - rewrite Hid. exact Huuid.
Qed.

Lemma CreateOrUpdateUser_is_not_atomic_witness :
  let w := world_of_U_db_failing [false; false; false; true] in
  let w1 := snd (CreateOrUpdateUser (fun r => r) 5 id_V1 id_r1 id_r2 "spotify-v"
                   "v@example.org" "Vera V." "access-1" "refresh-1" 3600 w) in
  exists user,
    ID user = id_V1 /\ SpotifyID user = "spotify-v"
    /\ sqlx.users (db w1) = (sqlx.users (db w) ++ [user])%list
    /\ sqlx.profiles (db w1) = sqlx.profiles (db w)
    /\ forall lower_table' later userUUID' suffixUUID' profileUUID' email' displayName'
              accessToken' refreshToken' expiresIn' w2,
         sqlx.users (db w2) = sqlx.users (db w1) ->
         sqlx.dbfail (db w2) = [] ->
         let again := CreateOrUpdateUser lower_table' later userUUID' suffixUUID'
                        profileUUID' "spotify-v" email' displayName' accessToken'
                        refreshToken' expiresIn' w2 in
         fst again = Ok (logged_in user accessToken' refreshToken' expiresIn' later)
         /\ sqlx.profiles (db (snd again)) = sqlx.profiles (db w2).
Proof.
  cbv zeta.
  apply (CreateOrUpdateUser_is_not_atomic (fun r => r) 5 id_V1 id_r1 id_r2 "spotify-v"
           "v@example.org" "Vera V." "access-1" "refresh-1" 3600
           (world_of_U_db_failing [false; false; false; true]) sqlx.ErrServer).
  vm_compute. reflexivity.
Defined.

(** ** The provider's answer *)

(** What [GetCurrentlyPlayingTrack] makes of an answer of the client.
    It panics exactly when the answer holds an [item] object without an
    [external_urls] object, and returns a snapshot exactly when there is
    no answer body (nothing playing: the zero snapshot) or the item has
    an [external_urls] and an [album] object; every other field may be
    missing or of another type.  An answer without an [item] object is
    an error, whatever [is_playing] says; and a snapshot is playing only
    when the answer says [is_playing: true]. *)
Theorem GetCurrentlyPlayingTrack_outcomes {float64} (int_of_float64 : float64 -> Z)
    (answer : result (option (gmap string (any float64)))) :
  let out := GetCurrentlyPlayingTrack_of int_of_float64 answer in
  ((exists reason, out = Panics reason)
   <-> exists m, answer = Ok (Some m) /\ lacks_external_urls m = true)
  /\ ((exists track, out = Returns (Ok track))
      <-> answer = Ok None \/ exists m, answer = Ok (Some m) /\ readable m = true)
  /\ (answer = Ok None -> out = Returns (Ok zeroSpotifyCurrentlyPlaying))
  /\ (forall m, answer = Ok (Some m) -> to_map (m !! "item") = None ->
        out = Returns (Err "invalid response format"))
  /\ (forall track, out = Returns (Ok track) -> IsPlaying track = true ->
        exists m, answer = Ok (Some m) /\ m !! "is_playing" = Some (AnyBool true)).
Proof.
  cbv zeta. unfold GetCurrentlyPlayingTrack_of, lacks_external_urls, readable.
  destruct answer as [[m|]|err].
  - destruct (to_map (m !! "item")) as [item|] eqn:Hitem.
    + destruct (to_map (item !! "external_urls")) as [urls|] eqn:Hurls.
      * destruct (to_map (item !! "album")) as [album|] eqn:Halbum.
        -- split; [|split; [|split; [|split]]].
           ++ split; [intros [? H]; discriminate H|].
              intros (m' & H & Hm). injection H as <-.
              rewrite Hitem, Hurls in Hm. discriminate Hm.
           ++ split; [intros _; right; exists m; split; [reflexivity|]|
                      intros _; eexists; reflexivity].
              rewrite Hitem, Hurls, Halbum. reflexivity.
           ++ discriminate.
           ++ intros m' H. injection H as <-. rewrite Hitem. discriminate.
           ++ intros track H Hplaying. injection H as <-. cbn in Hplaying.
              exists m. split; [reflexivity|].
              destruct (m !! "is_playing") as [[|[]| | | |]|]; try discriminate.
              reflexivity.
        -- split; [|split; [|split; [|split]]].
           ++ split; [intros [? H]; discriminate H|].
              intros (m' & H & Hm). injection H as <-.
              rewrite Hitem, Hurls in Hm. discriminate Hm.
           ++ split; [intros [? H]; discriminate H|].
              intros [H|(m' & H & Hm)]; [discriminate H|]. injection H as <-.
              rewrite Hitem, Hurls, Halbum in Hm. discriminate Hm.
           ++ discriminate.
           ++ intros m' H. injection H as <-. rewrite Hitem. discriminate.
           ++ discriminate.
      * split; [|split; [|split; [|split]]].
        -- split; [intros _; exists m; split; [reflexivity|]|
                   intros _; eexists; reflexivity].
           rewrite Hitem, Hurls. reflexivity.
        -- split; [intros [? H]; discriminate H|].
           intros [H|(m' & H & Hm)]; [discriminate H|]. injection H as <-.
           rewrite Hitem, Hurls in Hm. discriminate Hm.
        -- discriminate.
        -- intros m' H. injection H as <-. rewrite Hitem. discriminate.
        -- discriminate.
    + split; [|split; [|split; [|split]]].
      * split; [intros [? H]; discriminate H|].
        intros (m' & H & Hm). injection H as <-. rewrite Hitem in Hm. discriminate Hm.
      * split; [intros [? H]; discriminate H|].
        intros [H|(m' & H & Hm)]; [discriminate H|]. injection H as <-.
        rewrite Hitem in Hm. discriminate Hm.
      * discriminate.
      * reflexivity.
      * discriminate.
  - split; [|split; [|split; [|split]]].
    + split; [intros [? H]; discriminate H | intros (m' & H & _); discriminate H].
    + split; [intros _; left; reflexivity | intros _; eexists; reflexivity].
    + reflexivity.
    + discriminate.
    + intros track H Hplaying. injection H as <-. discriminate Hplaying.
  - split; [|split; [|split; [|split]]].
    + split; [intros [? H]; discriminate H | intros (m' & H & _); discriminate H].
    + split; [intros [? H]; discriminate H|].
      intros [H|(m' & H & _)]; discriminate H.
    + discriminate.
    + discriminate.
    + discriminate.
Qed.

(** The answer for a track with three covers and two artists: the second
    cover and the first artist are kept. *)
Example GetCurrentlyPlayingTrack_reads_T1 :
  GetCurrentlyPlayingTrack_of (fun f => f) (Ok (Some answer_T1))
  = Returns (Ok {| IsPlaying := true; TrackID := "T1"; TrackName := "Song";
                   ArtistName := "A"; AlbumName := "Album"; AlbumArtURL := "medium";
                   TrackURL := "url"; DurationMs := 200000; ProgressMs := 1000 |}).
Proof. vm_compute. reflexivity. Qed.

(** An item without album is an error although it is playing. *)
Example GetCurrentlyPlayingTrack_rejects_item_without_album :
  GetCurrentlyPlayingTrack_of (fun f => f) (Ok (Some answer_without_album))
  = Returns (Err "invalid album format").
Proof. vm_compute. reflexivity. Qed.

(** ** Configuration *)

Lemma append_empty s : s +:+ EmptyString = s.
Proof. induction s as [|a s IH]; simpl; [reflexivity|]. rewrite IH. reflexivity. Qed.

Lemma all_digits_digits d :
  d <> Decimal.Nil -> strconv.all_digits (digits d) = Some d.
Proof.
  intros Hd. unfold strconv.all_digits.
  rewrite <- (append_empty (digits d)).
  rewrite (scan_digits_digits d EmptyString); [|exact I].
  destruct d; congruence.
Qed.

Lemma digits_head d :
  d <> Decimal.Nil ->
  exists a t, digits d = String a t /\ 0x30 <= byte a <= 0x39.
Proof.
  intros Hd. destruct d; [congruence|..];
    (eexists _, _; split; [reflexivity|]; vm_compute; split; discriminate).
Qed.

Lemma Atoi_digits (neg : bool) d :
  d <> Decimal.Nil ->
  int_range (Z.of_int (if neg then Decimal.Neg d else Decimal.Pos d)) = true ->
  strconv.Atoi ((if neg then "-" else EmptyString) +:+ digits d)
  = Ok (Z.of_int (if neg then Decimal.Neg d else Decimal.Pos d)).
Proof.
  intros Hd Hr. unfold strconv.Atoi. destruct neg.
  - change ("-" +:+ digits d) with (String "-" (digits d)). cbv iota.
    change (byte "-" =? 0x2D) with true. cbv iota.
    rewrite (all_digits_digits d Hd). cbv zeta. rewrite Hr. reflexivity.
  - change (EmptyString +:+ digits d) with (digits d).
    destruct (digits_head d Hd) as (a & t & Ht & Ha).
    rewrite Ht.
    destruct (Z.eqb_spec (byte a) 0x2D); [lia|].
    destruct (Z.eqb_spec (byte a) 0x2B); [lia|].
    rewrite <- Ht, (all_digits_digits d Hd). cbv zeta. rewrite Hr. reflexivity.
Qed.

Lemma Atoi_itoa z : int_range z = true -> strconv.Atoi (itoa z) = Ok z.
Proof.
  intros Hr. unfold itoa.
  pose proof (DecimalZ.of_to z) as Hz.
  destruct z as [|p|p]; simpl Z.to_int in *.
  - reflexivity.
  - pose proof (Atoi_digits false (Pos.to_uint p) (Unsigned.to_uint_nonnil p)) as H.
    cbv iota in H. rewrite Hz in H. exact (H Hr).
  - pose proof (Atoi_digits true (Pos.to_uint p) (Unsigned.to_uint_nonnil p)) as H.
    cbv iota in H. rewrite Hz in H. exact (H Hr).
Qed.

(** An integer setting is what its variable holds when that is a decimal
    integer in the range of [int], and the default in every other case:
    a value written by [strconv.Itoa] is read back, the default is used
    when the variable is unset or empty, and a result other than the
    default is always the value of the variable.  A string setting
    differs: a variable set to the empty string gives the empty string,
    not the default.  [Load] never fails and checks no value: any
    integer in range, negative ones too, becomes the port of the server. *)
Theorem getEnvAsInt_reads_decimal_or_defaults (env : gmap string string) key
    defaultValue :
  (forall z, int_range z = true ->
     config.getEnvAsInt (<[key := itoa z]> env) key defaultValue = z)
  /\ (env !! key = None -> config.getEnvAsInt env key defaultValue = defaultValue)
  /\ config.getEnvAsInt (<[key := EmptyString]> env) key defaultValue = defaultValue
  /\ (forall fallback, config.getEnv (<[key := EmptyString]> env) key fallback
                       = EmptyString)
  /\ (config.getEnvAsInt env key defaultValue <> defaultValue ->
      exists v, env !! key = Some v
                /\ strconv.Atoi v = Ok (config.getEnvAsInt env key defaultValue))
  /\ (forall z, int_range z = true ->
      exists cfg, config.Load (<["SERVER_PORT" := itoa z]> env) = Ok cfg
                  /\ config.Port (config.Server cfg) = z).
Proof.
  unfold config.getEnvAsInt, config.getEnv, config.Environ.
  split; [|split; [|split; [|split; [|split]]]].
  - intros z Hz. rewrite lookup_insert_eq, (Atoi_itoa z Hz). reflexivity.
  - intros ->. reflexivity.
  - rewrite lookup_insert_eq. reflexivity.
  - intros fallback. rewrite lookup_insert_eq. reflexivity.
  - destruct (env !! key) as [v|]; [|intros H; exfalso; apply H; reflexivity].
    destruct (strconv.Atoi v) as [value|e] eqn:Hv;
      [|intros H; exfalso; apply H; reflexivity].
    intros _. exists v. split; [reflexivity | exact Hv].
  - intros z Hz. eexists. split; [reflexivity|].
    cbn [config.Server config.Port].
    unfold config.getEnvAsInt, config.getEnv, config.Environ.
    rewrite lookup_insert_eq, (Atoi_itoa z Hz). reflexivity.
Qed.
